(** * organize-guitar-tabs-format: a shallow embedding and its properties

    The embedded program is [src/organization/organize-guitar-tabs-format.py]:
    [detect_key], [parse_section_header], [normalize_content], [clean_lines],
    [starts_with_lines], [extract_repeated_block], [rebuild_formatted_tab]
    and [main].

    Text.  A Python [str] is a list of characters, a character being a code
    point below 256 (Rocq's [ascii]).  The character classes behind
    [str.strip], [str.isdigit] and the patterns' white space, word and digit
    classes are the ones CPython has on that range.  Case mapping ([lower],
    [title]) is modelled on the ASCII letters: the program applies it to
    section labels only, which its header patterns restrict to ASCII letters,
    digits, space, hyphen, apostrophe and slash.

    Patterns.  The five regular expressions of the program are terms of
    [regex], run by a backtracking matcher [mtch] that tries alternatives from
    left to right, greedy repetition longest first and lazy repetition
    shortest first, as Python's [re] does.

    Failure.  Python operations that can raise are modelled in an error
    monad: [int] on a decimal string (CPython 3.11 and later, and the
    security releases of 3.7 to 3.10, refuse a string of more than 4300
    digits with [ValueError]: sys.int_info.default_max_str_digits) and
    subscripting a dictionary ([KeyError]).

    Dictionaries are association lists in insertion order, which is the order
    in which Python iterates over them.

    The file has two parts: the program and the vocabulary of its
    properties, then the lemmas and theorems. *)

From Stdlib Require Import List Ascii Bool Arith PeanoNat NArith Lia.
From Stdlib Require String DecimalString DecimalNat.
Import ListNotations.
Import String.StringSyntax Ascii.AsciiSyntax.
Open Scope string_scope.
Open Scope list_scope.

Set Implicit Arguments.

(** ** Text *)

Abbreviation text := (list ascii) (only parsing).

Coercion String.list_ascii_of_string : String.string >-> list.

Definition text_eq_dec : forall a b : text, {a = b} + {a <> b} :=
  list_eq_dec ascii_dec.

Definition text_eqb (a b : text) : bool :=
  if text_eq_dec a b then true else false.

Definition lines_eqb (a b : list text) : bool :=
  if list_eq_dec text_eq_dec a b then true else false.

Definition nl : ascii := "010"%char.

Module Py.

Definition code (c : ascii) : nat := nat_of_ascii c.

Definition between (lo hi : nat) (c : ascii) : bool :=
  (lo <=? code c) && (code c <=? hi).

(** [str.isspace] on one character, also the class [\s]. *)
Definition isspace (c : ascii) : bool :=
  between 9 13 c || between 28 32 c || (code c =? 133) || (code c =? 160).

Definition isupper (c : ascii) : bool := between 65 90 c.
Definition islower (c : ascii) : bool := between 97 122 c.
Definition isletter (c : ascii) : bool := isupper c || islower c.
Definition isdecimal (c : ascii) : bool := between 48 57 c.

(** [str.isdigit] on one character: the decimal digits and the
    superscripts 1, 2 and 3. *)
Definition isdigit (c : ascii) : bool :=
  isdecimal c || (code c =? 178) || (code c =? 179) || (code c =? 185).

(** The class [\w]. *)
Definition isword (c : ascii) : bool :=
  isdecimal c || isletter c || (code c =? 95)
  || (code c =? 170) || (code c =? 178) || (code c =? 179) || (code c =? 181)
  || (code c =? 185) || (code c =? 186) || between 188 190 c
  || between 192 214 c || between 216 246 c || between 248 255 c.

(** Case mapping, as Python has it on ASCII characters; a character
    outside ASCII is left as it is.  The program maps the case of section
    labels, which its header patterns restrict to ASCII. *)
Definition to_lower (c : ascii) : ascii :=
  if isupper c then ascii_of_nat (code c + 32) else c.
Definition to_upper (c : ascii) : ascii :=
  if islower c then ascii_of_nat (code c - 32) else c.

Definition lower (s : text) : text := map to_lower s.

(** [str.title] on ASCII text: a letter is upper-cased when the character
    before it is not a letter and lower-cased when it is. *)
Fixpoint title_from (prev_cased : bool) (s : text) : text :=
  match s with
  | [] => []
  | c :: s' =>
      (if isletter c
       then (if prev_cased then to_lower c else to_upper c)
       else c) :: title_from (isletter c) s'
  end.
Definition title (s : text) : text := title_from false s.

Fixpoint lstrip_by (p : ascii -> bool) (s : text) : text :=
  match s with
  | c :: s' => if p c then lstrip_by p s' else s
  | [] => []
  end.

Definition lstrip (s : text) : text := lstrip_by isspace s.
Definition rstrip (s : text) : text := rev (lstrip (rev s)).
Definition strip (s : text) : text := rstrip (lstrip s).

(** [s.lstrip("\n")] *)
Definition lstrip_nl (s : text) : text :=
  lstrip_by (fun c => if ascii_dec c nl then true else false) s.

(** [sep.join(parts)] *)
Fixpoint join (sep : text) (parts : list text) : text :=
  match parts with
  | [] => []
  | [p] => p
  | p :: ps => p ++ sep ++ join sep ps
  end.

(** [s.split(c)] for a one-character separator: never empty. *)
Fixpoint split_char (sep : ascii) (s : text) : list text :=
  match s with
  | [] => [[]]
  | c :: s' =>
      if ascii_dec c sep then [] :: split_char sep s'
      else match split_char sep s' with
           | l :: ls => (c :: l) :: ls
           | [] => [[c]]
           end
  end.

Fixpoint startswith (pre s : text) : bool :=
  match pre, s with
  | [], _ => true
  | p :: pre', c :: s' => if ascii_dec p c then startswith pre' s' else false
  | _ :: _, [] => false
  end.

(** [sub in s] *)
Fixpoint contains (sub s : text) : bool :=
  startswith sub s ||
  match s with
  | [] => false
  | _ :: s' => contains sub s'
  end.

(** [s.split(sep, 1)]: the text before and after the first [sep], or
    nothing when [sep] does not occur. *)
Fixpoint split_once (sep s : text) : option (text * text) :=
  if startswith sep s then Some ([], skipn (List.length sep) s)
  else match s with
       | [] => None
       | c :: s' =>
           match split_once sep s' with
           | Some (a, b) => Some (c :: a, b)
           | None => None
           end
       end.

(** [s.rsplit(c, 1)[0]]: the text before the last [c], or all of [s]. *)
Fixpoint before_last (sep : ascii) (s : text) : text :=
  match s with
  | [] => []
  | c :: s' =>
      if existsb (fun d => if ascii_dec d sep then true else false) s'
      then c :: before_last sep s'
      else if ascii_dec c sep then [] else s
  end.

(** [s.replace(a, b)] for single characters. *)
Definition replace_char (a b : ascii) (s : text) : text :=
  map (fun c => if ascii_dec c a then b else c) s.

(** [s.replace(a, "")] for a single character. *)
Definition remove_char (a : ascii) (s : text) : text :=
  filter (fun c => if ascii_dec c a then false else true) s.

(** [str(n)] for a natural number. *)
Definition str_of_nat (n : nat) : text :=
  String.list_ascii_of_string
    (DecimalString.NilEmpty.string_of_uint (Nat.to_uint n)).

(** Truth value of a string. *)
Definition truthy (s : text) : bool :=
  match s with [] => false | _ => true end.

(** [a or b] on strings. *)
Definition or_else (a b : text) : text := if truthy a then a else b.

End Py.

(** ** Exceptions *)

Inductive exn : Type := ValueError | KeyError.

Inductive result (A : Type) : Type :=
| Ok (a : A)
| Raise (e : exn).
Arguments Raise {A} e.

Definition bind {A B} (m : result A) (f : A -> result B) : result B :=
  match m with
  | Ok a => f a
  | Raise e => Raise e
  end.

Notation "x <- m ;; k" := (bind m (fun x => k))
  (at level 61, m at next level, right associativity).
Notation "' p <- m ;; k" := (bind m (fun x => let p := x in k))
  (at level 61, p pattern, m at next level, right associativity).

(** [int(s)] on a string of decimal digits. *)
Definition int_max_str_digits : nat := 4300.

Definition digit_value (c : ascii) : N := N.of_nat (Py.code c - 48).

Definition py_int (s : text) : result N :=
  if forallb Py.isdecimal s && Py.truthy s then
    if List.length s <=? int_max_str_digits
    then Ok (fold_left (fun acc c => 10 * acc + digit_value c)%N s 0%N)
    else Raise ValueError
  else Raise ValueError.

(** ** Dictionaries *)

Section Dict.
Variables K V : Type.
Variable eqb : K -> K -> bool.

Definition dict := list (K * V).

Fixpoint dict_get (k : K) (d : dict) : option V :=
  match d with
  | [] => None
  | (k', v) :: d' => if eqb k k' then Some v else dict_get k d'
  end.

(** [d[k] = v]: an existing key keeps its place. *)
Fixpoint dict_set (k : K) (v : V) (d : dict) : dict :=
  match d with
  | [] => [(k, v)]
  | (k', v') :: d' =>
      if eqb k k' then (k', v) :: d' else (k', v') :: dict_set k v d'
  end.

(** [d[k]] *)
Definition dict_item (k : K) (d : dict) : result V :=
  match dict_get k d with
  | Some v => Ok v
  | None => Raise KeyError
  end.
End Dict.

(** ** Regular expressions

    The five patterns of the program use literals, character classes,
    repetition of a single character class (greedy [*] and [+], lazy [*?]),
    sequence, alternation, optional parts, capture groups, the anchors [^]
    and [$] and the word boundary [\b].  The matcher is a backtracking one in
    continuation-passing style: alternatives are tried left to right, greedy
    repetition tries the longest run first, lazy repetition the shortest. *)

Inductive regex : Type :=
| Reps
| Rbegin                          (* ^ *)
| Rend                            (* $ *)
| Rwordb                          (* \b *)
| Rclass (p : ascii -> bool)
| Rlit (w : text)
| Rstar (p : ascii -> bool)       (* p* *)
| Rplus (p : ascii -> bool)       (* p+ *)
| Rlazy (p : ascii -> bool)       (* p*? *)
| Rseq (a b : regex)
| Ralt (a b : regex)
| Rgroup (i : nat) (a : regex).

Definition Ropt (a : regex) : regex := Ralt a Reps.   (* a? *)

Record mstate : Type := MState {
  prev : option ascii;            (* the character before the position *)
  rest : text;                    (* the text from the position on *)
  caps : list (nat * text)        (* groups captured so far, latest first *)
}.

Definition kont := mstate -> option mstate.

Definition last_of (pv : option ascii) (w : text) : option ascii :=
  match rev w with
  | c :: _ => Some c
  | [] => pv
  end.

Definition is_word_opt (c : option ascii) : bool :=
  match c with
  | Some c => Py.isword c
  | None => false
  end.

Definition at_boundary (st : mstate) : bool :=
  xorb (is_word_opt (prev st)) (is_word_opt (hd_error (rest st))).

(** [$] matches at the end and before a final newline. *)
Definition at_end (st : mstate) : bool :=
  match rest st with
  | [] => true
  | [c] => if ascii_dec c nl then true else false
  | _ => false
  end.

Fixpoint many (p : ascii -> bool) (k : kont)
    (pv : option ascii) (s : text) (cs : list (nat * text)) : option mstate :=
  match s with
  | c :: s' =>
      if p c then
        match many p k (Some c) s' cs with
        | Some r => Some r
        | None => k (MState pv s cs)
        end
      else k (MState pv s cs)
  | [] => k (MState pv s cs)
  end.

Fixpoint few (p : ascii -> bool) (k : kont)
    (pv : option ascii) (s : text) (cs : list (nat * text)) : option mstate :=
  match k (MState pv s cs) with
  | Some r => Some r
  | None =>
      match s with
      | c :: s' => if p c then few p k (Some c) s' cs else None
      | [] => None
      end
  end.

(** The text consumed between two positions of the same subject. *)
Definition taken (st st' : mstate) : text :=
  firstn (List.length (rest st) - List.length (rest st')) (rest st).

Fixpoint mtch (r : regex) (k : kont) (st : mstate) : option mstate :=
  match r with
  | Reps => k st
  | Rbegin => match prev st with None => k st | Some _ => None end
  | Rend => if at_end st then k st else None
  | Rwordb => if at_boundary st then k st else None
  | Rclass p =>
      match rest st with
      | c :: s' => if p c then k (MState (Some c) s' (caps st)) else None
      | [] => None
      end
  | Rlit w =>
      if Py.startswith w (rest st)
      then k (MState (last_of (prev st) w) (skipn (List.length w) (rest st)) (caps st))
      else None
  | Rstar p => many p k (prev st) (rest st) (caps st)
  | Rplus p =>
      match rest st with
      | c :: s' => if p c then many p k (Some c) s' (caps st) else None
      | [] => None
      end
  | Rlazy p => few p k (prev st) (rest st) (caps st)
  | Rseq a b => mtch a (mtch b k) st
  | Ralt a b =>
      match mtch a k st with
      | Some r => Some r
      | None => mtch b k st
      end
  | Rgroup i a =>
      mtch a (fun st' => k (MState (prev st') (rest st')
                                   ((i, taken st st') :: caps st'))) st
  end.

(** [m.group(i)], [None] when the group took no part in the match. *)
Fixpoint group (i : nat) (cs : list (nat * text)) : option text :=
  match cs with
  | [] => None
  | (j, w) :: cs' => if i =? j then Some w else group i cs'
  end.

(** [re.match(r, s)] *)
Definition re_match (r : regex) (s : text) : option mstate :=
  mtch r Some (MState None s []).

Definition is_char (c : ascii) : ascii -> bool :=
  fun d => if ascii_dec d c then true else false.
Definition any_of (cs : text) : ascii -> bool :=
  fun d => existsb (is_char d) cs.
Definition dot : ascii -> bool := fun d => negb (is_char nl d).

Fixpoint Rseqs (rs : list regex) : regex :=
  match rs with
  | [] => Reps
  | [r] => r
  | r :: rs' => Rseq r (Rseqs rs')
  end.

Fixpoint Ralts (rs : list regex) : regex :=
  match rs with
  | [] => Reps
  | [r] => r
  | r :: rs' => Ralt r (Ralts rs')
  end.

(** ** detect_key *)

Definition g_root : nat := 1.
Definition g_qual : nat := 2.

Definition note_letter : ascii -> bool := Py.between 65 71.   (* [A-G] *)
Definition accidental : regex := Ralt (Rlit "#") (Rlit "b").

Definition qualities : list text :=
  [ "maj7" : text; "maj" : text; "min7" : text; "m7" : text; "m" : text;
    "min" : text; "dim" : text; "aug" : text; "sus2" : text; "sus4" : text;
    "add9" : text; "6" : text; "7" : text; "9" : text; "11" : text;
    "13" : text; "m6" : text; "m9" : text; "maj9" : text ].

Definition CHORD_RE : regex :=
  Rseqs [ Rwordb;
          Rgroup g_root (Rseq (Rclass note_letter) (Ropt accidental));
          Ropt (Rgroup g_qual (Ralts (map Rlit qualities)));
          Ropt (Rseqs [Rlit "/"; Rclass note_letter; Ropt accidental]);
          Rwordb ].

(** [CHORD_RE.finditer(body)]: the matches from left to right, each search
    resuming where the match before it ended.  [skip] counts the characters
    of the current match still to be passed over. *)
Fixpoint finditer_from (r : regex) (skip : nat) (pv : option ascii) (s : text)
  : list mstate :=
  match s with
  | [] => []
  | c :: s' =>
      match skip with
      | S n => finditer_from r n (Some c) s'
      | O =>
          match mtch r Some (MState pv s []) with
          | Some m =>
              m :: finditer_from r (List.length s - List.length (rest m) - 1)
                     (Some c) s'
          | None => finditer_from r 0 (Some c) s'
          end
      end
  end.

Definition finditer (r : regex) (s : text) : list mstate :=
  finditer_from r 0 None s.

Definition counts := dict text nat.

Definition count_of (root : text) (d : counts) : nat :=
  match dict_get text_eqb root d with
  | Some n => n
  | None => 0
  end.

(** [match.group("root")] and [match.group("qual") or ""] *)
Definition root_of (m : mstate) : text :=
  match group g_root (caps m) with Some w => w | None => [] end.
Definition qual_of (m : mstate) : text :=
  match group g_qual (caps m) with Some w => w | None => [] end.

Definition is_minor (m : mstate) : bool :=
  Py.startswith "m" (qual_of m) && negb (Py.startswith "maj" (qual_of m)).

(** One turn of the loop over the matches. *)
Definition tally (acc : counts * counts) (m : mstate) : counts * counts :=
  let '(root_counts, minor_counts) := acc in
  let root := root_of m in
  let root_counts :=
    dict_set text_eqb root (count_of root root_counts + 1) root_counts in
  let minor_counts :=
    if is_minor m
    then dict_set text_eqb root (count_of root minor_counts + 1) minor_counts
    else minor_counts in
  (root_counts, minor_counts).

(** [max(items, key=lambda item: item[1])]: the first item of greatest
    count. *)
Fixpoint max_item (best : text * nat) (items : list (text * nat)) : text * nat :=
  match items with
  | [] => best
  | it :: items' =>
      if snd best <? snd it then max_item it items' else max_item best items'
  end.

(** The quotient [minor_hits / total_hits] is compared with one half on the
    integers: the two agree as long as the counts are below 2^53. *)
Definition detect_key (body : text) : text :=
  let '(root_counts, minor_counts) :=
    fold_left tally (finditer CHORD_RE body) ([], []) in
  match root_counts with
  | [] => []
  | first :: others =>
      let best_root := fst (max_item first others) in
      let minor_hits := count_of best_root minor_counts in
      let total_hits := count_of best_root root_counts in
      if (0 <? total_hits) && (total_hits <=? 2 * minor_hits)
      then best_root ++ "m"
      else best_root
  end.

(** ** parse_section_header *)

(** [^(.*?)(?:\s+(\d+))?$] *)
Definition number_re : regex :=
  Rseqs [ Rbegin;
          Rgroup 1 (Rlazy dot);
          Ropt (Rseq (Rplus Py.isspace) (Rgroup 2 (Rplus Py.isdecimal)));
          Rend ].

(** [m.group(i)] of a group that takes part in every match. *)
Definition group_text (i : nat) (m : mstate) : text :=
  match group i (caps m) with
  | Some w => w
  | None => []
  end.

Definition classify (base base_part : text) : text * text :=
  if Py.contains "pre" base && Py.contains "chorus" base then ("Pre-Chorus" : text, "PC" : text)
  else if Py.startswith "verse" base then ("Verse" : text, "V" : text)
  else if Py.startswith "chorus" base then ("Chorus" : text, "C" : text)
  else if Py.startswith "intro" base then ("Intro" : text, "Intro" : text)
  else if Py.startswith "outro" base then ("Outro" : text, "Outro" : text)
  else if Py.startswith "bridge" base || text_eqb base "b" then ("Bridge" : text, "B" : text)
  else if Py.startswith "instrument" base || Py.startswith "instr" base
       then ("Instrumental" : text, "Instr" : text)
  else if Py.startswith "solo" base then ("Solo" : text, "Solo" : text)
  else if Py.startswith "tag" base then ("Tag" : text, "Tag" : text)
  else if Py.startswith "interlude" base then ("Interlude" : text, "Interlude" : text)
  else if Py.startswith "pre" base then ("Pre-Chorus" : text, "PC" : text)
  else let clean := Py.title base_part in (clean, Py.remove_char " " clean).

Definition parse_section_header (raw : text)
  : result (text * text * option N) :=
  let name := Py.strip raw in
  let m := re_match number_re name in
  let base_part :=
    match m with
    | Some m => Py.strip (group_text 1 m)
    | None => name
    end in
  num <- match m with
         | Some m =>
             match group 2 (caps m) with
             | Some digits =>
                 if Py.truthy digits
                 then (n <- py_int digits ;; Ok (Some n))
                 else Ok None
             | None => Ok None
             end
         | None => Ok None
         end ;;
  let base := Py.strip (Py.replace_char "-" " " (Py.lower base_part)) in
  let '(type_name, abbrev) := classify base base_part in
  Ok (type_name, abbrev, num).

(** ** normalize_content, clean_lines, starts_with_lines *)

Definition normalize_content (content_lines : list text) : text :=
  Py.strip (Py.join [nl] content_lines).

Definition clean_lines (content_lines : list text) : list text :=
  map Py.rstrip content_lines.

Definition starts_with_lines (candidate pre : list text) : bool :=
  if List.length candidate <? List.length pre then false
  else forallb
         (fun i => text_eqb (nth i candidate []) (nth i pre []))
         (seq 0 (List.length pre)).

(** ** extract_repeated_block *)

(** [l[i:j]] *)
Definition slice (A : Type) (i j : nat) (l : list A) : list A :=
  firstn (j - i) (skipn i l).

Definition repeats_block (lines : list text) (size : nat) : bool :=
  forallb
    (fun i => lines_eqb (slice (i * size) ((i + 1) * size) lines)
                        (firstn size lines))
    (seq 0 (List.length lines / size)).

Fixpoint first_block (lines : list text) (sizes : list nat)
  : list text * nat :=
  match sizes with
  | [] => (lines, 1)
  | size :: sizes' =>
      if negb (List.length lines mod size =? 0) then first_block lines sizes'
      else if repeats_block lines size
           then (firstn size lines, List.length lines / size)
           else first_block lines sizes'
  end.

Definition extract_repeated_block (lines : list text) : list text * nat :=
  let n := List.length lines in
  if n =? 0 then (lines, 1)
  else first_block lines (seq 1 (n / 2)).

(** ** rebuild_formatted_tab: the header *)

Definition meta_names : list text :=
  [ "Key" : text; "Capo" : text; "Tempo" : text; "Time" : text;
    "Flow" : text; "Tuning" : text; "TransposedKey" : text ].

Definition metadata := dict text text.

(** [meta[name]]; the seven names are keys from the start. *)
Definition meta_get (name : text) (meta : metadata) : text :=
  match dict_get text_eqb name meta with
  | Some v => v
  | None => []
  end.

Definition meta_set (name value : text) (meta : metadata) : metadata :=
  dict_set text_eqb name value meta.

(** The pattern [^{name}:\s*(G)$], the group [G] being [.*]. *)
Definition meta_re (name : text) : regex :=
  Rseqs [ Rbegin; Rlit (name ++ ":"); Rstar Py.isspace;
          Rgroup 1 (Rstar dot); Rend ].

Definition read_meta_line (lines : list text) (meta : metadata)
    (item : nat * text) : metadata :=
  let '(offset, name) := item in
  match nth_error lines offset with
  | Some line =>
      match re_match (meta_re name) line with
      | Some m => meta_set name (Py.strip (group_text 1 m)) meta
      | None => meta
      end
  | None => meta
  end.

Definition read_meta (lines : list text) : metadata :=
  fold_left (read_meta_line lines)
    (combine (seq 2 (List.length meta_names)) meta_names)
    (map (fun name => (name, [] : text)) meta_names).

(** The artist and title carried by the file name. *)
Definition file_names (file_base : text) : text * text :=
  if Py.truthy file_base then
    let base_no_ext := Py.before_last "." file_base in
    match Py.split_once " - " base_no_ext with
    | Some (a, b) => (Py.strip a, Py.strip b)
    | None => ([], Py.strip base_no_ext)
    end
  else ([], []).

Definition default_meta (name value : text) (meta : metadata) : metadata :=
  if Py.truthy (meta_get name meta) then meta else meta_set name value meta.

Record head : Type := Head {
  h_title : text;
  h_artist : text;
  h_meta : metadata;
  h_body : text
}.

(** Lines 112 and 130: the title is that of the first line, or else the
    fallback, or else that of the file name. *)
Definition title_of (lines : list text) (title_fb file_base : text) : text :=
  let file_title := snd (file_names file_base) in
  let hdr_title := match nth_error lines 0 with Some l => Py.strip l | None => [] end in
  Py.or_else hdr_title (Py.or_else title_fb (Py.or_else file_title "Unknown Song")).

(** Lines 113 and 129. *)
Definition artist_of (lines : list text) (artist_fb file_base : text) : text :=
  let file_artist := fst (file_names file_base) in
  let hdr_artist := match nth_error lines 1 with Some l => Py.strip l | None => [] end in
  Py.or_else hdr_artist (Py.or_else artist_fb (Py.or_else file_artist "Unknown Artist")).

(** Lines 124 to 127. *)
Definition body_of (lines : list text) : text :=
  let body_start := 2 + List.length meta_names in
  let body_start :=
    match nth_error lines body_start with
    | Some l => if Py.truthy (Py.strip l) then body_start else body_start + 1
    | None => body_start
    end in
  Py.lstrip_nl (Py.join [nl] (skipn body_start lines)).

(** Lines 115 to 122 and 132 to 138. *)
Definition meta_of (lines : list text) (body : text) : metadata :=
  let meta := read_meta lines in
  let meta := default_meta "Capo" "0" meta in
  let meta := default_meta "Tuning" "Standard" meta in
  if Py.truthy (meta_get "Key" meta) then meta
  else meta_set "Key" (detect_key body) meta.

(** Lines 100 to 138 of the source. *)
Definition read_head (tab artist_fb title_fb file_base : text) : head :=
  let lines := Py.split_char nl tab in
  let body := body_of lines in
  Head (title_of lines title_fb file_base)
       (artist_of lines artist_fb file_base)
       (meta_of lines body)
       body.

(** ** rebuild_formatted_tab: splitting the body into sections *)

Record section : Type := Section_ {
  header : text;
  lines : list text
}.

Definition label_char (c : ascii) : bool :=
  Py.isletter c || Py.isdecimal c || any_of " -'/" c.

(** [^([A-Za-z][A-Za-z0-9 \-'\/]+):\s*$] *)
Definition header_re : regex :=
  Rseqs [ Rbegin;
          Rgroup 1 (Rseq (Rclass Py.isletter) (Rplus label_char));
          Rlit ":"; Rstar Py.isspace; Rend ].

Record splitter : Type := Splitter {
  sections : list section;
  leading_lines : list text;
  current_header : option text;
  current_lines : list text;
  headers_found : nat
}.

Definition split_line (st : splitter) (line : text) : splitter :=
  match re_match header_re (Py.strip line) with
  | Some m =>
      Splitter
        (match current_header st with
         | Some h => sections st ++ [Section_ h (current_lines st)]
         | None => sections st
         end)
        (leading_lines st)
        (Some (Py.strip (group_text 1 m)))
        []
        (headers_found st + 1)
  | None =>
      match current_header st with
      | None =>
          Splitter (sections st) (leading_lines st ++ [line])
                   (current_header st) (current_lines st) (headers_found st)
      | Some _ =>
          Splitter (sections st) (leading_lines st)
                   (current_header st) (current_lines st ++ [line])
                   (headers_found st)
      end
  end.

(** Lines 142 to 164 of the source. *)
Definition split_body (body : text) : splitter :=
  let st := fold_left split_line (Py.split_char nl body)
                      (Splitter [] [] None [] 0) in
  match current_header st with
  | Some h =>
      Splitter (sections st ++ [Section_ h (current_lines st)])
               (leading_lines st) (current_header st) (current_lines st)
               (headers_found st)
  | None => st
  end.

(** ** rebuild_formatted_tab: the registry of unique contents *)

Record entry : Type := Entry {
  key : text;
  u_lines : list text;
  lines_clean : list text;
  extension_of : option nat
}.

Record stats : Type := Stats {
  unique : list entry;
  prefix : text;
  count : nat
}.

Record occurrence : Type := Occurrence {
  o_type : text;
  o_prefix : text;
  unique_idx : nat;
  extension : bool
}.

Record analysis : Type := Analysis {
  type_stats : dict text stats;
  unique_order : list (text * nat);
  occurrences : list occurrence
}.

Definition is_extension_of (idx : nat) (u : entry) : bool :=
  match extension_of u with
  | Some i => i =? idx
  | None => false
  end.

(** The loop of line 191: the first entry that extends [idx] by
    [extension_key]. *)
Fixpoint find_extension (idx : nat) (extension_key : text)
    (jdx : nat) (us : list entry) : option nat :=
  match us with
  | [] => None
  | uj :: us' =>
      if is_extension_of idx uj && text_eqb (key uj) extension_key
      then Some jdx
      else find_extension idx extension_key (S jdx) us'
  end.

(** What the loop of line 181 decides. *)
Inductive lookup : Type :=
| Reuse (idx : nat)
| Extend (e : entry)
| Missing.

Fixpoint scan_unique (chorus : bool) (all : list entry)
    (content_clean : list text) (content_key : text)
    (idx : nat) (us : list entry) : lookup :=
  match us with
  | [] => Missing
  | u :: us' =>
      if text_eqb (key u) content_key then Reuse idx
      else if chorus && starts_with_lines content_clean (lines_clean u) then
        let extension_lines := skipn (List.length (lines_clean u)) content_clean in
        let extension_key := Py.strip (Py.join [nl] extension_lines) in
        if text_eqb extension_key [] then Reuse idx
        else match find_extension idx extension_key 1 all with
             | Some jdx => Reuse jdx
             | None =>
                 Extend (Entry extension_key extension_lines extension_lines (Some idx))
             end
      else scan_unique chorus all content_clean content_key (S idx) us'
  end.

Definition id_eqb (a b : text * nat) : bool :=
  text_eqb (fst a) (fst b) && (snd a =? snd b).

Definition add_unique_id (unique_id : text * nat) (order : list (text * nat))
  : list (text * nat) :=
  if existsb (id_eqb unique_id) order then order else order ++ [unique_id].

(** A section after lines 172 to 175: its type, its abbreviation, the
    block its content repeats and how often. *)
Record collapsed : Type := Collapsed {
  c_type : text;
  c_abbrev : text;
  c_block : list text;
  repeat_count : nat
}.

Definition collapse (s : section) : result collapsed :=
  parsed <- parse_section_header (header s) ;;
  let '(type_name, abbrev, _) := parsed in
  let content_clean_raw := clean_lines (lines s) in
  let '(base_block, repeat_count) := extract_repeated_block content_clean_raw in
  Ok (Collapsed type_name abbrev base_block repeat_count).

(** [type_stats.setdefault(type_name, ...)] *)
Definition stats_of (a : analysis) (c : collapsed) : stats :=
  match dict_get text_eqb (c_type c) (type_stats a) with
  | Some st => st
  | None => Stats [] (c_abbrev c) 0
  end.

(** The loop of lines 181 to 208 on the registry of the section's type. *)
Definition resolve (a : analysis) (c : collapsed) : lookup :=
  scan_unique (text_eqb (c_type c) "Chorus") (unique (stats_of a c))
              (c_block c) (normalize_content (c_block c))
              1 (unique (stats_of a c)).

(** The registry of the section's type once the section is placed. *)
Definition registry_after (a : analysis) (c : collapsed) : list entry :=
  match resolve a c with
  | Reuse _ => unique (stats_of a c)
  | Extend e => unique (stats_of a c) ++ [e]
  | Missing =>
      unique (stats_of a c)
      ++ [Entry (normalize_content (c_block c)) (c_block c) (c_block c) None]
  end.

(** [match_idx] *)
Definition match_idx (a : analysis) (c : collapsed) : nat :=
  match resolve a c with
  | Reuse idx => idx
  | _ => List.length (registry_after a c)
  end.

Definition extension_created (a : analysis) (c : collapsed) : bool :=
  match resolve a c with
  | Extend _ => true
  | _ => false
  end.

(** Lines 176 to 221: one collapsed section enters the registry. *)
Definition place (a : analysis) (c : collapsed) : analysis :=
  let st := stats_of a c in
  Analysis
    (dict_set text_eqb (c_type c)
       (Stats (registry_after a c) (prefix st) (count st + repeat_count c))
       (type_stats a))
    (match resolve a c with
     | Reuse _ => unique_order a
     | _ => add_unique_id (c_type c, match_idx a c) (unique_order a)
     end)
    (occurrences a
       ++ repeat (Occurrence (c_type c) (c_abbrev c) (match_idx a c)
                             (extension_created a c))
                 (repeat_count c)).

(** The body of the loop of line 171. *)
Definition analyse_section (a : analysis) (s : section) : result analysis :=
  c <- collapse s ;;
  Ok (place a c).

Fixpoint analyse_from (a : analysis) (secs : list section) : result analysis :=
  match secs with
  | [] => Ok a
  | s :: secs' => a' <- analyse_section a s ;; analyse_from a' secs'
  end.

Definition analyse (secs : list section) : result analysis :=
  analyse_from (Analysis [] [] []) secs.

(** ** rebuild_formatted_tab: numbering and display names *)

Record display : Type := Display {
  display_name : text;
  token : text;
  d_lines : list text;
  d_extension_of : option nat
}.

Definition numbering_types : list text :=
  [ "Verse" : text; "Pre-Chorus" : text; "Chorus" : text; "Bridge" : text ].

Definition in_numbering_types (type_name : text) : bool :=
  existsb (text_eqb type_name) numbering_types.

Definition needs_numbering (ts : dict text stats) (type_name : text)
  : result bool :=
  st <- dict_item text_eqb type_name ts ;;
  Ok ((1 <? List.length (unique st))
      || ((1 <? count st) && in_numbering_types type_name)).

(** Truth value of an optional number. *)
Definition number_truthy (number : option nat) : bool :=
  match number with
  | Some n => negb (n =? 0)
  | None => false
  end.

Definition number_text (number : option nat) : text :=
  match number with
  | Some n => Py.str_of_nat n
  | None => "None"
  end.

(** Lines 234 to 244. *)
Definition display_entry (type_name : text) (st : stats)
    (number_required : bool) (idx : nat) (u : entry) : display :=
  let number := if number_required then Some idx else None in
  let number :=
    match number with
    | None =>
        if (1 <? count st) && in_numbering_types type_name
        then Some idx else None
    | Some _ => number
    end in
  let name :=
    if number_truthy number
    then type_name ++ " " ++ number_text number else type_name in
  let tok :=
    if number_truthy number
    then prefix st ++ number_text number else prefix st in
  Display name tok (u_lines u) (extension_of u).

Definition display_map := dict (text * nat) display.

Fixpoint enumerate (A : Type) (start : nat) (l : list A) : list (nat * A) :=
  match l with
  | [] => []
  | x :: l' => (start, x) :: enumerate (S start) l'
  end.

Definition display_type (ts : dict text stats) (dm : display_map)
    (item : text * stats) : result display_map :=
  let '(type_name, st) := item in
  number_required <- needs_numbering ts type_name ;;
  Ok (fold_left
        (fun dm '(idx, u) =>
           dict_set id_eqb (type_name, idx)
                    (display_entry type_name st number_required idx u) dm)
        (enumerate 1 (unique st)) dm).

Fixpoint display_types (ts : dict text stats) (dm : display_map)
    (items : list (text * stats)) : result display_map :=
  match items with
  | [] => Ok dm
  | item :: items' =>
      dm' <- display_type ts dm item ;; display_types ts dm' items'
  end.

(** Lines 229 to 244. *)
Definition build_display_map (ts : dict text stats) : result display_map :=
  display_types ts [] ts.

(** Lines 246 to 251. *)
Definition tokens_in_flow (dm : display_map) (occs : list occurrence)
  : list text :=
  fold_left
    (fun tokens occ =>
       match dict_get id_eqb (o_type occ, unique_idx occ) dm with
       | Some mapping => tokens ++ [token mapping]
       | None => tokens
       end)
    occs [].

(** ** rebuild_formatted_tab: the body *)

Definition first_line_blank (section_lines : list text) : bool :=
  match section_lines with
  | [] => true
  | l :: _ => negb (Py.truthy (Py.strip l))
  end.

(** Lines 260 to 267. *)
Definition render_block (mapping : display) : text :=
  let section_lines := d_lines mapping in
  let header_line := display_name mapping ++ ":" in
  let block_parts := [header_line] in
  let block_parts :=
    if (match section_lines with [] => false | _ => true end)
       && ((List.length section_lines =? 0) || negb (first_line_blank section_lines))
    then block_parts ++ [[]] else block_parts in
  let block_parts := block_parts ++ [Py.rstrip (Py.join [nl] section_lines)] in
  Py.join [nl] (filter Py.truthy block_parts).

Fixpoint render_blocks (dm : display_map) (order : list (text * nat))
  : result (list text) :=
  match order with
  | [] => Ok []
  | unique_id :: order' =>
      mapping <- dict_item id_eqb unique_id dm ;;
      blocks <- render_blocks dm order' ;;
      Ok (render_block mapping :: blocks)
  end.

(** Lines 253 to 257. *)
Definition leading_blocks (leading : list text) : list text :=
  match leading with
  | [] => []
  | _ =>
      let joined := Py.rstrip (Py.join [nl] leading) in
      if Py.truthy joined then [joined] else []
  end.

(** Lines 166 to 271: the structured path. *)
Definition structured (sp : splitter) (meta : metadata)
  : result (metadata * text) :=
  a <- analyse (sections sp) ;;
  dm <- build_display_map (type_stats a) ;;
  let tokens := tokens_in_flow dm (occurrences a) in
  blocks <- render_blocks dm (unique_order a) ;;
  let body_blocks := leading_blocks (leading_lines sp) ++ blocks in
  let body :=
    Py.rstrip (Py.join [nl; nl]
                 (filter (fun b => Py.truthy (Py.strip b)) body_blocks))
    ++ [nl] in
  let meta :=
    match tokens with
    | [] => meta
    | _ => meta_set "Flow" (Py.join ", " tokens) meta
    end in
  Ok (meta, body).

(** ** rebuild_formatted_tab: the headerless path *)

(** [^([A-Za-z ]+):\s*$] *)
Definition fallback_re : regex :=
  Rseqs [ Rbegin;
          Rgroup 1 (Rplus (fun c => Py.isletter c || is_char " " c));
          Rlit ":"; Rstar Py.isspace; Rend ].

Definition digits_or_1 (name : text) : text :=
  Py.or_else (filter Py.isdigit name) "1".

(** Lines 282 to 301. *)
Definition fallback_token (name : text) : option text :=
  let low := Py.lower name in
  if Py.startswith "intro" low then Some ("Intro" : text)
  else if Py.startswith "verse" low then Some ("V" ++ digits_or_1 name)
  else if Py.contains "pre" low then Some ("PC" ++ digits_or_1 name)
  else if Py.contains "chorus" low then Some ("C" ++ digits_or_1 name)
  else if Py.contains "bridge" low || text_eqb low "b" then Some ("B" : text)
  else if Py.contains "solo" low then Some ("Solo" : text)
  else if Py.contains "outro" low then Some ("Outro" : text)
  else if Py.contains "tag" low then Some ("Tag" : text)
  else None.

(** Lines 275 to 303. *)
Definition fallback_line (section_tokens : list text) (line : text)
  : list text :=
  if negb (Py.truthy (Py.strip line)) then section_tokens
  else match re_match fallback_re (Py.strip line) with
       | None => section_tokens
       | Some m =>
           let name := Py.strip (group_text 1 m) in
           match fallback_token name with
           | Some tok =>
               if Py.truthy tok && negb (existsb (text_eqb tok) section_tokens)
               then section_tokens ++ [tok]
               else section_tokens
           | None => section_tokens
           end
       end.

(** Lines 273 to 305. *)
Definition fallback_flow (body : text) (meta : metadata) : metadata :=
  match fold_left fallback_line (Py.split_char nl body) [] with
  | [] => meta
  | section_tokens => meta_set "Flow" (Py.join " " section_tokens) meta
  end.

(** ** rebuild_formatted_tab *)

Record doc : Type := Doc {
  d_title : text;
  d_artist : text;
  d_meta : metadata;
  d_body : text
}.

(** Lines 100 to 305: everything but the final rendering. *)
Definition rebuild_doc (tab artist_fb title_fb file_base : text) : result doc :=
  let h := read_head tab artist_fb title_fb file_base in
  let sp := split_body (h_body h) in
  if 0 <? headers_found sp then
    r <- structured sp (h_meta h) ;;
    Ok (Doc (h_title h) (h_artist h) (fst r) (snd r))
  else if negb (Py.truthy (meta_get "Flow" (h_meta h))) then
    Ok (Doc (h_title h) (h_artist h) (fallback_flow (h_body h) (h_meta h)) (h_body h))
  else
    Ok (Doc (h_title h) (h_artist h) (h_meta h) (h_body h)).

(** Lines 307 to 315. *)
Definition render (d : doc) : text :=
  let header_lines :=
    [d_title d; d_artist d]
    ++ map (fun name => name ++ ": " ++ meta_get name (d_meta d)) meta_names
    ++ [[]; []] in
  Py.join [nl] header_lines ++ d_body d.

Definition rebuild_formatted_tab (tab artist_fb title_fb file_base : text)
  : result text :=
  d <- rebuild_doc tab artist_fb title_fb file_base ;;
  Ok (render d).

(** ** main *)

(** The environment of the process: [os.environ]. *)
Definition environ := text -> option text.

Definition environ_get (env : environ) (name default : text) : text :=
  match env name with
  | Some v => v
  | None => default
  end.

(** What reaches the error channel: a line printed by the program, or the
    traceback the interpreter prints for an exception nobody caught. *)
Inductive diagnostic : Type :=
| Printed (line : text)
| Traceback (e : exn).

Record process : Type := Process {
  stdout : text;
  stderr : list diagnostic;
  status : nat
}.

Definition main (env : environ) : result (text * list diagnostic * nat) :=
  let tab := environ_get env "TAB_CONTENT" [] in
  let artist_fb := environ_get env "ARTIST_FB" [] in
  let title_fb := environ_get env "TITLE_FB" [] in
  let file_base := environ_get env "FILE_BASE" [] in
  if negb (Py.truthy tab) then
    Ok ([], [Printed "TAB_CONTENT is required"], 1)
  else
    rebuilt <- rebuild_formatted_tab tab artist_fb title_fb file_base ;;
    Ok (rebuilt ++ [nl], [], 0).

(** [raise SystemExit(main())]: the exit status is what [main] returns; an
    exception that escapes [main] ends the process with status 1 and a
    traceback.  The process is that of an interpreter at its defaults (the
    limit of [int] is [int_max_str_digits], which the variable
    PYTHONINTMAXSTRDIGITS of the environment would move) whose standard
    output takes what [print] writes. *)
Definition run (env : environ) : process :=
  match main env with
  | Ok (out, err, code) => Process out err code
  | Raise e => Process [] [Traceback e] 1
  end.

(** ** Vocabulary of the properties *)

(** [s] is a block size under which [l] is its first [s] lines repeated. *)
Definition is_period (l : list text) (s : nat) : Prop :=
  1 <= s <= List.length l / 2
  /\ List.length l mod s = 0
  /\ l = concat (repeat (firstn s l) (List.length l / s)).

(** The two tests of the loop of [extract_repeated_block] on one size. *)
Definition passes (l : list text) (size : nat) : bool :=
  (List.length l mod size =? 0) && repeats_block l size.

(** The roots of the chord tokens of a body, in reading order, and those of
    its minor chord tokens. *)
Definition chord_roots (body : text) : list text :=
  map root_of (finditer CHORD_RE body).
Definition minor_roots (body : text) : list text :=
  map root_of (filter is_minor (finditer CHORD_RE body)).

Definition occurrences_of (r : text) (l : list text) : nat :=
  count_occ text_eq_dec l r.

(** The distinct elements of a list in the order of their first
    appearance: the order of the keys of a dictionary filled from it. *)
Fixpoint first_seen (l : list text) : list text :=
  match l with
  | [] => []
  | r :: l' => r :: remove text_eq_dec r (first_seen l')
  end.

(** An identifier [(type, index)] that names an entry of the registry. *)
Definition valid_id (ts : dict text stats) (id : text * nat) : Prop :=
  exists st,
    dict_get text_eqb (fst id) ts = Some st
    /\ 1 <= snd id <= List.length (unique st).

(** Every entry carries the key of its own lines, and an extension points
    at an entry that stands before it. *)
Definition entries_ok (us : list entry) : Prop :=
  forall j u,
    nth_error us j = Some u ->
    key u = normalize_content (lines_clean u)
    /\ forall i, extension_of u = Some i -> 1 <= i <= j.

Definition occurrences_of_type (t : text) (occs : list occurrence) : nat :=
  List.length (filter (fun o => text_eqb (o_type o) t) occs).

(** What holds of the registry after every turn of the loop of line 171. *)
Record wf (a : analysis) : Prop := Wf {
  wf_keys : NoDup (map fst (type_stats a));
  wf_occs :
    Forall (fun o => valid_id (type_stats a) (o_type o, unique_idx o))
           (occurrences a);
  wf_order : Forall (valid_id (type_stats a)) (unique_order a);
  wf_entries :
    forall t st,
      dict_get text_eqb t (type_stats a) = Some st -> entries_ok (unique st);
  wf_count :
    forall t st,
      dict_get text_eqb t (type_stats a) = Some st ->
      count st = occurrences_of_type t (occurrences a)
}.

(** The numbering rule: a type carries numbers when it has more than one
    unique content, or when it is one of the four numbering types and occurs
    more than once. *)
Definition numbered (type_name : text) (st : stats) : bool :=
  (1 <? List.length (unique st))
  || ((1 <? count st) && in_numbering_types type_name).

(** The display entry the rule gives the [idx]-th unique content [u]. *)
Definition numbered_display (type_name : text) (st : stats)
    (idx : nat) (u : entry) : display :=
  Display
    (if numbered type_name st
     then type_name ++ " " ++ Py.str_of_nat idx else type_name)
    (if numbered type_name st
     then prefix st ++ Py.str_of_nat idx else prefix st)
    (u_lines u) (extension_of u).

(** The display entry of an identifier of the registry [ts]. *)
Definition display_of (ts : dict text stats) (id : text * nat)
  : option display :=
  match dict_get text_eqb (fst id) ts with
  | Some st =>
      match snd id with
      | O => None
      | S i =>
          match nth_error (unique st) i with
          | Some u => Some (numbered_display (fst id) st (S i) u)
          | None => None
          end
      end
  | None => None
  end.

(** The sections of a body as the loop of line 171 sees them. *)
Fixpoint collapse_all (secs : list section) : result (list collapsed) :=
  match secs with
  | [] => Ok []
  | s :: secs' =>
      c <- collapse s ;; cs <- collapse_all secs' ;; Ok (c :: cs)
  end.

(** The unique content each section resolves to, in reading order. *)
Fixpoint resolved (a : analysis) (cs : list collapsed) : list nat :=
  match cs with
  | [] => []
  | c :: cs' => match_idx a c :: resolved (place a c) cs'
  end.

(** The occurrences of a song: every section stands for [repeat_count]
    occurrences of the unique content it resolves to. *)
Definition performed (cs : list collapsed) : list (text * nat) :=
  flat_map (fun ci => repeat (c_type (fst ci), snd ci) (repeat_count (fst ci)))
           (combine cs (resolved (Analysis [] [] []) cs)).

(** The flow token of an identifier of the registry. *)
Definition token_of (ts : dict text stats) (id : text * nat) : text :=
  match display_of ts id with
  | Some d => token d
  | None => []
  end.

Definition three_verse_sections : list section :=
  [ Section_ "Verse" ["A" : text];
    Section_ "Verse" ["A" : text];
    Section_ "Verse" ["A" : text] ].

Definition unlines (ls : list String.string) : text :=
  Py.join [nl] (map String.list_ascii_of_string ls).

Definition three_verses : text :=
  unlines [ "Song"; "Band"; "Key: "; "Capo: 2"; "Tempo: "; "Time: "; "Flow: x";
            "Tuning: "; "TransposedKey: "; "";
            "Verse:"; "A"; "Verse:"; "A"; "Verse:"; "A" ].

Definition three_verses_out : text :=
  unlines [ "Song"; "Band"; "Key: A"; "Capo: 2"; "Tempo: "; "Time: ";
            "Flow: V1, V1, V1"; "Tuning: Standard"; "TransposedKey: "; "";
            "Verse 1:"; "A"; "" ].

Definition three_verses_again : text :=
  unlines [ "Song"; "Band"; "Key: A"; "Capo: 2"; "Tempo: "; "Time: ";
            "Flow: V"; "Tuning: Standard"; "TransposedKey: "; "";
            "Verse:"; "A"; "" ].

(** The identifier an occurrence points at. *)
Definition occ_id (o : occurrence) : text * nat := (o_type o, unique_idx o).

(** The value of the Flow line of a tab, empty when there is none. *)
Definition supplied_flow (tab : text) : text :=
  meta_get "Flow" (read_meta (Py.split_char nl tab)).

(** The sections of a tab and the number of section headers of its body. *)
Definition sections_of (tab artist_fb title_fb file_base : text) : splitter :=
  split_body (h_body (read_head tab artist_fb title_fb file_base)).

(** Two sections that differ at most in the number their headers carry. *)
Definition same_but_number (s1 s2 : section) : Prop :=
  lines s1 = lines s2
  /\ exists type_name abbrev n1 n2,
       parse_section_header (header s1) = Ok (type_name, abbrev, n1)
       /\ parse_section_header (header s2) = Ok (type_name, abbrev, n2).

Definition verse_two : text :=
  unlines [ "Song"; "Band"; "Key: C"; "Capo: 0"; "Tempo: "; "Time: "; "Flow: ";
            "Tuning: Standard"; "TransposedKey: "; "";
            "Verse 2:"; "la la" ].

Definition verse_two_out : text :=
  unlines [ "Song"; "Band"; "Key: C"; "Capo: 0"; "Tempo: "; "Time: "; "Flow: V";
            "Tuning: Standard"; "TransposedKey: "; "";
            "Verse:"; "la la"; "" ].

(** A tab whose section header carries a number of 4301 digits. *)
Definition long_number_tab : text :=
  unlines [ "Song"; "Band"; "Key: C"; "Capo: 0"; "Tempo: "; "Time: "; "Flow: ";
            "Tuning: Standard"; "TransposedKey: "; "" ]
  ++ [nl] ++ "Verse " ++ repeat "1"%char 4301 ++ ":" ++ [nl] ++ "la la".

Definition long_number_env : environ :=
  fun name => if text_eqb name "TAB_CONTENT" then Some long_number_tab else None.

(** A text of white space only. *)
Definition blank (s : text) : bool := forallb Py.isspace s.

(** Two choruses, the second being the first and a trailing couplet. *)
Definition chorus_pair : text :=
  unlines [ "Song"; "Band"; "Key: C"; "Capo: 0"; "Tempo: "; "Time: "; "Flow: ";
            "Tuning: Standard"; "TransposedKey: "; "";
            "Chorus:"; "la la"; "li li";
            "Chorus:"; "la la"; "li li"; "one more"; "and out" ].

Definition chorus_pair_out : text :=
  unlines [ "Song"; "Band"; "Key: C"; "Capo: 0"; "Tempo: "; "Time: ";
            "Flow: C1, C2"; "Tuning: Standard"; "TransposedKey: "; "";
            "Chorus 1:"; "la la"; "li li"; "";
            "Chorus 2:"; "one more"; "and out"; "" ].

(** A registry of two choruses, the first with a blank line under its
    header, and a third chorus that has the key of the first and starts with
    the lines of the second. *)
Definition blank_led_choruses : list section :=
  [ Section_ "Chorus" [[] ; "A" : text; "B" : text];
    Section_ "Chorus" ["A" : text] ].

Definition blank_led_registry : analysis :=
  fold_left place
    [ Collapsed "Chorus" "C" [[]; "A" : text; "B" : text] 1;
      Collapsed "Chorus" "C" ["A" : text] 1 ]
    (Analysis [] [] []).

Definition third_chorus : collapsed :=
  Collapsed "Chorus" "C" ["A" : text; "B" : text] 1.

Definition blank_led_tab : text :=
  unlines [ "Song"; "Band"; "Key: C"; "Capo: 0"; "Tempo: "; "Time: "; "Flow: ";
            "Tuning: Standard"; "TransposedKey: "; "";
            "Chorus:"; ""; "A"; "B";
            "Chorus:"; "A";
            "Chorus:"; "A"; "B" ].

Definition blank_led_out : text :=
  unlines [ "Song"; "Band"; "Key: C"; "Capo: 0"; "Tempo: "; "Time: ";
            "Flow: C1, C2, C1"; "Tuning: Standard"; "TransposedKey: "; "";
            "Chorus 1:"; ""; "A"; "B"; "";
            "Chorus 2:"; "A"; "" ].

(** What a match can consume and capture.  [S] holds of every character of
    the subject and [G i] is claimed of every character group [i] captures;
    [within P r] says that the classes and literals of [r] admit, among the
    characters of the subject, only characters that satisfy [P], and the
    claim of each of its groups. *)
Section Within.
Variable S : ascii -> Prop.
Variable G : nat -> ascii -> Prop.

Fixpoint within (P : ascii -> Prop) (r : regex) : Prop :=
  match r with
  | Reps | Rbegin | Rend | Rwordb => True
  | Rclass p | Rstar p | Rplus p | Rlazy p =>
      forall c, S c -> p c = true -> P c
  | Rlit w => forall c, In c w -> S c -> P c
  | Rseq a b | Ralt a b => within P a /\ within P b
  | Rgroup i a => within (fun c => P c /\ G i c) a
  end.

Definition caps_ok (cs : list (nat * text)) : Prop :=
  forall i w, In (i, w) cs -> Forall (G i) w.
End Within.

(** The tokens of a comma-separated list: [s.split(sep)], [skip] counting
    the characters of a separator still to be passed over. *)
Fixpoint split_sep (sep : text) (skip : nat) (s : text) : list text :=
  match s with
  | [] => [[]]
  | c :: s' =>
      match skip with
      | S n => split_sep sep n s'
      | O =>
          if Py.startswith sep s
          then [] :: split_sep sep (List.length sep - 1) s'
          else match split_sep sep 0 s' with
               | l :: ls => (c :: l) :: ls
               | [] => [[c]]
               end
      end
  end.

Definition comma_separated (s : text) : list text := split_sep ", " 0 s.

Definition no_comma (c : ascii) : Prop := c <> ","%char.

Definition label_ok (c : ascii) : Prop := label_char c = true.

(** A character that is not white space, hence not a line break. *)
Definition plain (c : ascii) : Prop := Py.isspace c = false.

(** A value that a line of the header gives back as it is: it is its own
    stripped form and holds no line break. *)
Definition clean (v : text) : Prop := Py.strip v = v /\ ~ In nl v.

(** Two metadata dictionaries with the same seven values. *)
Definition same_meta (m1 m2 : metadata) : Prop :=
  forall name, In name meta_names -> meta_get name m1 = meta_get name m2.

(** What the groups of [CHORD_RE] hold: the root is made of plain
    characters. *)
Definition chord_groups (i : nat) (c : ascii) : Prop := i = g_root -> plain c.

(** Every value of the dictionary is clean. *)
Definition all_clean (meta : metadata) : Prop :=
  forall name, clean (meta_get name meta).

(** A flow token of the headerless path. *)
Definition good_token (t : text) : Prop := t <> [] /\ Forall plain t.

(** The line of a metadata field in the rebuilt header. *)
Definition meta_line (meta : metadata) (name : text) : text :=
  name ++ ": " ++ meta_get name meta.

(** A headerless tab with stray spaces, a missing Tempo line and no key. *)
Definition noisy_tab : text :=
  unlines [ "  My Song "; "The Band"; "Key:"; "Capo:   3 "; "x"; "Time: 4/4";
            "Flow:"; "junk"; ""; ""; "Am  C"; "just words" ].

Definition noisy_out : text :=
  unlines [ "My Song"; "The Band"; "Key: Am"; "Capo: 3"; "Tempo: ";
            "Time: 4/4"; "Flow: "; "Tuning: Standard"; "TransposedKey: "; "";
            "Am  C"; "just words" ].

(** What the groups of [number_re] hold: the number is made of decimal
    digits. *)
Definition number_groups (i : nat) (c : ascii) : Prop :=
  i = 2 -> Py.isdecimal c = true.

(** A section header whose number is too long for [int]. *)
Definition long_number (raw : text) : Prop :=
  exists m digits,
    re_match number_re (Py.strip raw) = Some m
    /\ group 2 (caps m) = Some digits
    /\ int_max_str_digits < List.length digits.


(** ** Vocabulary of the properties of the single functions *)

(** A line as [clean_lines] leaves it: the line without the white space at
    its end. *)
Definition trimmed (out line : text) : Prop :=
  exists ws,
    line = out ++ ws /\ blank ws = true
    /\ forall s c, out = s ++ [c] -> plain c.

(** The type and the abbreviation that [parse_section_header] gives a label
    once its number is taken off: lines 44 to 68. *)
Definition kind_of (base_part : text) : text * text :=
  classify (Py.strip (Py.replace_char "-" " " (Py.lower base_part))) base_part.

(** A header that ends in white space and more than 4300 decimal digits. *)
Definition over_long (raw : text) : Prop :=
  exists base ws digits,
    Py.strip raw = base ++ ws ++ digits
    /\ ~ In nl base
    /\ ws <> [] /\ blank ws = true
    /\ forallb Py.isdecimal digits = true
    /\ int_max_str_digits < List.length digits.

(** A line that the loop of line 149 takes as a section header. *)
Definition is_header (line : text) : bool :=
  match re_match header_re (Py.strip line) with
  | Some _ => true
  | None => false
  end.

(** A letter, one or more characters of a label, and a colon. *)
Definition header_shape (s : text) : Prop :=
  exists a lab,
    s = a :: lab ++ ":"
    /\ Py.isletter a = true
    /\ lab <> [] /\ forallb label_char lab = true.

(** The label of a header line: the text before its colon. *)
Definition label_of (line : text) : text :=
  Py.strip (removelast (Py.strip line)).

(** A header line with the lines of its section. *)
Definition section_lines (p : text * section) : list text :=
  fst p :: lines (snd p).

(** A line that reads [B:] or [b:]. *)
Definition is_b_line (line : text) : bool :=
  text_eqb (Py.lower (Py.strip line)) "b:".

(** The sections read so far, the one being read included. *)
Definition sections_so_far (st : splitter) : list section :=
  sections st
  ++ match current_header st with
     | Some h => [Section_ h (current_lines st)]
     | None => []
     end.

(** What the loop of line 149 keeps true of the lines [done] it has read:
    they are the leading lines followed by every header line with the lines
    of its section, and no line kept in a section is a header. *)
Definition split_inv (done : list text) (st : splitter) : Prop :=
  headers_found st = List.length (filter is_header done)
  /\ map header (sections_so_far st) = map label_of (filter is_header done)
  /\ done
     = leading_lines st
       ++ concat (map section_lines
                      (combine (filter is_header done) (sections_so_far st)))
  /\ Forall (fun l => is_header l = false) (leading_lines st)
  /\ Forall (fun s => Forall (fun l => is_header l = false) (lines s))
            (sections_so_far st)
  /\ (current_header st = None -> sections st = []).

(** A tab without section headers whose body has a line [B:]. *)
Definition bridge_tab : text :=
  unlines [ "Song"; "Band"; "Key: C"; "Capo: 0"; "Tempo: "; "Time: "; "Flow: ";
            "Tuning: Standard"; "TransposedKey: "; "";
            "Intro"; "la la"; " b: "; "li li"; "Chorus" ].

(** The value a header line gives the field [name]: what follows the name
    and its colon, stripped; nothing when the line does not start with
    them. *)
Definition field_value (name line : text) : option text :=
  if Py.startswith (name ++ ":") line
  then Some (Py.strip (skipn (List.length (name ++ ":")) line))
  else None.

(** The value the tab supplies for the field that stands [i]-th in
    [meta_names]: that of its line 2 + i, empty when the tab is shorter
    or the line is not one of that field. *)
Definition supplied (tab : text) (i : nat) (name : text) : text :=
  match nth_error (Py.split_char nl tab) (2 + i) with
  | Some line =>
      match field_value name line with
      | Some v => v
      | None => []
      end
  | None => []
  end.

(** The distinct identifiers of a list in the order of their first
    appearance. *)
Fixpoint first_ids (l : list (text * nat)) : list (text * nat) :=
  match l with
  | [] => []
  | id :: l' => id :: filter (fun x => negb (id_eqb x id)) (first_ids l')
  end.

(** What holds of the order of the blocks after every turn of the loop of
    line 171: every entry of the registry has its place in the order, and
    the order is that in which the entries first occur. *)
Definition ordered (a : analysis) : Prop :=
  (forall id, valid_id (type_stats a) id -> In id (unique_order a))
  /\ unique_order a = first_ids (map occ_id (occurrences a)).

(** The groups of a pattern. *)
Fixpoint groups_of (r : regex) : list nat :=
  match r with
  | Rseq a b | Ralt a b => groups_of a ++ groups_of b
  | Rgroup i a => i :: groups_of a
  | _ => []
  end.

(** A root as [CHORD_RE] captures it: a letter from A to G, alone or
    followed by a sharp or a flat. *)
Definition is_root (r : text) : bool :=
  match r with
  | [c] => note_letter c
  | [c; a] => note_letter c && (is_char "#" a || is_char "b" a)
  | _ => false
  end.

(** A match state read in lower case. *)
Definition lower_state (st : mstate) : mstate :=
  MState (option_map Py.to_lower (prev st))
         (Py.lower (rest st))
         (map (fun e => (fst e, Py.lower (snd e))) (caps st)).

(** A pattern that cannot tell a letter from its other case: it has no
    literal, and its classes hold of a character when they hold of its
    lower case. *)
Fixpoint case_blind (r : regex) : Prop :=
  match r with
  | Reps | Rbegin | Rend | Rwordb => True
  | Rclass p | Rstar p | Rplus p | Rlazy p =>
      forall c, p (Py.to_lower c) = p c
  | Rlit _ => False
  | Rseq a b | Ralt a b => case_blind a /\ case_blind b
  | Rgroup _ a => case_blind a
  end.

(** A text of ASCII characters: on these the case mapping of the embedding
    ([lower] and [title]) is that of Python. *)
Definition ascii_text (s : text) : Prop :=
  Forall (fun c => Py.code c < 128) s.


(** The place of the first entry with the key [ck], counted from [idx]. *)
Fixpoint key_index (ck : text) (idx : nat) (us : list entry) : option nat :=
  match us with
  | [] => None
  | u :: us' =>
      if text_eqb (key u) ck then Some idx else key_index ck (S idx) us'
  end.

(** The qualities under which a chord token counts as minor: those of
    [qualities] that start with [m] and not with [maj]. *)
Definition minor_qualities : list text :=
  [ "min7" : text; "m7" : text; "m" : text; "min" : text; "m6" : text;
    "m9" : text ].


(** ** Vocabulary of the process *)

(** An environment that leaves the interpreter at its defaults: it sets
    none of the variables the interpreter itself reads, whose names start
    with PYTHON.  PYTHONINTMAXSTRDIGITS is one of them and moves the limit
    of [int]; PYTHONIOENCODING is another and decides what [print] can
    write. *)
Definition interpreter_defaults (env : environ) : Prop :=
  forall name : text, Py.startswith "PYTHON" name = true -> env name = None.

(** An environment that sets TAB_CONTENT only. *)
Definition verse_two_env : environ :=
  fun name => if text_eqb name "TAB_CONTENT" then Some verse_two else None.


(** ** Vocabulary of the second run *)

(** The lines a second run reads under the header of a block: the lines of
    the content as [render_block] writes them, without the white space at
    the end of the content, and the empty line that parts the block from the
    next one or ends the body. *)
Definition read_back (section_lines : list text) : list text :=
  let content := Py.rstrip (Py.join [nl] section_lines) in
  if Py.truthy content then Py.split_char nl content ++ [[]] else [[]].

(** Lines that [extract_repeated_block] does not take for a repetition. *)
Definition unrepeated (content_lines : list text) : bool :=
  snd (extract_repeated_block content_lines) =? 1.

(** Every section brought one occurrence and a unique content of its own:
    there are as many occurrences as unique contents. *)
Definition once_each (a : analysis) : bool :=
  List.length (occurrences a) =? List.length (unique_order a).

(** A display name that, followed by a colon, is a section header of the
    type and the abbreviation it was given for. *)
Definition name_reads_back (type_name abbrev name : text) : bool :=
  is_header (name ++ ":")
  && match parse_section_header name with
     | Ok (t, p, _) => text_eqb t type_name && text_eqb p abbrev
     | Raise _ => false
     end.

Definition names_read_back (a : analysis) : bool :=
  forallb
    (fun id =>
       match display_of (type_stats a) id,
             dict_get text_eqb (fst id) (type_stats a) with
       | Some d, Some st => name_reads_back (fst id) (prefix st) (display_name d)
       | _, _ => false
       end)
    (unique_order a).

(** No block is read back as a repetition of a shorter one. *)
Definition blocks_unrepeated (a : analysis) : bool :=
  forallb
    (fun id =>
       match display_of (type_stats a) id with
       | Some d => unrepeated (read_back (d_lines d))
       | None => false
       end)
    (unique_order a).

(** The content [m] has the key of none of the contents [earlier] and
    starts with the lines of none of them. *)
Definition apart (earlier : list (list text)) (m : list text) : bool :=
  forallb
    (fun e =>
       negb (text_eqb (normalize_content e) (normalize_content m))
       && negb (starts_with_lines m e))
    earlier.

Fixpoint all_apart (earlier ms : list (list text)) : bool :=
  match ms with
  | [] => true
  | m :: ms' => apart earlier m && all_apart (earlier ++ [m]) ms'
  end.

(** The unique contents of the choruses, as they are read back, are apart
    from one another. *)
Definition choruses_apart (a : analysis) : bool :=
  match dict_get text_eqb "Chorus" (type_stats a) with
  | Some st => all_apart [] (map (fun u => read_back (u_lines u)) (unique st))
  | None => true
  end.

(** The document has a key, or its body has no chord token to take one
    from. *)
Definition key_settled (d : doc) : bool :=
  Py.truthy (meta_get "Key" (d_meta d))
  || negb (Py.truthy (detect_key (d_body d))).

(** A tab with section headers whose output is read back as the tab was
    analysed. *)
Definition settled (tab artist_fb title_fb file_base : text) : bool :=
  match analyse (sections (sections_of tab artist_fb title_fb file_base)),
        rebuild_doc tab artist_fb title_fb file_base with
  | Ok a, Ok d =>
      once_each a && names_read_back a && blocks_unrepeated a
      && choruses_apart a && key_settled d
  | _, _ => false
  end.

(** A line as the registry keeps it: it has no white space at its end, it
    holds no line break and it is no section header. *)
Definition kept_line (l : text) : Prop :=
  Py.rstrip l = l /\ ~ In nl l /\ is_header l = false.

(** The name of a section type: it starts with a letter, holds the
    characters of a label only and is its own stripped form. *)
Definition type_name_ok (t : text) : Prop :=
  exists a r,
    t = a :: r
    /\ Py.isletter a = true
    /\ Forall label_ok (a :: r)
    /\ Py.strip (a :: r) = a :: r.

(** The identifiers of one type, in the order of the blocks. *)
Definition ids_of_type (t : text) (order : list (text * nat))
  : list (text * nat) :=
  filter (fun id => text_eqb (fst id) t) order.

(** The number of unique contents of a type. *)
Definition registry_size (ts : dict text stats) (t : text) : nat :=
  match dict_get text_eqb t ts with
  | Some st => List.length (unique st)
  | None => 0
  end.

(** What else holds of the registry after every turn of the loop of line
    171.  The blocks of a type stand in the order of their indices. *)
Definition sequenced (a : analysis) : Prop :=
  forall t,
    ids_of_type t (unique_order a)
    = map (fun i => (t, i)) (seq 1 (registry_size (type_stats a) t)).

(** Outside the choruses no two unique contents of a type have the same
    key. *)
Definition keys_distinct (a : analysis) : Prop :=
  forall t st,
    t <> ("Chorus" : text) ->
    dict_get text_eqb t (type_stats a) = Some st ->
    NoDup (map key (unique st)).

(** Every entry holds kept lines, and the same lines twice. *)
Definition lines_kept (a : analysis) : Prop :=
  forall t st u,
    dict_get text_eqb t (type_stats a) = Some st ->
    In u (unique st) ->
    u_lines u = lines_clean u /\ Forall kept_line (u_lines u).

Record tidy (a : analysis) : Prop := Tidy {
  tidy_sequenced : sequenced a;
  tidy_keys : keys_distinct a;
  tidy_lines : lines_kept a;
  tidy_types :
    forall t st,
      dict_get text_eqb t (type_stats a) = Some st -> type_name_ok t
}.

(** The display entry of an identifier that names an entry. *)
Definition display_at (ts : dict text stats) (id : text * nat) : display :=
  match display_of ts id with
  | Some d => d
  | None => Display [] [] [] None
  end.

(** The section a second run reads from the block of a display entry. *)
Definition reread (d : display) : section :=
  Section_ (display_name d) (read_back (d_lines d)).

(** The lines of a block and the empty line after it. *)
Definition block_lines (d : display) : list text :=
  (display_name d ++ ":") :: read_back (d_lines d).

(** A display entry whose block a second run reads as a section: the name
    holds no line break and, with its colon, is a header line that has the
    name for label; the lines are kept lines. *)
Definition block_ok (d : display) : Prop :=
  ~ In nl (display_name d)
  /\ is_header (display_name d ++ ":") = true
  /\ label_of (display_name d ++ ":") = display_name d
  /\ Forall kept_line (d_lines d).

(** The abbreviation of a type of the registry. *)
Definition prefix_at (ts : dict text stats) (t : text) : text :=
  match dict_get text_eqb t ts with
  | Some st => prefix st
  | None => []
  end.

(** The block of [id] after lines 172 to 175 of a second run: its type
    and abbreviation, the lines read back, once. *)
Definition recollapsed (ts : dict text stats) (id : text * nat) : collapsed :=
  Collapsed (fst id) (prefix_at ts (fst id))
            (read_back (d_lines (display_at ts id))) 1.

(** The entry a second run makes of it. *)
Definition reentry (ts : dict text stats) (id : text * nat) : entry :=
  Entry (normalize_content (read_back (d_lines (display_at ts id))))
        (read_back (d_lines (display_at ts id)))
        (read_back (d_lines (display_at ts id)))
        None.

(** The registry of the type [t] once a second run has read [j] blocks of
    that type. *)
Definition restats (ts : dict text stats) (t : text) (j : nat) : stats :=
  Stats (map (fun i => reentry ts (t, i)) (seq 1 j)) (prefix_at ts t) j.

(** The state of a second run that has read the blocks [done]. *)
Definition mirrors (ts : dict text stats) (done : list (text * nat))
    (a2 : analysis) : Prop :=
  unique_order a2 = done
  /\ map occ_id (occurrences a2) = done
  /\ forall t,
       dict_get text_eqb t (type_stats a2)
       = match List.length (ids_of_type t done) with
         | O => None
         | S j => Some (restats ts t (S j))
         end.

(** The blocks of a type, as they are read back, have keys of their own,
    and no chorus starts with the lines of a chorus before it. *)
Definition apart_in (ts : dict text stats) : Prop :=
  forall t i k,
    1 <= i -> i < k -> k <= registry_size ts t ->
    normalize_content (read_back (d_lines (display_at ts (t, i))))
    <> normalize_content (read_back (d_lines (display_at ts (t, k))))
    /\ (t = ("Chorus" : text) ->
        starts_with_lines (read_back (d_lines (display_at ts (t, k))))
                          (read_back (d_lines (display_at ts (t, i)))) = false).

(** Every block stands at the place of its index among those of its
    type. *)
Definition in_sequence (ts : dict text stats) (order : list (text * nat))
  : Prop :=
  forall o1 id o2,
    order = o1 ++ id :: o2 ->
    snd id = S (List.length (ids_of_type (fst id) o1))
    /\ snd id <= registry_size ts (fst id).

(** The five provisos of [settled], one by one. *)
Definition provisos (tab artist_fb title_fb file_base : text) : list bool :=
  match analyse (sections (sections_of tab artist_fb title_fb file_base)),
        rebuild_doc tab artist_fb title_fb file_base with
  | Ok a, Ok d =>
      [ once_each a; names_read_back a; blocks_unrepeated a;
        choruses_apart a; key_settled d ]
  | _, _ => []
  end.

(** Whether rebuilding the output of a tab gives the output again. *)
Definition reruns (tab artist_fb title_fb file_base : text) : bool :=
  match rebuild_formatted_tab tab artist_fb title_fb file_base with
  | Ok out =>
      match rebuild_formatted_tab out artist_fb title_fb file_base with
      | Ok again => text_eqb again out
      | Raise _ => false
      end
  | Raise _ => false
  end.

(** A tab under the usual header lines. *)
Definition tab_of (key : String.string) (body : list String.string) : text :=
  unlines ([ "Song"; "Band"; key; "Capo: 0"; "Tempo: "; "Time: "; "Flow: ";
             "Tuning: Standard"; "TransposedKey: "; "" ] ++ body)%list.

(** A tab without a title line, for a fallback title with stray spaces. *)
Definition untitled_tab : text :=
  unlines [ ""; "Band"; "Key: C"; "Capo: 0"; "Tempo: "; "Time: "; "Flow: ";
            "Tuning: Standard"; "TransposedKey: "; ""; "la la" ].

(** A section of a type of one letter beside a verse. *)
Definition one_letter_tab : text :=
  tab_of "Key: C" [ "X 1:"; "la"; "Verse:"; "li" ].

(** A verse of twice the same line around an empty line. *)
Definition gapped_verse_tab : text :=
  tab_of "Key: C" [ "Verse:"; "E"; ""; "E" ].

(** A chorus that ends in two empty lines and a chorus that goes on after
    one. *)
Definition gapped_choruses_tab : text :=
  tab_of "Key: C" [ "Chorus:"; "A"; ""; ""; "Chorus:"; "A"; ""; "B" ].

(** Two sections of a type named by a letter from A to G, in a tab without
    a key and without a chord. *)
Definition keyless_tab : text :=
  tab_of "Key: " [ "a 1:"; "la"; "a 2:"; "li" ].

(** A tab without an artist line, for a fallback artist with stray
    spaces. *)
Definition unsigned_tab : text :=
  unlines [ "Song"; ""; "Key: C"; "Capo: 0"; "Tempo: "; "Time: "; "Flow: ";
            "Tuning: Standard"; "TransposedKey: "; ""; "la la" ].


(** * Properties *)

(** ** Lists cut into blocks *)

Section Blocks.
Variable A : Type.
Implicit Types (l b : list A) (size c i : nat).

Lemma slice_skipn : forall l i j k,
  slice i j (skipn k l) = slice (i + k) (j + k) l.
Proof.
  intros l i j k. unfold slice.
  rewrite skipn_skipn. f_equal. lia.
Qed.

Lemma blocks_equal_concat : forall size c l b,
  List.length l = c * size ->
  (forall i, i < c -> slice (i * size) ((i + 1) * size) l = b) ->
  l = concat (repeat b c).
Proof.
  intros size c. induction c as [|c IH]; intros l b Hlen Hall.
  - destruct l; [reflexivity | discriminate].
  - simpl.
    rewrite <- (firstn_skipn size l) at 1.
    f_equal.
    + specialize (Hall 0 ltac:(lia)). unfold slice in Hall. simpl in Hall.
      rewrite Nat.add_0_r, Nat.sub_0_r in Hall. exact Hall.
    + apply IH.
      * rewrite length_skipn. simpl in Hlen. lia.
      * intros i Hi. rewrite slice_skipn.
        specialize (Hall (S i) ltac:(lia)).
        replace (i * size + size) with (S i * size) by lia.
        replace ((i + 1) * size + size) with ((S i + 1) * size) by lia.
        exact Hall.
Qed.

Lemma slice_concat_repeat : forall size b c i,
  List.length b = size -> i < c ->
  slice (i * size) ((i + 1) * size) (concat (repeat b c)) = b.
Proof.
  intros size b c. induction c as [|c IH]; intros i Hb Hi; [lia|].
  cbn [repeat concat]. destruct i as [|i].
  - unfold slice. cbn [Nat.mul skipn].
    replace ((0 + 1) * size - 0) with (List.length b) by lia.
    rewrite firstn_app, Nat.sub_diag, firstn_all.
    apply app_nil_r.
  - specialize (IH i Hb ltac:(lia)). unfold slice in *.
    replace (S i * size) with (List.length b + i * size) by lia.
    rewrite skipn_app.
    rewrite (skipn_all2 b) by lia.
    replace (List.length b + i * size - List.length b) with (i * size) by lia.
    cbn [app].
    replace ((S i + 1) * size - (List.length b + i * size))
      with ((i + 1) * size - i * size) by lia.
    exact IH.
Qed.
End Blocks.

(** ** extract_repeated_block *)

Lemma lines_eqb_eq : forall a b, lines_eqb a b = true <-> a = b.
Proof.
  intros a b. unfold lines_eqb.
  destruct (list_eq_dec text_eq_dec a b); split; congruence.
Qed.

Lemma text_eqb_eq : forall a b, text_eqb a b = true <-> a = b.
Proof.
  intros a b. unfold text_eqb.
  destruct (text_eq_dec a b); split; congruence.
Qed.

Lemma text_eqb_refl : forall a, text_eqb a a = true.
Proof. intros a. apply text_eqb_eq. reflexivity. Qed.

Lemma text_eqb_neq : forall a b, text_eqb a b = false <-> a <> b.
Proof.
  intros a b. unfold text_eqb.
  destruct (text_eq_dec a b); split; congruence.
Qed.

Lemma repeats_block_spec : forall l size,
  1 <= size -> List.length l mod size = 0 ->
  repeats_block l size = true
  <-> l = concat (repeat (firstn size l) (List.length l / size)).
Proof.
  intros l size Hs Hmod.
  assert (Hlen : List.length l = List.length l / size * size).
  { pose proof (Nat.div_mod_eq (List.length l) size). lia. }
  unfold repeats_block. rewrite forallb_forall. split.
  - intros H. apply blocks_equal_concat with (size := size); [exact Hlen|].
    intros i Hi. apply lines_eqb_eq. apply H. apply in_seq. lia.
  - intros H i Hi. apply in_seq in Hi. apply lines_eqb_eq.
    rewrite H at 1. apply slice_concat_repeat; [|lia].
    apply firstn_length_le.
    destruct (List.length l / size) as [|q] eqn:Hq; [lia|]. lia.
  Qed.

Lemma first_block_find : forall l sizes,
  first_block l sizes =
  match find (passes l) sizes with
  | Some size => (firstn size l, List.length l / size)
  | None => (l, 1)
  end.
Proof.
  intros l sizes. induction sizes as [|size sizes IH]; [reflexivity|].
  simpl. unfold passes at 1.
  destruct (List.length l mod size =? 0); simpl; [|exact IH].
  destruct (repeats_block l size); [reflexivity | exact IH].
Qed.

Lemma find_seq_least : forall (f : nat -> bool) len start s,
  find f (seq start len) = Some s ->
  start <= s < start + len /\ f s = true
  /\ forall s', start <= s' < s -> f s' = false.
Proof.
  intros f len. induction len as [|len IH]; intros start s H; [discriminate|].
  simpl in H. destruct (f start) eqn:Hf.
  - inversion H; subst. repeat split; try lia. exact Hf.
  - apply IH in H. destruct H as (Hr & Hs & Hleast).
    repeat split; try lia; [exact Hs|].
    intros s' Hs'. destruct (Nat.eq_dec s' start) as [->|Hne]; [exact Hf|].
    apply Hleast. lia.
Qed.

Lemma passes_period : forall l s,
  1 <= s <= List.length l / 2 -> (passes l s = true <-> is_period l s).
Proof.
  intros l s Hs. unfold passes, is_period.
  rewrite andb_true_iff, Nat.eqb_eq. split.
  - intros [Hmod Hrep]. repeat split; try lia.
    apply repeats_block_spec; [lia | exact Hmod | exact Hrep].
  - intros (_ & Hmod & Hrep). split; [exact Hmod|].
    apply repeats_block_spec; [lia | exact Hmod | exact Hrep].
Qed.

(** C5. [extract_repeated_block] returns the first [s] lines and [n / s] for
    the smallest block size [s] under which the [n] lines are their first
    [s] lines repeated, and the lines themselves with count 1 when there is no
    such size, the empty list included.  Four lines E give one E four times;
    E, F is not a repetition. *)
Theorem extract_repeated_block_smallest_period : forall l : list text,
  (forall s,
     is_period l s -> (forall s', is_period l s' -> s <= s') ->
     extract_repeated_block l = (firstn s l, List.length l / s))
  /\ ((forall s, ~ is_period l s) -> extract_repeated_block l = (l, 1))
  /\ extract_repeated_block ["E" : text; "E" : text; "E" : text; "E" : text]
     = (["E" : text], 4)
  /\ extract_repeated_block ["E" : text; "F" : text]
     = (["E" : text; "F" : text], 1).
Proof.
  intros l. split; [|split; [|split; reflexivity]].
  - intros s Hper Hmin. unfold extract_repeated_block.
    destruct (List.length l =? 0) eqn:Hn.
    + apply Nat.eqb_eq in Hn. destruct Hper as (Hr & _). rewrite Hn in Hr.
      simpl in Hr. lia.
    + rewrite first_block_find.
      destruct (find (passes l) (seq 1 (List.length l / 2))) as [s0|] eqn:Hfind.
      * apply find_seq_least in Hfind. destruct Hfind as (Hr0 & Hp0 & Hleast).
        assert (Hper0 : is_period l s0) by (apply passes_period; [lia | exact Hp0]).
        assert (s0 = s).
        { pose proof (Hmin s0 Hper0).
          destruct (Nat.eq_dec s0 s) as [|Hne]; [assumption|].
          assert (Hlt : 1 <= s < s0) by (destruct Hper; lia).
          apply Hleast in Hlt.
          assert (passes l s = true) by (apply passes_period; [destruct Hper; lia | exact Hper]).
          congruence. }
        subst. reflexivity.
      * exfalso.
        assert (In s (seq 1 (List.length l / 2))) by (apply in_seq; destruct Hper; lia).
        pose proof (find_none _ _ Hfind s H) as Hno.
        assert (passes l s = true) by (apply passes_period; [destruct Hper; lia | exact Hper]).
        congruence.
  - intros Hnone. unfold extract_repeated_block.
    destruct (List.length l =? 0); [reflexivity|].
    rewrite first_block_find.
    destruct (find (passes l) (seq 1 (List.length l / 2))) as [s0|] eqn:Hfind;
      [|reflexivity].
    apply find_seq_least in Hfind. destruct Hfind as (Hr0 & Hp0 & _).
    exfalso. apply (Hnone s0). apply passes_period; [lia | exact Hp0].
Qed.


(** ** Dictionaries *)

Section DictFacts.
Variables K V : Type.
Variable eqb : K -> K -> bool.
Hypothesis eqb_eq : forall a b, eqb a b = true <-> a = b.

Lemma eqb_refl : forall a, eqb a a = true.
Proof. intros a. apply eqb_eq. reflexivity. Qed.

Lemma eqb_neq : forall a b, a <> b -> eqb a b = false.
Proof.
  intros a b H. destruct (eqb a b) eqn:E; [|reflexivity].
  apply eqb_eq in E. contradiction.
Qed.

Lemma dict_get_set : forall (d : dict K V) k k' v,
  dict_get eqb k (dict_set eqb k' v d)
  = if eqb k k' then Some v else dict_get eqb k d.
Proof.
  intros d k k' v. induction d as [|[k0 v0] d IH]; simpl.
  - reflexivity.
  - destruct (eqb k' k0) eqn:E'; simpl.
    + apply eqb_eq in E'. subst k0. destruct (eqb k k'); reflexivity.
    + destruct (eqb k k0) eqn:E.
      * apply eqb_eq in E. subst k0.
        destruct (eqb k k') eqn:E2; [|reflexivity].
        apply eqb_eq in E2. subst k'. rewrite eqb_refl in E'. discriminate.
      * exact IH.
Qed.

Lemma dict_get_some_in : forall (d : dict K V) k v,
  dict_get eqb k d = Some v -> In (k, v) d.
Proof.
  intros d k v. induction d as [|[k0 v0] d IH]; simpl; [discriminate|].
  destruct (eqb k k0) eqn:E.
  - apply eqb_eq in E. subst. intros H. inversion H. left. reflexivity.
  - intros H. right. apply IH. exact H.
Qed.

Lemma dict_get_none : forall (d : dict K V) k,
  dict_get eqb k d = None <-> ~ In k (map fst d).
Proof.
  intros d k. induction d as [|[k0 v0] d IH]; simpl.
  - split; [intros _ []| reflexivity].
  - destruct (eqb k k0) eqn:E.
    + apply eqb_eq in E. subst. split; [discriminate|].
      intros H. exfalso. apply H. left. reflexivity.
    + rewrite IH. split.
      * intros H [H1|H1]; [|contradiction].
        subst. rewrite eqb_refl in E. discriminate.
      * intros H H1. apply H. right. exact H1.
Qed.

Lemma dict_get_in : forall (d : dict K V) k v,
  NoDup (map fst d) -> In (k, v) d -> dict_get eqb k d = Some v.
Proof.
  intros d k v. induction d as [|[k0 v0] d IH]; simpl; [intros _ []|].
  intros Hnd [H|H].
  - inversion H; subst. rewrite eqb_refl. reflexivity.
  - inversion Hnd; subst.
    destruct (eqb k k0) eqn:E.
    + apply eqb_eq in E. subst. exfalso. apply H2.
      apply in_map_iff. exists (k0, v). split; [reflexivity | exact H].
    + apply IH; assumption.
Qed.

Lemma dict_set_keys : forall (d : dict K V) k v,
  map fst (dict_set eqb k v d)
  = match dict_get eqb k d with
    | Some _ => map fst d
    | None => map fst d ++ [k]
    end.
Proof.
  intros d k v. induction d as [|[k0 v0] d IH]; simpl; [reflexivity|].
  destruct (eqb k k0) eqn:E; simpl; [reflexivity|].
  rewrite IH. destruct (dict_get eqb k d); reflexivity.
Qed.

Lemma dict_set_nodup : forall (d : dict K V) k v,
  NoDup (map fst d) -> NoDup (map fst (dict_set eqb k v d)).
Proof.
  intros d k v H. rewrite dict_set_keys.
  destruct (dict_get eqb k d) eqn:E; [exact H|].
  apply dict_get_none in E.
  apply NoDup_app; [exact H | constructor; [intros []|constructor] |].
  intros x Hx [Hk|[]]. subst. contradiction.
Qed.

(** Setting a key in a dictionary tabulated from its keys. *)
Lemma dict_set_tabulate : forall (keys : list K) (f : K -> V) k v,
  NoDup keys ->
  forall g : K -> V,
  g k = v -> (forall x, x <> k -> g x = f x) ->
  dict_set eqb k v (map (fun x => (x, f x)) keys)
  = map (fun x => (x, g x)) keys
    ++ (if existsb (eqb k) keys then [] else [(k, v)]).
Proof.
  intros keys f k v Hnd g Hk Hg.
  induction keys as [|x keys IH]; simpl; [reflexivity|].
  inversion Hnd; subst.
  destruct (eqb k x) eqn:E; simpl.
  - apply eqb_eq in E. subst x. rewrite app_nil_r. f_equal.
    apply map_ext_in. intros y Hy. f_equal. symmetry. apply Hg.
    intros ->. contradiction.
  - rewrite (IH H2). f_equal. f_equal. symmetry. apply Hg.
    intros ->. rewrite eqb_refl in E. discriminate.
Qed.

Lemma dict_get_tabulate : forall (keys : list K) (f : K -> V) k,
  dict_get eqb k (map (fun x => (x, f x)) keys)
  = if existsb (eqb k) keys then Some (f k) else None.
Proof.
  intros keys f k. induction keys as [|x keys IH]; simpl; [reflexivity|].
  destruct (eqb k x) eqn:E; simpl; [|exact IH].
  apply eqb_eq in E. subst. reflexivity.
Qed.

Lemma existsb_eqb_in : forall (keys : list K) k,
  existsb (eqb k) keys = true <-> In k keys.
Proof.
  intros keys k. rewrite existsb_exists. split.
  - intros (x & Hx & E). apply eqb_eq in E. subst. exact Hx.
  - intros H. exists k. split; [exact H | apply eqb_refl].
Qed.
End DictFacts.

(** ** first_seen *)

Lemma first_seen_in : forall l x, In x (first_seen l) <-> In x l.
Proof.
  induction l as [|r l IH]; intros x; simpl; [tauto|].
  split.
  - intros [H|H]; [left; exact H|].
    apply in_remove in H. right. apply IH. apply H.
  - intros [H|H]; [left; exact H|].
    destruct (text_eq_dec r x) as [E|E]; [left; exact E|].
    right. apply in_in_remove; [congruence | apply IH; exact H].
Qed.

Lemma nodup_remove : forall (l : list text) r, NoDup l -> NoDup (remove text_eq_dec r l).
Proof.
  induction l as [|x l IH]; intros r H; simpl; [constructor|].
  inversion H; subst.
  destruct (text_eq_dec r x); [apply IH; assumption|].
  constructor; [|apply IH; assumption].
  intros Hin. apply in_remove in Hin. tauto.
Qed.

Lemma first_seen_nodup : forall l, NoDup (first_seen l).
Proof.
  induction l as [|r l IH]; simpl; constructor.
  - apply remove_In.
  - apply nodup_remove. exact IH.
Qed.

Lemma first_seen_snoc : forall l r,
  first_seen (l ++ [r])
  = if in_dec text_eq_dec r l then first_seen l else first_seen l ++ [r].
Proof.
  induction l as [|x l IH]; intros r; simpl.
  - destruct (text_eq_dec r r); [reflexivity | congruence].
  - rewrite IH.
    destruct (text_eq_dec x r) as [E|E].
    + subst. destruct (in_dec text_eq_dec r l); [reflexivity|].
      rewrite remove_app. simpl.
      destruct (text_eq_dec r r); [|congruence].
      rewrite app_nil_r. reflexivity.
    + destruct (in_dec text_eq_dec r l); [reflexivity|].
      rewrite remove_app. simpl.
      destruct (text_eq_dec x r); [congruence|]. reflexivity.
Qed.

Lemma remove_split : forall (r : text) X A b B,
  remove text_eq_dec r X = A ++ b :: B ->
  exists A' B', X = A' ++ b :: B' /\ remove text_eq_dec r A' = A.
Proof.
  intros r X. induction X as [|x X IH]; intros A b B H; simpl in H.
  - destruct A; discriminate.
  - destruct (text_eq_dec r x) as [E|E].
    + apply IH in H. destruct H as (A' & B' & -> & HA).
      exists (x :: A'), B'. split; [reflexivity|].
      simpl. destruct (text_eq_dec r x); [exact HA | congruence].
    + destruct A as [|a A]; simpl in H.
      * inversion H; subst. exists [], X. split; reflexivity.
      * inversion H; subst. apply IH in H2.
        destruct H2 as (A' & B' & -> & HA).
        exists (a :: A'), B'. split; [reflexivity|].
        simpl. destruct (text_eq_dec r a); [congruence|]. rewrite HA. reflexivity.
Qed.

(** A key of the dictionary stands after the keys of everything read before
    its first appearance. *)
Lemma first_seen_split : forall l k1 b k2,
  first_seen l = k1 ++ b :: k2 ->
  exists pre post,
    l = pre ++ b :: post /\ ~ In b pre /\ forall r, In r pre -> In r k1.
Proof.
  induction l as [|x l IH]; intros k1 b k2 H; simpl in H.
  - destruct k1; discriminate.
  - destruct k1 as [|a k1]; simpl in H.
    + inversion H; subst. exists [], l. repeat split; [intros []|intros r []].
    + inversion H; subst.
      assert (Hb : b <> a).
      { intros ->. apply (remove_In text_eq_dec (first_seen l) a).
        rewrite H2. apply in_elt. }
      apply remove_split in H2. destruct H2 as (A' & B' & HX & HA).
      apply IH in HX. destruct HX as (pre & post & -> & Hnot & Hpre).
      exists (a :: pre), post. repeat split.
      * intros [E|E]; [congruence | contradiction].
      * intros r [E|E]; [left; exact E|].
        destruct (text_eq_dec a r) as [E'|E']; [left; exact E'|].
        right. rewrite <- HA. apply in_in_remove; [congruence|].
        apply Hpre. exact E.
Qed.


(** ** detect_key *)

Lemma occurrences_of_snoc : forall l r x,
  occurrences_of r (l ++ [x])
  = occurrences_of r l + (if text_eq_dec x r then 1 else 0).
Proof.
  intros l r x. unfold occurrences_of. rewrite count_occ_app. simpl.
  destruct (text_eq_dec x r); reflexivity.
Qed.

Lemma count_of_set : forall (d : counts) r k v,
  count_of r (dict_set text_eqb k v d)
  = if text_eqb r k then v else count_of r d.
Proof.
  intros d r k v. unfold count_of.
  rewrite (dict_get_set text_eqb text_eqb_eq).
  destruct (text_eqb r k); reflexivity.
Qed.

Lemma count_of_tabulate : forall l r,
  count_of r (map (fun x => (x, occurrences_of x l)) (first_seen l))
  = occurrences_of r l.
Proof.
  intros l r. unfold count_of. rewrite dict_get_tabulate by apply text_eqb_eq.
  destruct (existsb (text_eqb r) (first_seen l)) eqn:E; [reflexivity|].
  symmetry. apply count_occ_not_In. intros H.
  apply (proj2 (first_seen_in _ _)) in H.
  apply (existsb_eqb_in text_eqb text_eqb_eq) in H. congruence.
Qed.

Lemma tally_roots : forall ms,
  fst (fold_left tally ms ([], []))
  = map (fun r => (r, occurrences_of r (map root_of ms)))
        (first_seen (map root_of ms)).
Proof.
  intros ms. induction ms as [|m ms IH] using rev_ind; [reflexivity|].
  rewrite fold_left_app. simpl.
  destruct (fold_left tally ms ([], [])) as [rc mc]. simpl in IH. subst rc.
  unfold tally at 1. cbn [fst].
  rewrite count_of_tabulate, map_app. cbn [map].
  set (roots := map root_of ms). set (r := root_of m).
  rewrite (@dict_set_tabulate _ _ text_eqb text_eqb_eq (first_seen roots) _ r _
             (first_seen_nodup roots)
             (fun x => occurrences_of x (roots ++ [r]))).
  - rewrite first_seen_snoc.
    destruct (in_dec text_eq_dec r roots) as [Hin|Hin].
    + apply (proj2 (first_seen_in _ _)) in Hin.
      apply (existsb_eqb_in text_eqb text_eqb_eq) in Hin. rewrite Hin.
      apply app_nil_r.
    + destruct (existsb (text_eqb r) (first_seen roots)) eqn:E.
      * apply (existsb_eqb_in text_eqb text_eqb_eq) in E.
        apply (proj1 (first_seen_in _ _)) in E. exfalso. apply Hin. exact E.
      * rewrite map_app. simpl. rewrite occurrences_of_snoc.
        destruct (text_eq_dec r r); [reflexivity | congruence].
  - rewrite occurrences_of_snoc. destruct (text_eq_dec r r); [reflexivity|congruence].
  - intros x Hx. rewrite occurrences_of_snoc.
    destruct (text_eq_dec r x); [congruence | lia].
Qed.

Lemma tally_minors : forall ms r,
  count_of r (snd (fold_left tally ms ([], [])))
  = occurrences_of r (map root_of (filter is_minor ms)).
Proof.
  intros ms r. induction ms as [|m ms IH] using rev_ind; [reflexivity|].
  rewrite fold_left_app, filter_app. simpl.
  destruct (fold_left tally ms ([], [])) as [rc mc]. simpl in IH.
  unfold tally at 1. cbn [snd].
  destruct (is_minor m).
  - rewrite count_of_set, map_app. simpl. rewrite occurrences_of_snoc.
    destruct (text_eqb r (root_of m)) eqn:E.
    + apply text_eqb_eq in E. subst r.
      destruct (text_eq_dec (root_of m) (root_of m)); [|congruence].
      rewrite <- IH. reflexivity.
    + apply text_eqb_neq in E.
      destruct (text_eq_dec (root_of m) r); [congruence|]. lia.
  - rewrite app_nil_r. exact IH.
Qed.

(** [max_item] returns the first item of greatest count. *)
Lemma max_item_first : forall items best,
  exists l1 l2,
    best :: items = l1 ++ max_item best items :: l2
    /\ (forall x, In x l1 -> snd x < snd (max_item best items))
    /\ (forall x, In x l2 -> snd x <= snd (max_item best items))
    /\ snd best <= snd (max_item best items).
Proof.
  induction items as [|it items IH]; intros best; simpl.
  - exists [], []. repeat split; try (intros x []); lia.
  - destruct (snd best <? snd it) eqn:E.
    + apply Nat.ltb_lt in E.
      destruct (IH it) as (l1 & l2 & Heq & H1 & H2 & H3).
      exists (best :: l1), l2. repeat split.
      * simpl. rewrite Heq. reflexivity.
      * intros x [<-|Hx]; [lia | apply H1; exact Hx].
      * exact H2.
      * lia.
    + apply Nat.ltb_ge in E.
      destruct (IH best) as (l1 & l2 & Heq & H1 & H2 & H3).
      destruct l1 as [|a l1]; simpl in Heq.
      * injection Heq as Hb Hl. exists [], (it :: items).
        repeat split.
        -- simpl. rewrite <- Hb. reflexivity.
        -- intros x [].
        -- rewrite <- Hb. intros x [<-|Hx]; [exact E|].
           rewrite Hb. apply H2. rewrite <- Hl. exact Hx.
        -- lia.
      * injection Heq as Ha Hl. subst a.
        exists (best :: it :: l1), l2. repeat split.
        -- simpl. do 2 f_equal. exact Hl.
        -- intros x [<-|[<-|Hx]].
           ++ apply H1. left. reflexivity.
           ++ specialize (H1 best (or_introl eq_refl)). lia.
           ++ apply H1. right. exact Hx.
        -- exact H2.
        -- exact H3.
Qed.

(** C6. [detect_key] returns the empty string when the body has no chord
    token.  Otherwise it returns the root [best] that occurs most often, the
    first such root in the order in which the roots appear in the body
    (every root that appears before it occurs strictly less often), followed
    by m exactly when at least half of its occurrences are minor chords.  The
    two bodies of the specification give Am and G. *)
Theorem detect_key_dominant_root : forall body : text,
  (chord_roots body = [] -> detect_key body = [])
  /\ (chord_roots body <> [] ->
      exists best pre post,
        chord_roots body = pre ++ best :: post
        /\ ~ In best pre
        /\ (forall r, In r pre ->
              occurrences_of r (chord_roots body)
              < occurrences_of best (chord_roots body))
        /\ (forall r, In r (chord_roots body) ->
              occurrences_of r (chord_roots body)
              <= occurrences_of best (chord_roots body))
        /\ (occurrences_of best (chord_roots body)
              <= 2 * occurrences_of best (minor_roots body) ->
            detect_key body = best ++ "m")
        /\ (2 * occurrences_of best (minor_roots body)
              < occurrences_of best (chord_roots body) ->
            detect_key body = best))
  /\ detect_key "Am F C G Am F C G" = "Am"
  /\ detect_key "G D Em C" = "G".
Proof.
  intros body. split; [|split; [|split; vm_compute; reflexivity]].
  - unfold chord_roots, detect_key. intros H.
    apply map_eq_nil in H. rewrite H. reflexivity.
  - intros Hne. unfold detect_key.
    pose proof (tally_roots (finditer CHORD_RE body)) as Hr.
    pose proof (tally_minors (finditer CHORD_RE body)) as Hm.
    fold (chord_roots body) in Hr. fold (minor_roots body) in Hm.
    destruct (fold_left tally (finditer CHORD_RE body) ([], [])) as [rc mc].
    cbn [fst snd] in Hr, Hm.
    set (roots := chord_roots body) in *.
    destruct rc as [|first others].
    { exfalso. destruct (first_seen roots) eqn:E; [|discriminate].
      destruct roots as [|r roots']; [congruence | discriminate]. }
    destruct (max_item_first others first) as (l1 & l2 & Heq & H1 & H2 & _).
    set (bn := max_item first others) in *.
    assert (Hin : In bn (first :: others)) by (rewrite Heq; apply in_elt).
    assert (Hcount : forall x, In x (first :: others) ->
                snd x = occurrences_of (fst x) roots).
    { intros x Hx. rewrite Hr in Hx. apply in_map_iff in Hx.
      destruct Hx as (r & <- & _). reflexivity. }
    assert (Hkeys : first_seen roots = map fst l1 ++ fst bn :: map fst l2).
    { transitivity (map fst (first :: others)).
      - rewrite Hr, map_map. simpl. symmetry. apply map_id.
      - rewrite Heq, map_app. reflexivity. }
    destruct (first_seen_split _ _ _ _ Hkeys) as (pre & post & Hsplit & Hnot & Hpre).
    assert (Hbest : count_of (fst bn) (first :: others) = occurrences_of (fst bn) roots).
    { rewrite Hr. apply count_of_tabulate. }
    assert (Hpos : 0 < occurrences_of (fst bn) roots).
    { unfold occurrences_of. apply count_occ_In. rewrite Hsplit. apply in_elt. }
    exists (fst bn), pre, post. repeat split.
    + exact Hsplit.
    + exact Hnot.
    + intros r Hrin. apply Hpre in Hrin. apply in_map_iff in Hrin.
      destruct Hrin as (x & <- & Hx).
      rewrite <- (Hcount x), <- (Hcount bn); [apply H1; exact Hx | exact Hin |].
      rewrite Heq. apply in_or_app. left. exact Hx.
    + intros r Hrin. apply (proj2 (first_seen_in _ _)) in Hrin. rewrite Hkeys in Hrin.
      apply in_app_or in Hrin. destruct Hrin as [Hrin|[<-|Hrin]].
      * apply in_map_iff in Hrin. destruct Hrin as (x & <- & Hx).
        rewrite <- (Hcount x), <- (Hcount bn);
          [apply Nat.lt_le_incl, H1; exact Hx | exact Hin |].
        rewrite Heq. apply in_or_app. left. exact Hx.
      * lia.
      * apply in_map_iff in Hrin. destruct Hrin as (x & <- & Hx).
        rewrite <- (Hcount x), <- (Hcount bn); [apply H2; exact Hx | exact Hin |].
        rewrite Heq. apply in_or_app. right. right. exact Hx.
    + intros Hhalf. rewrite Hbest, Hm.
      apply Nat.ltb_lt in Hpos. rewrite Hpos.
      apply Nat.leb_le in Hhalf. rewrite Hhalf. reflexivity.
    + intros Hhalf. rewrite Hbest, Hm.
      apply Nat.leb_gt in Hhalf. rewrite Hhalf, andb_false_r. reflexivity.
Qed.

(** The theorem at a body with chords. *)
Lemma detect_key_dominant_root_witness :
  chord_roots "G D Em C" <> []
  /\ exists best pre post,
       chord_roots "G D Em C" = pre ++ best :: post /\ ~ In best pre.
Proof.
  assert (H : chord_roots "G D Em C" <> []) by (vm_compute; discriminate).
  split; [exact H|].
  destruct (proj1 (proj2 (detect_key_dominant_root "G D Em C")) H)
    as (best & pre & post & H1 & H2 & _).
  exists best, pre, post. split; assumption.
Defined.


(** ** The registry *)

Lemma find_extension_range : forall idx k us jdx j,
  find_extension idx k jdx us = Some j ->
  jdx <= j < jdx + List.length us
  /\ exists u, nth_error us (j - jdx) = Some u
               /\ is_extension_of idx u = true /\ key u = k.
Proof.
  intros idx k us. induction us as [|u us IH]; intros jdx j H; simpl in H.
  - discriminate.
  - destruct (is_extension_of idx u && text_eqb (key u) k) eqn:E.
    + inversion H; subst. apply andb_true_iff in E. destruct E as [E1 E2].
      apply text_eqb_eq in E2. simpl. split; [lia|].
      rewrite Nat.sub_diag. exists u. repeat split; assumption.
    + apply IH in H. destruct H as (Hr & u' & Hn & H1 & H2).
      simpl. split; [lia|].
      exists u'. repeat split; try assumption.
      replace (j - jdx) with (S (j - S jdx)) by lia. exact Hn.
Qed.

Lemma find_extension_none : forall idx k us jdx,
  find_extension idx k jdx us = None ->
  forall u, In u us -> is_extension_of idx u = true -> key u <> k.
Proof.
  intros idx k us. induction us as [|u us IH]; intros jdx H u' Hin Hext; simpl in *.
  - contradiction.
  - destruct (is_extension_of idx u && text_eqb (key u) k) eqn:E; [discriminate|].
    destruct Hin as [<-|Hin].
    + rewrite Hext in E. simpl in E. apply text_eqb_neq. exact E.
    + apply (IH (S jdx)); assumption.
Qed.

(** What [scan_unique] returns, read off its definition. *)
Lemma scan_unique_reuse : forall ch all cc ck us start idx,
  scan_unique ch all cc ck start us = Reuse idx ->
  start <= idx < start + List.length us \/ 1 <= idx <= List.length all.
Proof.
  intros ch all cc ck us. induction us as [|u us IH]; intros start idx H; simpl in H.
  - discriminate.
  - destruct (text_eqb (key u) ck).
    { inversion H; subst. left. simpl. lia. }
    destruct (ch && starts_with_lines cc (lines_clean u)).
    + destruct (text_eqb _ []).
      { inversion H; subst. left. simpl. lia. }
      destruct (find_extension _ _ 1 all) as [j|] eqn:F; [|discriminate].
      inversion H; subst. apply find_extension_range in F. right. lia.
    + apply IH in H. simpl. destruct H; [left; lia | right; assumption].
Qed.

Lemma scan_unique_extend : forall ch all cc ck us start e,
  scan_unique ch all cc ck start us = Extend e ->
  exists idx l,
    start <= idx < start + List.length us
    /\ e = Entry (normalize_content l) l l (Some idx).
Proof.
  intros ch all cc ck us. induction us as [|u us IH]; intros start e H; simpl in H.
  - discriminate.
  - destruct (text_eqb (key u) ck); [discriminate|].
    destruct (ch && starts_with_lines cc (lines_clean u)).
    + destruct (text_eqb _ []); [discriminate|].
      destruct (find_extension _ _ 1 all); [discriminate|].
      inversion H; subst. eexists start, _. split; [simpl; lia | reflexivity].
    + apply IH in H. destruct H as (idx & l & Hr & He).
      exists idx, l. split; [simpl; lia | exact He].
Qed.

Lemma registry_after_grows : forall a c,
  exists tail, registry_after a c = unique (stats_of a c) ++ tail.
Proof.
  intros a c. unfold registry_after.
  destruct (resolve a c); eexists; [symmetry; apply app_nil_r | reflexivity..].
Qed.

Lemma match_idx_range : forall a c,
  1 <= match_idx a c <= List.length (registry_after a c).
Proof.
  intros a c. unfold match_idx, registry_after.
  destruct (resolve a c) as [idx|e|] eqn:R.
  - unfold resolve in R. apply scan_unique_reuse in R. lia.
  - rewrite length_app. simpl. lia.
  - rewrite length_app. simpl. lia.
Qed.

Lemma stats_of_get : forall a c st,
  dict_get text_eqb (c_type c) (type_stats a) = Some st -> stats_of a c = st.
Proof. intros a c st H. unfold stats_of. rewrite H. reflexivity. Qed.

Lemma stats_of_fresh : forall a c,
  dict_get text_eqb (c_type c) (type_stats a) = None ->
  stats_of a c = Stats [] (c_abbrev c) 0.
Proof. intros a c H. unfold stats_of. rewrite H. reflexivity. Qed.

Lemma place_get : forall a c t,
  dict_get text_eqb t (type_stats (place a c))
  = if text_eqb t (c_type c)
    then Some (Stats (registry_after a c) (prefix (stats_of a c))
                     (count (stats_of a c) + repeat_count c))
    else dict_get text_eqb t (type_stats a).
Proof.
  intros a c t. unfold place. cbn [type_stats].
  apply (dict_get_set text_eqb text_eqb_eq).
Qed.

Lemma place_keeps_valid : forall a c id,
  valid_id (type_stats a) id -> valid_id (type_stats (place a c)) id.
Proof.
  intros a c [t i] (st & Hget & Hr). unfold valid_id. cbn [fst snd] in *.
  rewrite place_get. destruct (text_eqb t (c_type c)) eqn:E.
  - apply text_eqb_eq in E. subst t.
    eexists. split; [reflexivity|]. cbn [unique].
    destruct (registry_after_grows a c) as (tail & ->).
    rewrite (stats_of_get _ _ Hget), length_app. lia.
  - exists st. split; assumption.
Qed.

Lemma place_new_valid : forall a c,
  valid_id (type_stats (place a c)) (c_type c, match_idx a c).
Proof.
  intros a c. unfold valid_id. cbn [fst snd].
  rewrite place_get, text_eqb_refl.
  eexists. split; [reflexivity|]. cbn [unique]. apply match_idx_range.
Qed.

Lemma entries_ok_nil : entries_ok [].
Proof. intros j u H. destruct j; discriminate. Qed.

Lemma entries_ok_snoc : forall us e,
  entries_ok us ->
  key e = normalize_content (lines_clean e) ->
  (forall i, extension_of e = Some i -> 1 <= i <= List.length us) ->
  entries_ok (us ++ [e]).
Proof.
  intros us e Hus Hk He j u Hn.
  destruct (Nat.lt_ge_cases j (List.length us)) as [Hlt|Hge].
  - rewrite nth_error_app1 in Hn by exact Hlt. apply Hus. exact Hn.
  - rewrite nth_error_app2 in Hn by exact Hge.
    destruct (j - List.length us) as [|n] eqn:Hj; simpl in Hn.
    + inversion Hn; subst u. split; [exact Hk|].
      intros i Hi. apply He in Hi. lia.
    + destruct n; discriminate.
Qed.

Lemma stats_of_entries_ok : forall a c,
  wf a -> entries_ok (unique (stats_of a c)).
Proof.
  intros a c Hwf. unfold stats_of.
  destruct (dict_get text_eqb (c_type c) (type_stats a)) eqn:E.
  - apply (wf_entries Hwf _ E).
  - apply entries_ok_nil.
Qed.

Lemma registry_after_ok : forall a c,
  wf a -> entries_ok (registry_after a c).
Proof.
  intros a c Hwf. pose proof (stats_of_entries_ok c Hwf) as Hus.
  unfold registry_after. destruct (resolve a c) as [idx|e|] eqn:R.
  - exact Hus.
  - unfold resolve in R. apply scan_unique_extend in R.
    destruct R as (idx & l & Hr & ->).
    apply entries_ok_snoc; [exact Hus | reflexivity |].
    cbn [extension_of]. intros i Hi. inversion Hi; subst. lia.
  - apply entries_ok_snoc; [exact Hus | reflexivity |].
    cbn [extension_of]. discriminate.
Qed.

Lemma occurrences_of_type_app : forall t l1 l2,
  occurrences_of_type t (l1 ++ l2)
  = occurrences_of_type t l1 + occurrences_of_type t l2.
Proof.
  intros t l1 l2. unfold occurrences_of_type.
  rewrite filter_app, length_app. reflexivity.
Qed.

Lemma occurrences_of_type_repeat : forall t o n,
  occurrences_of_type t (repeat o n)
  = if text_eqb (o_type o) t then n else 0.
Proof.
  intros t o n. unfold occurrences_of_type.
  induction n as [|n IH]; simpl.
  - destruct (text_eqb (o_type o) t); reflexivity.
  - destruct (text_eqb (o_type o) t) eqn:E; simpl; [rewrite IH|]; congruence.
Qed.

Lemma no_occurrence_of_absent_type : forall a t,
  wf a -> dict_get text_eqb t (type_stats a) = None ->
  occurrences_of_type t (occurrences a) = 0.
Proof.
  intros a t Hwf Hnone. pose proof (wf_occs Hwf) as Hoccs.
  unfold occurrences_of_type.
  induction (occurrences a) as [|o occs IH]; [reflexivity|].
  inversion Hoccs; subst. simpl.
  destruct (text_eqb (o_type o) t) eqn:E.
  - apply text_eqb_eq in E. subst t.
    destruct H1 as (st & Hget & _). cbn [fst] in Hget. congruence.
  - apply IH. assumption.
Qed.

Lemma place_wf : forall a c, wf a -> wf (place a c).
Proof.
  intros a c Hwf. constructor.
  - unfold place. cbn [type_stats].
    apply (dict_set_nodup text_eqb text_eqb_eq). apply (wf_keys Hwf).
  - unfold place at 2. cbn [occurrences]. apply Forall_app. split.
    + eapply Forall_impl; [|apply (wf_occs Hwf)].
      intros o Ho. apply place_keeps_valid. exact Ho.
    + apply Forall_forall. intros o Ho. apply repeat_spec in Ho. subst o.
      cbn [o_type unique_idx]. apply place_new_valid.
  - assert (Hold : Forall (valid_id (type_stats (place a c))) (unique_order a)).
    { eapply Forall_impl; [|apply (wf_order Hwf)].
      intros id Hid. apply place_keeps_valid. exact Hid. }
    unfold place at 2. cbn [unique_order].
    destruct (resolve a c); [exact Hold | |];
      unfold add_unique_id;
      (destruct (existsb _ (unique_order a)); [exact Hold|]);
      (apply Forall_app; split; [exact Hold|]);
      (constructor; [apply place_new_valid | constructor]).
  - intros t st Hget. rewrite place_get in Hget.
    destruct (text_eqb t (c_type c)).
    + inversion Hget; subst st. cbn [unique]. apply registry_after_ok. exact Hwf.
    + apply (wf_entries Hwf _ Hget).
  - intros t st Hget. rewrite place_get in Hget.
    unfold place. cbn [occurrences].
    rewrite occurrences_of_type_app, occurrences_of_type_repeat. cbn [o_type].
    destruct (text_eqb t (c_type c)) eqn:E.
    + apply text_eqb_eq in E. subst t. rewrite text_eqb_refl.
      inversion Hget; subst st. cbn [count]. f_equal.
      destruct (dict_get text_eqb (c_type c) (type_stats a)) as [st0|] eqn:G.
      * rewrite (stats_of_get _ _ G). apply (wf_count Hwf _ G).
      * rewrite (stats_of_fresh _ _ G). cbn [count]. symmetry.
        apply no_occurrence_of_absent_type; assumption.
    + assert (text_eqb (c_type c) t = false) as ->.
      { apply text_eqb_neq. apply text_eqb_neq in E. congruence. }
      rewrite Nat.add_0_r. apply (wf_count Hwf _ Hget).
Qed.

Lemma wf_empty : wf (Analysis [] [] []).
Proof.
  constructor; cbn; try constructor; intros; discriminate.
Qed.

Lemma analyse_from_wf : forall secs a a',
  wf a -> analyse_from a secs = Ok a' -> wf a'.
Proof.
  induction secs as [|s secs IH]; intros a a' Hwf H; simpl in H.
  - inversion H; subst. exact Hwf.
  - unfold analyse_section in H. destruct (collapse s) as [c|e]; simpl in H.
    + apply IH in H; [exact H | apply place_wf; exact Hwf].
    + discriminate.
Qed.

Lemma analyse_wf : forall secs a, analyse secs = Ok a -> wf a.
Proof. intros secs a H. apply (analyse_from_wf _ wf_empty H). Qed.


(** ** The display map *)

Lemma id_eqb_eq : forall a b, id_eqb a b = true <-> a = b.
Proof.
  intros [t i] [t' i']. unfold id_eqb. cbn [fst snd].
  rewrite andb_true_iff, text_eqb_eq, Nat.eqb_eq.
  split; [intros [-> ->]; reflexivity | intros H; inversion H; auto].
Qed.

Lemma display_entry_numbered : forall t st idx u,
  1 <= idx ->
  display_entry t st (numbered t st) idx u = numbered_display t st idx u.
Proof.
  intros t st idx u Hidx. unfold display_entry, numbered_display, numbered.
  destruct (1 <? List.length (unique st)); cbn [orb].
  - unfold number_truthy, number_text.
    destruct idx; [lia|]. reflexivity.
  - destruct ((1 <? count st) && in_numbering_types t).
    + unfold number_truthy, number_text. destruct idx; [lia|]. reflexivity.
    + reflexivity.
Qed.

(** The entries one type adds to the display map. *)
Lemma display_fold_get :
  forall tn (f : nat -> entry -> display) us start (dm : display_map) t i,
  dict_get id_eqb (t, i)
    (fold_left (fun dm '(idx, u) => dict_set id_eqb (tn, idx) (f idx u) dm)
               (enumerate start us) dm)
  = match (if text_eqb t tn && (start <=? i)
           then nth_error us (i - start) else None) with
    | Some u => Some (f i u)
    | None => dict_get id_eqb (t, i) dm
    end.
Proof.
  intros tn f us. induction us as [|u us IH]; intros start dm t i.
  - simpl. destruct (text_eqb t tn && (start <=? i)); [|reflexivity].
    destruct (i - start); reflexivity.
  - cbn [enumerate fold_left]. rewrite IH.
    rewrite (dict_get_set id_eqb id_eqb_eq).
    destruct (text_eqb t tn) eqn:Et; cbn [andb].
    + apply text_eqb_eq in Et. subst t.
      destruct (S start <=? i) eqn:E1.
      * apply Nat.leb_le in E1.
        assert ((start <=? i) = true) as -> by (apply Nat.leb_le; lia).
        replace (i - start) with (S (i - S start)) by lia. cbn [nth_error].
        destruct (nth_error us (i - S start)); [reflexivity|].
        assert (id_eqb (tn, i) (tn, start) = false) as ->; [|reflexivity].
        destruct (id_eqb (tn, i) (tn, start)) eqn:E; [|reflexivity].
        apply id_eqb_eq in E. inversion E. lia.
      * apply Nat.leb_gt in E1.
        destruct (start <=? i) eqn:E2.
        -- apply Nat.leb_le in E2. assert (i = start) by lia. subst i.
           rewrite Nat.sub_diag. cbn [nth_error].
           assert (id_eqb (tn, start) (tn, start) = true) as ->
             by (apply id_eqb_eq; reflexivity).
           reflexivity.
        -- apply Nat.leb_gt in E2.
           assert (id_eqb (tn, i) (tn, start) = false) as ->; [|reflexivity].
           destruct (id_eqb (tn, i) (tn, start)) eqn:E; [|reflexivity].
           apply id_eqb_eq in E. inversion E. lia.
    + assert (id_eqb (t, i) (tn, start) = false) as ->; [|reflexivity].
      destruct (id_eqb (t, i) (tn, start)) eqn:E; [|reflexivity].
      apply id_eqb_eq in E. inversion E. subst.
      rewrite text_eqb_refl in Et. discriminate.
Qed.

Lemma needs_numbering_in : forall ts t st,
  NoDup (map fst ts) -> In (t, st) ts ->
  needs_numbering ts t = Ok (numbered t st).
Proof.
  intros ts t st Hnd Hin. unfold needs_numbering, dict_item.
  rewrite (dict_get_in text_eqb text_eqb_eq _ _ _ Hnd Hin). reflexivity.
Qed.

(** The display map after the types [items] of the registry [ts]. *)
Lemma display_types_get : forall ts, NoDup (map fst ts) ->
  forall items (dm : display_map),
  (forall item, In item items -> In item ts) ->
  NoDup (map fst items) ->
  exists dm',
    display_types ts dm items = Ok dm'
    /\ forall id,
         dict_get id_eqb id dm'
         = match display_of items id with
           | Some d => Some d
           | None => dict_get id_eqb id dm
           end.
Proof.
  intros ts Hts items. induction items as [|[tn st] items IH];
    intros dm Hsub Hnd.
  - exists dm. split; [reflexivity|]. intros id. reflexivity.
  - cbn [display_types display_type].
    rewrite (needs_numbering_in _ _ _ Hts (Hsub _ (or_introl eq_refl))).
    cbn [bind].
    inversion Hnd as [|? ? Hnotin Hnd']; subst.
    destruct (IH (fold_left
                    (fun dm '(idx, u) =>
                       dict_set id_eqb (tn, idx)
                         (display_entry tn st (numbered tn st) idx u) dm)
                    (enumerate 1 (unique st)) dm))
      as (dm' & Hrun & Hget).
    { intros item Hitem. apply Hsub. right. exact Hitem. }
    { exact Hnd'. }
    exists dm'. split; [exact Hrun|].
    intros [t i]. rewrite Hget, display_fold_get.
    unfold display_of. cbn [fst snd dict_get].
    destruct (text_eqb t tn) eqn:Et; cbn [andb].
    + apply text_eqb_eq in Et. subst t.
      assert (dict_get text_eqb tn items = None) as ->.
      { apply (dict_get_none text_eqb text_eqb_eq). exact Hnotin. }
      destruct i as [|i]; [reflexivity|].
      cbn [Nat.leb]. replace (S i - 1) with i by lia.
      destruct (nth_error (unique st) i); [|reflexivity].
      rewrite display_entry_numbered by lia. reflexivity.
    + destruct (dict_get text_eqb t items) as [st'|]; [|reflexivity].
      destruct i as [|i]; [reflexivity|].
      destruct (nth_error (unique st') i); reflexivity.
Qed.

Lemma build_display_map_get : forall ts, NoDup (map fst ts) ->
  exists dm,
    build_display_map ts = Ok dm
    /\ forall id, dict_get id_eqb id dm = display_of ts id.
Proof.
  intros ts Hnd. unfold build_display_map.
  destruct (@display_types_get ts Hnd ts [] (fun _ H => H) Hnd) as (dm & Hrun & Hget).
  exists dm. split; [exact Hrun|].
  intros id. rewrite Hget. destruct (display_of ts id); reflexivity.
Qed.

Lemma display_of_valid : forall ts id,
  valid_id ts id -> exists d, display_of ts id = Some d.
Proof.
  intros ts [t i] (st & Hget & Hr). cbn [fst snd] in *.
  unfold display_of. cbn [fst snd]. rewrite Hget.
  destruct i as [|i]; [lia|].
  destruct (nth_error (unique st) i) eqn:E.
  - eexists. reflexivity.
  - apply nth_error_None in E. lia.
Qed.


(** ** Numbering *)

(** C3. After the sections of a body are analysed, the display map holds,
    for every type of the registry and every unique content of that type, the
    entry of the numbering rule: when the type has more than one unique
    content, or is one of Verse, Pre-Chorus, Chorus and Bridge and has more
    than one occurrence, the [n]-th unique content in registry order is
    displayed as the type name, a space and [n], with the abbreviation
    followed by [n] as its token; otherwise the bare type name and the bare
    abbreviation are used.  The count of a type is the number of its
    occurrences.  Three identical verses are displayed as Verse 1. *)
Theorem numbering_rule :
  (forall secs a,
     analyse secs = Ok a ->
     exists dm,
       build_display_map (type_stats a) = Ok dm
       /\ forall type_name st,
            dict_get text_eqb type_name (type_stats a) = Some st ->
            count st = occurrences_of_type type_name (occurrences a)
            /\ forall n u,
                 nth_error (unique st) n = Some u ->
                 dict_get id_eqb (type_name, S n) dm
                 = Some
                     (Display
                        (if (1 <? List.length (unique st))
                            || ((1 <? count st) && in_numbering_types type_name)
                         then type_name ++ " " ++ Py.str_of_nat (S n)
                         else type_name)
                        (if (1 <? List.length (unique st))
                            || ((1 <? count st) && in_numbering_types type_name)
                         then prefix st ++ Py.str_of_nat (S n)
                         else prefix st)
                        (u_lines u) (extension_of u)))
  /\ rebuild_formatted_tab three_verses [] [] [] = Ok three_verses_out.
Proof.
  split; [|vm_compute; reflexivity].
  intros secs a Hrun. pose proof (analyse_wf _ Hrun) as Hwf.
  destruct (@build_display_map_get _ (wf_keys Hwf)) as (dm & Hdm & Hget).
  exists dm. split; [exact Hdm|].
  intros type_name st Hst. split; [apply (wf_count Hwf _ Hst)|].
  intros n u Hu. rewrite Hget. unfold display_of. cbn [fst snd].
  rewrite Hst, Hu. reflexivity.
Qed.

(** The theorem at three identical verses. *)
Lemma numbering_rule_witness :
  exists a dm,
    analyse three_verse_sections = Ok a
    /\ build_display_map (type_stats a) = Ok dm
    /\ dict_get id_eqb ("Verse" : text, 1) dm
       = Some (Display "Verse 1" "V1" ["A" : text] None).
Proof.
  destruct (analyse three_verse_sections) as [a|e] eqn:Ha;
    [|vm_compute in Ha; discriminate].
  destruct (proj1 numbering_rule three_verse_sections a Ha) as (dm & Hdm & Hrule).
  exists a, dm. split; [reflexivity|]. split; [exact Hdm|].
  assert (Hval : Ok a = Ok a) by reflexivity.
  revert Hrule. vm_compute in Ha. inversion Ha; subst a. intros Hrule.
  destruct (Hrule ("Verse" : text) _ eq_refl) as (_ & Hentry).
  apply (Hentry 0 _ eq_refl).
Defined.


(** ** The loop over the sections *)

Lemma analyse_from_collapse : forall secs a a',
  analyse_from a secs = Ok a' ->
  exists cs, collapse_all secs = Ok cs /\ a' = fold_left place cs a.
Proof.
  induction secs as [|s secs IH]; intros a a' H; simpl in H.
  - inversion H; subst. exists []. split; reflexivity.
  - unfold analyse_section in H. simpl.
    destruct (collapse s) as [c|e]; simpl in H; [|discriminate].
    apply IH in H. destruct H as (cs & Hcs & ->).
    exists (c :: cs). rewrite Hcs. split; reflexivity.
Qed.

Lemma collapse_analyse_from : forall secs a cs,
  collapse_all secs = Ok cs ->
  analyse_from a secs = Ok (fold_left place cs a).
Proof.
  induction secs as [|s secs IH]; intros a cs H; simpl in H.
  - inversion H; subst. reflexivity.
  - simpl. unfold analyse_section.
    destruct (collapse s) as [c|e]; simpl in *; [|discriminate].
    destruct (collapse_all secs) as [cs'|e] eqn:E; simpl in H; [|discriminate].
    inversion H; subst. simpl. apply IH. reflexivity.
Qed.

Lemma occurrences_place : forall a c,
  occurrences (place a c)
  = occurrences a
    ++ repeat (Occurrence (c_type c) (c_abbrev c) (match_idx a c)
                          (extension_created a c))
              (repeat_count c).
Proof. reflexivity. Qed.

Lemma occurrences_place_all : forall cs a,
  map occ_id (occurrences (fold_left place cs a))
  = map occ_id (occurrences a)
    ++ flat_map
         (fun ci => repeat (c_type (fst ci), snd ci) (repeat_count (fst ci)))
         (combine cs (resolved a cs)).
Proof.
  induction cs as [|c cs IH]; intros a; simpl.
  - symmetry. apply app_nil_r.
  - rewrite IH, occurrences_place.
    rewrite map_app, <- app_assoc. f_equal. f_equal.
    rewrite map_repeat. reflexivity.
Qed.

Lemma resolved_length : forall cs a, List.length (resolved a cs) = List.length cs.
Proof.
  induction cs as [|c cs IH]; intros a; simpl; [reflexivity|].
  rewrite IH. reflexivity.
Qed.

Lemma performed_occurrences : forall secs a,
  analyse secs = Ok a ->
  exists cs,
    collapse_all secs = Ok cs /\ map occ_id (occurrences a) = performed cs.
Proof.
  intros secs a H. apply analyse_from_collapse in H.
  destruct H as (cs & Hcs & ->). exists cs. split; [exact Hcs|].
  rewrite occurrences_place_all. reflexivity.
Qed.

Lemma performed_length : forall cs a,
  List.length
    (flat_map
       (fun ci => repeat (c_type (fst ci), snd ci) (repeat_count (fst ci)))
       (combine cs (resolved a cs)))
  = list_sum (map repeat_count cs).
Proof.
  induction cs as [|c cs IH]; intros a; simpl; [reflexivity|].
  rewrite length_app, repeat_length, IH. reflexivity.
Qed.

(** ** The flow tokens *)

Lemma tokens_in_flow_flat_map : forall (dm : display_map) occs,
  tokens_in_flow dm occs
  = flat_map
      (fun occ =>
         match dict_get id_eqb (o_type occ, unique_idx occ) dm with
         | Some mapping => [token mapping]
         | None => []
         end)
      occs.
Proof.
  intros dm occs. unfold tokens_in_flow.
  assert (H : forall acc,
             fold_left
               (fun tokens occ =>
                  match dict_get id_eqb (o_type occ, unique_idx occ) dm with
                  | Some mapping => tokens ++ [token mapping]
                  | None => tokens
                  end) occs acc
             = acc ++ flat_map
                 (fun occ =>
                    match dict_get id_eqb (o_type occ, unique_idx occ) dm with
                    | Some mapping => [token mapping]
                    | None => []
                    end) occs).
  { induction occs as [|o occs IH]; intros acc; simpl.
    - symmetry. apply app_nil_r.
    - rewrite IH.
      destruct (dict_get id_eqb (o_type o, unique_idx o) dm); simpl.
      + rewrite <- app_assoc. reflexivity.
      + reflexivity. }
  apply (H []).
Qed.

Lemma tokens_in_flow_valid : forall ts (dm : display_map) occs,
  (forall id, dict_get id_eqb id dm = display_of ts id) ->
  Forall (fun o => valid_id ts (o_type o, unique_idx o)) occs ->
  tokens_in_flow dm occs = map (token_of ts) (map occ_id occs).
Proof.
  intros ts dm occs Hget Hval. rewrite tokens_in_flow_flat_map.
  induction occs as [|o occs IH]; simpl; [reflexivity|].
  inversion Hval; subst. rewrite IH by assumption.
  rewrite Hget. unfold token_of, occ_id.
  destruct (display_of_valid H1) as (d & ->). reflexivity.
Qed.

(** ** Sections of a body *)

Lemma split_line_header : forall st line,
  (headers_found st = 0 <-> current_header st = None) ->
  (headers_found (split_line st line) = 0
   <-> current_header (split_line st line) = None).
Proof.
  intros st line H. unfold split_line.
  destruct (re_match header_re (Py.strip line)).
  - cbn. split; [lia | discriminate].
  - destruct (current_header st); cbn; exact H.
Qed.

Lemma split_fold_header : forall ls st,
  (headers_found st = 0 <-> current_header st = None) ->
  (headers_found (fold_left split_line ls st) = 0
   <-> current_header (fold_left split_line ls st) = None).
Proof.
  induction ls as [|l ls IH]; intros st H; simpl; [exact H|].
  apply IH. apply split_line_header. exact H.
Qed.

Lemma split_body_sections : forall body,
  0 < headers_found (split_body body) -> sections (split_body body) <> [].
Proof.
  intros body. unfold split_body.
  pose proof (@split_fold_header (Py.split_char nl body) (Splitter [] [] None [] 0)) as H.
  cbn [headers_found current_header] in H.
  specialize (H (conj (fun _ => eq_refl) (fun _ => eq_refl))).
  destruct (current_header (fold_left split_line (Py.split_char nl body)
                                      (Splitter [] [] None [] 0))) eqn:E.
  - cbn. intros _ Hnil. apply app_eq_nil in Hnil. destruct Hnil. discriminate.
  - intros Hpos. destruct H as [_ H]. rewrite H in Hpos by reflexivity. lia.
Qed.

Lemma first_block_count : forall l sizes,
  1 <= snd (first_block l sizes)
  \/ exists size, In size sizes
       /\ snd (first_block l sizes) = List.length l / size.
Proof.
  intros l sizes. induction sizes as [|size sizes IH]; simpl.
  - left. simpl. lia.
  - destruct (negb (List.length l mod size =? 0)).
    + destruct IH as [IH|(s & Hs & IH)]; [left; exact IH|].
      right. exists s. split; [right; exact Hs | exact IH].
    + destruct (repeats_block l size).
      * right. exists size. split; [left; reflexivity | reflexivity].
      * destruct IH as [IH|(s & Hs & IH)]; [left; exact IH|].
        right. exists s. split; [right; exact Hs | exact IH].
Qed.

Lemma extract_repeated_block_count : forall l,
  1 <= snd (extract_repeated_block l).
Proof.
  intros l. unfold extract_repeated_block.
  destruct (List.length l =? 0) eqn:E; [simpl; lia|].
  destruct (first_block_count l (seq 1 (List.length l / 2))) as [H|(s & Hs & ->)];
    [exact H|].
  apply in_seq in Hs.
  apply Nat.div_le_lower_bound; [lia|].
  pose proof (Nat.div_mod_eq (List.length l) 2).
  pose proof (Nat.mod_upper_bound (List.length l) 2).
  nia.
Qed.

Lemma collapse_count : forall s c, collapse s = Ok c -> 1 <= repeat_count c.
Proof.
  intros s c H. unfold collapse in H.
  destruct (parse_section_header (header s)) as [[[t ab] n]|e]; simpl in H;
    [|discriminate].
  pose proof (extract_repeated_block_count (clean_lines (lines s))) as Hc.
  destruct (extract_repeated_block (clean_lines (lines s))) as [b k].
  inversion H; subst. exact Hc.
Qed.

Lemma collapse_all_counts : forall secs cs,
  collapse_all secs = Ok cs ->
  List.length cs = List.length secs /\ Forall (fun c => 1 <= repeat_count c) cs.
Proof.
  induction secs as [|s secs IH]; intros cs H; simpl in H.
  - inversion H; subst. split; [reflexivity | constructor].
  - destruct (collapse s) as [c|e] eqn:Hc; simpl in H; [|discriminate].
    destruct (collapse_all secs) as [cs'|e] eqn:E; simpl in H; [|discriminate].
    inversion H; subst. destruct (IH cs' eq_refl) as [Hl Hf].
    split; [simpl; congruence|].
    constructor; [apply (collapse_count _ Hc) | exact Hf].
Qed.


(** ** The Flow field *)

Lemma meta_get_set : forall name name' value meta,
  meta_get name (meta_set name' value meta)
  = if text_eqb name name' then value else meta_get name meta.
Proof.
  intros name name' value meta. unfold meta_get, meta_set.
  rewrite (dict_get_set text_eqb text_eqb_eq).
  destruct (text_eqb name name'); reflexivity.
Qed.

Lemma performed_nonempty : forall secs cs,
  secs <> [] -> collapse_all secs = Ok cs -> performed cs <> [].
Proof.
  intros secs cs Hne Hcs. apply collapse_all_counts in Hcs.
  destruct Hcs as [Hlen Hpos]. unfold performed.
  destruct cs as [|c cs]; [destruct secs; [congruence | discriminate]|].
  inversion Hpos; subst. simpl.
  destruct (repeat_count c); [lia | discriminate].
Qed.

(** The structured path: what it writes into the Flow field. *)
Lemma structured_flow : forall sp meta r,
  structured sp meta = Ok r ->
  sections sp <> [] ->
  exists cs a,
    collapse_all (sections sp) = Ok cs
    /\ analyse (sections sp) = Ok a
    /\ map occ_id (occurrences a) = performed cs
    /\ Forall (valid_id (type_stats a)) (performed cs)
    /\ performed cs <> []
    /\ meta_get "Flow" (fst r)
       = Py.join ", " (map (token_of (type_stats a)) (performed cs)).
Proof.
  intros sp meta r H Hne. unfold structured in H.
  destruct (analyse (sections sp)) as [a|e] eqn:Ha; simpl in H; [|discriminate].
  pose proof (analyse_wf _ Ha) as Hwf.
  destruct (@build_display_map_get _ (wf_keys Hwf)) as (dm & Hdm & Hget).
  rewrite Hdm in H. simpl in H.
  destruct (render_blocks dm (unique_order a)) as [blocks|e]; simpl in H;
    [|discriminate].
  destruct (performed_occurrences _ Ha) as (cs & Hcs & Hperf).
  exists cs, a.
  assert (Hval : Forall (valid_id (type_stats a)) (performed cs)).
  { rewrite <- Hperf. apply Forall_map.
    eapply Forall_impl; [|apply (wf_occs Hwf)]. intros o Ho. exact Ho. }
  pose proof (performed_nonempty Hne Hcs) as Hp.
  repeat split; try assumption.
  rewrite (tokens_in_flow_valid _ Hget (wf_occs Hwf)), Hperf in H.
  destruct (map (token_of (type_stats a)) (performed cs)) as [|tk tks] eqn:Htk.
  { apply map_eq_nil in Htk. contradiction. }
  inversion H; subst r. cbn [fst].
  rewrite meta_get_set, text_eqb_refl. reflexivity.
Qed.

Lemma rebuild_doc_structured : forall tab artist_fb title_fb file_base d,
  rebuild_doc tab artist_fb title_fb file_base = Ok d ->
  0 < headers_found (sections_of tab artist_fb title_fb file_base) ->
  exists r,
    structured (sections_of tab artist_fb title_fb file_base)
               (h_meta (read_head tab artist_fb title_fb file_base)) = Ok r
    /\ d = Doc (h_title (read_head tab artist_fb title_fb file_base))
               (h_artist (read_head tab artist_fb title_fb file_base))
               (fst r) (snd r).
Proof.
  intros tab artist_fb title_fb file_base d H Hpos.
  unfold rebuild_doc in H. unfold sections_of in *.
  apply Nat.ltb_lt in Hpos. rewrite Hpos in H.
  destruct (structured _ _) as [r|e]; simpl in H; [|discriminate].
  inversion H; subst. exists r. split; reflexivity.
Qed.


Lemma default_meta_other : forall name name' value meta,
  text_eqb name name' = false ->
  meta_get name (default_meta name' value meta) = meta_get name meta.
Proof.
  intros name name' value meta H. unfold default_meta.
  destruct (Py.truthy (meta_get name' meta)); [reflexivity|].
  rewrite meta_get_set, H. reflexivity.
Qed.

Lemma meta_of_flow : forall lines body,
  meta_get "Flow" (meta_of lines body) = meta_get "Flow" (read_meta lines).
Proof.
  intros lines body. unfold meta_of.
  match goal with
  | |- context [if ?b then _ else _] => destruct b
  end.
  - rewrite !default_meta_other by reflexivity. reflexivity.
  - rewrite meta_get_set.
    replace (text_eqb "Flow" "Key") with false by reflexivity.
    rewrite !default_meta_other by reflexivity. reflexivity.
Qed.

Lemma read_head_flow : forall tab artist_fb title_fb file_base,
  meta_get "Flow" (h_meta (read_head tab artist_fb title_fb file_base))
  = supplied_flow tab.
Proof.
  intros tab artist_fb title_fb file_base. unfold read_head, supplied_flow.
  cbn [h_meta]. apply meta_of_flow.
Qed.

(** C8. When the body has a section header, the structured path overwrites
    the Flow field, whatever metadata it starts from: the field of the
    rebuilt document is the comma-joined token sequence of the occurrences,
    which is not empty, and the value the Flow line of the tab supplied is not
    used.  When the body has no section header, a supplied Flow value that is
    not empty is the Flow field of the rebuilt document. *)
Theorem flow_recomputed : forall tab artist_fb title_fb file_base : text,
  (0 < headers_found (sections_of tab artist_fb title_fb file_base) ->
   (forall meta r,
      structured (sections_of tab artist_fb title_fb file_base) meta = Ok r ->
      exists a,
        analyse (sections (sections_of tab artist_fb title_fb file_base)) = Ok a
        /\ occurrences a <> []
        /\ meta_get "Flow" (fst r)
           = Py.join ", "
               (map (token_of (type_stats a)) (map occ_id (occurrences a))))
   /\ forall d,
        rebuild_doc tab artist_fb title_fb file_base = Ok d ->
        exists r,
          structured (sections_of tab artist_fb title_fb file_base)
            (h_meta (read_head tab artist_fb title_fb file_base)) = Ok r
          /\ d_meta d = fst r)
  /\ (headers_found (sections_of tab artist_fb title_fb file_base) = 0 ->
      supplied_flow tab <> [] ->
      exists d,
        rebuild_doc tab artist_fb title_fb file_base = Ok d
        /\ meta_get "Flow" (d_meta d) = supplied_flow tab).
Proof.
  intros tab artist_fb title_fb file_base. split.
  - intros Hpos. split.
    + intros meta r Hr.
      pose proof (split_body_sections _ Hpos) as Hne.
      destruct (structured_flow _ _ Hr Hne)
        as (cs & a & Hcs & Ha & Hperf & Hval & Hp & Hflow).
      exists a. split; [exact Ha|]. split.
      * intros Hnil. rewrite Hnil in Hperf. simpl in Hperf. congruence.
      * rewrite Hperf. exact Hflow.
    + intros d Hrun.
      destruct (rebuild_doc_structured _ _ _ _ Hrun Hpos) as (r & Hr & ->).
      exists r. split; [exact Hr | reflexivity].
  - intros Hzero Hflow. unfold rebuild_doc.
    unfold sections_of in Hzero. rewrite Hzero. cbn [Nat.ltb Nat.leb].
    rewrite read_head_flow.
    destruct (supplied_flow tab) eqn:E; [congruence|]. cbn [Py.truthy negb].
    eexists. split; [reflexivity|]. cbn [d_meta].
    rewrite read_head_flow. exact E.
Qed.

(** The theorem at the three verses, whose Flow line holds x, and at the
    rebuilt body of one verse without its header. *)
Lemma flow_recomputed_witness :
  0 < headers_found (sections_of three_verses [] [] [])
  /\ exists d,
       rebuild_doc three_verses [] [] [] = Ok d
       /\ exists r,
            structured (sections_of three_verses [] [] [])
              (h_meta (read_head three_verses [] [] [])) = Ok r
            /\ d_meta d = fst r.
Proof.
  assert (Hpos : 0 < headers_found (sections_of three_verses [] [] []))
    by (vm_compute; lia).
  split; [exact Hpos|].
  destruct (rebuild_doc three_verses [] [] []) as [d|e] eqn:Hd;
    [|vm_compute in Hd; discriminate].
  exists d. split; [reflexivity|].
  exact (proj2 (proj1 (flow_recomputed three_verses [] [] []) Hpos) d Hd).
Defined.

(** ** The number of a section header *)

Lemma same_but_number_collapse : forall s1 s2,
  same_but_number s1 s2 -> collapse s1 = collapse s2.
Proof.
  intros s1 s2 (Hl & t & ab & n1 & n2 & H1 & H2).
  unfold collapse. rewrite H1, H2, Hl. reflexivity.
Qed.

Lemma same_but_number_analyse : forall secs1 secs2,
  Forall2 same_but_number secs1 secs2 ->
  forall a, analyse_from a secs1 = analyse_from a secs2.
Proof.
  intros secs1 secs2 H. induction H as [|s1 s2 secs1 secs2 Hs _ IH]; intros a.
  - reflexivity.
  - simpl. unfold analyse_section.
    rewrite (same_but_number_collapse Hs).
    destruct (collapse s2); simpl; [apply IH | reflexivity].
Qed.

(** C9. In the structured path the number a section header carries is
    dropped: two headers that parse to the same type and abbreviation give
    the same collapsed section, and two bodies whose sections differ at most
    in these numbers are rebuilt into the same body and metadata.  A body
    whose one section is labelled Verse 2 comes out as Verse with flow
    token V. *)
Theorem header_number_discarded :
  (forall h1 h2 ls type_name abbrev n1 n2,
     parse_section_header h1 = Ok (type_name, abbrev, n1) ->
     parse_section_header h2 = Ok (type_name, abbrev, n2) ->
     collapse (Section_ h1 ls) = collapse (Section_ h2 ls))
  /\ (forall sp1 sp2 meta,
        leading_lines sp1 = leading_lines sp2 ->
        Forall2 same_but_number (sections sp1) (sections sp2) ->
        structured sp1 meta = structured sp2 meta)
  /\ parse_section_header "Verse 2" = Ok ("Verse" : text, "V" : text, Some 2%N)
  /\ rebuild_formatted_tab verse_two [] [] [] = Ok verse_two_out.
Proof.
  split; [|split; [|split; vm_compute; reflexivity]].
  - intros h1 h2 ls t ab n1 n2 H1 H2. apply same_but_number_collapse.
    split; [reflexivity|]. exists t, ab, n1, n2. split; assumption.
  - intros sp1 sp2 meta Hlead Hsecs. unfold structured, analyse.
    rewrite (same_but_number_analyse Hsecs), Hlead. reflexivity.
Qed.

(** The theorem at the headers Verse 2 and Verse 7. *)
Lemma header_number_discarded_witness :
  collapse (Section_ "Verse 2" ["la la" : text])
  = collapse (Section_ "Verse 7" ["la la" : text]).
Proof.
  apply (proj1 header_number_discarded "Verse 2" "Verse 7" ["la la" : text]
           ("Verse" : text) ("V" : text) (Some 2%N) (Some 7%N));
    vm_compute; reflexivity.
Defined.

(** ** An over-long number in a section header *)

(** C7. The tab [long_number_tab] has a section header Verse followed by a
    number of 4301 digits; [rebuild_formatted_tab] raises [ValueError] on
    it. *)
Theorem rebuild_raises_on_long_number :
  rebuild_formatted_tab long_number_tab [] [] [] = Raise ValueError.
Proof. vm_compute. reflexivity. Qed.

(** C10. With [long_number_tab] in TAB_CONTENT, which is set and not empty,
    the process writes nothing to standard output and ends with status 1 and
    a traceback. *)
Theorem main_fails_on_long_number :
  long_number_env "TAB_CONTENT" = Some long_number_tab
  /\ long_number_tab <> []
  /\ run long_number_env = Process [] [Traceback ValueError] 1.
Proof.
  split; [reflexivity|]. split; [discriminate|].
  vm_compute. reflexivity.
Qed.


(** ** Stripping *)

Section Strip.
Variable p : ascii -> bool.

Lemma lstrip_by_all : forall s, forallb p s = true -> Py.lstrip_by p s = [].
Proof.
  induction s as [|c s IH]; simpl; [reflexivity|].
  destruct (p c); simpl; [exact IH | discriminate].
Qed.

Lemma lstrip_by_nil : forall s, Py.lstrip_by p s = [] -> forallb p s = true.
Proof.
  induction s as [|c s IH]; simpl; [reflexivity|].
  destruct (p c); simpl; [exact IH | discriminate].
Qed.

Lemma lstrip_by_app_all : forall s t,
  forallb p s = true -> Py.lstrip_by p (s ++ t) = Py.lstrip_by p t.
Proof.
  induction s as [|c s IH]; intros t H; simpl in *; [reflexivity|].
  destruct (p c); simpl in H; [apply IH; exact H | discriminate].
Qed.

Lemma lstrip_by_app_some : forall s t,
  forallb p s = false -> Py.lstrip_by p (s ++ t) = Py.lstrip_by p s ++ t.
Proof.
  induction s as [|c s IH]; intros t H; simpl in *; [discriminate|].
  destruct (p c); simpl in H; [apply IH; exact H | reflexivity].
Qed.

Lemma lstrip_by_head : forall s c s',
  Py.lstrip_by p s = c :: s' -> p c = false.
Proof.
  induction s as [|d s IH]; intros c s' H; simpl in H; [discriminate|].
  destruct (p d) eqn:E; [apply (IH _ _ H)|].
  inversion H; subst. exact E.
Qed.

Lemma lstrip_by_fixed : forall s c s',
  s = c :: s' -> p c = false -> Py.lstrip_by p s = s.
Proof. intros s c s' -> H. simpl. rewrite H. reflexivity. Qed.

Lemma lstrip_by_idem : forall s,
  Py.lstrip_by p (Py.lstrip_by p s) = Py.lstrip_by p s.
Proof.
  intros s. destruct (Py.lstrip_by p s) as [|c s'] eqn:E; [reflexivity|].
  simpl. rewrite (lstrip_by_head _ E). reflexivity.
Qed.

Lemma lstrip_by_length : forall s,
  List.length (Py.lstrip_by p s) <= List.length s.
Proof.
  induction s as [|c s IH]; simpl; [lia|].
  destruct (p c); simpl; lia.
Qed.

Lemma lstrip_by_suffix : forall s,
  exists w, s = w ++ Py.lstrip_by p s /\ forallb p w = true.
Proof.
  induction s as [|c s IH]; simpl.
  - exists []. split; reflexivity.
  - destruct (p c) eqn:E.
    + destruct IH as (w & Hw & Hp). exists (c :: w). simpl.
      rewrite E, Hp. split; [f_equal; exact Hw | reflexivity].
    + exists []. split; reflexivity.
Qed.
End Strip.

Lemma blank_rev : forall s, blank (rev s) = blank s.
Proof.
  intros s. unfold blank. induction s as [|c s IH]; [reflexivity|].
  simpl. rewrite forallb_app, IH. simpl. rewrite andb_true_r. apply andb_comm.
Qed.

Lemma blank_app : forall s t, blank (s ++ t) = blank s && blank t.
Proof. intros s t. apply forallb_app. Qed.

Lemma lstrip_blank : forall s, blank s = true -> Py.lstrip s = [].
Proof. intros s H. apply lstrip_by_all. exact H. Qed.

Lemma rstrip_blank : forall s, blank s = true -> Py.rstrip s = [].
Proof.
  intros s H. unfold Py.rstrip. rewrite lstrip_blank; [reflexivity|].
  rewrite blank_rev. exact H.
Qed.

Lemma strip_blank : forall s, blank s = true -> Py.strip s = [].
Proof.
  intros s H. unfold Py.strip. rewrite lstrip_blank by exact H. reflexivity.
Qed.

Lemma rstrip_app_blank : forall s t,
  blank t = true -> Py.rstrip (s ++ t) = Py.rstrip s.
Proof.
  intros s t H. unfold Py.rstrip, Py.lstrip. rewrite rev_app_distr.
  rewrite lstrip_by_app_all; [reflexivity|].
  fold (blank (rev t)). rewrite blank_rev. exact H.
Qed.

Lemma rstrip_app_some : forall s t,
  blank t = false -> Py.rstrip (s ++ t) = s ++ Py.rstrip t.
Proof.
  intros s t H. unfold Py.rstrip, Py.lstrip. rewrite rev_app_distr.
  rewrite lstrip_by_app_some.
  - rewrite rev_app_distr, rev_involutive. reflexivity.
  - fold (blank (rev t)). rewrite blank_rev. exact H.
Qed.

Lemma rstrip_length : forall s, List.length (Py.rstrip s) <= List.length s.
Proof.
  intros s. unfold Py.rstrip, Py.lstrip. rewrite length_rev.
  etransitivity; [apply lstrip_by_length|]. rewrite length_rev. lia.
Qed.

Lemma rstrip_some : forall s, blank s = false -> Py.rstrip s <> [].
Proof.
  intros s H E. unfold Py.rstrip in E.
  assert (E' : Py.lstrip (rev s) = []).
  { destruct (Py.lstrip (rev s)); [reflexivity|].
    simpl in E. apply app_eq_nil in E. destruct E. discriminate. }
  apply lstrip_by_nil in E'. fold (blank (rev s)) in E'.
  rewrite blank_rev in E'. congruence.
Qed.

Lemma lstrip_some_blank : forall s, blank s = false -> blank (Py.lstrip s) = false.
Proof.
  intros s H. destruct (lstrip_by_suffix Py.isspace s) as (w & Hw & Hp).
  fold (Py.lstrip s) in Hw. fold (blank w) in Hp.
  rewrite Hw, blank_app, Hp in H. exact H.
Qed.

Lemma strip_some : forall s, blank s = false -> Py.strip s <> [].
Proof.
  intros s H. unfold Py.strip. apply rstrip_some. apply lstrip_some_blank. exact H.
Qed.

Lemma strip_nil_blank : forall s, Py.strip s = [] -> blank s = true.
Proof.
  intros s H. destruct (blank s) eqn:E; [reflexivity|].
  exfalso. apply (strip_some _ E). exact H.
Qed.

(** Text appended to [s] that leaves the stripped text as it was is blank. *)
Lemma strip_app_same : forall s t,
  Py.strip (s ++ t) = Py.strip s -> blank t = true.
Proof.
  intros s t H. destruct (blank t) eqn:Et; [reflexivity|]. exfalso.
  destruct (blank s) eqn:Es.
  - rewrite (strip_blank _ Es) in H. revert H. apply strip_some.
    rewrite blank_app, Et. apply andb_false_r.
  - unfold Py.strip, Py.lstrip in H.
    rewrite lstrip_by_app_some in H by exact Es.
    fold (Py.lstrip s) in H. rewrite rstrip_app_some in H by exact Et.
    pose proof (rstrip_length (Py.lstrip s)) as Hlen.
    apply (f_equal (@List.length _)) in H. rewrite length_app in H.
    pose proof (rstrip_some _ Et) as Hne.
    destruct (Py.rstrip t); [congruence|]. simpl in H. lia.
Qed.

Lemma strip_app_blank : forall s t,
  blank t = true -> Py.strip (s ++ t) = Py.strip s.
Proof.
  intros s t H. unfold Py.strip, Py.lstrip.
  destruct (blank s) eqn:Es.
  - rewrite lstrip_by_app_all by exact Es.
    rewrite (lstrip_by_all _ _ Es). fold (Py.lstrip t).
    rewrite (lstrip_blank _ H). reflexivity.
  - rewrite lstrip_by_app_some by exact Es.
    apply rstrip_app_blank. exact H.
Qed.

(** ** Joining *)

Lemma join_cons : forall sep p ps,
  ps <> [] -> Py.join sep (p :: ps) = p ++ sep ++ Py.join sep ps.
Proof. intros sep p ps H. destruct ps; [congruence | reflexivity]. Qed.

Lemma join_app : forall sep l1 l2,
  l1 <> [] -> l2 <> [] ->
  Py.join sep (l1 ++ l2) = Py.join sep l1 ++ sep ++ Py.join sep l2.
Proof.
  intros sep l1. induction l1 as [|p l1 IH]; intros l2 H1 H2; [congruence|].
  destruct l1 as [|q l1].
  - simpl. destruct l2; [congruence | reflexivity].
  - change ((p :: q :: l1) ++ l2) with (p :: ((q :: l1) ++ l2)).
    rewrite join_cons by (simpl; discriminate).
    rewrite IH by (assumption || discriminate).
    rewrite (@join_cons sep p (q :: l1)) by discriminate.
    rewrite <- !app_assoc. reflexivity.
Qed.

(** A suffix of lines that leaves the key as it was has an empty key. *)
Lemma normalize_app_same : forall l s,
  normalize_content (l ++ s) = normalize_content l ->
  normalize_content s = [].
Proof.
  intros l s H. unfold normalize_content in *.
  destruct l as [|x l].
  - simpl in H. exact H.
  - destruct s as [|y s]; [reflexivity|].
    rewrite join_app in H by discriminate.
    apply strip_app_same in H. rewrite blank_app in H.
    apply andb_true_iff in H. destruct H as [_ H].
    apply strip_blank. exact H.
Qed.


(** ** Numbers as text *)

Lemma str_of_nat_inj : forall n m, Py.str_of_nat n = Py.str_of_nat m -> n = m.
Proof.
  intros n m H. unfold Py.str_of_nat in H.
  apply (f_equal String.string_of_list_ascii) in H.
  rewrite !String.string_of_list_ascii_of_string in H.
  apply (f_equal DecimalString.NilEmpty.uint_of_string) in H.
  rewrite !DecimalString.NilEmpty.usu in H. inversion H as [H'].
  apply (f_equal Nat.of_uint) in H'.
  rewrite !DecimalNat.Unsigned.of_to in H'. exact H'.
Qed.

(** Two entries of one type never share a flow token. *)
Lemma tokens_differ : forall ts type_name st i j,
  dict_get text_eqb type_name ts = Some st ->
  1 <= i <= List.length (unique st) ->
  1 <= j <= List.length (unique st) ->
  i <> j ->
  token_of ts (type_name, i) <> token_of ts (type_name, j).
Proof.
  intros ts t st i j Hst Hi Hj Hne. unfold token_of, display_of.
  cbn [fst snd]. rewrite Hst.
  destruct i as [|i]; [lia|]. destruct j as [|j]; [lia|].
  destruct (nth_error (unique st) i) eqn:Ei;
    [|apply nth_error_None in Ei; lia].
  destruct (nth_error (unique st) j) eqn:Ej;
    [|apply nth_error_None in Ej; lia].
  unfold numbered_display, numbered. cbn [token].
  assert ((1 <? List.length (unique st)) = true) as ->
    by (apply Nat.ltb_lt; lia).
  cbn [orb]. intros H. apply app_inv_head in H.
  apply str_of_nat_inj in H. congruence.
Qed.

(** ** The chorus rule *)

Lemma firstn_of_nth : forall (pre cand : list text),
  List.length pre <= List.length cand ->
  (forall i, i < List.length pre -> nth i cand [] = nth i pre []) ->
  firstn (List.length pre) cand = pre.
Proof.
  induction pre as [|x pre IH]; intros cand Hlen H; [reflexivity|].
  destruct cand as [|y cand]; simpl in Hlen; [lia|].
  simpl. f_equal.
  - apply (H 0). simpl. lia.
  - apply IH; [lia|]. intros i Hi. apply (H (S i)). simpl. lia.
Qed.

Lemma starts_with_lines_split : forall cand pre,
  starts_with_lines cand pre = true ->
  cand = pre ++ skipn (List.length pre) cand.
Proof.
  intros cand pre H. unfold starts_with_lines in H.
  destruct (List.length cand <? List.length pre) eqn:E; [discriminate|].
  apply Nat.ltb_ge in E. rewrite forallb_forall in H.
  rewrite <- (firstn_skipn (List.length pre) cand) at 1. f_equal.
  apply firstn_of_nth; [exact E|].
  intros i Hi. apply text_eqb_eq. apply H. apply in_seq. lia.
Qed.

(** Entries that neither carry the key nor are a prefix are passed over. *)
Lemma scan_unique_skip : forall all cc ck before rest_ start,
  (forall u', In u' before ->
     key u' <> ck /\ starts_with_lines cc (lines_clean u') = false) ->
  scan_unique true all cc ck start (before ++ rest_)
  = scan_unique true all cc ck (start + List.length before) rest_.
Proof.
  intros all cc ck before. induction before as [|u before IH];
    intros rest_ start H; simpl.
  - rewrite Nat.add_0_r. reflexivity.
  - destruct (H u (or_introl eq_refl)) as [Hk Hp].
    apply text_eqb_neq in Hk. rewrite Hk, Hp.
    rewrite IH; [f_equal; lia|].
    intros u' Hu'. apply H. right. exact Hu'.
Qed.

Lemma nth_error_split_at : forall (A : Type) (l : list A) n x,
  nth_error l n = Some x ->
  exists before after,
    l = before ++ x :: after /\ List.length before = n.
Proof.
  intros A l n x H. apply nth_error_split in H.
  destruct H as (l1 & l2 & -> & Hn). exists l1, l2. split; [reflexivity | exact Hn].
Qed.

(** What the loop decides at the first entry whose lines the content
    starts with, when no entry before it carries the key of the content. *)
Lemma resolve_at_first_prefix : forall a c n u,
  wf a ->
  c_type c = "Chorus" ->
  nth_error (unique (stats_of a c)) n = Some u ->
  starts_with_lines (c_block c) (lines_clean u) = true ->
  (forall m u',
     m < n -> nth_error (unique (stats_of a c)) m = Some u' ->
     starts_with_lines (c_block c) (lines_clean u') = false
     /\ key u' <> normalize_content (c_block c)) ->
  resolve a c
  = let suffix := skipn (List.length (lines_clean u)) (c_block c) in
    if text_eqb (normalize_content suffix) [] then Reuse (S n)
    else match find_extension (S n) (normalize_content suffix) 1
                 (unique (stats_of a c)) with
         | Some jdx => Reuse jdx
         | None =>
             Extend (Entry (normalize_content suffix) suffix suffix (Some (S n)))
         end.
Proof.
  intros a c n u Hwf Hty Hn Hpre Hfirst.
  pose proof (stats_of_entries_ok c Hwf) as Hok.
  destruct (Hok _ _ Hn) as [Hkey _].
  unfold resolve. rewrite Hty.
  replace (text_eqb "Chorus" "Chorus") with true by reflexivity.
  destruct (nth_error_split_at _ _ Hn) as (before & after & Hus & Hlen).
  set (all := unique (stats_of a c)) in *.
  rewrite Hus at 2. rewrite scan_unique_skip.
  - rewrite Hlen. cbn [scan_unique Nat.add andb]. rewrite Hpre.
    repeat match goal with
           | |- context [Py.strip (Py.join [nl] ?x)] =>
               change (Py.strip (Py.join [nl] x)) with (normalize_content x)
           end.
    destruct (text_eqb (key u) (normalize_content (c_block c))) eqn:E;
      [|reflexivity].
    apply text_eqb_eq in E. rewrite Hkey in E.
    apply starts_with_lines_split in Hpre. rewrite Hpre in E at 1.
    symmetry in E. apply normalize_app_same in E. rewrite E. reflexivity.
  - intros u' Hu'. apply In_nth_error in Hu'. destruct Hu' as (m & Hm).
    assert (Hlt : m < n).
    { rewrite <- Hlen. apply nth_error_Some. congruence. }
    destruct (Hfirst m u' Hlt) as [H1 H2].
    + rewrite Hus. rewrite nth_error_app1; [exact Hm|]. lia.
    + split; assumption.
Qed.


Lemma is_extension_of_some : forall idx u,
  is_extension_of idx u = true -> extension_of u = Some idx.
Proof.
  intros idx u H. unfold is_extension_of in H.
  destruct (extension_of u) as [i|]; [|discriminate].
  apply Nat.eqb_eq in H. congruence.
Qed.

Lemma place_tokens_differ : forall a c i,
  1 <= i <= List.length (unique (stats_of a c)) ->
  match_idx a c <> i ->
  token_of (type_stats (place a c)) (c_type c, match_idx a c)
  <> token_of (type_stats (place a c)) (c_type c, i).
Proof.
  intros a c i Hi Hne.
  pose proof (place_get a c (c_type c)) as Hget.
  rewrite text_eqb_refl in Hget.
  eapply tokens_differ; [exact Hget | cbn [unique] ..].
  - apply match_idx_range.
  - destruct (registry_after_grows a c) as (tail & ->).
    rewrite length_app. lia.
  - exact Hne.
Qed.

(** C4, with the precedence of the exact match made explicit.  Let a Chorus
    section be placed into a registry built from sections, let [u] be the
    first entry of the Chorus registry whose lines the content of the section
    starts with, and let no entry before [u] carry the key of the content.
    If the lines after those of [u] have an empty key the section reuses the
    index of [u] and the registry stays as it is.  Otherwise the section
    resolves to an entry that holds the key of these lines alone and is
    tagged as an extension of [u]: an entry of the registry that is so tagged
    and keyed if there is one, a new last entry if there is none; its index
    is not that of [u] and its flow token is not the token of [u].  In both
    cases the section adds [repeat_count] occurrences of the index it
    resolves to after the occurrences already there.  Two choruses, the
    second being the first and a couplet, come out as Chorus 1 and Chorus 2
    with Flow C1, C2. *)
Theorem chorus_extension_rule :
  (forall secs a c n u,
     analyse secs = Ok a ->
     c_type c = "Chorus" ->
     nth_error (unique (stats_of a c)) n = Some u ->
     starts_with_lines (c_block c) (lines_clean u) = true ->
     (forall m u',
        m < n -> nth_error (unique (stats_of a c)) m = Some u' ->
        starts_with_lines (c_block c) (lines_clean u') = false
        /\ key u' <> normalize_content (c_block c)) ->
     (normalize_content (skipn (List.length (lines_clean u)) (c_block c)) = [] ->
      match_idx a c = S n /\ registry_after a c = unique (stats_of a c))
     /\ (normalize_content (skipn (List.length (lines_clean u)) (c_block c)) <> [] ->
         exists e,
           nth_error (registry_after a c) (match_idx a c - 1) = Some e
           /\ key e
              = normalize_content (skipn (List.length (lines_clean u)) (c_block c))
           /\ extension_of e = Some (S n)
           /\ match_idx a c <> S n
           /\ (registry_after a c = unique (stats_of a c)
               \/ (registry_after a c = unique (stats_of a c) ++ [e]
                   /\ u_lines e = skipn (List.length (lines_clean u)) (c_block c)
                   /\ forall e',
                        In e' (unique (stats_of a c)) ->
                        extension_of e' = Some (S n) ->
                        key e'
                        <> normalize_content
                             (skipn (List.length (lines_clean u)) (c_block c))))
           /\ token_of (type_stats (place a c)) (c_type c, match_idx a c)
              <> token_of (type_stats (place a c)) (c_type c, S n))
     /\ occurrences (place a c)
        = occurrences a
          ++ repeat (Occurrence (c_type c) (c_abbrev c) (match_idx a c)
                                (extension_created a c))
                    (repeat_count c))
  /\ rebuild_formatted_tab chorus_pair [] [] [] = Ok chorus_pair_out.
Proof.
  split; [|vm_compute; reflexivity].
  intros secs a c n u Hrun Hty Hn Hpre Hfirst.
  pose proof (analyse_wf _ Hrun) as Hwf.
  pose proof (resolve_at_first_prefix c Hwf Hty Hn Hpre Hfirst) as Hres.
  cbv zeta in Hres.
  set (suffix := skipn (List.length (lines_clean u)) (c_block c)) in *.
  assert (Hnlt : n < List.length (unique (stats_of a c))).
  { apply nth_error_Some. congruence. }
  split; [|split; [|reflexivity]].
  - intros Hk. rewrite Hk in Hres. cbn in Hres.
    unfold match_idx, registry_after. rewrite Hres. split; reflexivity.
  - intros Hk. apply text_eqb_neq in Hk. rewrite Hk in Hres.
    destruct (find_extension (S n) (normalize_content suffix) 1
                             (unique (stats_of a c))) as [j|] eqn:F.
    + apply find_extension_range in F.
      destruct F as (Hj & e & He & Hext & Hkey).
      apply is_extension_of_some in Hext.
      assert (Hm : match_idx a c = j) by (unfold match_idx; rewrite Hres; reflexivity).
      assert (Hr : registry_after a c = unique (stats_of a c))
        by (unfold registry_after; rewrite Hres; reflexivity).
      assert (Hne : j <> S n).
      { pose proof (stats_of_entries_ok c Hwf) as Hok.
        destruct (Hok _ _ He) as [_ Hi].
        specialize (Hi _ Hext). lia. }
      exists e. rewrite Hm, Hr.
      repeat split; try assumption.
      * left. reflexivity.
      * rewrite <- Hm. apply place_tokens_differ; [lia | rewrite Hm; exact Hne].
    + assert (Hm : match_idx a c = S (List.length (unique (stats_of a c)))).
      { unfold match_idx, registry_after. rewrite Hres, length_app. simpl. lia. }
      assert (Hr : registry_after a c
                   = unique (stats_of a c)
                     ++ [Entry (normalize_content suffix) suffix suffix (Some (S n))])
        by (unfold registry_after; rewrite Hres; reflexivity).
      exists (Entry (normalize_content suffix) suffix suffix (Some (S n))).
      rewrite Hm, Hr. simpl. rewrite Nat.sub_0_r.
      rewrite nth_error_app2, Nat.sub_diag by lia.
      repeat split; try reflexivity.
      * lia.
      * right. repeat split.
        intros e' Hin Hext.
        eapply find_extension_none; [exact F | exact Hin |].
        unfold is_extension_of. rewrite Hext. apply Nat.eqb_refl.
      * rewrite <- Hm. apply place_tokens_differ; [lia | rewrite Hm; lia].
Qed.

(** The theorem at the second of two choruses, which adds a couplet to the
    first. *)
Lemma chorus_extension_rule_witness :
  exists a,
    analyse [Section_ "Chorus" ["la la" : text; "li li" : text]] = Ok a
    /\ occurrences
         (place a (Collapsed "Chorus" "C"
                     ["la la" : text; "li li" : text; "one more" : text] 1))
       = occurrences a
         ++ [Occurrence "Chorus" "C" 2 true].
Proof.
  destruct (analyse [Section_ "Chorus" ["la la" : text; "li li" : text]])
    as [a|e] eqn:Ha; [|vm_compute in Ha; discriminate].
  exists a. split; [reflexivity|].
  pose (c := Collapsed "Chorus" "C"
               ["la la" : text; "li li" : text; "one more" : text] 1).
  pose (u := Entry ("la la" ++ [nl] ++ "li li")
               ["la la" : text; "li li" : text]
               ["la la" : text; "li li" : text] None).
  assert (H : occurrences (place a c)
              = occurrences a
                ++ repeat (Occurrence (c_type c) (c_abbrev c) (match_idx a c)
                                      (extension_created a c))
                          (repeat_count c)).
  { refine (proj2 (proj2 (proj1 chorus_extension_rule _ a c 0 u Ha eq_refl _ _ _))).
    - vm_compute in Ha. inversion Ha; subst a. vm_compute. reflexivity.
    - vm_compute. reflexivity.
    - intros m u' Hm. lia. }
  subst c u. cbn [c_type c_abbrev repeat_count] in H. rewrite H.
  vm_compute in Ha. inversion Ha; subst a. vm_compute. reflexivity.
Defined.

(** The claim without the precedence of the exact match fails.  The registry
    holds a chorus that begins with a blank line and a chorus of the one line
    A.  A third chorus A, B starts with the lines of the second entry, which
    is the first entry it starts with, and the line B left over has a
    key; yet it has the key of the first entry, so it reuses index 1 and no
    extension is registered. *)
Lemma chorus_exact_match_wins :
  analyse blank_led_choruses = Ok blank_led_registry
  /\ c_type third_chorus = "Chorus"
  /\ nth_error (unique (stats_of blank_led_registry third_chorus)) 1
     = Some (Entry "A" ["A" : text] ["A" : text] None)
  /\ starts_with_lines (c_block third_chorus) ["A" : text] = true
  /\ forallb (fun u => starts_with_lines (c_block third_chorus) (lines_clean u))
             (firstn 1 (unique (stats_of blank_led_registry third_chorus)))
     = false
  /\ normalize_content (skipn 1 (c_block third_chorus)) = "B"
  /\ match_idx blank_led_registry third_chorus = 1
  /\ registry_after blank_led_registry third_chorus
     = unique (stats_of blank_led_registry third_chorus)
  /\ map extension_of (registry_after blank_led_registry third_chorus)
     = [None; None]
  /\ rebuild_formatted_tab blank_led_tab [] [] [] = Ok blank_led_out.
Proof. repeat split; vm_compute; reflexivity. Qed.


(** ** What a match consumes and captures *)

Lemma many_sound : forall p k s pv cs x,
  many p k pv s cs = Some x ->
  exists w s' pv',
    s = w ++ s' /\ forallb p w = true /\ k (MState pv' s' cs) = Some x.
Proof.
  intros p k s. induction s as [|c s IH]; intros pv cs x H; simpl in H.
  - exists [], [], pv. repeat split. exact H.
  - destruct (p c) eqn:Ep.
    + destruct (many p k (Some c) s cs) as [r|] eqn:E.
      * inversion H; subst r. apply IH in E.
        destruct E as (w & s' & pv' & -> & Hw & Hk).
        exists (c :: w), s', pv'. simpl. rewrite Ep, Hw. repeat split. exact Hk.
      * exists [], (c :: s), pv. repeat split. exact H.
    + exists [], (c :: s), pv. repeat split. exact H.
Qed.

Lemma few_sound : forall p k s pv cs x,
  few p k pv s cs = Some x ->
  exists w s' pv',
    s = w ++ s' /\ forallb p w = true /\ k (MState pv' s' cs) = Some x.
Proof.
  intros p k s. induction s as [|c s IH]; intros pv cs x H; simpl in H.
  - destruct (k (MState pv [] cs)) eqn:E; [|discriminate].
    exists [], [], pv. repeat split. congruence.
  - destruct (k (MState pv (c :: s) cs)) eqn:E.
    + exists [], (c :: s), pv. repeat split. congruence.
    + destruct (p c) eqn:Ep; [|discriminate].
      apply IH in H. destruct H as (w & s' & pv' & -> & Hw & Hk).
      exists (c :: w), s', pv'. simpl. rewrite Ep, Hw. repeat split. exact Hk.
Qed.

Lemma startswith_split : forall w s,
  Py.startswith w s = true -> s = w ++ skipn (List.length w) s.
Proof.
  induction w as [|c w IH]; intros s H; [reflexivity|].
  destruct s as [|d s]; simpl in H; [discriminate|].
  destruct (ascii_dec c d) as [->|]; [|discriminate].
  simpl. f_equal. apply IH. exact H.
Qed.

Section Sound.
Variable S : ascii -> Prop.
Variable G : nat -> ascii -> Prop.

Lemma class_run : forall (P : ascii -> Prop) p w,
  (forall c, S c -> p c = true -> P c) ->
  Forall S w -> forallb p w = true -> Forall P w.
Proof.
  intros P p w Hp HS Hw. induction w as [|c w IH]; [constructor|].
  simpl in Hw. apply andb_true_iff in Hw. destruct Hw as [Hc Hw].
  inversion HS; subst. constructor; [apply Hp; assumption | apply IH; assumption].
Qed.

Lemma taken_app : forall st st' w,
  rest st = w ++ rest st' -> taken st st' = w.
Proof.
  intros st st' w H. unfold taken. rewrite H, length_app.
  replace (List.length w + List.length (rest st') - List.length (rest st'))
    with (List.length w) by lia.
  rewrite firstn_app, Nat.sub_diag, firstn_all. apply app_nil_r.
Qed.

(** A match that succeeds has called its continuation at a position
    further on, having consumed admitted characters only and captured what
    its groups claim. *)
Lemma mtch_sound : forall r (P : ascii -> Prop) k st x,
  within S G P r ->
  Forall S (rest st) ->
  caps_ok G (caps st) ->
  mtch r k st = Some x ->
  exists st' w,
    k st' = Some x
    /\ rest st = w ++ rest st'
    /\ Forall P w
    /\ caps_ok G (caps st').
Proof.
  induction r as [| | | |p|w0|p|p|p|a IHa b IHb|a IHa b IHb|i a IHa];
    intros P k st x Hin HS Hcaps H; simpl in H.
  - exists st, []. repeat split; try assumption. constructor.
  - destruct (prev st); [discriminate|].
    exists st, []. repeat split; try assumption. constructor.
  - destruct (at_end st); [|discriminate].
    exists st, []. repeat split; try assumption. constructor.
  - destruct (at_boundary st); [|discriminate].
    exists st, []. repeat split; try assumption. constructor.
  - destruct (rest st) as [|c s'] eqn:Er; [discriminate|].
    destruct (p c) eqn:Ep; [|discriminate].
    eexists _, [c]. split; [exact H|]. cbn [rest caps].
    inversion HS; subst. repeat split; try assumption.
    constructor; [apply Hin; assumption | constructor].
  - destruct (Py.startswith w0 (rest st)) eqn:Es; [|discriminate].
    apply startswith_split in Es.
    eexists _, w0. split; [exact H|]. cbn [rest caps].
    repeat split; try assumption.
    rewrite Es in HS. apply Forall_app in HS. destruct HS as [HS _].
    apply Forall_forall. intros c Hc. apply Hin; [exact Hc|].
    rewrite Forall_forall in HS. apply HS. exact Hc.
  - apply many_sound in H. destruct H as (w & s' & pv' & Hs & Hw & Hk).
    eexists _, w. split; [exact Hk|]. cbn [rest caps].
    repeat split; try assumption.
    rewrite Hs in HS. apply Forall_app in HS. destruct HS as [HS _].
    apply (@class_run P p w Hin HS Hw).
  - destruct (rest st) as [|c s'] eqn:Er; [discriminate|].
    destruct (p c) eqn:Ep; [|discriminate].
    apply many_sound in H. destruct H as (w & s'' & pv' & Hs & Hw & Hk).
    eexists _, (c :: w). split; [exact Hk|]. cbn [rest caps].
    rewrite Hs. repeat split; try assumption.
    inversion HS; subst. constructor; [apply Hin; assumption|].
    apply Forall_app in H2. destruct H2 as [H2 _].
    apply (@class_run P p w Hin H2 Hw).
  - apply few_sound in H. destruct H as (w & s' & pv' & Hs & Hw & Hk).
    eexists _, w. split; [exact Hk|]. cbn [rest caps].
    repeat split; try assumption.
    rewrite Hs in HS. apply Forall_app in HS. destruct HS as [HS _].
    apply (@class_run P p w Hin HS Hw).
  - destruct Hin as [Ha Hb].
    destruct (IHa P _ _ _ Ha HS Hcaps H) as (st1 & w1 & Hk1 & Hr1 & Hw1 & Hc1).
    assert (HS1 : Forall S (rest st1)).
    { rewrite Hr1 in HS. apply Forall_app in HS. apply HS. }
    destruct (IHb P _ _ _ Hb HS1 Hc1 Hk1) as (st2 & w2 & Hk2 & Hr2 & Hw2 & Hc2).
    exists st2, (w1 ++ w2). repeat split; try assumption.
    + rewrite Hr1, Hr2. apply app_assoc.
    + apply Forall_app. split; assumption.
  - destruct Hin as [Ha Hb].
    destruct (mtch a k st) as [r|] eqn:E.
    + inversion H; subst r. apply (IHa P _ _ _ Ha HS Hcaps E).
    + apply (IHb P _ _ _ Hb HS Hcaps H).
  - destruct (IHa _ _ _ _ Hin HS Hcaps H) as (st1 & w1 & Hk1 & Hr1 & Hw1 & Hc1).
    eexists _, w1. split; [exact Hk1|]. cbn [rest caps].
    repeat split; try assumption.
    + eapply Forall_impl; [|exact Hw1]. intros c [Hc _]. exact Hc.
    + intros j w [Hjw|Hjw].
      * inversion Hjw; subst. rewrite (@taken_app st st1 w1 Hr1).
        eapply Forall_impl; [|exact Hw1]. intros c [_ Hc]. exact Hc.
      * apply (Hc1 _ _ Hjw).
Qed.

Lemma group_in : forall i cs w, group i cs = Some w -> In (i, w) cs.
Proof.
  intros i cs w. induction cs as [|[j v] cs IH]; simpl; [discriminate|].
  destruct (i =? j) eqn:E.
  - apply Nat.eqb_eq in E. intros H. inversion H; subst. left. reflexivity.
  - intros H. right. apply IH. exact H.
Qed.

(** What [re.match] captures. *)
Lemma re_match_groups : forall r s m,
  within S G (fun _ => True) r ->
  Forall S s ->
  re_match r s = Some m ->
  forall i w, group i (caps m) = Some w -> Forall (G i) w.
Proof.
  intros r s m Hin HS H i w Hg. unfold re_match in H.
  eapply mtch_sound in H; [|exact Hin|exact HS|intros j v []].
  destruct H as (st' & w' & Hk & _ & _ & Hc). inversion Hk; subst.
  apply (Hc i). apply group_in. exact Hg.
Qed.

Lemma re_match_group_text : forall r s m i,
  within S G (fun _ => True) r ->
  Forall S s ->
  re_match r s = Some m ->
  Forall (G i) (group_text i m).
Proof.
  intros r s m i Hin HS H. unfold group_text.
  destruct (group i (caps m)) eqn:E; [|constructor].
  eapply re_match_groups; [exact Hin | exact HS | exact H | exact E].
Qed.
End Sound.


(** ** The characters of a flow token *)

Section Kept.
Variable P : ascii -> Prop.

Lemma Forall_lstrip_by : forall p s, Forall P s -> Forall P (Py.lstrip_by p s).
Proof.
  intros p s H. destruct (lstrip_by_suffix p s) as (w & Hw & _).
  rewrite Hw in H. apply Forall_app in H. apply H.
Qed.

Lemma Forall_rstrip : forall s, Forall P s -> Forall P (Py.rstrip s).
Proof.
  intros s H. unfold Py.rstrip, Py.lstrip.
  apply Forall_rev. apply Forall_lstrip_by. apply Forall_rev. exact H.
Qed.

Lemma Forall_strip : forall s, Forall P s -> Forall P (Py.strip s).
Proof.
  intros s H. unfold Py.strip, Py.lstrip.
  apply Forall_rstrip. apply Forall_lstrip_by. exact H.
Qed.

Lemma Forall_remove_char : forall a s, Forall P s -> Forall P (Py.remove_char a s).
Proof.
  intros a s H. unfold Py.remove_char. apply Forall_forall.
  intros c Hc. apply filter_In in Hc. rewrite Forall_forall in H. apply H. apply Hc.
Qed.
End Kept.

Lemma to_upper_no_comma : forall c, no_comma c -> no_comma (Py.to_upper c).
Proof.
  intros c. unfold no_comma.
  destruct c as [[] [] [] [] [] [] [] []]; vm_compute; intros H E;
    first [discriminate E | exact (H E)].
Qed.

Lemma to_lower_no_comma : forall c, no_comma c -> no_comma (Py.to_lower c).
Proof.
  intros c. unfold no_comma.
  destruct c as [[] [] [] [] [] [] [] []]; vm_compute; intros H E;
    first [discriminate E | exact (H E)].
Qed.

Lemma title_no_comma : forall s, Forall no_comma s -> Forall no_comma (Py.title s).
Proof.
  intros s H. unfold Py.title. generalize false.
  induction H as [|c s Hc Hs IH]; intros b; simpl; constructor.
  - destruct (Py.isletter c); [|exact Hc].
    destruct b; [apply to_lower_no_comma | apply to_upper_no_comma]; exact Hc.
  - apply IH.
Qed.

Lemma label_ok_no_comma : forall c, label_ok c -> no_comma c.
Proof. intros c H E. subst c. vm_compute in H. discriminate. Qed.

Lemma literal_no_comma : forall s : text,
  forallb (fun c => if ascii_dec c ","%char then false else true) s = true ->
  Forall no_comma s.
Proof.
  intros s H. rewrite forallb_forall in H. apply Forall_forall.
  intros c Hc E. specialize (H c Hc). destruct (ascii_dec c ","%char); congruence.
Qed.

Lemma classify_no_comma : forall base base_part,
  Forall no_comma base_part -> Forall no_comma (snd (classify base base_part)).
Proof.
  intros base base_part H. unfold classify.
  repeat match goal with
         | |- context [if ?b then _ else _] =>
             destruct b; [apply literal_no_comma; reflexivity|]
         end.
  cbn [snd]. apply Forall_remove_char. apply title_no_comma. exact H.
Qed.

Lemma number_re_within :
  within no_comma (fun _ => no_comma) (fun _ => True) number_re.
Proof.
  unfold number_re. simpl. repeat split; intros; assumption.
Qed.

Lemma parse_section_header_no_comma : forall raw type_name abbrev num,
  Forall no_comma raw ->
  parse_section_header raw = Ok (type_name, abbrev, num) ->
  Forall no_comma abbrev.
Proof.
  intros raw t ab n Hraw H. unfold parse_section_header in H.
  assert (Hname : Forall no_comma (Py.strip raw)) by (apply Forall_strip; exact Hraw).
  set (base_part :=
         match re_match number_re (Py.strip raw) with
         | Some m => Py.strip (group_text 1 m)
         | None => Py.strip raw
         end) in H.
  assert (Hbase : Forall no_comma base_part).
  { unfold base_part. destruct (re_match number_re (Py.strip raw)) eqn:E;
      [|exact Hname].
    apply Forall_strip.
    apply (@re_match_group_text no_comma (fun _ => no_comma) _ _ _ 1
             number_re_within Hname E). }
  match type of H with
  | bind ?m _ = _ => destruct m as [num'|e]; simpl in H; [|discriminate]
  end.
  pose proof (classify_no_comma
                (Py.strip (Py.replace_char "-" " " (Py.lower base_part)))
                Hbase) as Hc.
  destruct (classify _ base_part) as [t' ab']. inversion H; subst. exact Hc.
Qed.

Lemma header_re_within :
  within (fun _ => True) (fun _ => label_ok) (fun _ => True) header_re.
Proof.
  unfold header_re. simpl. repeat split; try tauto.
  unfold label_ok, label_char. rewrite H0. reflexivity.
Qed.

Lemma split_line_labels : forall st line,
  Forall (fun s => Forall label_ok (header s)) (sections st) ->
  (forall h, current_header st = Some h -> Forall label_ok h) ->
  Forall (fun s => Forall label_ok (header s)) (sections (split_line st line))
  /\ (forall h, current_header (split_line st line) = Some h -> Forall label_ok h).
Proof.
  intros st line Hs Hc. unfold split_line.
  destruct (re_match header_re (Py.strip line)) as [m|] eqn:E.
  - cbn [sections current_header]. split.
    + destruct (current_header st) as [h|] eqn:Eh; [|exact Hs].
      apply Forall_app. split; [exact Hs|].
      constructor; [|constructor]. cbn [header]. apply Hc. reflexivity.
    + intros h Hh. inversion Hh; subst. apply Forall_strip.
      apply (@re_match_group_text (fun _ => True) (fun _ => label_ok) _ _ _ 1
               header_re_within (proj2 (Forall_forall _ _) (fun _ _ => I)) E).
  - destruct (current_header st) eqn:Eh; cbn [sections current_header];
      (split; [exact Hs|]); rewrite ?Eh; exact Hc.
Qed.

Lemma split_body_labels : forall body,
  Forall (fun s => Forall label_ok (header s)) (sections (split_body body)).
Proof.
  intros body. unfold split_body.
  assert (H : forall ls st,
             Forall (fun s => Forall label_ok (header s)) (sections st) ->
             (forall h, current_header st = Some h -> Forall label_ok h) ->
             Forall (fun s => Forall label_ok (header s))
                    (sections (fold_left split_line ls st))
             /\ (forall h, current_header (fold_left split_line ls st) = Some h ->
                           Forall label_ok h)).
  { induction ls as [|l ls IH]; intros st Hs Hc; simpl; [split; assumption|].
    destruct (@split_line_labels st l Hs Hc) as [Hs' Hc']. apply IH; assumption. }
  destruct (H (Py.split_char nl body) (Splitter [] [] None [] 0)) as [Hs Hc].
  { constructor. }
  { cbn. discriminate. }
  destruct (current_header _) as [h|] eqn:E; [|exact Hs].
  cbn [sections]. apply Forall_app. split; [exact Hs|].
  constructor; [|constructor]. cbn [header]. apply Hc. reflexivity.
Qed.

Lemma collapse_no_comma : forall s c,
  Forall no_comma (header s) -> collapse s = Ok c -> Forall no_comma (c_abbrev c).
Proof.
  intros s c Hs H. unfold collapse in H.
  destruct (parse_section_header (header s)) as [[[t ab] n]|e] eqn:E;
    simpl in H; [|discriminate].
  destruct (extract_repeated_block (clean_lines (lines s))) as [b k].
  inversion H; subst. cbn [c_abbrev].
  apply (parse_section_header_no_comma Hs E).
Qed.

Lemma collapse_all_no_comma : forall secs cs,
  Forall (fun s => Forall no_comma (header s)) secs ->
  collapse_all secs = Ok cs ->
  Forall (fun c => Forall no_comma (c_abbrev c)) cs.
Proof.
  induction secs as [|s secs IH]; intros cs Hs H; simpl in H.
  - inversion H; subst. constructor.
  - destruct (collapse s) as [c|e] eqn:Ec; simpl in H; [|discriminate].
    destruct (collapse_all secs) as [cs'|e] eqn:E; simpl in H; [|discriminate].
    inversion H; subst. inversion Hs; subst.
    constructor; [apply (collapse_no_comma _ H2 Ec) | apply IH; [assumption | reflexivity]].
Qed.

Lemma place_all_prefix : forall cs a,
  (forall t st, dict_get text_eqb t (type_stats a) = Some st ->
                Forall no_comma (prefix st)) ->
  Forall (fun c => Forall no_comma (c_abbrev c)) cs ->
  forall t st,
    dict_get text_eqb t (type_stats (fold_left place cs a)) = Some st ->
    Forall no_comma (prefix st).
Proof.
  induction cs as [|c cs IH]; intros a Ha Hcs; simpl; [exact Ha|].
  inversion Hcs; subst. apply IH; [|assumption].
  intros t st Hget. rewrite place_get in Hget.
  destruct (text_eqb t (c_type c)); [|apply (Ha _ _ Hget)].
  inversion Hget; subst st. cbn [prefix]. unfold stats_of.
  destruct (dict_get text_eqb (c_type c) (type_stats a)) eqn:E.
  - apply (Ha _ _ E).
  - exact H1.
Qed.

Lemma str_of_nat_no_comma : forall n, Forall no_comma (Py.str_of_nat n).
Proof.
  intros n. unfold Py.str_of_nat. generalize (Nat.to_uint n). intros d.
  induction d; simpl; constructor; try exact IHd; discriminate.
Qed.

Lemma token_of_no_comma : forall ts id,
  (forall t st, dict_get text_eqb t ts = Some st -> Forall no_comma (prefix st)) ->
  Forall no_comma (token_of ts id).
Proof.
  intros ts [t i] H. unfold token_of, display_of. cbn [fst snd].
  destruct (dict_get text_eqb t ts) as [st|] eqn:E; [|constructor].
  destruct i as [|i]; [constructor|].
  destruct (nth_error (unique st) i); [|constructor].
  unfold numbered_display. cbn [token].
  destruct (numbered t st); [|apply (H _ _ E)].
  apply Forall_app. split; [apply (H _ _ E) | apply str_of_nat_no_comma].
Qed.

(** ** Splitting a comma-joined list *)

Lemma startswith_comma_other : forall c s,
  no_comma c -> Py.startswith ", " (c :: s) = false.
Proof.
  intros c s Hc.
  change (String.list_ascii_of_string ", ") with [","%char; " "%char].
  cbn [Py.startswith].
  destruct (ascii_dec ","%char c) as [E|E]; [|reflexivity].
  exfalso. apply Hc. symmetry. exact E.
Qed.

Lemma split_sep_comma : forall s,
  split_sep ", " 0 (", " ++ s) = [] :: split_sep ", " 0 s.
Proof.
  intros s.
  change (String.list_ascii_of_string ", ") with [","%char; " "%char].
  cbn [app split_sep Py.startswith List.length Nat.sub].
  destruct (ascii_dec ","%char ","%char); [|congruence].
  destruct (ascii_dec " "%char " "%char); [|congruence].
  reflexivity.
Qed.

Lemma split_sep_token : forall t r l ls,
  Forall no_comma t ->
  split_sep ", " 0 r = l :: ls ->
  split_sep ", " 0 (t ++ r) = (t ++ l) :: ls.
Proof.
  intros t r l ls Ht Hr. induction Ht as [|c t Hc Ht IH]; [exact Hr|].
  cbn [app split_sep].
  rewrite (startswith_comma_other _ Hc), IH. reflexivity.
Qed.

Lemma comma_separated_join : forall tokens,
  tokens <> [] ->
  Forall (Forall no_comma) tokens ->
  comma_separated (Py.join ", " tokens) = tokens.
Proof.
  intros tokens Hne H. unfold comma_separated.
  induction H as [|t ts Ht Hts IH]; [congruence|].
  destruct ts as [|t2 ts].
  - cbn [Py.join]. rewrite <- (app_nil_r t) at 1.
    rewrite (@split_sep_token t [] [] [] Ht eq_refl), app_nil_r. reflexivity.
  - rewrite join_cons by discriminate.
    erewrite split_sep_token; [|exact Ht|apply split_sep_comma].
    rewrite app_nil_r, IH by discriminate. reflexivity.
Qed.

(** C2. When the body has a section header, the Flow field of the rebuilt
    document is the comma-joined list of the flow tokens of the performed
    occurrences: each section, in reading order, stands for [repeat_count]
    consecutive occurrences of the unique content it resolves to, and every
    occurrence names an entry of the registry.  Splitting the field at its
    commas gives these tokens back, and there are as many of them as the
    repeat counts of the collapsed sections add up to. *)
Theorem flow_follows_occurrences :
  forall tab artist_fb title_fb file_base d,
    rebuild_doc tab artist_fb title_fb file_base = Ok d ->
    0 < headers_found (sections_of tab artist_fb title_fb file_base) ->
    exists cs a,
      collapse_all (sections (sections_of tab artist_fb title_fb file_base)) = Ok cs
      /\ analyse (sections (sections_of tab artist_fb title_fb file_base)) = Ok a
      /\ map occ_id (occurrences a) = performed cs
      /\ Forall (valid_id (type_stats a)) (performed cs)
      /\ meta_get "Flow" (d_meta d)
         = Py.join ", " (map (token_of (type_stats a)) (performed cs))
      /\ comma_separated (meta_get "Flow" (d_meta d))
         = map (token_of (type_stats a)) (performed cs)
      /\ List.length (comma_separated (meta_get "Flow" (d_meta d)))
         = list_sum (map repeat_count cs).
Proof.
  intros tab artist_fb title_fb file_base d Hrun Hpos.
  destruct (rebuild_doc_structured _ _ _ _ Hrun Hpos) as (r & Hr & ->).
  pose proof (split_body_sections _ Hpos) as Hne.
  destruct (structured_flow _ _ Hr Hne)
    as (cs & a & Hcs & Ha & Hperf & Hval & Hp & Hflow).
  exists cs, a. cbn [d_meta].
  assert (Hsplit : comma_separated (meta_get "Flow" (fst r))
                   = map (token_of (type_stats a)) (performed cs)).
  { rewrite Hflow. apply comma_separated_join.
    - intros E. apply map_eq_nil in E. contradiction.
    - apply Forall_map. apply Forall_forall. intros id _.
      apply token_of_no_comma.
      pose proof Ha as Ha'. apply analyse_from_collapse in Ha'.
      destruct Ha' as (cs' & Hcs' & ->).
      apply place_all_prefix; [cbn; discriminate|].
      eapply collapse_all_no_comma; [|exact Hcs'].
      eapply Forall_impl; [|apply split_body_labels].
      intros s Hs. eapply Forall_impl; [|exact Hs].
      intros c. apply label_ok_no_comma. }
  repeat split; try assumption.
  rewrite Hsplit, length_map. apply performed_length.
Qed.

(** The theorem at the three verses. *)
Lemma flow_follows_occurrences_witness :
  exists d,
    rebuild_doc three_verses [] [] [] = Ok d
    /\ 0 < headers_found (sections_of three_verses [] [] [])
    /\ exists cs a,
         collapse_all (sections (sections_of three_verses [] [] [])) = Ok cs
         /\ analyse (sections (sections_of three_verses [] [] [])) = Ok a
         /\ map occ_id (occurrences a) = performed cs
         /\ Forall (valid_id (type_stats a)) (performed cs)
         /\ meta_get "Flow" (d_meta d)
            = Py.join ", " (map (token_of (type_stats a)) (performed cs))
         /\ comma_separated (meta_get "Flow" (d_meta d))
            = map (token_of (type_stats a)) (performed cs)
         /\ List.length (comma_separated (meta_get "Flow" (d_meta d)))
            = list_sum (map repeat_count cs).
Proof.
  destruct (rebuild_doc three_verses [] [] []) as [d|e] eqn:Hd;
    [|vm_compute in Hd; discriminate].
  assert (Hpos : 0 < headers_found (sections_of three_verses [] [] []))
    by (vm_compute; lia).
  exists d. split; [reflexivity|]. split; [exact Hpos|].
  exact (flow_follows_occurrences three_verses [] [] [] Hd Hpos).
Defined.


(** ** Lines *)

Lemma split_char_nonempty : forall sep s, Py.split_char sep s <> [].
Proof.
  intros sep s. destruct s as [|c s]; simpl; [discriminate|].
  destruct (ascii_dec c sep); [discriminate|].
  destruct (Py.split_char sep s); discriminate.
Qed.

Lemma split_char_no_sep : forall sep s,
  Forall (fun l => ~ In sep l) (Py.split_char sep s).
Proof.
  intros sep s. induction s as [|c s IH]; simpl.
  - constructor; [intros [] | constructor].
  - destruct (ascii_dec c sep) as [E|E].
    + constructor; [intros [] | exact IH].
    + destruct (Py.split_char sep s) as [|l ls].
      * constructor; [|constructor]. intros [H|[]]. congruence.
      * inversion IH; subst. constructor; [|assumption].
        intros [H|H]; [congruence | contradiction].
Qed.

Lemma join_split : forall sep s, Py.join [sep] (Py.split_char sep s) = s.
Proof.
  intros sep s. induction s as [|c s IH]; [reflexivity|].
  simpl. destruct (ascii_dec c sep) as [E|E].
  - subst c. rewrite join_cons by apply split_char_nonempty.
    simpl. rewrite IH. reflexivity.
  - pose proof (split_char_nonempty sep s) as Hne.
    destruct (Py.split_char sep s) as [|l ls]; [congruence|].
    destruct ls as [|l2 ls].
    + simpl in *. rewrite IH. reflexivity.
    + cbn [Py.join] in *. rewrite <- IH. reflexivity.
Qed.

Lemma split_char_plain : forall sep l,
  ~ In sep l -> Py.split_char sep l = [l].
Proof.
  intros sep l. induction l as [|c l IH]; intros H; [reflexivity|].
  simpl. destruct (ascii_dec c sep) as [E|E].
  - exfalso. apply H. left. exact E.
  - rewrite IH; [reflexivity|]. intros Hin. apply H. right. exact Hin.
Qed.

Lemma split_char_app : forall sep l s,
  ~ In sep l ->
  Py.split_char sep (l ++ sep :: s) = l :: Py.split_char sep s.
Proof.
  intros sep l s. induction l as [|c l IH]; intros H; simpl.
  - destruct (ascii_dec sep sep); [reflexivity | congruence].
  - destruct (ascii_dec c sep) as [E|E].
    + exfalso. apply H. left. exact E.
    + rewrite IH; [reflexivity|]. intros Hin. apply H. right. exact Hin.
Qed.

Lemma split_join : forall sep ls,
  ls <> [] -> Forall (fun l => ~ In sep l) ls ->
  Py.split_char sep (Py.join [sep] ls) = ls.
Proof.
  intros sep ls Hne H. induction H as [|l ls Hl Hls IH]; [congruence|].
  destruct ls as [|l2 ls].
  - simpl. apply split_char_plain. exact Hl.
  - rewrite join_cons by discriminate.
    cbn [app]. rewrite split_char_app by exact Hl.
    rewrite IH by discriminate. reflexivity.
Qed.

(** ** Values that stripping leaves as they are *)

Lemma lstrip_by_same_length : forall p s,
  List.length (Py.lstrip_by p s) = List.length s -> Py.lstrip_by p s = s.
Proof.
  intros p s H. destruct s as [|c s]; [reflexivity|].
  simpl in *. destruct (p c); [|reflexivity].
  pose proof (lstrip_by_length p s). lia.
Qed.

Lemma strip_fixed_lstrip : forall v, Py.strip v = v -> Py.lstrip v = v.
Proof.
  intros v H. apply lstrip_by_same_length.
  pose proof (rstrip_length (Py.lstrip v)) as H1.
  pose proof (lstrip_by_length Py.isspace v) as H2.
  unfold Py.strip in H. fold (Py.lstrip v) in H2.
  rewrite H in H1. unfold Py.lstrip in *. lia.
Qed.

Lemma lstrip_plain_head : forall c s, plain c -> Py.lstrip (c :: s) = c :: s.
Proof. intros c s H. unfold Py.lstrip. simpl. rewrite H. reflexivity. Qed.

Lemma rstrip_plain_last : forall s c, plain c -> Py.rstrip (s ++ [c]) = s ++ [c].
Proof.
  intros s c H. unfold Py.rstrip. rewrite rev_app_distr. simpl.
  rewrite lstrip_plain_head by exact H.
  change (c :: rev s) with ([c] ++ rev s).
  rewrite rev_app_distr, rev_involutive. reflexivity.
Qed.

Lemma rstrip_idem : forall s, Py.rstrip (Py.rstrip s) = Py.rstrip s.
Proof.
  intros s. unfold Py.rstrip, Py.lstrip. rewrite rev_involutive.
  rewrite lstrip_by_idem. reflexivity.
Qed.

Lemma rstrip_keeps_head : forall c s,
  plain c -> exists s', Py.rstrip (c :: s) = c :: s'.
Proof.
  intros c s H. destruct (blank s) eqn:E.
  - exists []. change (c :: s) with ([c] ++ s).
    rewrite rstrip_app_blank by exact E. apply (rstrip_plain_last [] H).
  - exists (Py.rstrip s). change (c :: s) with ([c] ++ s).
    apply rstrip_app_some. exact E.
Qed.

Lemma strip_idem : forall s, Py.strip (Py.strip s) = Py.strip s.
Proof.
  intros s. unfold Py.strip at 2 3.
  destruct (Py.lstrip s) as [|c s'] eqn:E; [reflexivity|].
  pose proof (lstrip_by_head _ _ E) as Hc.
  destruct (@rstrip_keeps_head c s' Hc) as (s'' & Hs).
  rewrite Hs. unfold Py.strip. rewrite lstrip_plain_head by exact Hc.
  rewrite <- Hs. apply rstrip_idem.
Qed.

Lemma plain_not_blank : forall s, s <> [] -> Forall plain s -> blank s = false.
Proof.
  intros s Hne H. destruct H as [|c s Hc _]; [congruence|].
  unfold blank. simpl. rewrite Hc. reflexivity.
Qed.

Lemma rstrip_plain : forall s, Forall plain s -> Py.rstrip s = s.
Proof.
  intros s H. destruct s as [|c s] using rev_ind; [reflexivity|].
  apply Forall_app in H. destruct H as [_ H]. inversion H; subst.
  apply rstrip_plain_last. assumption.
Qed.

Lemma strip_plain : forall s, Forall plain s -> Py.strip s = s.
Proof.
  intros s H. unfold Py.strip.
  destruct s as [|c s]; [reflexivity|].
  inversion H; subst. rewrite lstrip_plain_head by assumption.
  apply rstrip_plain. exact H.
Qed.

Lemma plain_not_nl : forall c, plain c -> c <> nl.
Proof. intros c H E. subst c. vm_compute in H. discriminate. Qed.

Lemma plain_clean : forall s, Forall plain s -> clean s.
Proof.
  intros s H. split; [apply strip_plain; exact H|].
  intros Hin. rewrite Forall_forall in H.
  apply (plain_not_nl (H _ Hin)). reflexivity.
Qed.

Lemma strip_clean : forall s, ~ In nl s -> clean (Py.strip s).
Proof.
  intros s H. split; [apply strip_idem|].
  intros Hin. apply H.
  assert (Hall : Forall (fun c => In c s) s) by (apply Forall_forall; auto).
  pose proof (Forall_strip Hall) as Hs.
  rewrite Forall_forall in Hs. apply Hs. exact Hin.
Qed.

(** Tokens joined by single spaces. *)
Lemma join_head : forall sep c t ts,
  exists s, Py.join sep ((c :: t) :: ts) = c :: s.
Proof.
  intros sep c t ts. destruct ts; [|rewrite join_cons by discriminate];
    eexists; reflexivity.
Qed.

Lemma join_space_rstrip : forall tokens,
  Forall (fun t => t <> [] /\ Forall plain t) tokens ->
  Py.rstrip (Py.join " " tokens) = Py.join " " tokens.
Proof.
  intros tokens H. induction H as [|t ts [Hne Ht] Hts IH]; [reflexivity|].
  destruct ts as [|t2 ts]; [apply rstrip_plain; exact Ht|].
  rewrite join_cons by discriminate. rewrite app_assoc.
  inversion Hts as [|? ? [Hne2 Ht2] _]; subst.
  destruct t2 as [|c2 t2]; [congruence|]. inversion Ht2; subst.
  destruct (join_head " " c2 t2 ts) as (s & Hs).
  rewrite rstrip_app_some.
  - rewrite IH. reflexivity.
  - rewrite Hs. unfold blank. simpl. rewrite H1. reflexivity.
Qed.

Lemma join_space_clean : forall tokens,
  Forall (fun t => t <> [] /\ Forall plain t) tokens ->
  clean (Py.join " " tokens).
Proof.
  intros tokens H. split.
  - unfold Py.strip.
    assert (Hl : Py.lstrip (Py.join " " tokens) = Py.join " " tokens).
    { destruct H as [|t ts [Hne Ht] _]; [reflexivity|].
      destruct t as [|c t]; [congruence|]. inversion Ht; subst.
      destruct (join_head " " c t ts) as (s & ->).
      apply lstrip_plain_head. assumption. }
    rewrite Hl. apply join_space_rstrip. exact H.
  - intros Hin. induction H as [|t ts [Hne Ht] Hts IH]; [contradiction|].
    destruct ts as [|t2 ts].
    + simpl in Hin. rewrite Forall_forall in Ht.
      apply (plain_not_nl (Ht _ Hin)). reflexivity.
    + rewrite join_cons in Hin by discriminate.
      apply in_app_or in Hin. destruct Hin as [Hin|Hin].
      * rewrite Forall_forall in Ht. apply (plain_not_nl (Ht _ Hin)). reflexivity.
      * apply in_app_or in Hin. destruct Hin as [Hin|Hin]; [|apply IH; exact Hin].
        destruct Hin as [E|[]]. discriminate.
Qed.


(** ** Matching a line of the header *)

Lemma many_stop : forall p k pv s cs,
  match s with [] => True | c :: _ => p c = false end ->
  many p k pv s cs = k (MState pv s cs).
Proof.
  intros p k pv s cs H. destruct s as [|c s]; [reflexivity|].
  simpl. rewrite H. reflexivity.
Qed.

Lemma many_all : forall p k cs (Q : mstate -> Prop) v pv,
  forallb p v = true ->
  (forall pv', exists x, k (MState pv' [] cs) = Some x /\ Q x) ->
  exists x, many p k pv v cs = Some x /\ Q x.
Proof.
  intros p k cs Q v. induction v as [|c v IH]; intros pv Hv Hk.
  - simpl. apply Hk.
  - simpl in Hv. apply andb_true_iff in Hv. destruct Hv as [Hc Hv].
    destruct (IH (Some c) Hv Hk) as (x & Hx & HQ).
    exists x. simpl. rewrite Hc, Hx. split; [reflexivity | exact HQ].
Qed.

Lemma startswith_app : forall w r, Py.startswith w (w ++ r) = true.
Proof.
  induction w as [|c w IH]; intros r; [reflexivity|].
  simpl. destruct (ascii_dec c c); [apply IH | congruence].
Qed.

Lemma skipn_app_length : forall (A : Type) (w r : list A),
  skipn (List.length w) (w ++ r) = r.
Proof. induction w as [|c w IH]; intros r; [reflexivity | apply IH]. Qed.

Lemma no_nl_dot : forall v, ~ In nl v -> forallb dot v = true.
Proof.
  intros v H. apply forallb_forall. intros c Hc. unfold dot, is_char.
  destruct (ascii_dec c nl) as [E|E]; [|reflexivity].
  subst c. contradiction.
Qed.

(** A line that the rebuilt header holds reads back as its value. *)
Lemma meta_re_roundtrip : forall name v,
  clean v ->
  exists m,
    re_match (meta_re name) (name ++ ": " ++ v) = Some m
    /\ group_text 1 m = v.
Proof.
  intros name v [Hstrip Hnl].
  unfold re_match, meta_re. cbn [Rseqs mtch prev rest caps].
  replace (name ++ String.list_ascii_of_string ": " ++ v)
    with ((name ++ ":") ++ " "%char :: v)
    by (rewrite <- app_assoc; reflexivity).
  rewrite startswith_app, skipn_app_length.
  cbn [many]. replace (Py.isspace " "%char) with true by reflexivity.
  rewrite many_stop.
  2:{ apply strip_fixed_lstrip in Hstrip. destruct v as [|c v]; [exact I|].
      apply (lstrip_by_head Py.isspace (c :: v) Hstrip). }
  cbn [prev rest caps].
  destruct (@many_all dot
              (fun st' =>
                 if at_end (MState (prev st') (rest st')
                              ((1, taken (MState (Some " "%char) v []) st')
                               :: caps st'))
                 then Some (MState (prev st') (rest st')
                              ((1, taken (MState (Some " "%char) v []) st')
                               :: caps st'))
                 else None)
              [] (fun x => group_text 1 x = v) v (Some " "%char)
              (no_nl_dot _ Hnl)) as (x & Hx & HQ).
  { intros pv'. eexists. cbn [prev rest caps at_end]. split; [reflexivity|].
    unfold group_text, taken. cbn [caps rest group Nat.eqb List.length].
    rewrite Nat.sub_0_r, firstn_all. reflexivity. }
  exists x. rewrite Hx. split; [reflexivity | exact HQ].
Qed.

Lemma meta_re_no_nl : forall name line m,
  ~ In nl line ->
  re_match (meta_re name) line = Some m ->
  ~ In nl (group_text 1 m).
Proof.
  intros name line m Hline H Hin.
  assert (HS : Forall (fun c => c <> nl) line).
  { apply Forall_forall. intros c Hc E. subst c. contradiction. }
  assert (Hw : within (fun c => c <> nl) (fun _ c => c <> nl) (fun _ => True)
                      (meta_re name)).
  { unfold meta_re. simpl. repeat split; intros; assumption. }
  pose proof (@re_match_group_text _ _ _ _ _ 1 Hw HS H) as Hg.
  rewrite Forall_forall in Hg. apply (Hg _ Hin). reflexivity.
Qed.

(** ** The chord matches *)

Lemma finditer_from_in : forall r s skip pv m,
  In m (finditer_from r skip pv s) ->
  exists pv' s', mtch r Some (MState pv' s' []) = Some m.
Proof.
  intros r s. induction s as [|c s IH]; intros skip pv m H; simpl in H.
  - contradiction.
  - destruct skip as [|n].
    + destruct (mtch r Some (MState pv (c :: s) [])) as [m'|] eqn:E.
      * destruct H as [<-|H]; [exists pv, (c :: s); exact E|].
        apply (IH _ _ _ H).
      * apply (IH _ _ _ H).
    + apply (IH _ _ _ H).
Qed.

Lemma note_letter_plain : forall c, note_letter c = true -> plain c.
Proof.
  intros c. unfold plain.
  destruct c as [[] [] [] [] [] [] [] []]; vm_compute; intros H;
    first [reflexivity | discriminate H].
Qed.

Lemma chord_re_within :
  within (fun _ => True) chord_groups (fun _ => True) CHORD_RE.
Proof.
  unfold CHORD_RE, accidental, Ropt, qualities, chord_groups.
  simpl. repeat split; intros; try discriminate.
  - apply note_letter_plain. assumption.
  - destruct H as [<-|[]]. reflexivity.
  - destruct H as [<-|[]]. reflexivity.
Qed.

Lemma chord_root_plain : forall body m,
  In m (finditer CHORD_RE body) -> Forall plain (root_of m).
Proof.
  intros body m H. apply finditer_from_in in H. destruct H as (pv & s & H).
  apply (@mtch_sound (fun _ => True) chord_groups _ _ _ _ _ chord_re_within) in H.
  - destruct H as (st' & w & Hk & _ & _ & Hc). inversion Hk; subst.
    unfold root_of. destruct (group g_root (caps m)) as [w'|] eqn:E; [|constructor].
    apply group_in in E. apply Hc in E.
    eapply Forall_impl; [|exact E]. intros c Hcg. apply Hcg. reflexivity.
  - apply Forall_forall. intros; exact I.
  - intros i w [].
Qed.

Lemma max_item_in : forall items best, In (max_item best items) (best :: items).
Proof.
  intros items best. destruct (max_item_first items best) as (l1 & l2 & H & _).
  rewrite H. apply in_elt.
Qed.

Lemma detect_key_plain : forall body, Forall plain (detect_key body).
Proof.
  intros body. unfold detect_key.
  pose proof (tally_roots (finditer CHORD_RE body)) as Hr.
  destruct (fold_left tally (finditer CHORD_RE body) ([], [])) as [rc mc].
  cbn [fst] in Hr. destruct rc as [|first others]; [constructor|].
  assert (Hbest : Forall plain (fst (max_item first others))).
  { pose proof (max_item_in others first) as Hin. rewrite Hr in Hin.
    apply in_map_iff in Hin. destruct Hin as (r & <- & Hin). cbn [fst].
    apply (proj1 (first_seen_in _ _)) in Hin.
    apply in_map_iff in Hin. destruct Hin as (m & <- & Hm).
    apply (chord_root_plain _ _ Hm). }
  match goal with
  | |- context [if ?b then _ else _] => destruct b
  end; [|exact Hbest].
  apply Forall_app. split; [exact Hbest|].
  constructor; [reflexivity | constructor].
Qed.


(** ** The metadata of a header *)

Lemma clean_nil : clean [].
Proof. split; [reflexivity | intros []]. Qed.

Lemma all_clean_set : forall name value meta,
  clean value -> all_clean meta -> all_clean (meta_set name value meta).
Proof.
  intros name value meta Hv Hm n. rewrite meta_get_set.
  destruct (text_eqb n name); [exact Hv | apply Hm].
Qed.

Lemma all_clean_default : forall name value meta,
  clean value -> all_clean meta -> all_clean (default_meta name value meta).
Proof.
  intros name value meta Hv Hm. unfold default_meta.
  destruct (Py.truthy (meta_get name meta)); [exact Hm|].
  apply all_clean_set; assumption.
Qed.

Lemma read_meta_line_clean : forall (lines : list text) meta item,
  Forall (fun l => ~ In nl l) lines ->
  all_clean meta -> all_clean (read_meta_line lines meta item).
Proof.
  intros lines meta [offset name] Hl Hm. unfold read_meta_line.
  destruct (nth_error _ offset) as [line|] eqn:E; [|exact Hm].
  destruct (re_match (meta_re name) line) as [m|] eqn:Em; [|exact Hm].
  apply all_clean_set; [|exact Hm].
  apply strip_clean. apply (@meta_re_no_nl name line m); [|exact Em].
  rewrite Forall_forall in Hl. apply Hl. apply (nth_error_In _ _ E).
Qed.

Lemma read_meta_clean : forall lines : list text,
  Forall (fun l => ~ In nl l) lines -> all_clean (read_meta lines).
Proof.
  intros lines Hl. unfold read_meta.
  assert (H : forall items meta,
             all_clean meta ->
             all_clean (fold_left (read_meta_line lines) items meta)).
  { induction items as [|item items IH]; intros meta Hm; [exact Hm|].
    simpl. apply IH. apply read_meta_line_clean; assumption. }
  apply H. intros name. unfold meta_get.
  destruct (dict_get text_eqb name _) as [v|] eqn:E; [|apply clean_nil].
  apply (dict_get_some_in text_eqb text_eqb_eq) in E.
  apply in_map_iff in E. destruct E as (n & E & _). inversion E; subst.
  apply clean_nil.
Qed.

Lemma meta_of_clean : forall (lines : list text) body,
  Forall (fun l => ~ In nl l) lines -> all_clean (meta_of lines body).
Proof.
  intros lines body Hl. unfold meta_of.
  assert (H : all_clean (default_meta "Tuning" "Standard"
                           (default_meta "Capo" "0" (read_meta lines)))).
  { apply all_clean_default; [apply plain_clean; repeat constructor|].
    apply all_clean_default; [apply plain_clean; repeat constructor|].
    apply read_meta_clean. exact Hl. }
  match goal with
  | |- context [if ?b then _ else _] => destruct b
  end; [exact H|].
  apply all_clean_set; [|exact H]. apply plain_clean. apply detect_key_plain.
Qed.

(** The lines of a rebuilt header read back as its values. *)
Lemma read_meta_fold : forall (value : text -> text) (lines : list text),
  forall names start meta,
  (forall i name, nth_error names i = Some name ->
                  nth_error lines (start + i) = Some (name ++ ": " ++ value name)) ->
  (forall name, In name names -> clean (value name)) ->
  forall name,
    meta_get name
      (fold_left (read_meta_line lines)
                 (combine (seq start (List.length names)) names) meta)
    = if existsb (text_eqb name) names then value name else meta_get name meta.
Proof.
  intros value lines names. induction names as [|n names IH];
    intros start meta Hlines Hclean name; [reflexivity|].
  cbn [List.length seq combine fold_left existsb].
  rewrite IH.
  - unfold read_meta_line.
    pose proof (Hlines 0 n eq_refl) as H0. rewrite Nat.add_0_r in H0. rewrite H0.
    destruct (@meta_re_roundtrip n (value n) (Hclean n (or_introl eq_refl)))
      as (m & -> & Hg).
    rewrite Hg, (proj1 (Hclean n (or_introl eq_refl))), meta_get_set.
    destruct (existsb (text_eqb name) names) eqn:E.
    + rewrite orb_true_r. reflexivity.
    + rewrite orb_false_r. destruct (text_eqb name n) eqn:En; [|reflexivity].
      apply text_eqb_eq in En. subst. reflexivity.
  - intros i name' Hi. replace (S start + i) with (start + S i) by lia.
    apply Hlines. exact Hi.
  - intros name' Hin. apply Hclean. right. exact Hin.
Qed.

Lemma meta_names_in : forall name,
  In name meta_names -> existsb (text_eqb name) meta_names = true.
Proof.
  intros name H. apply (existsb_eqb_in text_eqb text_eqb_eq). exact H.
Qed.

Lemma read_meta_canonical : forall title artist meta tail,
  all_clean meta ->
  same_meta
    (read_meta ([title; artist] ++ map (meta_line meta) meta_names ++ tail))
    meta.
Proof.
  intros title artist meta tail Hm name Hin. unfold read_meta.
  rewrite (@read_meta_fold (fun n => meta_get n meta)).
  - rewrite (meta_names_in Hin). reflexivity.
  - intros i n Hi. cbn [app Nat.add nth_error].
    assert (Hlt : i < List.length meta_names).
    { apply nth_error_Some. congruence. }
    rewrite nth_error_app1 by (rewrite length_map; exact Hlt).
    rewrite nth_error_map, Hi. reflexivity.
  - intros n _. apply Hm.
Qed.

(** ** Metadata with the same values *)

Lemma same_meta_refl : forall m, same_meta m m.
Proof. intros m name _. reflexivity. Qed.

Lemma same_meta_trans : forall m1 m2 m3,
  same_meta m1 m2 -> same_meta m2 m3 -> same_meta m1 m3.
Proof. intros m1 m2 m3 H1 H2 name Hin. rewrite (H1 _ Hin). apply (H2 _ Hin). Qed.

Lemma same_meta_render : forall title artist m1 m2 body,
  same_meta m1 m2 ->
  render (Doc title artist m1 body) = render (Doc title artist m2 body).
Proof.
  intros title artist m1 m2 body H. unfold render. cbn [d_title d_artist d_meta d_body].
  do 4 f_equal. apply map_ext_in. intros name Hin. rewrite (H _ Hin). reflexivity.
Qed.

Lemma default_meta_truthy : forall name value meta,
  Py.truthy (meta_get name meta) = true -> default_meta name value meta = meta.
Proof. intros name value meta H. unfold default_meta. rewrite H. reflexivity. Qed.

(** ** Tokens of the headerless path *)

Lemma isdigit_plain : forall c, Py.isdigit c = true -> plain c.
Proof.
  intros c. unfold plain.
  destruct c as [[] [] [] [] [] [] [] []]; vm_compute; intros H;
    first [reflexivity | discriminate H].
Qed.

Lemma digits_or_1_good : forall name, good_token (digits_or_1 name).
Proof.
  intros name. unfold digits_or_1, Py.or_else.
  destruct (Py.truthy (filter Py.isdigit name)) eqn:E.
  - split; [intros H; rewrite H in E; discriminate|].
    apply Forall_forall.
    intros d Hd. apply filter_In in Hd. apply isdigit_plain. apply Hd.
  - split; [discriminate | repeat constructor].
Qed.

Lemma good_token_app : forall (a : text) b,
  a <> [] -> Forall plain a -> good_token b -> good_token (a ++ b).
Proof.
  intros a b Ha Hp [_ Hb]. split.
  - destruct a; [congruence | discriminate].
  - apply Forall_app. split; assumption.
Qed.

Lemma fallback_token_good : forall name tok,
  fallback_token name = Some tok -> good_token tok.
Proof.
  intros name tok H. unfold fallback_token in H.
  repeat match type of H with
         | (if ?b then _ else _) = _ => destruct b
         end;
    try discriminate H;
    injection H as <-;
    first [ apply good_token_app;
            [discriminate | repeat constructor | apply digits_or_1_good]
          | split; [discriminate | repeat constructor] ].
  all: apply (proj2 (digits_or_1_good name)).
Qed.

Lemma fallback_line_good : forall tokens line,
  Forall good_token tokens -> Forall good_token (fallback_line tokens line).
Proof.
  intros tokens line H. unfold fallback_line.
  destruct (negb (Py.truthy (Py.strip line))); [exact H|].
  destruct (re_match fallback_re (Py.strip line)); [|exact H].
  destruct (fallback_token _) as [tok|] eqn:E; [|exact H].
  destruct (Py.truthy tok && negb (existsb (text_eqb tok) tokens)); [|exact H].
  apply Forall_app. split; [exact H|].
  constructor; [apply (fallback_token_good _ E) | constructor].
Qed.

Lemma fallback_tokens_good : forall ls tokens,
  Forall good_token tokens ->
  Forall good_token (fold_left fallback_line ls tokens).
Proof.
  induction ls as [|l ls IH]; intros tokens H; [exact H|].
  simpl. apply IH. apply fallback_line_good. exact H.
Qed.

Lemma join_space_truthy : forall tokens,
  tokens <> [] -> Forall good_token tokens ->
  Py.truthy (Py.join " " tokens) = true.
Proof.
  intros tokens Hne H. destruct tokens as [|t ts]; [congruence|].
  inversion H as [|? ? [Ht _] _]; subst.
  destruct t as [|c t]; [congruence|].
  destruct (join_head " " c t ts) as (s & Hs). rewrite Hs. reflexivity.
Qed.

Lemma fallback_flow_clean : forall body meta,
  all_clean meta -> all_clean (fallback_flow body meta).
Proof.
  intros body meta H. unfold fallback_flow.
  pose proof (@fallback_tokens_good (Py.split_char nl body) [] (Forall_nil _)) as Hg.
  destruct (fold_left fallback_line (Py.split_char nl body) []) as [|t ts];
    [exact H|].
  apply all_clean_set; [|exact H]. apply join_space_clean. exact Hg.
Qed.

Lemma fallback_flow_other : forall body meta name,
  text_eqb name "Flow" = false ->
  meta_get name (fallback_flow body meta) = meta_get name meta.
Proof.
  intros body meta name H. unfold fallback_flow.
  destruct (fold_left fallback_line (Py.split_char nl body) []); [reflexivity|].
  rewrite meta_get_set, H. reflexivity.
Qed.

(** When the fallback leaves the Flow field empty it has found no token,
    and leaves every dictionary as it is. *)
Lemma fallback_flow_empty : forall body meta meta',
  meta_get "Flow" (fallback_flow body meta) = [] ->
  fallback_flow body meta' = meta'.
Proof.
  intros body meta meta' H. unfold fallback_flow in *.
  pose proof (@fallback_tokens_good (Py.split_char nl body) [] (Forall_nil _)) as Hg.
  destruct (fold_left fallback_line (Py.split_char nl body) []) as [|t ts];
    [reflexivity|].
  rewrite meta_get_set, text_eqb_refl in H.
  pose proof (@join_space_truthy (t :: ts) ltac:(discriminate) Hg) as Ht.
  rewrite H in Ht. discriminate.
Qed.


(** ** Reading a rebuilt document *)

Lemma meta_name_no_nl : forall name, In name meta_names -> ~ In nl name.
Proof.
  intros name H. unfold meta_names in H.
  repeat (destruct H as [<-|H];
          [intros Hin; repeat (destruct Hin as [E|Hin]; [discriminate E|]);
           exact Hin|]).
  contradiction.
Qed.

Lemma meta_line_no_nl : forall meta name,
  all_clean meta -> In name meta_names -> ~ In nl (meta_line meta name).
Proof.
  intros meta name Hm Hin H. unfold meta_line in H.
  apply in_app_or in H. destruct H as [H|H]; [apply (meta_name_no_nl Hin H)|].
  apply in_app_or in H. destruct H as [H|H].
  - repeat (destruct H as [E|H]; [discriminate E|]). exact H.
  - apply (proj2 (Hm name) H).
Qed.

(** The lines of a rebuilt document. *)
Lemma render_lines : forall title artist meta body,
  clean title -> clean artist -> all_clean meta ->
  Py.split_char nl (render (Doc title artist meta body))
  = [title; artist] ++ map (meta_line meta) meta_names
    ++ [[]] ++ Py.split_char nl body.
Proof.
  intros title artist meta body Ht Ha Hm.
  set (X := [title; artist] ++ map (meta_line meta) meta_names ++ [[]]).
  assert (Hr : render (Doc title artist meta body)
               = Py.join [nl] (X ++ Py.split_char nl body)).
  { unfold render. cbn [d_title d_artist d_meta d_body].
    change (map (fun name => name ++ String.list_ascii_of_string ": "
                             ++ meta_get name meta) meta_names)
      with (map (meta_line meta) meta_names).
    replace ([title; artist] ++ map (meta_line meta) meta_names ++ [[]; []])
      with (X ++ [[]]).
    2:{ unfold X. rewrite <- !app_assoc. reflexivity. }
    rewrite join_app; [|unfold X; discriminate|discriminate].
    rewrite join_app; [|unfold X; discriminate|apply split_char_nonempty].
    rewrite join_split. cbn [Py.join]. rewrite <- !app_assoc. reflexivity. }
  rewrite Hr. rewrite split_join.
  - unfold X. rewrite <- !app_assoc. reflexivity.
  - unfold X. discriminate.
  - apply Forall_app. split; [|apply split_char_no_sep].
    unfold X. constructor; [apply Ht|]. constructor; [apply Ha|].
    apply Forall_app. split.
    + apply Forall_forall. intros l Hl. apply in_map_iff in Hl.
      destruct Hl as (name & <- & Hin). apply meta_line_no_nl; assumption.
    + constructor; [intros [] | constructor].
Qed.

Lemma body_of_rendered : forall title artist meta body,
  body_of ([title; artist] ++ map (meta_line meta) meta_names
           ++ [[]] ++ Py.split_char nl body)
  = Py.lstrip_nl body.
Proof.
  intros title artist meta body. unfold body_of.
  cbn [meta_names map app List.length Nat.add nth_error skipn].
  replace (Py.truthy (Py.strip [])) with false by reflexivity.
  cbn [skipn]. rewrite join_split. reflexivity.
Qed.

Lemma or_else_truthy : forall a b,
  Py.truthy b = true -> Py.truthy (Py.or_else a b) = true.
Proof.
  intros a b H. unfold Py.or_else. destruct (Py.truthy a) eqn:E; assumption.
Qed.

Lemma title_of_truthy : forall lines title_fb file_base,
  Py.truthy (title_of lines title_fb file_base) = true.
Proof.
  intros. unfold title_of. repeat apply or_else_truthy. reflexivity.
Qed.

Lemma artist_of_truthy : forall lines artist_fb file_base,
  Py.truthy (artist_of lines artist_fb file_base) = true.
Proof.
  intros. unfold artist_of. repeat apply or_else_truthy. reflexivity.
Qed.

Lemma title_of_rendered : forall title rest_ title_fb file_base,
  clean title -> Py.truthy title = true ->
  title_of (title :: rest_) title_fb file_base = title.
Proof.
  intros title rest_ title_fb file_base [Hs _] Ht. unfold title_of.
  cbn [nth_error]. rewrite Hs. unfold Py.or_else at 1. rewrite Ht. reflexivity.
Qed.

Lemma artist_of_rendered : forall title artist rest_ artist_fb file_base,
  clean artist -> Py.truthy artist = true ->
  artist_of (title :: artist :: rest_) artist_fb file_base = artist.
Proof.
  intros title artist rest_ artist_fb file_base [Hs _] Ht. unfold artist_of.
  cbn [nth_error]. rewrite Hs. unfold Py.or_else at 1. rewrite Ht. reflexivity.
Qed.

(** ** The metadata of a rebuilt document *)

Lemma default_meta_get_truthy : forall name value meta,
  Py.truthy value = true ->
  Py.truthy (meta_get name (default_meta name value meta)) = true.
Proof.
  intros name value meta H. unfold default_meta.
  destruct (Py.truthy (meta_get name meta)) eqn:E; [exact E|].
  rewrite meta_get_set, text_eqb_refl. exact H.
Qed.

Lemma meta_of_capo : forall lines body,
  Py.truthy (meta_get "Capo" (meta_of lines body)) = true.
Proof.
  intros lines body. unfold meta_of.
  match goal with
  | |- context [if ?b then _ else _] => destruct b
  end; [|rewrite meta_get_set;
         replace (text_eqb "Capo" "Key") with false by reflexivity];
    (rewrite default_meta_other by reflexivity;
     apply default_meta_get_truthy; reflexivity).
Qed.

Lemma meta_of_tuning : forall lines body,
  Py.truthy (meta_get "Tuning" (meta_of lines body)) = true.
Proof.
  intros lines body. unfold meta_of.
  match goal with
  | |- context [if ?b then _ else _] => destruct b
  end; [|rewrite meta_get_set;
         replace (text_eqb "Tuning" "Key") with false by reflexivity];
    (apply default_meta_get_truthy; reflexivity).
Qed.

Lemma meta_of_key : forall lines body,
  meta_get "Key" (meta_of lines body) = [] -> detect_key body = [].
Proof.
  intros lines body. unfold meta_of.
  match goal with
  | |- context [if ?b then _ else _] => destruct b eqn:E
  end.
  - intros H. rewrite H in E. discriminate.
  - rewrite meta_get_set, text_eqb_refl. intros H. exact H.
Qed.

Lemma not_truthy_nil : forall s, Py.truthy s = false -> s = [].
Proof. intros [|c s] H; [reflexivity | discriminate]. Qed.

(** Reading back the metadata of a document rebuilt from [body]. *)
Lemma meta_of_rendered : forall (lines : list text) meta body,
  same_meta (read_meta lines) meta ->
  Py.truthy (meta_get "Capo" meta) = true ->
  Py.truthy (meta_get "Tuning" meta) = true ->
  (meta_get "Key" meta = [] -> detect_key body = []) ->
  same_meta (meta_of lines body) meta.
Proof.
  intros lines meta body Hsame Hcapo Htuning Hkey. unfold meta_of.
  assert (Hc : In (String.list_ascii_of_string "Capo") meta_names)
    by (simpl; tauto).
  assert (Ht : In (String.list_ascii_of_string "Tuning") meta_names)
    by (simpl; tauto).
  assert (Hk : In (String.list_ascii_of_string "Key") meta_names)
    by (simpl; tauto).
  rewrite (@default_meta_truthy "Capo") by (rewrite (Hsame _ Hc); exact Hcapo).
  rewrite (@default_meta_truthy "Tuning") by (rewrite (Hsame _ Ht); exact Htuning).
  destruct (Py.truthy (meta_get "Key" (read_meta lines))) eqn:E; [exact Hsame|].
  apply not_truthy_nil in E. rewrite (Hsame _ Hk) in E.
  intros name Hin. rewrite meta_get_set.
  destruct (text_eqb name "Key") eqn:En.
  - apply text_eqb_eq in En. subst name. rewrite E. apply Hkey. exact E.
  - apply Hsame. exact Hin.
Qed.


(** ** Rebuilding a rebuilt document *)

Lemma body_of_lstripped : forall lines, Py.lstrip_nl (body_of lines) = body_of lines.
Proof. intros lines. unfold body_of, Py.lstrip_nl. apply lstrip_by_idem. Qed.

(** The header read from a document rebuilt on the headerless path. *)
Lemma read_head_rendered : forall title artist meta body artist_fb title_fb file_base,
  clean title -> Py.truthy title = true ->
  clean artist -> Py.truthy artist = true ->
  all_clean meta ->
  Py.truthy (meta_get "Capo" meta) = true ->
  Py.truthy (meta_get "Tuning" meta) = true ->
  (meta_get "Key" meta = [] -> detect_key body = []) ->
  Py.lstrip_nl body = body ->
  exists meta',
    read_head (render (Doc title artist meta body)) artist_fb title_fb file_base
    = Head title artist meta' body
    /\ same_meta meta' meta.
Proof.
  intros title artist meta body artist_fb title_fb file_base
         Ht Htt Ha Hat Hm Hcapo Htuning Hkey Hbody.
  unfold read_head. rewrite (render_lines body Ht Ha Hm).
  rewrite body_of_rendered, Hbody.
  eexists. split.
  - f_equal.
    + apply title_of_rendered; assumption.
    + apply artist_of_rendered; assumption.
  - apply meta_of_rendered; try assumption.
    apply read_meta_canonical. exact Hm.
Qed.

(** The document the headerless path builds. *)
Lemma headerless_doc : forall h,
  headers_found (split_body (h_body h)) = 0 ->
  (if 0 <? headers_found (split_body (h_body h)) then
     r <- structured (split_body (h_body h)) (h_meta h) ;;
     Ok (Doc (h_title h) (h_artist h) (fst r) (snd r))
   else if negb (Py.truthy (meta_get "Flow" (h_meta h))) then
     Ok (Doc (h_title h) (h_artist h)
             (fallback_flow (h_body h) (h_meta h)) (h_body h))
   else Ok (Doc (h_title h) (h_artist h) (h_meta h) (h_body h)))
  = Ok (Doc (h_title h) (h_artist h)
            (if negb (Py.truthy (meta_get "Flow" (h_meta h)))
             then fallback_flow (h_body h) (h_meta h) else h_meta h)
            (h_body h)).
Proof.
  intros h H. rewrite H. cbn [Nat.ltb Nat.leb].
  destruct (negb (Py.truthy (meta_get "Flow" (h_meta h)))); reflexivity.
Qed.

(** Rebuilding on the headerless path.  When the body of a tab has no
    section header, and the title and the artist of the rebuilt document are
    clean (each is its own stripped form and holds no line break, as whatever
    comes from the first two lines of the tab is), rebuilding the output with
    the same fallbacks gives the output again. *)
Theorem rebuild_idempotent_headerless :
  forall tab artist_fb title_fb file_base out,
    rebuild_formatted_tab tab artist_fb title_fb file_base = Ok out ->
    headers_found (sections_of tab artist_fb title_fb file_base) = 0 ->
    clean (h_title (read_head tab artist_fb title_fb file_base)) ->
    clean (h_artist (read_head tab artist_fb title_fb file_base)) ->
    rebuild_formatted_tab out artist_fb title_fb file_base = Ok out.
Proof.
  intros tab artist_fb title_fb file_base out Hrun Hzero Ht Ha.
  unfold rebuild_formatted_tab, rebuild_doc in Hrun.
  unfold sections_of in Hzero.
  rewrite (headerless_doc _ Hzero) in Hrun. cbn [bind] in Hrun.
  inversion Hrun as [Hout]. clear Hrun. clear Hout.
  set (lines := Py.split_char nl tab) in *.
  unfold read_head in *. fold lines in Hzero, Ht, Ha |- *.
  cbn [h_title h_artist h_meta h_body] in *.
  set (title := title_of lines title_fb file_base) in *.
  set (artist := artist_of lines artist_fb file_base) in *.
  set (body := body_of lines) in *.
  set (meta0 := meta_of lines body) in *.
  set (meta := if negb (Py.truthy (meta_get "Flow" meta0))
               then fallback_flow body meta0 else meta0) in *.
  assert (Hlines : Forall (fun l => ~ In nl l) lines)
    by apply split_char_no_sep.
  assert (Hm0 : all_clean meta0) by (apply meta_of_clean; exact Hlines).
  assert (Hm : all_clean meta).
  { unfold meta. destruct (negb _); [apply fallback_flow_clean|]; exact Hm0. }
  assert (Hother : forall name, text_eqb name "Flow" = false ->
                                meta_get name meta = meta_get name meta0).
  { intros name Hn. unfold meta. destruct (negb _); [|reflexivity].
    apply fallback_flow_other. exact Hn. }
  assert (Hcapo : Py.truthy (meta_get "Capo" meta) = true)
    by (rewrite Hother by reflexivity; apply meta_of_capo).
  assert (Htuning : Py.truthy (meta_get "Tuning" meta) = true)
    by (rewrite Hother by reflexivity; apply meta_of_tuning).
  assert (Hkey : meta_get "Key" meta = [] -> detect_key body = []).
  { rewrite Hother by reflexivity. apply meta_of_key. }
  destruct (@read_head_rendered title artist meta body artist_fb title_fb file_base
              Ht (title_of_truthy _ _ _) Ha (artist_of_truthy _ _ _)
              Hm Hcapo Htuning Hkey (body_of_lstripped lines))
    as (meta' & Hhead & Hsame).
  change (rebuild_formatted_tab (render (Doc title artist meta body))
            artist_fb title_fb file_base
          = Ok (render (Doc title artist meta body))).
  unfold rebuild_formatted_tab, rebuild_doc.
  rewrite Hhead.
  rewrite (@headerless_doc (Head title artist meta' body) Hzero).
  cbn [bind h_title h_artist h_meta h_body]. f_equal.
  apply same_meta_render.
  assert (Hf : In (String.list_ascii_of_string "Flow") meta_names)
    by (simpl; tauto).
  rewrite (Hsame _ Hf).
  destruct (Py.truthy (meta_get "Flow" meta)) eqn:E; cbn [negb]; [exact Hsame|].
  apply not_truthy_nil in E.
  assert (Hfall : forall m, fallback_flow body m = m).
  { intros m. unfold meta in E.
    destruct (negb (Py.truthy (meta_get "Flow" meta0))) eqn:E0.
    - apply (fallback_flow_empty _ _ m E).
    - rewrite E in E0. discriminate. }
  rewrite Hfall. exact Hsame.
Qed.

(** So it is for a headerless tab with stray spaces and no key. *)
Lemma rebuild_idempotent_headerless_witness :
  rebuild_formatted_tab noisy_tab [] [] [] = Ok noisy_out
  /\ rebuild_formatted_tab noisy_out [] [] [] = Ok noisy_out.
Proof.
  assert (H : rebuild_formatted_tab noisy_tab [] [] [] = Ok noisy_out)
    by (vm_compute; reflexivity).
  split; [exact H|].
  apply (@rebuild_idempotent_headerless noisy_tab [] [] [] noisy_out H).
  - vm_compute. reflexivity.
  - split; [vm_compute; reflexivity|].
    vm_compute. intros Hin.
    repeat (destruct Hin as [E|Hin]; [discriminate E|]). exact Hin.
  - split; [vm_compute; reflexivity|].
    vm_compute. intros Hin.
    repeat (destruct Hin as [E|Hin]; [discriminate E|]). exact Hin.
Defined.

(** The claim as it stands fails on the structured path.  Three identical
    verses are rebuilt into one block Verse 1 with Flow V1, V1, V1;
    rebuilding that output finds one verse that occurs once, and gives the
    block Verse with Flow V. *)
Lemma rebuild_not_idempotent :
  rebuild_formatted_tab three_verses [] [] [] = Ok three_verses_out
  /\ rebuild_formatted_tab three_verses_out [] [] [] = Ok three_verses_again
  /\ three_verses_again <> three_verses_out.
Proof.
  split; [vm_compute; reflexivity|].
  split; [vm_compute; reflexivity|].
  vm_compute. discriminate.
Qed.


(** ** Where rebuild_formatted_tab raises *)

Lemma number_re_digits :
  within (fun _ => True) number_groups (fun _ => True) number_re.
Proof.
  unfold number_re, number_groups. simpl.
  repeat split; intros; try discriminate; assumption.
Qed.

Lemma py_int_raise : forall s e,
  forallb Py.isdecimal s = true -> Py.truthy s = true ->
  py_int s = Raise e ->
  e = ValueError /\ int_max_str_digits < List.length s.
Proof.
  intros s e Hd Ht H. unfold py_int in H. rewrite Hd, Ht in H. cbn [andb] in H.
  destruct (List.length s <=? int_max_str_digits) eqn:E; [discriminate|].
  apply Nat.leb_gt in E. inversion H. split; [reflexivity | exact E].
Qed.

Lemma parse_section_header_raise : forall raw e,
  parse_section_header raw = Raise e ->
  e = ValueError /\ long_number raw.
Proof.
  intros raw e H. unfold parse_section_header in H.
  destruct (re_match number_re (Py.strip raw)) as [m|] eqn:Em.
  - destruct (group 2 (caps m)) as [digits|] eqn:Eg.
    + destruct (Py.truthy digits) eqn:Et.
      * destruct (py_int digits) as [n|e'] eqn:Ei.
        -- cbn [bind] in H. destruct (classify _ _). discriminate.
        -- cbn [bind] in H. inversion H; subst e'.
           assert (Hd : forallb Py.isdecimal digits = true).
           { apply forallb_forall. intros c Hc.
             assert (HS : Forall (fun _ : ascii => True) (Py.strip raw))
               by (apply Forall_forall; intros; exact I).
             pose proof (@re_match_groups _ _ _ _ _ number_re_digits HS Em _ _ Eg) as Hg.
             rewrite Forall_forall in Hg. apply (Hg c Hc). reflexivity. }
           destruct (py_int_raise _ Hd Et Ei) as [-> Hlen].
           split; [reflexivity|]. exists m, digits. repeat split; assumption.
      * cbn [bind] in H. destruct (classify _ _). discriminate.
    + cbn [bind] in H. destruct (classify _ _). discriminate.
  - cbn [bind] in H. destruct (classify _ _). discriminate.
Qed.

Lemma collapse_raise : forall s e,
  collapse s = Raise e -> e = ValueError /\ long_number (header s).
Proof.
  intros s e H. unfold collapse in H.
  destruct (parse_section_header (header s)) as [[[t ab] n]|e'] eqn:E.
  - cbn [bind] in H. destruct (extract_repeated_block _). discriminate.
  - cbn [bind] in H. inversion H; subst. apply parse_section_header_raise. exact E.
Qed.

Lemma analyse_from_raise : forall secs a e,
  analyse_from a secs = Raise e ->
  e = ValueError /\ exists s, In s secs /\ long_number (header s).
Proof.
  induction secs as [|s secs IH]; intros a e H; simpl in H; [discriminate|].
  unfold analyse_section in H.
  destruct (collapse s) as [c|e'] eqn:Ec; cbn [bind] in H.
  - destruct (IH _ _ H) as [He (s' & Hin & Hl)].
    split; [exact He|]. exists s'. split; [right; exact Hin | exact Hl].
  - inversion H; subst. destruct (collapse_raise _ Ec) as [He Hl].
    split; [exact He|]. exists s. split; [left; reflexivity | exact Hl].
Qed.

Lemma render_blocks_ok : forall ts (dm : display_map) order,
  (forall id, dict_get id_eqb id dm = display_of ts id) ->
  Forall (valid_id ts) order ->
  exists blocks, render_blocks dm order = Ok blocks.
Proof.
  intros ts dm order Hget H. induction H as [|id order Hid _ IH].
  - exists []. reflexivity.
  - destruct IH as (blocks & Hb). destruct (display_of_valid Hid) as (d & Hd).
    cbn [render_blocks]. unfold dict_item. rewrite Hget, Hd. cbn [bind].
    rewrite Hb. cbn [bind]. eexists. reflexivity.
Qed.

(** Once the sections are analysed, the structured path returns. *)
Lemma structured_ok : forall sp meta a,
  analyse (sections sp) = Ok a -> exists r, structured sp meta = Ok r.
Proof.
  intros sp meta a Ha. unfold structured. rewrite Ha. cbn [bind].
  pose proof (analyse_wf _ Ha) as Hwf.
  destruct (@build_display_map_get _ (wf_keys Hwf)) as (dm & Hdm & Hget).
  rewrite Hdm. cbn [bind].
  destruct (render_blocks_ok _ Hget (wf_order Hwf)) as (blocks & Hb).
  rewrite Hb. cbn [bind]. eexists. reflexivity.
Qed.

(** [rebuild_formatted_tab] raises nothing but [ValueError], and raises it
    only when the body has a section header with a number of more than 4300
    digits. *)
Lemma rebuild_raises_only_on_long_number :
  forall tab artist_fb title_fb file_base e,
    rebuild_formatted_tab tab artist_fb title_fb file_base = Raise e ->
    e = ValueError
    /\ exists s,
         In s (sections (sections_of tab artist_fb title_fb file_base))
         /\ long_number (header s).
Proof.
  intros tab artist_fb title_fb file_base e H.
  unfold rebuild_formatted_tab, rebuild_doc in H. fold (sections_of tab artist_fb title_fb file_base) in H.
  destruct (0 <? headers_found (sections_of tab artist_fb title_fb file_base)).
  - destruct (analyse (sections (sections_of tab artist_fb title_fb file_base)))
      as [a|e'] eqn:Ha.
    + destruct (structured_ok (sections_of tab artist_fb title_fb file_base)
                  (h_meta (read_head tab artist_fb title_fb file_base)) Ha)
        as (r & Hr).
      rewrite Hr in H. discriminate.
    + unfold structured in H. rewrite Ha in H. cbn [bind] in H.
      inversion H; subst. apply (analyse_from_raise _ _ Ha).
  - destruct (negb _); discriminate.
Qed.

(** ** main *)

(** What the process does, by the value of TAB_CONTENT and the outcome of
    [rebuild_formatted_tab]. *)
Lemma run_cases : forall env : environ,
  (environ_get env "TAB_CONTENT" [] = [] ->
   run env = Process [] [Printed "TAB_CONTENT is required"] 1)
  /\ (environ_get env "TAB_CONTENT" [] <> [] ->
      forall rebuilt,
        rebuild_formatted_tab (environ_get env "TAB_CONTENT" [])
          (environ_get env "ARTIST_FB" []) (environ_get env "TITLE_FB" [])
          (environ_get env "FILE_BASE" []) = Ok rebuilt ->
        run env = Process (rebuilt ++ [nl]) [] 0)
  /\ (environ_get env "TAB_CONTENT" [] <> [] ->
      forall e,
        rebuild_formatted_tab (environ_get env "TAB_CONTENT" [])
          (environ_get env "ARTIST_FB" []) (environ_get env "TITLE_FB" [])
          (environ_get env "FILE_BASE" []) = Raise e ->
        run env = Process [] [Traceback e] 1).
Proof.
  intros env. unfold run, main. repeat split.
  - intros H. rewrite H. reflexivity.
  - intros H rebuilt Hr.
    destruct (environ_get env "TAB_CONTENT" []) as [|c t]; [congruence|].
    cbn [Py.truthy negb]. rewrite Hr. reflexivity.
  - intros H e Hr.
    destruct (environ_get env "TAB_CONTENT" []) as [|c t]; [congruence|].
    cbn [Py.truthy negb]. rewrite Hr. reflexivity.
Qed.


(** ** Sample runs of the patterns *)

Example chord_tokens_sample :
  map (fun m => (root_of m, qual_of m))
      (finditer CHORD_RE "C# Bb/F Amin7 Dsus4 xAm Am6 Amaj9 Em7b5 F#m D/F#x")
  = [ ("C" : text, [] : text); ("Bb" : text, [] : text);
      ("A" : text, "min7" : text); ("D" : text, "sus4" : text);
      ("A" : text, "m6" : text); ("A" : text, "maj9" : text);
      ("F#" : text, "m" : text); ("D" : text, [] : text) ].
Proof. vm_compute. reflexivity. Qed.

Example parse_section_header_sample :
  map parse_section_header
      [ "Verse 2" : text; "pre-chorus" : text; "my don't  12" : text;
        "B" : text; "  Instr. break" : text; "Verse2" : text ]
  = [ Ok ("Verse" : text, "V" : text, Some 2%N);
      Ok ("Pre-Chorus" : text, "PC" : text, None);
      Ok ("My Don'T" : text, "MyDon'T" : text, Some 12%N);
      Ok ("Bridge" : text, "B" : text, None);
      Ok ("Instrumental" : text, "Instr" : text, None);
      Ok ("Verse" : text, "V" : text, None) ].
Proof. vm_compute. reflexivity. Qed.

Example main_without_tab :
  run (fun _ => None) = Process [] [Printed "TAB_CONTENT is required"] 1.
Proof. reflexivity. Qed.


(** ** The functions on lists of lines *)

(** What [extract_repeated_block] returns: the whole list with count one
    when no size passes, and otherwise the first lines up to the least size
    that passes. *)
Lemma extract_repeated_block_cases : forall l : list text,
  extract_repeated_block l = (l, 1)
  \/ exists size,
       1 <= size <= List.length l / 2
       /\ passes l size = true
       /\ (forall s', 1 <= s' < size -> passes l s' = false)
       /\ extract_repeated_block l
          = (firstn size l, List.length l / size).
Proof.
  intros l. unfold extract_repeated_block.
  destruct (List.length l =? 0) eqn:E0; [left; reflexivity|].
  rewrite first_block_find.
  destruct (find (passes l) (seq 1 (List.length l / 2))) as [size|] eqn:F;
    [right | left; reflexivity].
  apply find_seq_least in F. destruct F as (Hr & Hp & Hleast).
  exists size. repeat split; try lia; try assumption.
Qed.

Lemma concat_repeat_repeat : forall (A : Type) (b : list A) k c,
  concat (repeat (concat (repeat b k)) c) = concat (repeat b (k * c)).
Proof.
  intros A b k c. induction c as [|c IH].
  - rewrite Nat.mul_0_r. reflexivity.
  - rewrite Nat.mul_succ_r, Nat.add_comm, repeat_app, concat_app.
    simpl. rewrite IH. reflexivity.
Qed.

Lemma concat_repeat_length : forall (A : Type) (b : list A) c,
  List.length (concat (repeat b c)) = List.length b * c.
Proof.
  intros A b c. induction c as [|c IH]; simpl.
  - lia.
  - rewrite length_app, IH. lia.
Qed.

(** X1 ([extract_repeated_block], lines 85 to 96).  The pair returned
    rebuilds the input: the count is at least one, the block repeated that
    many times is the list of lines again, the sizes multiply to its length,
    and the block of a list that is not empty is not empty. *)
Theorem extract_repeated_block_rebuilds : forall lines : list text,
  1 <= snd (extract_repeated_block lines)
  /\ concat (repeat (fst (extract_repeated_block lines))
                    (snd (extract_repeated_block lines)))
     = lines
  /\ List.length (fst (extract_repeated_block lines))
     * snd (extract_repeated_block lines)
     = List.length lines
  /\ (lines <> [] -> fst (extract_repeated_block lines) <> []).
Proof.
  intros l.
  destruct (extract_repeated_block_cases l)
    as [E | (size & Hsize & Hp & _ & E)]; rewrite E; simpl.
  - repeat split; try lia.
    + apply app_nil_r.
    + intros H; exact H.
  - assert (Hper : is_period l size) by (apply passes_period; assumption).
    destruct Hper as (_ & Hmod & Hrep).
    assert (Hle : size <= List.length l).
    { pose proof (Nat.Div0.div_le_upper_bound (List.length l) 2 (List.length l)).
      assert (List.length l / 2 <= List.length l) by (apply Nat.Div0.div_le_upper_bound; lia).
      lia. }
    assert (Hmul : List.length l = size * (List.length l / size)).
    { apply Nat.Div0.div_exact. exact Hmod. }
    repeat split.
    + destruct (List.length l / size) eqn:Q; [|lia].
      rewrite Nat.mul_0_r in Hmul.
      assert (List.length l / 2 = 0) by (rewrite Hmul; reflexivity). lia.
    + symmetry. exact Hrep.
    + rewrite length_firstn, Nat.min_l by exact Hle. symmetry. exact Hmul.
    + intros _ Hnil.
      assert (Hlen : List.length (firstn size l) = 0) by (rewrite Hnil; reflexivity).
      rewrite length_firstn, Nat.min_l in Hlen by exact Hle. lia.
Qed.

(** X2 ([extract_repeated_block], lines 85 to 96).  The block returned
    repeats no smaller block: the function maps it to itself with count
    one. *)
Theorem extract_repeated_block_primitive : forall lines : list text,
  extract_repeated_block (fst (extract_repeated_block lines))
  = (fst (extract_repeated_block lines), 1).
Proof.
  intros l.
  destruct (extract_repeated_block_cases l)
    as [E | (size & Hsize & Hp & Hleast & E)]; rewrite E; simpl;
    [exact E|].
  assert (Hper : is_period l size) by (apply passes_period; assumption).
  destruct Hper as (_ & Hmod & Hrep).
  assert (Hhalf : List.length l / 2 <= List.length l)
    by (apply Nat.Div0.div_le_upper_bound; lia).
  assert (Hlen : List.length (firstn size l) = size)
    by (rewrite length_firstn; lia).
  assert (Hmul : List.length l = size * (List.length l / size))
    by (apply Nat.Div0.div_exact; exact Hmod).
  destruct (extract_repeated_block_cases (firstn size l))
    as [E' | (s' & Hs' & Hp' & _ & _)]; [exact E'|].
  exfalso.
  rewrite Hlen in Hs'.
  assert (Hper' : is_period (firstn size l) s')
    by (apply passes_period; [rewrite Hlen; exact Hs' | exact Hp']).
  destruct Hper' as (_ & Hmod' & Hrep').
  rewrite Hlen in Hmod', Hrep'.
  assert (Hmul' : size = s' * (size / s'))
    by (apply Nat.Div0.div_exact; exact Hmod').
  assert (Hhalf' : size / 2 <= size)
    by (apply Nat.Div0.div_le_upper_bound; lia).
  assert (Hlt : s' < size).
  { assert (2 * (size / 2) <= size) by (apply Nat.Div0.mul_div_le). lia. }
  assert (Hfalse : passes l s' = false) by (apply Hleast; lia).
  assert (Htrue : passes l s' = true).
  { apply passes_period; [lia|].
    assert (Hn : List.length l = s' * (size / s' * (List.length l / size))).
    { rewrite Nat.mul_assoc, <- Hmul'. exact Hmul. }
    assert (Hdiv : List.length l / s' = size / s' * (List.length l / size)).
    { rewrite Hn at 1. rewrite Nat.mul_comm. apply Nat.div_mul. lia. }
    split; [lia|]. split.
    - rewrite Hn at 1. rewrite Nat.mul_comm. apply Nat.Div0.mod_mul.
    - rewrite Hdiv.
      replace (firstn s' l) with (firstn s' (firstn size l))
        by (rewrite firstn_firstn, Nat.min_l by lia; reflexivity).
      rewrite <- concat_repeat_repeat, <- Hrep'. exact Hrep. }
  congruence.
Qed.

(** [str.rstrip] takes white space off the end and nothing else. *)
Lemma rstrip_trimmed : forall s, trimmed (Py.rstrip s) s.
Proof.
  intros s. unfold trimmed, Py.rstrip, Py.lstrip.
  destruct (lstrip_by_suffix Py.isspace (rev s)) as (w & Hw & Hall).
  exists (rev w). split; [|split].
  - rewrite <- rev_app_distr, <- Hw. symmetry. apply rev_involutive.
  - rewrite blank_rev. exact Hall.
  - intros s0 c Hs0.
    apply (f_equal (@rev ascii)) in Hs0.
    rewrite rev_involutive, rev_app_distr in Hs0. simpl in Hs0.
    apply lstrip_by_head in Hs0. exact Hs0.
Qed.

(** X3 ([clean_lines], lines 75 and 76).  Line by line, the result is the
    input without the white space at the end of the line: as many lines,
    each a line of the input cut before its trailing white space, and
    nothing left to cut when the function is applied again. *)
Theorem clean_lines_trims : forall content_lines : list text,
  Forall2 trimmed (clean_lines content_lines) content_lines
  /\ clean_lines (clean_lines content_lines) = clean_lines content_lines.
Proof.
  intros ls. unfold clean_lines. split.
  - induction ls as [|l ls IH]; simpl; constructor.
    + apply rstrip_trimmed.
    + exact IH.
  - rewrite map_map. apply map_ext. intros l. apply rstrip_idem.
Qed.

Lemma join_blank : forall ls,
  Forall (fun l => blank l = true) ls -> blank (Py.join [nl] ls) = true.
Proof.
  induction ls as [|l ls IH]; intros H; [reflexivity|].
  inversion H as [|? ? Hl Hls]; subst.
  destruct ls as [|l' ls]; [exact Hl|].
  rewrite join_cons by discriminate.
  rewrite !blank_app, Hl, (IH Hls). reflexivity.
Qed.

Lemma strip_blank_app : forall s t,
  blank s = true -> Py.strip (s ++ t) = Py.strip t.
Proof.
  intros s t H. unfold Py.strip, Py.lstrip.
  rewrite lstrip_by_app_all by exact H. reflexivity.
Qed.

Lemma normalize_content_blank_after : forall l after,
  Forall (fun l => blank l = true) after ->
  normalize_content (l ++ after) = normalize_content l.
Proof.
  intros l after H. unfold normalize_content.
  destruct after as [|a after]; [rewrite app_nil_r; reflexivity|].
  destruct l as [|x l].
  - simpl app. rewrite strip_blank by (apply join_blank; exact H). reflexivity.
  - rewrite join_app by discriminate.
    apply strip_app_blank. rewrite blank_app.
    rewrite (join_blank H). reflexivity.
Qed.

Lemma normalize_content_blank_before : forall before l,
  Forall (fun l => blank l = true) before ->
  normalize_content (before ++ l) = normalize_content l.
Proof.
  intros before l H. unfold normalize_content.
  destruct before as [|b before]; [reflexivity|].
  destruct l as [|x l].
  - rewrite app_nil_r. rewrite strip_blank by (apply join_blank; exact H).
    reflexivity.
  - rewrite join_app by discriminate.
    rewrite strip_blank_app by (apply join_blank; exact H).
    apply (@strip_blank_app [nl]). reflexivity.
Qed.

(** X4 ([normalize_content], lines 71 and 72).  Lines of white space only
    before and after the content do not change its key. *)
Theorem normalize_content_blank_edges : forall before content after : list text,
  Forall (fun l => blank l = true) before ->
  Forall (fun l => blank l = true) after ->
  normalize_content (before ++ content ++ after) = normalize_content content.
Proof.
  intros before content after Hb Ha.
  rewrite normalize_content_blank_before by exact Hb.
  apply normalize_content_blank_after. exact Ha.
Qed.

Lemma normalize_content_blank_edges_witness :
  normalize_content ([[]; "  " : text] ++ ["Am  C" : text; "la la" : text]
                     ++ [" " : text; []])
  = normalize_content ["Am  C" : text; "la la" : text].
Proof.
  apply normalize_content_blank_edges; repeat constructor.
Defined.

(** X5 ([starts_with_lines], lines 79 to 82).  The test holds exactly when
    the candidate is the prefix followed by further lines. *)
Theorem starts_with_lines_iff_prefix : forall candidate pre : list text,
  starts_with_lines candidate pre = true
  <-> exists suffix, candidate = pre ++ suffix.
Proof.
  intros cand pre. split.
  - intros H. exists (skipn (List.length pre) cand).
    apply starts_with_lines_split. exact H.
  - intros [suffix ->]. unfold starts_with_lines.
    rewrite length_app.
    destruct (List.length pre + List.length suffix <? List.length pre) eqn:E.
    + apply Nat.ltb_lt in E. lia.
    + apply forallb_forall. intros i Hi. apply in_seq in Hi.
      rewrite app_nth1 by lia. apply text_eqb_refl.
Qed.


(** ** Where the repetitions of the matcher stop *)

Lemma last_of_cons : forall pv c v, last_of pv (c :: v) = last_of (Some c) v.
Proof.
  intros pv c v. unfold last_of. simpl.
  destruct (rev v) as [|d r]; reflexivity.
Qed.

(** A greedy repetition takes the whole run when what follows it matches
    behind the run. *)
Lemma many_run : forall p k cs v s pv x,
  forallb p v = true ->
  match s with [] => True | c :: _ => p c = false end ->
  k (MState (last_of pv v) s cs) = Some x ->
  many p k pv (v ++ s) cs = Some x.
Proof.
  intros p k cs v. induction v as [|c v IH]; intros s pv x Hv Hs Hk.
  - simpl app. rewrite many_stop by exact Hs. exact Hk.
  - simpl in Hv. apply andb_true_iff in Hv. destruct Hv as [Hc Hv].
    rewrite last_of_cons in Hk.
    simpl. rewrite Hc, (IH s (Some c) x Hv Hs Hk). reflexivity.
Qed.

(** A lazy repetition stops at the first place behind which what follows
    it matches. *)
Lemma few_first : forall p k cs w s pv,
  forallb p w = true ->
  (forall w1 w2, w = w1 ++ w2 -> w2 <> [] ->
     k (MState (last_of pv w1) (w2 ++ s) cs) = None) ->
  few p k pv (w ++ s) cs = few p k (last_of pv w) s cs.
Proof.
  intros p k cs w. induction w as [|c w IH]; intros s pv Hw Hk.
  - reflexivity.
  - simpl in Hw. apply andb_true_iff in Hw. destruct Hw as [Hc Hw].
    rewrite last_of_cons.
    rewrite <- (IH s (Some c) Hw).
    + pose proof (Hk [] (c :: w) eq_refl) as H0.
      unfold last_of in H0. simpl in H0.
      simpl. rewrite H0 by discriminate. rewrite Hc. reflexivity.
    + intros w1 w2 E Hne. rewrite <- last_of_cons with (pv := pv).
      apply Hk; [|exact Hne]. rewrite E. reflexivity.
Qed.

Lemma few_here : forall p k cs s pv x,
  k (MState pv s cs) = Some x -> few p k pv s cs = Some x.
Proof.
  intros p k cs s pv x H. destruct s; simpl; rewrite H; reflexivity.
Qed.

(** ** The number of a section header *)

Lemma decimal_not_space : forall c, Py.isdecimal c = true -> Py.isspace c = false.
Proof.
  intros c H. unfold Py.isdecimal, Py.isspace, Py.between in *.
  apply andb_true_iff in H. destruct H as [H1 H2].
  apply Nat.leb_le in H1. apply Nat.leb_le in H2.
  repeat (apply orb_false_iff; split);
    try (apply andb_false_iff;
         destruct (Nat.leb_spec 9 (Py.code c)), (Nat.leb_spec (Py.code c) 13),
                  (Nat.leb_spec 28 (Py.code c)), (Nat.leb_spec (Py.code c) 32);
         auto; lia);
    apply Nat.eqb_neq; lia.
Qed.

(** What follows the label in the pattern of line 41: the optional number
    and the end. *)
Lemma number_tail_match : forall pv ws digits cs,
  ws <> [] -> blank ws = true ->
  digits <> [] -> forallb Py.isdecimal digits = true ->
  exists pv',
    mtch (Rseq (Ropt (Rseq (Rplus Py.isspace) (Rgroup 2 (Rplus Py.isdecimal))))
               Rend)
         Some (MState pv (ws ++ digits) cs)
    = Some (MState pv' [] ((2, digits) :: cs)).
Proof.
  intros pv ws digits cs Hws Hblank Hd Hdec.
  destruct ws as [|c ws]; [congruence|].
  destruct digits as [|d digits]; [congruence|].
  unfold blank in Hblank. simpl in Hblank, Hdec.
  apply andb_true_iff in Hblank. destruct Hblank as [Hc Hblank].
  apply andb_true_iff in Hdec. destruct Hdec as [Hd0 Hdec].
  exists (last_of (Some d) digits).
  cbn [mtch Ropt rest prev caps app].
  rewrite Hc.
  rewrite (@many_run Py.isspace _ cs ws (d :: digits) (Some c)
             (MState (last_of (Some d) digits) [] ((2, d :: digits) :: cs)));
    [reflexivity | exact Hblank | apply decimal_not_space; exact Hd0 |].
  cbn [mtch rest prev caps]. rewrite Hd0.
  rewrite <- (app_nil_r digits) at 1.
  apply many_run; [exact Hdec | exact I |].
  cbn [prev rest caps at_end]. unfold taken. cbn [rest].
  replace (List.length (d :: digits) - List.length (@nil ascii))
    with (List.length (d :: digits)) by (simpl; lia).
  rewrite firstn_all. reflexivity.
Qed.

Lemma number_tail_sound : forall st x,
  mtch (Rseq (Ropt (Rseq (Rplus Py.isspace) (Rgroup 2 (Rplus Py.isdecimal))))
             Rend)
       Some st = Some x ->
  (at_end st = true /\ x = st)
  \/ exists ws digits tl,
       rest st = ws ++ digits ++ tl
       /\ ws <> [] /\ blank ws = true
       /\ digits <> [] /\ forallb Py.isdecimal digits = true
       /\ (tl = [] \/ tl = [nl])
       /\ caps x = (2, digits) :: caps st.
Proof.
  intros st x H. cbn [mtch Ropt] in H.
  match type of H with
  | match ?m with _ => _ end = _ => destruct m as [r|] eqn:E
  end.
  - right. injection H as ->.
    destruct (rest st) as [|c s'] eqn:Er; [discriminate|].
    destruct (Py.isspace c) eqn:Hc; [|discriminate].
    apply many_sound in E. destruct E as (w & s'' & pv' & Es' & Hw & Hk).
    cbn [rest prev caps] in Hk.
    destruct s'' as [|d s3]; [discriminate|].
    destruct (Py.isdecimal d) eqn:Hd; [|discriminate].
    apply many_sound in Hk. destruct Hk as (w2 & s4 & pv2 & Es3 & Hw2 & Hk).
    cbn [rest prev caps] in Hk.
    match type of Hk with
    | (if ?b then _ else _) = _ => destruct b eqn:He; [|discriminate]
    end.
    injection Hk as <-. cbn [caps].
    exists (c :: w), (d :: w2), s4.
    assert (Et : taken (MState pv' (d :: s3) (caps st)) (MState pv2 s4 (caps st))
                 = d :: w2).
    { apply taken_app. cbn [rest]. rewrite Es3. reflexivity. }
    rewrite Et. repeat split.
    + rewrite Es', Es3. reflexivity.
    + discriminate.
    + unfold blank. simpl. rewrite Hc. exact Hw.
    + discriminate.
    + simpl. rewrite Hd. exact Hw2.
    + unfold at_end in He. cbn [rest] in He.
      destruct s4 as [|e [|e' s5]]; [left; reflexivity | | discriminate].
      destruct (ascii_dec e nl); [subst; right; reflexivity | discriminate].
  - left. destruct (at_end st) eqn:He; [|discriminate].
    injection H as <-. split; reflexivity.
Qed.

Lemma number_re_unfold : forall name,
  re_match number_re name
  = few dot
      (fun st' =>
         mtch (Rseq (Ropt (Rseq (Rplus Py.isspace) (Rgroup 2 (Rplus Py.isdecimal))))
                    Rend)
              Some
              (MState (prev st') (rest st')
                      ((1, taken (MState None name []) st') :: caps st')))
      None name [].
Proof. reflexivity. Qed.

Lemma suffix_last : forall (w w1 w2 u : text) c,
  w = u ++ [c] -> w = w1 ++ w2 -> w2 <> [] -> exists u', w2 = u' ++ [c].
Proof.
  intros w w1 w2 u c Hu Hw Hne.
  destruct (exists_last Hne) as (u' & c' & E). exists u'.
  rewrite E in Hw. rewrite Hw, app_assoc in Hu.
  apply app_inj_tail in Hu. destruct Hu as [_ ->]. exact E.
Qed.

Lemma decimal_run_no_nl : forall digits : text,
  forallb Py.isdecimal digits = true -> ~ In nl digits.
Proof.
  intros digits H Hin.
  rewrite forallb_forall in H. specialize (H nl Hin). discriminate.
Qed.

(** A label that ends in a character other than white space ends before the
    white space in front of the number. *)
Lemma no_number_inside : forall (u ws digits W D tl : text) c,
  plain c ->
  ws <> [] -> blank ws = true ->
  digits <> [] -> forallb Py.isdecimal digits = true ->
  blank W = true -> forallb Py.isdecimal D = true ->
  tl = [] \/ tl = [nl] ->
  (u ++ [c]) ++ ws ++ digits = W ++ D ++ tl -> False.
Proof.
  intros u ws digits W D tl c Hc Hws Hblank Hd Hdec HW HD Htl E.
  destruct Htl as [-> | ->].
  - rewrite app_nil_r in E. apply app_eq_app in E.
    destruct E as [l [[E1 E2] | [E1 E2]]].
    + destruct ws as [|sp ws]; [congruence|].
      unfold blank in Hblank. simpl in Hblank.
      apply andb_true_iff in Hblank. destruct Hblank as [Hsp _].
      rewrite forallb_forall in HD.
      assert (Hin : In sp D) by (rewrite E2; apply in_or_app; right; left; reflexivity).
      apply HD, decimal_not_space in Hin. congruence.
    + unfold blank in HW. rewrite forallb_forall in HW.
      assert (Hin : In c W).
      { rewrite E1. apply in_or_app. left. apply in_or_app. right. left. reflexivity. }
      apply HW in Hin. unfold plain in Hc. congruence.
  - destruct (exists_last Hd) as (ds & dl & Eds).
    rewrite Eds in E, Hdec.
    rewrite !app_assoc in E. apply app_inj_tail in E. destruct E as [_ ->].
    apply (@decimal_run_no_nl _ Hdec). apply in_or_app. right. left. reflexivity.
Qed.

Lemma number_re_numbered : forall (u ws digits : text) c,
  ~ In nl (u ++ [c]) -> plain c ->
  ws <> [] -> blank ws = true ->
  digits <> [] -> forallb Py.isdecimal digits = true ->
  exists pv,
    re_match number_re ((u ++ [c]) ++ ws ++ digits)
    = Some (MState pv [] [(2, digits); (1, u ++ [c])]).
Proof.
  intros u ws digits c Hnl Hc Hws Hblank Hd Hdec.
  rewrite number_re_unfold.
  rewrite few_first.
  - destruct (@number_tail_match (last_of None (u ++ [c])) ws digits
                [(1, u ++ [c])] Hws Hblank Hd Hdec) as (pv' & Hm).
    exists pv'. apply few_here. cbn [prev rest caps].
    rewrite (@taken_app (MState None ((u ++ [c]) ++ ws ++ digits) [])
               (MState (last_of None (u ++ [c])) (ws ++ digits) [])
               (u ++ [c]) eq_refl).
    exact Hm.
  - apply no_nl_dot. exact Hnl.
  - intros w1 w2 E Hne. cbn [prev rest caps].
    match goal with |- ?t = None => destruct t as [x|] eqn:Hx end;
      [exfalso | reflexivity].
    apply number_tail_sound in Hx. cbn [rest caps] in Hx.
    destruct Hx as [[He _] | (W & D & tl & Er & HW0 & HW & HD0 & HD & Htl & _)].
    + unfold at_end in He. cbn [rest] in He.
      destruct w2 as [|a w2]; [congruence|].
      destruct ws as [|sp ws]; [congruence|].
      simpl in He. destruct (w2 ++ sp :: ws ++ digits) eqn:E2; [|discriminate].
      apply app_eq_nil in E2. destruct E2 as [_ E2]. discriminate.
    + destruct (@suffix_last (u ++ [c]) w1 w2 u c eq_refl E Hne) as (u' & ->).
      exact (@no_number_inside u' ws digits W D tl c Hc Hws Hblank Hd Hdec HW HD Htl Er).
Qed.

Lemma number_re_plain : forall name : text,
  ~ In nl name ->
  (forall b w d, name = b ++ w ++ d ->
     w <> [] -> blank w = true ->
     d <> [] -> forallb Py.isdecimal d = true -> False) ->
  exists pv, re_match number_re name = Some (MState pv [] [(1, name)]).
Proof.
  intros name Hnl Hno.
  rewrite number_re_unfold.
  pose proof (@few_first dot
    (fun st' =>
       mtch (Rseq (Ropt (Rseq (Rplus Py.isspace) (Rgroup 2 (Rplus Py.isdecimal))))
                  Rend)
            Some
            (MState (prev st') (rest st')
                    ((1, taken (MState None name []) st') :: caps st')))
    [] name [] None (@no_nl_dot _ Hnl)) as Hfew.
  rewrite app_nil_r in Hfew. rewrite Hfew; clear Hfew.
  - exists (last_of None name). apply few_here.
    cbn [prev rest caps mtch Ropt at_end]. unfold taken. cbn [rest].
    replace (List.length name - List.length (@nil ascii))
      with (List.length name) by (simpl; lia).
    rewrite firstn_all. reflexivity.
  - intros w1 w2 E Hne. cbn [prev rest caps].
    match goal with |- ?t = None => destruct t as [x|] eqn:Hx end;
      [exfalso | reflexivity].
    apply number_tail_sound in Hx. cbn [rest caps] in Hx.
    rewrite app_nil_r in Hx.
    assert (Hnl2 : ~ In nl w2).
    { intros Hin. apply Hnl. rewrite E. apply in_or_app. right. exact Hin. }
    destruct Hx as [[He _] | (W & D & tl & Er & HW0 & HW & HD0 & HD & Htl & _)].
    + unfold at_end in He. cbn [rest] in He.
      destruct w2 as [|a [|a' w2]]; [congruence | | discriminate].
      destruct (ascii_dec a nl); [|discriminate].
      apply Hnl2. left. assumption.
    + destruct Htl as [-> | ->].
      * rewrite app_nil_r in Er. rewrite Er in E.
        exact (Hno w1 W D E HW0 HW HD0 HD).
      * apply Hnl2. rewrite Er. apply in_or_app. right.
        apply in_or_app. right. left. reflexivity.
Qed.

Lemma number_re_sound : forall name m,
  re_match number_re name = Some m ->
  exists base,
    forallb dot base = true
    /\ ((caps m = [(1, base)] /\ (name = base \/ name = base ++ [nl]))
        \/ exists ws digits tl,
             name = base ++ ws ++ digits ++ tl
             /\ ws <> [] /\ blank ws = true
             /\ digits <> [] /\ forallb Py.isdecimal digits = true
             /\ (tl = [] \/ tl = [nl])
             /\ caps m = [(2, digits); (1, base)]).
Proof.
  intros name m H. rewrite number_re_unfold in H.
  apply few_sound in H. destruct H as (w & s' & pv' & E & Hw & Hk).
  exists w. split; [exact Hw|].
  cbn [prev rest caps] in Hk.
  rewrite (@taken_app (MState None name []) (MState pv' s' []) w E) in Hk.
  apply number_tail_sound in Hk. cbn [rest caps] in Hk.
  destruct Hk as [[He ->] | (W & D & tl & Er & HW0 & HW & HD0 & HD & Htl & Hc)].
  - left. split; [reflexivity|].
    unfold at_end in He. cbn [rest] in He.
    destruct s' as [|a [|a' s']]; [left | right | discriminate].
    + rewrite E. apply app_nil_r.
    + destruct (ascii_dec a nl); [subst a; exact E | discriminate].
  - right. exists W, D, tl. rewrite E, Er. repeat split; assumption.
Qed.

(** ** Numbers read back *)

Lemma uint_chars_decimal : forall d,
  forallb Py.isdecimal
    (String.list_ascii_of_string (DecimalString.NilEmpty.string_of_uint d))
  = true.
Proof. induction d; simpl; try assumption; reflexivity. Qed.

Lemma uint_chars_value : forall d acc,
  fold_left (fun a c => 10 * a + digit_value c)%N
    (String.list_ascii_of_string (DecimalString.NilEmpty.string_of_uint d))
    (N.of_nat acc)
  = N.of_nat (Nat.of_uint_acc d acc).
Proof.
  induction d; intros acc; cbn [DecimalString.NilEmpty.string_of_uint
    String.list_ascii_of_string fold_left Nat.of_uint_acc];
    try reflexivity;
    rewrite <- IHd; f_equal; rewrite Nat.tail_mul_spec;
    unfold digit_value, Py.code;
    match goal with
    | |- context [nat_of_ascii ?c] =>
        let v := eval compute in (nat_of_ascii c) in
        change (nat_of_ascii c) with v
    end; lia.
Qed.

(** [int(str(n))] is [n] as long as [n] has at most 4300 digits. *)
Lemma py_int_str_of_nat : forall n,
  List.length (Py.str_of_nat n) <= int_max_str_digits ->
  py_int (Py.str_of_nat n) = Ok (N.of_nat n).
Proof.
  intros n Hlen. unfold py_int.
  assert (Hdec : forallb Py.isdecimal (Py.str_of_nat n) = true)
    by apply uint_chars_decimal.
  assert (Hne : Py.truthy (Py.str_of_nat n) = true).
  { unfold Py.str_of_nat.
    assert (Hu : Nat.to_uint n <> Decimal.Nil).
    { rewrite <- (DecimalNat.Unsigned.of_to n) at 1.
      rewrite DecimalNat.Unsigned.to_of. apply DecimalFacts.unorm_nonnil. }
    destruct (Nat.to_uint n); try reflexivity. congruence. }
  rewrite Hdec, Hne. cbn [andb].
  apply Nat.leb_le in Hlen. rewrite Hlen.
  f_equal. unfold Py.str_of_nat.
  change 0%N with (N.of_nat 0). rewrite uint_chars_value.
  f_equal. apply DecimalNat.Unsigned.of_to.
Qed.

(** ** The result of parse_section_header *)

Lemma strip_plain_ends : forall (a z : ascii) (s : text),
  plain a -> plain z -> Py.strip (a :: s ++ [z]) = a :: s ++ [z].
Proof.
  intros a z s Ha Hz. unfold Py.strip.
  rewrite lstrip_plain_head by exact Ha.
  apply (@rstrip_plain_last (a :: s) z Hz).
Qed.

Lemma stripped_ends : forall v : text,
  Py.strip v = v -> v <> [] ->
  (exists a s, v = a :: s /\ plain a) /\ (exists u c, v = u ++ [c] /\ plain c).
Proof.
  intros v Hv Hne. split.
  - pose proof (strip_fixed_lstrip Hv) as Hl.
    destruct v as [|a s]; [congruence|].
    exists a, s. split; [reflexivity|].
    unfold Py.lstrip in Hl. apply lstrip_by_head in Hl. exact Hl.
  - destruct (exists_last Hne) as (u & c & E). exists u, c.
    split; [exact E|].
    assert (Hr : Py.rstrip v = v).
    { unfold Py.strip in Hv. rewrite (strip_fixed_lstrip Hv) in Hv. exact Hv. }
    destruct (rstrip_trimmed v) as (ws & _ & _ & Hlast).
    rewrite Hr in Hlast. exact (Hlast u c E).
Qed.

Lemma decimal_plain : forall c, Py.isdecimal c = true -> plain c.
Proof. intros c H. apply decimal_not_space. exact H. Qed.

Lemma parse_of_numbered : forall (raw u ws digits : text) c,
  Py.strip raw = (u ++ [c]) ++ ws ++ digits ->
  ~ In nl (u ++ [c]) -> plain c ->
  ws <> [] -> blank ws = true ->
  digits <> [] -> forallb Py.isdecimal digits = true ->
  parse_section_header raw
  = (n <- py_int digits ;;
     Ok (fst (kind_of (Py.strip (u ++ [c]))),
         snd (kind_of (Py.strip (u ++ [c]))), Some n)).
Proof.
  intros raw u ws digits c Hraw Hnl Hc Hws Hblank Hd Hdec.
  destruct (@number_re_numbered u ws digits c Hnl Hc Hws Hblank Hd Hdec)
    as (pv & Hm).
  unfold parse_section_header. rewrite Hraw, Hm.
  cbn [caps group group_text Nat.eqb].
  replace (Py.truthy digits) with true
    by (destruct digits; [congruence | reflexivity]).
  unfold kind_of.
  destruct (py_int digits) as [n|e]; cbn [bind]; [|reflexivity].
  destruct (classify _ _) as [t a]. reflexivity.
Qed.

Lemma parse_of_plain : forall raw : text,
  ~ In nl (Py.strip raw) ->
  (forall b w d, Py.strip raw = b ++ w ++ d ->
     w <> [] -> blank w = true ->
     d <> [] -> forallb Py.isdecimal d = true -> False) ->
  parse_section_header raw
  = Ok (fst (kind_of (Py.strip raw)), snd (kind_of (Py.strip raw)), None).
Proof.
  intros raw Hnl Hno.
  destruct (number_re_plain Hnl Hno) as (pv & Hm).
  unfold parse_section_header. rewrite Hm.
  cbn [caps group group_text Nat.eqb bind].
  rewrite strip_idem. unfold kind_of.
  destruct (classify _ _) as [t a]. reflexivity.
Qed.

(** A label without white space carries no number. *)
Lemma no_space_no_number : forall name : text,
  Forall plain name ->
  forall b w d, name = b ++ w ++ d ->
    w <> [] -> blank w = true ->
    d <> [] -> forallb Py.isdecimal d = true -> False.
Proof.
  intros name Hp b w d E Hw Hb _ _.
  destruct w as [|sp w]; [congruence|].
  unfold blank in Hb. simpl in Hb. apply andb_true_iff in Hb.
  destruct Hb as [Hsp _].
  rewrite Forall_forall in Hp.
  assert (Hin : In sp name).
  { rewrite E. apply in_or_app. right. left. reflexivity. }
  apply Hp in Hin. unfold plain in Hin. congruence.
Qed.

(** X6 ([parse_section_header], lines 39 to 68).  A label of ASCII
    characters followed by white space and decimal digits is split there:
    the digits go through [int], the label alone decides the type and the
    abbreviation.  So a header written as the label, a space and a number of
    at most 4300 digits gives that number.  (The label is taken in ASCII, as
    the header pattern of line 140 has it: the case mapping of line 67 is
    embedded on ASCII letters.) *)
Theorem parse_section_header_numbered : forall base : text,
  ascii_text base ->
  Py.strip base = base -> base <> [] -> ~ In nl base ->
  (forall ws digits : text,
     ws <> [] -> blank ws = true ->
     digits <> [] -> forallb Py.isdecimal digits = true ->
     parse_section_header (base ++ ws ++ digits)
     = (n <- py_int digits ;;
        Ok (fst (kind_of base), snd (kind_of base), Some n)))
  /\ (forall n,
        List.length (Py.str_of_nat n) <= int_max_str_digits ->
        parse_section_header (base ++ " " ++ Py.str_of_nat n)
        = Ok (fst (kind_of base), snd (kind_of base), Some (N.of_nat n))).
Proof.
  intros base _ Hstrip Hne Hnl.
  destruct (stripped_ends Hstrip Hne) as [(a & s & Ea & Ha) (u & c & Eu & Hc)].
  assert (Hgen : forall ws digits : text,
     ws <> [] -> blank ws = true ->
     digits <> [] -> forallb Py.isdecimal digits = true ->
     parse_section_header (base ++ ws ++ digits)
     = (n <- py_int digits ;;
        Ok (fst (kind_of base), snd (kind_of base), Some n))).
  { intros ws digits Hws Hblank Hd Hdec.
    assert (Hraw : Py.strip (base ++ ws ++ digits) = (u ++ [c]) ++ ws ++ digits).
    { rewrite <- Eu.
      destruct (exists_last Hd) as (ds & dl & Ed).
      rewrite Ed in Hdec. rewrite Ea, Ed. simpl app. rewrite !app_assoc.
      apply strip_plain_ends; [exact Ha|].
      apply decimal_plain.
      rewrite forallb_app in Hdec. apply andb_true_iff in Hdec.
      destruct Hdec as [_ Hdl]. simpl in Hdl.
      apply andb_true_iff in Hdl. apply Hdl. }
    rewrite (@parse_of_numbered _ u ws digits c Hraw); try assumption.
    - rewrite <- Eu, Hstrip. reflexivity.
    - rewrite <- Eu. exact Hnl. }
  split; [exact Hgen|].
  intros n Hlen.
  rewrite (Hgen " " (Py.str_of_nat n)).
  - rewrite (@py_int_str_of_nat _ Hlen). reflexivity.
  - discriminate.
  - reflexivity.
  - intros E. pose proof (@py_int_str_of_nat _ Hlen) as Hi.
    rewrite E in Hi. discriminate.
  - apply uint_chars_decimal.
Qed.

Lemma parse_section_header_numbered_witness :
  parse_section_header ("Guitar Solo" ++ " " ++ Py.str_of_nat 12)
  = Ok (fst (kind_of "Guitar Solo"), snd (kind_of "Guitar Solo"), Some 12%N)
  /\ kind_of "Guitar Solo" = ("Guitar Solo" : text, "GuitarSolo" : text).
Proof.
  split; [|reflexivity].
  refine (proj2 (@parse_section_header_numbered "Guitar Solo" _ _ _ _) 12 _).
  - unfold ascii_text.
    repeat (apply Forall_cons; [apply Nat.ltb_lt; reflexivity|]).
    apply Forall_nil.
  - reflexivity.
  - discriminate.
  - intros H. repeat (destruct H as [H|H]; [discriminate|]). exact H.
  - apply Nat.leb_le. reflexivity.
Defined.

(** X7 ([parse_section_header], lines 39 to 68).  A label of ASCII
    characters that does not end in white space followed by decimal digits
    carries no number: the whole label decides the type and the
    abbreviation, and nothing is raised. *)
Theorem parse_section_header_unnumbered : forall name : text,
  ascii_text name ->
  Py.strip name = name -> ~ In nl name ->
  (forall b w d : text, name = b ++ w ++ d ->
     w <> [] -> blank w = true ->
     d <> [] -> forallb Py.isdecimal d = true -> False) ->
  parse_section_header name
  = Ok (fst (kind_of name), snd (kind_of name), None).
Proof.
  intros name _ Hstrip Hnl Hno.
  rewrite parse_of_plain; rewrite Hstrip; try assumption. reflexivity.
Qed.

Lemma parse_section_header_unnumbered_witness :
  parse_section_header "Verse2" = Ok (fst (kind_of "Verse2"), snd (kind_of "Verse2"), None)
  /\ kind_of "Verse2" = ("Verse" : text, "V" : text).
Proof.
  split; [|reflexivity].
  apply parse_section_header_unnumbered.
  - unfold ascii_text.
    repeat (apply Forall_cons; [apply Nat.ltb_lt; reflexivity|]).
    apply Forall_nil.
  - reflexivity.
  - intros H. repeat (destruct H as [H|H]; [discriminate|]). exact H.
  - apply no_space_no_number. repeat constructor.
Defined.

Lemma dot_no_nl : forall v, forallb dot v = true -> ~ In nl v.
Proof.
  intros v H Hin. rewrite forallb_forall in H. specialize (H nl Hin).
  unfold dot, is_char in H. destruct (ascii_dec nl nl); [discriminate | congruence].
Qed.

Lemma py_int_too_long : forall digits : text,
  int_max_str_digits < List.length digits -> py_int digits = Raise ValueError.
Proof.
  intros digits H. unfold py_int.
  destruct (forallb Py.isdecimal digits && Py.truthy digits); [|reflexivity].
  destruct (Nat.leb_spec (List.length digits) int_max_str_digits);
    [lia | reflexivity].
Qed.

Lemma long_number_over_long : forall raw : text,
  long_number raw -> over_long raw.
Proof.
  intros raw (m & digits & Hm & Hg & Hlen).
  apply number_re_sound in Hm.
  destruct Hm as (base & Hbase & [[Hc _] | (W & D & tl & E & HW0 & HW & HD0 & HD & Htl & Hc)]).
  + rewrite Hc in Hg. discriminate.
  + rewrite Hc in Hg. cbn [group Nat.eqb] in Hg. injection Hg as <-.
    exists base, W, D. repeat split; try assumption.
    * destruct Htl as [-> | ->]; [rewrite app_nil_r in E; exact E|].
      exfalso.
      assert (Hne : Py.strip raw <> []).
      { rewrite E. destruct base; discriminate || (destruct W; [congruence | discriminate]). }
      destruct (stripped_ends (strip_idem raw) Hne) as [_ (u & c & Eu & Hcp)].
      rewrite E, !app_assoc in Eu. apply app_inj_tail in Eu.
      destruct Eu as [_ <-]. discriminate.
    * apply dot_no_nl. exact Hbase.
Qed.

Lemma over_long_raises : forall raw : text,
  over_long raw -> parse_section_header raw = Raise ValueError.
Proof.
  intros raw (base & ws & digits & E & Hnl & Hws & Hblank & Hdec & Hlen).
  assert (Hd : digits <> []).
  { intros ->. simpl in Hlen. unfold int_max_str_digits in Hlen. lia. }
  destruct (rstrip_trimmed base) as (wsx & Eb & Hwsx & Hlast).
  assert (Hne : Py.rstrip base <> []).
  { intros Hnil. rewrite Hnil in Eb. simpl in Eb. subst base.
    assert (Hs : Py.strip raw <> []).
    { rewrite E. destruct wsx; [|discriminate]. destruct ws; [congruence | discriminate]. }
    destruct (stripped_ends (strip_idem raw) Hs) as [(a & s & Ea & Ha) _].
    rewrite E in Ea.
    assert (Hin : Py.isspace a = true).
    { assert (Hb : blank (wsx ++ ws) = true) by (rewrite blank_app, Hwsx, Hblank; reflexivity).
      rewrite app_assoc in Ea.
      destruct (wsx ++ ws) as [|x xs] eqn:Ex.
      - apply app_eq_nil in Ex. destruct Ex as [_ ->]. congruence.
      - simpl in Ea. injection Ea as -> _.
        unfold blank in Hb. simpl in Hb. apply andb_true_iff in Hb. apply Hb. }
    unfold plain in Ha. congruence. }
  destruct (exists_last Hne) as (u & c & Eu).
  assert (Hraw : Py.strip raw = (u ++ [c]) ++ (wsx ++ ws) ++ digits).
  { rewrite E, Eb at 1. rewrite Eu, <- !app_assoc. reflexivity. }
  rewrite (@parse_of_numbered _ u (wsx ++ ws) digits c Hraw).
  + rewrite (py_int_too_long _ Hlen). reflexivity.
  + rewrite <- Eu. intros Hin. apply Hnl. rewrite Eb.
    apply in_or_app. left. exact Hin.
  + exact (Hlast u c Eu).
  + destruct wsx; [|discriminate]. exact Hws.
  + rewrite blank_app, Hwsx, Hblank. reflexivity.
  + exact Hd.
  + exact Hdec.
Qed.

(** X8 ([parse_section_header], lines 39 to 43).  The function raises
    exactly when the header, stripped, ends in white space followed by more
    than 4300 decimal digits, and what it raises then is [ValueError]. *)
Theorem parse_section_header_raises : forall (raw : text) (e : exn),
  parse_section_header raw = Raise e <-> e = ValueError /\ over_long raw.
Proof.
  intros raw e. split.
  - intros H. apply parse_section_header_raise in H.
    destruct H as [-> Hl]. split; [reflexivity|].
    apply long_number_over_long. exact Hl.
  - intros [-> H]. apply over_long_raises. exact H.
Qed.


(** ** The lines that are section headers *)

Lemma many_run_ex : forall p k cs (Q : mstate -> Prop) v s pv,
  forallb p v = true ->
  match s with [] => True | c :: _ => p c = false end ->
  (exists x, k (MState (last_of pv v) s cs) = Some x /\ Q x) ->
  exists x, many p k pv (v ++ s) cs = Some x /\ Q x.
Proof.
  intros p k cs Q v s pv Hv Hs (x & Hk & HQ).
  exists x. split; [|exact HQ]. apply many_run; assumption.
Qed.

Lemma at_end_blank : forall st, at_end st = true -> blank (rest st) = true.
Proof.
  intros st H. unfold at_end in H.
  destruct (rest st) as [|c [|c' s]]; [reflexivity | | discriminate].
  destruct (ascii_dec c nl); [subst; reflexivity | discriminate].
Qed.

Lemma header_re_match : forall a lab ws,
  Py.isletter a = true ->
  lab <> [] -> forallb label_char lab = true ->
  blank ws = true ->
  exists m,
    re_match header_re (a :: lab ++ ":"%char :: ws) = Some m
    /\ group_text 1 m = a :: lab.
Proof.
  intros a lab ws Ha Hne Hlab Hws.
  destruct lab as [|l0 lab]; [congruence|].
  simpl in Hlab. apply andb_true_iff in Hlab. destruct Hlab as [Hl0 Hlab].
  unfold re_match, header_re. cbn [Rseqs mtch prev rest caps app].
  rewrite Ha, Hl0.
  apply many_run_ex; [exact Hlab | reflexivity |].
  cbn [prev rest caps Py.startswith].
  destruct (ascii_dec ":" ":") as [_|N]; [|congruence].
  cbn [Py.startswith List.length skipn].
  apply many_all; [exact Hws|].
  intros pv'. cbn [at_end rest prev caps].
  eexists. split; [reflexivity|].
  unfold group_text. cbn [caps group Nat.eqb].
  apply taken_app. reflexivity.
Qed.

Lemma header_re_sound : forall s m,
  re_match header_re s = Some m ->
  exists a lab ws,
    s = a :: lab ++ ":"%char :: ws
    /\ Py.isletter a = true
    /\ lab <> [] /\ forallb label_char lab = true
    /\ blank ws = true
    /\ group_text 1 m = a :: lab.
Proof.
  intros s m H. unfold re_match, header_re in H.
  cbn [Rseqs mtch prev rest caps] in H.
  destruct s as [|a s]; [discriminate|].
  destruct (Py.isletter a) eqn:Ha; [|discriminate].
  destruct s as [|l0 s]; [discriminate|].
  destruct (label_char l0) eqn:Hl0; [|discriminate].
  apply many_sound in H. destruct H as (w & s' & pv' & Es & Hw & Hk).
  cbn [prev rest caps] in Hk.
  destruct (Py.startswith ":" s') eqn:Hcolon; [|discriminate].
  apply startswith_split in Hcolon.
  apply many_sound in Hk. destruct Hk as (w2 & s4 & pv2 & E2 & Hw2 & Hk).
  match type of Hk with
  | (if ?b then _ else _) = _ => destruct b eqn:He; [|discriminate]
  end.
  injection Hk as <-.
  apply at_end_blank in He. cbn [rest] in He.
  exists a, (l0 :: w), (w2 ++ s4). repeat split.
  - rewrite Es, Hcolon, E2. reflexivity.
  - exact Ha.
  - discriminate.
  - simpl. rewrite Hl0. exact Hw.
  - rewrite blank_app. unfold blank at 1. rewrite Hw2. exact He.
  - unfold group_text. cbn [caps group Nat.eqb].
    apply taken_app. cbn [rest]. rewrite Es. reflexivity.
Qed.

Lemma stripped_no_tail : forall (v ws : text) c,
  Py.strip (v ++ c :: ws) = v ++ c :: ws -> blank ws = true -> ws = [].
Proof.
  intros v ws c H Hws.
  destruct ws as [|x ws]; [reflexivity|]. exfalso.
  assert (Hne : v ++ c :: x :: ws <> []) by (destruct v; discriminate).
  destruct (stripped_ends H Hne) as [_ (u & z & E & Hz)].
  destruct (@exists_last _ (x :: ws)) as (ws' & y & Ey); [discriminate|].
  rewrite Ey in E, Hws.
  change (v ++ c :: ws' ++ [y]) with (v ++ (c :: ws') ++ [y]) in E.
  rewrite app_assoc in E. apply app_inj_tail in E. destruct E as [_ ->].
  rewrite blank_app in Hws. apply andb_true_iff in Hws.
  destruct Hws as [_ Hy]. unfold blank in Hy. simpl in Hy.
  apply andb_true_iff in Hy. destruct Hy as [Hy _].
  unfold plain in Hz. congruence.
Qed.

Lemma strip_strip : forall line, Py.strip (Py.strip line) = Py.strip line.
Proof. exact strip_idem. Qed.

(** X9 (the header pattern of line 140 and the test of line 150).  A line
    is taken as a section header exactly when, stripped, it is a letter,
    then one or more letters, digits, spaces, hyphens, apostrophes or
    slashes, then a colon; the header kept for it is its label.  A single
    letter and a colon is not a header. *)
Theorem header_line_shape : forall line : text,
  (is_header line = true <-> header_shape (Py.strip line))
  /\ (forall m,
        re_match header_re (Py.strip line) = Some m ->
        Py.strip (group_text 1 m) = label_of line)
  /\ (forall a, is_header [a; ":"%char] = false).
Proof.
  intros line. split; [split | split].
  - unfold is_header. intros H.
    destruct (re_match header_re (Py.strip line)) as [m|] eqn:E; [|discriminate].
    apply header_re_sound in E.
    destruct E as (a & lab & ws & Es & Ha & Hne & Hlab & Hws & _).
    assert (ws = []) as ->.
    { apply (@stripped_no_tail (a :: lab) ws ":"%char); [|exact Hws].
      simpl app. rewrite <- Es. apply strip_idem. }
    exists a, lab. repeat split; assumption.
  - intros (a & lab & Es & Ha & Hne & Hlab). unfold is_header.
    destruct (@header_re_match a lab [] Ha Hne Hlab eq_refl) as (m & Hm & _).
    change (a :: lab ++ [":"%char]) with (a :: lab ++ ":") in Hm.
    rewrite <- Es in Hm. rewrite Hm. reflexivity.
  - intros m E. unfold label_of.
    apply header_re_sound in E.
    destruct E as (a & lab & ws & Es & Ha & Hne & Hlab & Hws & Hg).
    assert (ws = []) as ->.
    { apply (@stripped_no_tail (a :: lab) ws ":"%char); [|exact Hws].
      simpl app. rewrite <- Es. apply strip_idem. }
    rewrite Hg, Es.
    change (a :: lab ++ [":"%char]) with ((a :: lab) ++ [":"%char]).
    rewrite removelast_last. reflexivity.
  - intros a. unfold is_header.
    destruct (re_match header_re (Py.strip [a; ":"%char])) as [m|] eqn:E;
      [|reflexivity].
    apply header_re_sound in E.
    destruct E as (a' & lab & ws & Es & Ha & Hne & Hlab & Hws & _).
    exfalso.
    assert (Hlen : List.length (Py.strip [a; ":"%char]) <= 2).
    { unfold Py.strip.
      pose proof (rstrip_length (Py.lstrip [a; ":"%char])).
      pose proof (lstrip_by_length Py.isspace [a; ":"%char]).
      unfold Py.lstrip in *. simpl List.length in *. lia. }
    rewrite Es in Hlen. simpl in Hlen. rewrite length_app in Hlen.
    destruct lab; [congruence|]. simpl in Hlen. lia.
Qed.


(** ** Splitting the body into sections *)

Lemma combine_snoc : forall (A B : Type) (a : list A) (b : list B) x y,
  List.length a = List.length b ->
  combine (a ++ [x]) (b ++ [y]) = combine a b ++ [(x, y)].
Proof.
  intros A B a. induction a as [|a0 a IH]; intros b x y Hlen;
    destruct b as [|b0 b]; simpl in Hlen; try discriminate; [reflexivity|].
  simpl. rewrite IH by lia. reflexivity.
Qed.

Lemma is_header_match : forall line,
  is_header line = true <-> exists m, re_match header_re (Py.strip line) = Some m.
Proof.
  intros line. unfold is_header.
  destruct (re_match header_re (Py.strip line)) as [m|]; split.
  - intros _. exists m. reflexivity.
  - reflexivity.
  - discriminate.
  - intros [m H]. discriminate.
Qed.

Lemma header_label : forall line m,
  re_match header_re (Py.strip line) = Some m ->
  Py.strip (group_text 1 m) = label_of line.
Proof.
  intros line m E. unfold label_of.
  apply header_re_sound in E.
  destruct E as (a & lab & ws & Es & Ha & Hne & Hlab & Hws & Hg).
  assert (ws = []) as ->.
  { apply (@stripped_no_tail (a :: lab) ws ":"%char); [|exact Hws].
    simpl app. rewrite <- Es. apply strip_idem. }
  rewrite Hg, Es.
  change (a :: lab ++ [":"%char]) with ((a :: lab) ++ [":"%char]).
  rewrite removelast_last. reflexivity.
Qed.

Lemma split_inv_start : split_inv [] (Splitter [] [] None [] 0).
Proof. unfold split_inv, sections_so_far. simpl. repeat split; constructor. Qed.

Lemma split_inv_step : forall done st line,
  split_inv done st -> split_inv (done ++ [line]) (split_line st line).
Proof.
  intros done st line (Hn & Hh & Hd & Hl & Hs & Hnone).
  assert (Hlen : List.length (filter is_header done)
                 = List.length (sections_so_far st)).
  { rewrite <- (length_map label_of), <- Hh. apply length_map. }
  unfold split_line.
  destruct (re_match header_re (Py.strip line)) as [m|] eqn:E.
  - assert (Hy : is_header line = true) by (apply is_header_match; eauto).
    assert (Hsec : sections_so_far
                     (Splitter
                        (match current_header st with
                         | Some h => sections st ++ [Section_ h (current_lines st)]
                         | None => sections st
                         end)
                        (leading_lines st) (Some (Py.strip (group_text 1 m)))
                        [] (headers_found st + 1))
                   = sections_so_far st ++ [Section_ (label_of line) []]).
    { unfold sections_so_far. cbn [sections current_header current_lines].
      rewrite (header_label _ E).
      destruct (current_header st); [reflexivity|].
      rewrite app_nil_r. reflexivity. }
    unfold split_inv. rewrite Hsec. cbn [headers_found leading_lines current_header].
    rewrite filter_app. cbn [filter]. rewrite Hy.
    repeat split.
    + rewrite length_app, Hn. reflexivity.
    + rewrite !map_app, Hh. reflexivity.
    + rewrite combine_snoc by exact Hlen.
      rewrite map_app, concat_app. cbn [map concat section_lines fst snd lines].
      rewrite app_nil_r, app_assoc, <- Hd. reflexivity.
    + exact Hl.
    + apply Forall_app. split; [exact Hs|]. repeat constructor.
    + discriminate.
  - assert (Hy : is_header line = false).
    { destruct (is_header line) eqn:Hy; [|reflexivity].
      apply is_header_match in Hy. destruct Hy as [m Hm]. congruence. }
    assert (Hf : filter is_header (done ++ [line]) = filter is_header done).
    { rewrite filter_app. cbn [filter]. rewrite Hy. apply app_nil_r. }
    destruct (current_header st) as [h|] eqn:Ec.
    + assert (Hsec0 : sections_so_far st
                      = sections st ++ [Section_ h (current_lines st)]).
      { unfold sections_so_far. rewrite Ec. reflexivity. }
      assert (Hsec : sections_so_far
                       (Splitter (sections st) (leading_lines st) (Some h)
                                 (current_lines st ++ [line]) (headers_found st))
                     = sections st ++ [Section_ h (current_lines st ++ [line])])
        by reflexivity.
      unfold split_inv. rewrite Hsec, Hf.
      cbn [headers_found leading_lines current_header].
      rewrite Hsec0 in Hlen, Hh, Hd, Hs.
      destruct (@exists_last _ (filter is_header done)) as (F0 & hl & EF).
      { intros Hnil. rewrite Hnil, length_app in Hlen. simpl in Hlen. lia. }
      rewrite EF in *.
      assert (Hlen0 : List.length F0 = List.length (sections st)).
      { rewrite !length_app in Hlen. simpl in Hlen. lia. }
      rewrite combine_snoc in Hd by exact Hlen0.
      rewrite map_app, concat_app in Hd.
      cbn [map concat section_lines fst snd lines] in Hd.
      rewrite app_nil_r in Hd.
      apply Forall_app in Hs. destruct Hs as [Hs1 Hs2].
      repeat split.
      * exact Hn.
      * rewrite map_app in Hh |- *. exact Hh.
      * rewrite combine_snoc by exact Hlen0.
        rewrite map_app, concat_app.
        cbn [map concat section_lines fst snd lines].
        rewrite app_nil_r.
        rewrite Hd at 1. rewrite <- !app_assoc. reflexivity.
      * exact Hl.
      * apply Forall_app. split; [exact Hs1|].
        constructor; [|constructor]. cbn [lines].
        apply Forall_app. split.
        -- inversion Hs2; subst. assumption.
        -- repeat constructor. exact Hy.
      * discriminate.
    + assert (Hnil : sections_so_far st = []).
      { unfold sections_so_far. rewrite Ec, (Hnone eq_refl). reflexivity. }
      assert (Hsec : sections_so_far
                       (Splitter (sections st) (leading_lines st ++ [line]) None
                                 (current_lines st) (headers_found st))
                     = []).
      { unfold sections_so_far. cbn [sections current_header].
        rewrite (Hnone eq_refl). reflexivity. }
      unfold split_inv. rewrite Hsec, Hf.
      cbn [headers_found leading_lines current_header sections].
      rewrite Hnil in Hh, Hd.
      rewrite combine_nil in Hd |- *. cbn [map concat] in Hd |- *.
      rewrite app_nil_r in Hd |- *.
      repeat split.
      * exact Hn.
      * exact Hh.
      * rewrite <- Hd. reflexivity.
      * apply Forall_app. split; [exact Hl|]. repeat constructor. exact Hy.
      * constructor.
      * intros _. exact (Hnone eq_refl).
Qed.

Lemma split_inv_fold : forall ls done st,
  split_inv done st -> split_inv (done ++ ls) (fold_left split_line ls st).
Proof.
  induction ls as [|l ls IH]; intros done st H.
  - rewrite app_nil_r. exact H.
  - simpl. replace (done ++ l :: ls) with ((done ++ [l]) ++ ls)
      by (rewrite <- app_assoc; reflexivity).
    apply IH. apply split_inv_step. exact H.
Qed.

Lemma split_body_so_far : forall body,
  sections (split_body body)
  = sections_so_far
      (fold_left split_line (Py.split_char nl body) (Splitter [] [] None [] 0))
  /\ leading_lines (split_body body)
     = leading_lines
         (fold_left split_line (Py.split_char nl body) (Splitter [] [] None [] 0))
  /\ headers_found (split_body body)
     = headers_found
         (fold_left split_line (Py.split_char nl body) (Splitter [] [] None [] 0)).
Proof.
  intros body. unfold split_body, sections_so_far.
  destruct (current_header _) as [h|]; cbn [sections leading_lines headers_found];
    repeat split; try reflexivity.
  symmetry. apply app_nil_r.
Qed.

Lemma split_body_inv : forall body,
  headers_found (split_body body)
  = List.length (filter is_header (Py.split_char nl body))
  /\ map header (sections (split_body body))
     = map label_of (filter is_header (Py.split_char nl body))
  /\ Py.split_char nl body
     = leading_lines (split_body body)
       ++ concat (map section_lines
                      (combine (filter is_header (Py.split_char nl body))
                               (sections (split_body body))))
  /\ Forall (fun l => is_header l = false) (leading_lines (split_body body))
  /\ Forall (fun s => Forall (fun l => is_header l = false) (lines s))
            (sections (split_body body)).
Proof.
  intros body.
  destruct (split_body_so_far body) as (-> & -> & ->).
  pose proof (@split_inv_fold (Py.split_char nl body) [] _ split_inv_start) as H.
  simpl app in H. destruct H as (H1 & H2 & H3 & H4 & H5 & _).
  repeat split; assumption.
Qed.

(** X10 (the loop of lines 142 to 164).  Splitting loses no line and keeps
    the order: the lines of the body are the leading lines followed by each
    header line with the lines of its section; there are as many sections as
    header lines, each under the label of its header line; and no line kept
    as leading or in a section is a header line. *)
Theorem split_body_partition : forall body : text,
  headers_found (split_body body)
  = List.length (filter is_header (Py.split_char nl body))
  /\ map header (sections (split_body body))
     = map label_of (filter is_header (Py.split_char nl body))
  /\ Py.split_char nl body
     = leading_lines (split_body body)
       ++ concat (map section_lines
                      (combine (filter is_header (Py.split_char nl body))
                               (sections (split_body body))))
  /\ Forall (fun l => is_header l = false) (leading_lines (split_body body))
  /\ Forall (fun s => Forall (fun l => is_header l = false) (lines s))
            (sections (split_body body)).
Proof. exact split_body_inv. Qed.


(** ** The flow of a body without section headers *)

Lemma fallback_re_sound : forall s m,
  re_match fallback_re s = Some m ->
  exists lab ws,
    s = lab ++ ":"%char :: ws
    /\ lab <> []
    /\ forallb (fun c => Py.isletter c || is_char " " c) lab = true
    /\ blank ws = true
    /\ group_text 1 m = lab.
Proof.
  intros s m H. unfold re_match, fallback_re in H.
  cbn [Rseqs mtch prev rest caps] in H.
  destruct s as [|a s]; [discriminate|].
  destruct (Py.isletter a || is_char " " a) eqn:Ha; [|discriminate].
  apply many_sound in H. destruct H as (w & s' & pv' & Es & Hw & Hk).
  cbn [prev rest caps] in Hk.
  destruct (Py.startswith ":" s') eqn:Hcolon; [|discriminate].
  apply startswith_split in Hcolon.
  apply many_sound in Hk. destruct Hk as (w2 & s4 & pv2 & E2 & Hw2 & Hk).
  match type of Hk with
  | (if ?b then _ else _) = _ => destruct b eqn:He; [|discriminate]
  end.
  injection Hk as <-.
  apply at_end_blank in He. cbn [rest] in He.
  exists (a :: w), (w2 ++ s4). repeat split.
  - rewrite Es, Hcolon, E2. reflexivity.
  - discriminate.
  - simpl. rewrite Ha. exact Hw.
  - rewrite blank_app. unfold blank at 1. rewrite Hw2. exact He.
  - unfold group_text. cbn [caps group Nat.eqb].
    apply taken_app. cbn [rest]. rewrite Es. reflexivity.
Qed.

Lemma fallback_re_single : forall a,
  Py.isletter a = true ->
  exists m,
    re_match fallback_re [a; ":"%char] = Some m /\ group_text 1 m = [a].
Proof.
  intros a Ha. unfold re_match, fallback_re.
  cbn [Rseqs mtch prev rest caps]. rewrite Ha. cbn [orb many].
  eexists. split; reflexivity.
Qed.

Lemma letter_plain : forall a, Py.isletter a = true -> plain a.
Proof.
  intros a. destruct a as [[] [] [] [] [] [] [] []];
    intros H; try discriminate H; reflexivity.
Qed.

Lemma lower_b_letter : forall a,
  Py.to_lower a = "b"%char -> Py.isletter a = true.
Proof.
  intros a. destruct a as [[] [] [] [] [] [] [] []];
    intros H; try discriminate H; reflexivity.
Qed.

Lemma lower_colon : forall c, Py.to_lower c = ":"%char -> c = ":"%char.
Proof.
  intros c. destruct c as [[] [] [] [] [] [] [] []];
    intros H; try discriminate H; reflexivity.
Qed.

Lemma fallback_token_single : forall a,
  fallback_token [a]
  = if text_eqb (Py.lower [a; ":"%char]) "b:" then Some ("B" : text) else None.
Proof.
  intros a. destruct a as [[] [] [] [] [] [] [] []]; reflexivity.
Qed.

Lemma letter_or_space_label : forall lab,
  forallb (fun c => Py.isletter c || is_char " " c) lab = true ->
  forallb label_char lab = true.
Proof.
  intros lab H. rewrite forallb_forall in *. intros c Hc.
  specialize (H c Hc). unfold label_char.
  apply orb_true_iff in H. destruct H as [H | H].
  - rewrite H. reflexivity.
  - unfold is_char in H. destruct (ascii_dec c " "); [subst c; reflexivity | discriminate].
Qed.

(** On a line that is no section header, the pattern of line 277 can only
    find a label of one letter. *)
Lemma fallback_line_headerless : forall tokens line,
  is_header line = false ->
  fallback_line tokens line
  = if is_b_line line
    then (if existsb (text_eqb "B") tokens then tokens else tokens ++ ["B" : text])
    else tokens.
Proof.
  intros tokens line Hno. unfold fallback_line, is_b_line.
  destruct (Py.strip line) as [|a0 s0] eqn:Es; [reflexivity|].
  cbn [Py.truthy negb].
  destruct (re_match fallback_re (a0 :: s0)) as [m|] eqn:E.
  - apply fallback_re_sound in E.
    destruct E as (lab & ws & Elab & Hne & Hlab & Hws & Hg).
    assert (Hstrip : Py.strip (lab ++ ":"%char :: ws) = lab ++ ":"%char :: ws).
    { rewrite <- Elab, <- Es. apply strip_idem. }
    assert (ws = []) as -> by exact (stripped_no_tail _ _ _ Hstrip Hws).
    destruct lab as [|a lab]; [congruence|].
    simpl in Elab. injection Elab as -> ->.
    assert (Ha : Py.isletter a = true).
    { simpl in Hlab. apply andb_true_iff in Hlab. destruct Hlab as [Ha _].
      apply orb_true_iff in Ha. destruct Ha as [Ha | Ha]; [exact Ha|].
      exfalso. unfold is_char in Ha.
      destruct (ascii_dec a " "); [subst a | discriminate].
      assert (Hne' : " "%char :: lab ++ [":"%char] <> []) by discriminate.
      destruct (stripped_ends Hstrip Hne') as [(x & y & Exy & Hx) _].
      injection Exy as <- _. discriminate. }
    destruct lab as [|l0 lab].
    + rewrite Hg.
      assert (Hs1 : Py.strip [a] = [a]).
      { apply strip_plain. repeat constructor. apply letter_plain. exact Ha. }
      rewrite Hs1, fallback_token_single.
      simpl app.
      destruct (text_eqb (Py.lower [a; ":"%char]) "b:"); [|reflexivity].
      destruct (existsb (text_eqb "B") tokens); reflexivity.
    + exfalso.
      simpl in Hlab. apply andb_true_iff in Hlab. destruct Hlab as [_ Hlab].
      destruct (@header_re_match a (l0 :: lab) [] Ha) as (m' & Hm' & _);
        [discriminate | apply letter_or_space_label; exact Hlab | reflexivity |].
      unfold is_header in Hno. rewrite Es in Hno.
      change (a :: (l0 :: lab) ++ [":"%char]) with (a :: (l0 :: lab) ++ ":") in Hm'.
      simpl app in Hm', Hno. rewrite Hm' in Hno. discriminate.
  - destruct (text_eqb (Py.lower (a0 :: s0)) "b:") eqn:Eb; [|reflexivity].
    exfalso. apply text_eqb_eq in Eb.
    destruct s0 as [|c s0]; [discriminate|].
    destruct s0 as [|c' s0]; [|discriminate].
    simpl in Eb. injection Eb as Ea Ec.
    apply lower_colon in Ec. subst c.
    destruct (@fallback_re_single a0 (@lower_b_letter a0 Ea)) as (m & Hm & _).
    congruence.
Qed.

Lemma fallback_fold_bridge : forall ls,
  Forall (fun l => is_header l = false) ls ->
  fold_left fallback_line ls ["B" : text] = ["B" : text].
Proof.
  induction ls as [|l ls IH]; intros H; [reflexivity|].
  inversion H as [|? ? Hl Hls]; subst. simpl.
  rewrite (@fallback_line_headerless _ _ Hl).
  cbn [existsb]. rewrite text_eqb_refl. cbn [orb].
  destruct (is_b_line l); apply IH; exact Hls.
Qed.

Lemma fallback_fold_headerless : forall ls,
  Forall (fun l => is_header l = false) ls ->
  fold_left fallback_line ls []
  = if existsb is_b_line ls then ["B" : text] else [].
Proof.
  induction ls as [|l ls IH]; intros H; [reflexivity|].
  inversion H as [|? ? Hl Hls]; subst. simpl.
  rewrite (@fallback_line_headerless _ _ Hl). cbn [existsb app].
  destruct (is_b_line l); cbn [orb].
  - apply fallback_fold_bridge. exact Hls.
  - apply IH. exact Hls.
Qed.

Lemma headerless_lines : forall body,
  headers_found (split_body body) = 0 ->
  Forall (fun l => is_header l = false) (Py.split_char nl body).
Proof.
  intros body H.
  destruct (split_body_inv body) as (Hn & _).
  rewrite H in Hn. symmetry in Hn. apply length_zero_iff_nil in Hn.
  apply Forall_forall. intros l Hl.
  destruct (is_header l) eqn:E; [|reflexivity].
  assert (Hin : In l (filter is_header (Py.split_char nl body)))
    by (apply filter_In; split; assumption).
  rewrite Hn in Hin. contradiction.
Qed.

Lemma fallback_flow_headerless : forall body meta,
  headers_found (split_body body) = 0 ->
  fallback_flow body meta
  = if existsb is_b_line (Py.split_char nl body)
    then meta_set "Flow" "B" meta else meta.
Proof.
  intros body meta H. unfold fallback_flow.
  rewrite (@fallback_fold_headerless _ (@headerless_lines _ H)).
  destruct (existsb is_b_line (Py.split_char nl body)); reflexivity.
Qed.

(** X11 (the branch of lines 272 to 305, reached when line 166 found no
    header).  Every line the pattern of line 277 accepts with a label of
    two or more characters is a section header already, so in this branch
    only a line [B:] or [b:] yields a token: when the tab supplies no flow,
    the flow becomes [B] if the body has such a line and stays empty
    otherwise. *)
Theorem headerless_flow_is_bridge_or_empty :
  forall tab artist_fb title_fb file_base : text,
    headers_found (sections_of tab artist_fb title_fb file_base) = 0 ->
    supplied_flow tab = [] ->
    exists d,
      rebuild_doc tab artist_fb title_fb file_base = Ok d
      /\ d_body d = h_body (read_head tab artist_fb title_fb file_base)
      /\ meta_get "Flow" (d_meta d)
         = if existsb is_b_line
                (Py.split_char nl
                   (h_body (read_head tab artist_fb title_fb file_base)))
           then "B" : text else [].
Proof.
  intros tab artist_fb title_fb file_base Hno Hflow.
  unfold sections_of in Hno. unfold rebuild_doc.
  rewrite (@headerless_doc _ Hno).
  rewrite read_head_flow, Hflow. cbn [Py.truthy negb].
  eexists. split; [reflexivity|]. cbn [d_body d_meta]. split; [reflexivity|].
  rewrite (@fallback_flow_headerless _ _ Hno).
  destruct (existsb is_b_line _).
  - rewrite meta_get_set. reflexivity.
  - rewrite read_head_flow. exact Hflow.
Qed.

Lemma headerless_flow_is_bridge_or_empty_witness :
  exists d,
    rebuild_doc bridge_tab [] [] [] = Ok d
    /\ d_body d = h_body (read_head bridge_tab [] [] [])
    /\ meta_get "Flow" (d_meta d) = "B".
Proof.
  exact (@headerless_flow_is_bridge_or_empty bridge_tab [] [] [] eq_refl eq_refl).
Defined.


(** ** Reading the header of a tab *)

Lemma strip_lstrip : forall s, Py.strip (Py.lstrip s) = Py.strip s.
Proof.
  intros s. unfold Py.strip, Py.lstrip. rewrite lstrip_by_idem. reflexivity.
Qed.

Lemma lstrip_head_not_space : forall s,
  match Py.lstrip s with [] => True | c :: _ => Py.isspace c = false end.
Proof.
  intros s. destruct (Py.lstrip s) as [|c r] eqn:E; [exact I|].
  unfold Py.lstrip in E. apply lstrip_by_head in E. exact E.
Qed.

(** The pattern of line 120 accepts a line exactly when the line starts
    with the name and a colon, and it captures the rest of the line from
    its first character that is no white space. *)
Lemma meta_re_match : forall name line,
  ~ In nl line ->
  match re_match (meta_re name) line with
  | Some m =>
      Py.startswith (name ++ ":") line = true
      /\ group_text 1 m
         = Py.lstrip (skipn (List.length (name ++ ":")) line)
  | None => Py.startswith (name ++ ":") line = false
  end.
Proof.
  intros name line Hnl.
  unfold re_match, meta_re. cbn [Rseqs mtch prev rest caps].
  destruct (Py.startswith (name ++ ":") line) eqn:Hs; [|reflexivity].
  pose proof (startswith_split _ _ Hs) as Hsplit.
  set (after := skipn (List.length (name ++ ":")) line) in *.
  assert (Hafter : ~ In nl after).
  { intros Hin. apply Hnl. rewrite Hsplit. apply in_or_app. right. exact Hin. }
  destruct (lstrip_by_suffix Py.isspace after) as (w & Hw & Hall).
  pose proof (lstrip_head_not_space after) as Hhead.
  unfold Py.lstrip in *.
  assert (Hr : ~ In nl (Py.lstrip_by Py.isspace after)).
  { intros Hin. apply Hafter. rewrite Hw. apply in_or_app. right. exact Hin. }
  set (r := Py.lstrip_by Py.isspace after) in *.
  assert (Hex : exists x,
            many Py.isspace
              (fun st : mstate =>
                 many dot
                   (fun st' : mstate =>
                      if at_end (MState (prev st') (rest st')
                                        ((1, taken st st') :: caps st'))
                      then Some (MState (prev st') (rest st')
                                        ((1, taken st st') :: caps st'))
                      else None)
                   (prev st) (rest st) (caps st))
              (last_of None (name ++ ":")) after []
            = Some x
            /\ group_text 1 x = r).
  { rewrite Hw. apply many_run_ex; [exact Hall | exact Hhead |].
    cbn [prev rest caps].
    apply many_all; [apply no_nl_dot; exact Hr|].
    intros pv'. cbn [prev rest caps at_end].
    eexists. split; [reflexivity|].
    unfold group_text. cbn [caps group Nat.eqb].
    apply taken_app. cbn [rest]. symmetry. apply app_nil_r. }
  destruct Hex as (x & Hx & Hg).
  cbn [mtch] in Hx |- *. rewrite Hx. split; [reflexivity | exact Hg].
Qed.

Lemma read_meta_line_get : forall (lines : list text) meta offset name n,
  Forall (fun l => ~ In nl l) lines ->
  meta_get n (read_meta_line lines meta (offset, name))
  = match nth_error lines offset with
    | Some line =>
        match field_value name line with
        | Some v => if text_eqb n name then v else meta_get n meta
        | None => meta_get n meta
        end
    | None => meta_get n meta
    end.
Proof.
  intros lines meta offset name n Hl. unfold read_meta_line, field_value.
  destruct (nth_error lines offset) as [line|] eqn:E; [|reflexivity].
  assert (Hnl : ~ In nl line).
  { rewrite Forall_forall in Hl. apply Hl. apply (nth_error_In _ _ E). }
  pose proof (@meta_re_match name line Hnl) as Hm.
  destruct (re_match (meta_re name) line) as [m|].
  - destruct Hm as [-> Hg]. rewrite meta_get_set, Hg, strip_lstrip. reflexivity.
  - rewrite Hm. reflexivity.
Qed.

Lemma read_meta_fold_other : forall (lines : list text) names start meta n,
  Forall (fun l => ~ In nl l) lines ->
  ~ In n names ->
  meta_get n
    (fold_left (read_meta_line lines)
               (combine (seq start (List.length names)) names) meta)
  = meta_get n meta.
Proof.
  intros lines names. induction names as [|name names IH];
    intros start meta n Hl Hn; [reflexivity|].
  cbn [List.length seq combine fold_left].
  rewrite IH; [|exact Hl | intros H; apply Hn; right; exact H].
  rewrite read_meta_line_get by exact Hl.
  assert (Hne : text_eqb n name = false).
  { apply text_eqb_neq. intros ->. apply Hn. left. reflexivity. }
  rewrite Hne.
  destruct (nth_error lines start) as [line|]; [|reflexivity].
  destruct (field_value name line); reflexivity.
Qed.

Lemma read_meta_fold_nth : forall (lines : list text) names start meta i name,
  Forall (fun l => ~ In nl l) lines ->
  NoDup names ->
  nth_error names i = Some name ->
  meta_get name
    (fold_left (read_meta_line lines)
               (combine (seq start (List.length names)) names) meta)
  = match nth_error lines (start + i) with
    | Some line =>
        match field_value name line with
        | Some v => v
        | None => meta_get name meta
        end
    | None => meta_get name meta
    end.
Proof.
  intros lines names. induction names as [|name0 names IH];
    intros start meta i name Hl Hnd Hi; [destruct i; discriminate|].
  inversion Hnd as [|? ? Hnotin Hnd']; subst.
  cbn [List.length seq combine fold_left].
  destruct i as [|i].
  - simpl in Hi. injection Hi as ->.
    rewrite read_meta_fold_other by assumption.
    rewrite read_meta_line_get by exact Hl.
    rewrite Nat.add_0_r, text_eqb_refl. reflexivity.
  - simpl in Hi.
    rewrite (IH (S start) _ i name Hl Hnd' Hi).
    replace (S start + i) with (start + S i) by lia.
    assert (Hne : text_eqb name name0 = false).
    { apply text_eqb_neq. intros ->. apply Hnotin.
      apply (nth_error_In _ _ Hi). }
    rewrite read_meta_line_get by exact Hl. rewrite Hne.
    destruct (nth_error lines start) as [l0|];
      [destruct (field_value name0 l0)|]; reflexivity.
Qed.

Lemma meta_names_nodup : NoDup meta_names.
Proof.
  unfold meta_names.
  repeat (constructor;
          [intros H; repeat (destruct H as [H|H]; [discriminate H|]); exact H|]).
  constructor.
Qed.

Lemma meta_get_blank_start : forall name,
  meta_get name (map (fun n => (n, [] : text)) meta_names) = [].
Proof.
  intros name. unfold meta_get.
  destruct (dict_get text_eqb name _) as [v|] eqn:E; [|reflexivity].
  apply (dict_get_some_in text_eqb text_eqb_eq) in E.
  apply in_map_iff in E. destruct E as (n & E & _). inversion E; subst.
  reflexivity.
Qed.

Lemma split_lines_no_nl : forall tab,
  Forall (fun l => ~ In nl l) (Py.split_char nl tab).
Proof. intros tab. apply split_char_no_sep. Qed.

Lemma read_meta_supplied : forall tab i name,
  nth_error meta_names i = Some name ->
  meta_get name (read_meta (Py.split_char nl tab)) = supplied tab i name.
Proof.
  intros tab i name Hi. unfold read_meta, supplied.
  rewrite (@read_meta_fold_nth _ meta_names 2 _ i name
             (split_lines_no_nl tab) meta_names_nodup Hi).
  rewrite meta_get_blank_start. reflexivity.
Qed.

(** X12 (the loop of lines 118 to 122).  The fields of the header are read
    by position: the field that stands [i]-th in the list of names gets
    what follows its name and a colon on line 2 + i, stripped, and it is
    empty when the tab has no such line or the line does not start with the
    name and a colon.  A field line at another place is not read. *)
Theorem header_fields_by_position : forall (tab : text) i name,
  nth_error meta_names i = Some name ->
  meta_get name (read_meta (Py.split_char nl tab))
  = match nth_error (Py.split_char nl tab) (2 + i) with
    | Some line =>
        if Py.startswith (name ++ ":") line
        then Py.strip (skipn (List.length (name ++ ":")) line)
        else []
    | None => []
    end.
Proof.
  intros tab i name Hi. rewrite (read_meta_supplied tab _ Hi).
  unfold supplied, field_value.
  destruct (nth_error (Py.split_char nl tab) (2 + i)) as [line|]; [|reflexivity].
  destruct (Py.startswith (name ++ ":") line); reflexivity.
Qed.

Lemma header_fields_by_position_witness :
  meta_get "Capo" (read_meta (Py.split_char nl noisy_tab)) = "3"
  /\ meta_get "Tempo" (read_meta (Py.split_char nl noisy_tab)) = [].
Proof.
  split.
  - exact (@header_fields_by_position noisy_tab 1 "Capo" eq_refl).
  - exact (@header_fields_by_position noisy_tab 2 "Tempo" eq_refl).
Defined.


(** ** The names carried by the file name *)

Lemma existsb_sep_in : forall (sep : ascii) s,
  existsb (fun d => if ascii_dec d sep then true else false) s = true
  <-> In sep s.
Proof.
  intros sep s. rewrite existsb_exists. split.
  - intros (d & Hd & E). destruct (ascii_dec d sep); [subst; exact Hd | discriminate].
  - intros H. exists sep. split; [exact H|].
    destruct (ascii_dec sep sep); [reflexivity | congruence].
Qed.

Lemma before_last_app : forall (sep : ascii) base ext,
  ~ In sep ext -> Py.before_last sep (base ++ sep :: ext) = base.
Proof.
  intros sep base ext Hext. induction base as [|b base IH]; simpl.
  - destruct (existsb _ ext) eqn:E.
    + apply existsb_sep_in in E. contradiction.
    + destruct (ascii_dec sep sep); [reflexivity | congruence].
  - assert (E : existsb (fun d => if ascii_dec d sep then true else false)
                        (base ++ sep :: ext) = true).
    { apply existsb_sep_in. apply in_or_app. right. left. reflexivity. }
    rewrite E, IH. reflexivity.
Qed.

Lemma dash_sep_needs_dash : forall s,
  Py.startswith " - " s = true -> In "-"%char s.
Proof.
  intros s H.
  change (String.list_ascii_of_string " - ")
    with [" "%char; "-"%char; " "%char] in H.
  destruct s as [|a [|b s]]; cbn [Py.startswith] in H; try discriminate.
  - destruct (ascii_dec " " a); discriminate.
  - destruct (ascii_dec " " a); [|discriminate].
    destruct (ascii_dec "-" b); [|discriminate].
    right. left. symmetry. assumption.
Qed.

Lemma split_once_no_dash : forall s,
  ~ In "-"%char s -> Py.split_once " - " s = None.
Proof.
  induction s as [|a s IH]; intros H.
  - reflexivity.
  - cbn [Py.split_once].
    destruct (Py.startswith " - " (a :: s)) eqn:E.
    + apply dash_sep_needs_dash in E. contradiction.
    + rewrite IH; [reflexivity|]. intros Hin. apply H. right. exact Hin.
Qed.

Lemma split_once_dash : forall artist rest_,
  ~ In "-"%char artist ->
  Py.split_once " - " (artist ++ " - " ++ rest_) = Some (artist, rest_).
Proof.
  induction artist as [|a artist IH]; intros rest_ H.
  - reflexivity.
  - cbn [app Py.split_once].
    destruct (Py.startswith " - " (a :: artist ++ " - " ++ rest_)) eqn:E.
    + exfalso.
      change (String.list_ascii_of_string " - ")
        with [" "%char; "-"%char; " "%char] in E.
      destruct artist as [|b artist]; cbn [Py.startswith app] in E.
      * destruct (ascii_dec " " a); [|discriminate].
        destruct (ascii_dec "-" " "); discriminate.
      * destruct (ascii_dec " " a); [|discriminate].
        destruct (ascii_dec "-" b); [|discriminate].
        apply H. right. left. symmetry. assumption.
    + rewrite IH; [reflexivity|]. intros Hin. apply H. right. exact Hin.
Qed.

(** X13 (lines 102 to 110).  A file name of the form artist, [" - "], title
    and an extension gives the artist and the title, both stripped; one
    without the separator gives a title only; no file name gives
    neither. *)
Theorem file_names_parts : forall artist title ext : text,
  ~ In "-"%char artist -> ~ In "."%char ext ->
  file_names (artist ++ " - " ++ title ++ "." ++ ext)
  = (Py.strip artist, Py.strip title)
  /\ file_names (artist ++ "." ++ ext) = ([], Py.strip artist)
  /\ file_names [] = ([], []).
Proof.
  intros artist title ext Ha He. repeat split.
  - unfold file_names.
    replace (Py.truthy (artist ++ " - " ++ title ++ "." ++ ext)) with true
      by (destruct artist; reflexivity).
    replace (artist ++ " - " ++ title ++ "." ++ ext)
      with ((artist ++ " - " ++ title) ++ "."%char :: ext)
      by (rewrite <- !app_assoc; reflexivity).
    rewrite before_last_app by exact He.
    rewrite split_once_dash by exact Ha. reflexivity.
  - unfold file_names.
    replace (Py.truthy (artist ++ "." ++ ext)) with true
      by (destruct artist; reflexivity).
    change (artist ++ "." ++ ext) with (artist ++ "."%char :: ext).
    rewrite before_last_app by exact He.
    rewrite split_once_no_dash by exact Ha. reflexivity.
Qed.

Lemma file_names_parts_witness :
  file_names ("The Band" ++ " - " ++ "My Song v1.2" ++ "." ++ "txt")
  = (Py.strip "The Band", Py.strip "My Song v1.2").
Proof.
  refine (proj1 (@file_names_parts "The Band" "My Song v1.2" "txt" _ _));
    intros H; repeat (destruct H as [H|H]; [discriminate H|]); exact H.
Defined.

(** ** What the rebuilt document keeps of the header *)

Lemma structured_meta_other : forall sp meta r name,
  structured sp meta = Ok r ->
  text_eqb name "Flow" = false ->
  meta_get name (fst r) = meta_get name meta.
Proof.
  intros sp meta r name H Hne. unfold structured in H.
  destruct (analyse (sections sp)) as [a|]; [|discriminate].
  cbn [bind] in H.
  destruct (build_display_map (type_stats a)) as [dm|]; [|discriminate].
  cbn [bind] in H.
  destruct (render_blocks dm (unique_order a)) as [blocks|]; [|discriminate].
  cbn [bind] in H. injection H as <-. cbn [fst].
  destruct (tokens_in_flow dm (occurrences a)); [reflexivity|].
  rewrite meta_get_set. cbn [String.list_ascii_of_string] in Hne |- *.
  rewrite Hne. reflexivity.
Qed.

Lemma rebuild_doc_head : forall tab artist_fb title_fb file_base d,
  rebuild_doc tab artist_fb title_fb file_base = Ok d ->
  d_title d = title_of (Py.split_char nl tab) title_fb file_base
  /\ d_artist d = artist_of (Py.split_char nl tab) artist_fb file_base
  /\ forall name,
       text_eqb name "Flow" = false ->
       meta_get name (d_meta d)
       = meta_get name (meta_of (Py.split_char nl tab)
                                (body_of (Py.split_char nl tab))).
Proof.
  intros tab artist_fb title_fb file_base d H. unfold rebuild_doc in H.
  destruct (0 <? headers_found
                   (split_body (h_body (read_head tab artist_fb title_fb file_base))))
    eqn:Eh.
  - destruct (structured _ _) as [r|] eqn:Er; [|discriminate].
    cbn [bind] in H. injection H as <-. cbn [d_title d_artist d_meta].
    repeat split. intros name Hne.
    rewrite (@structured_meta_other _ _ _ _ Er Hne). reflexivity.
  - destruct (negb (Py.truthy (meta_get "Flow" (h_meta _)))); injection H as <-;
      cbn [d_title d_artist d_meta]; repeat split.
    intros name Hne. rewrite fallback_flow_other by exact Hne. reflexivity.
Qed.

Lemma or_else_nonempty : forall a b, b <> [] -> Py.or_else a b <> [].
Proof.
  intros a b Hb. unfold Py.or_else. destruct a; [exact Hb | discriminate].
Qed.

Lemma or_else_first : forall a b, a <> [] -> Py.or_else a b = a.
Proof. intros a b Ha. destruct a; [congruence | reflexivity]. Qed.

Lemma first_line_strip : forall (lines : list text) i,
  match nth_error lines i with Some l => Py.strip l | None => [] end
  = Py.strip (nth i lines []).
Proof.
  intros lines i. revert lines.
  induction i as [|i IH]; intros [|l lines]; simpl; try reflexivity. apply IH.
Qed.

(** X14 (lines 112, 113, 129 and 130).  The rebuilt document always has a
    title and an artist.  Each is taken from the first source that is not
    empty: the stripped line of the tab (the first for the title, the
    second for the artist), the fallback passed in, the file name, and at
    last the words Unknown Song and Unknown Artist. *)
Theorem title_and_artist_resolved :
  forall tab artist_fb title_fb file_base d,
    rebuild_doc tab artist_fb title_fb file_base = Ok d ->
    (d_title d <> [] /\ d_artist d <> [])
    /\ (Py.strip (nth 0 (Py.split_char nl tab) []) <> [] ->
        d_title d = Py.strip (nth 0 (Py.split_char nl tab) []))
    /\ (Py.strip (nth 0 (Py.split_char nl tab) []) = [] ->
        (title_fb <> [] -> d_title d = title_fb)
        /\ (title_fb = [] ->
            d_title d = Py.or_else (snd (file_names file_base)) "Unknown Song"))
    /\ (Py.strip (nth 1 (Py.split_char nl tab) []) <> [] ->
        d_artist d = Py.strip (nth 1 (Py.split_char nl tab) []))
    /\ (Py.strip (nth 1 (Py.split_char nl tab) []) = [] ->
        (artist_fb <> [] -> d_artist d = artist_fb)
        /\ (artist_fb = [] ->
            d_artist d = Py.or_else (fst (file_names file_base)) "Unknown Artist")).
Proof.
  intros tab artist_fb title_fb file_base d H.
  destruct (@rebuild_doc_head _ _ _ _ _ H) as (-> & -> & _).
  unfold title_of, artist_of. rewrite !first_line_strip.
  repeat split.
  - repeat apply or_else_nonempty. discriminate.
  - repeat apply or_else_nonempty. discriminate.
  - intros Hne. apply or_else_first. exact Hne.
  - intros Hfb. rewrite H0. cbn [Py.or_else Py.truthy].
    apply or_else_first. exact Hfb.
  - intros ->. rewrite H0. reflexivity.
  - intros Hne. apply or_else_first. exact Hne.
  - intros Hfb. rewrite H0. cbn [Py.or_else Py.truthy].
    apply or_else_first. exact Hfb.
  - intros ->. rewrite H0. reflexivity.
Qed.

Lemma title_and_artist_resolved_witness :
  exists d,
    rebuild_doc noisy_tab [] [] [] = Ok d
    /\ d_title d = "My Song" /\ d_artist d = "The Band".
Proof.
  eexists. split; [reflexivity|].
  pose proof (@title_and_artist_resolved noisy_tab [] [] [] _ eq_refl)
    as (_ & Ht & _ & Ha & _).
  split; [apply Ht | apply Ha]; discriminate.
Defined.

Lemma default_meta_get : forall name value meta,
  meta_get name (default_meta name value meta)
  = Py.or_else (meta_get name meta) value.
Proof.
  intros name value meta. unfold default_meta, Py.or_else.
  destruct (Py.truthy (meta_get name meta)); [reflexivity|].
  rewrite meta_get_set, text_eqb_refl. reflexivity.
Qed.

Lemma meta_of_get : forall (lines : list text) body,
  meta_get "Key" (meta_of lines body)
  = Py.or_else (meta_get "Key" (read_meta lines)) (detect_key body)
  /\ meta_get "Capo" (meta_of lines body)
     = Py.or_else (meta_get "Capo" (read_meta lines)) "0"
  /\ meta_get "Tuning" (meta_of lines body)
     = Py.or_else (meta_get "Tuning" (read_meta lines)) "Standard"
  /\ forall name,
       text_eqb name "Key" = false ->
       text_eqb name "Capo" = false ->
       text_eqb name "Tuning" = false ->
       meta_get name (meta_of lines body) = meta_get name (read_meta lines).
Proof.
  intros lines body. unfold meta_of.
  set (m0 := read_meta lines).
  set (m1 := default_meta "Capo" "0" m0).
  set (m2 := default_meta "Tuning" "Standard" m1).
  assert (Hk : meta_get "Key" m2 = meta_get "Key" m0).
  { unfold m2, m1. rewrite !default_meta_other by reflexivity. reflexivity. }
  assert (Hc : meta_get "Capo" m2 = Py.or_else (meta_get "Capo" m0) "0").
  { unfold m2. rewrite default_meta_other by reflexivity.
    apply default_meta_get. }
  assert (Ht : meta_get "Tuning" m2
               = Py.or_else (meta_get "Tuning" m0) "Standard").
  { unfold m2. rewrite default_meta_get.
    unfold m1. rewrite default_meta_other by reflexivity. reflexivity. }
  assert (Ho : forall name,
             text_eqb name "Capo" = false -> text_eqb name "Tuning" = false ->
             meta_get name m2 = meta_get name m0).
  { intros name H1 H2. unfold m2, m1.
    rewrite !default_meta_other by assumption. reflexivity. }
  destruct (Py.truthy (meta_get "Key" m2)) eqn:E.
  - repeat split; try assumption.
    + rewrite Hk in *. unfold Py.or_else. rewrite E. reflexivity.
    + intros name _ H1 H2. apply Ho; assumption.
  - repeat split.
    + rewrite meta_get_set, text_eqb_refl.
      rewrite Hk in E. unfold Py.or_else. rewrite E. reflexivity.
    + rewrite meta_get_set. exact Hc.
    + rewrite meta_get_set. exact Ht.
    + intros name H0 H1 H2. rewrite meta_get_set, H0. apply Ho; assumption.
Qed.

(** X15 (lines 115 to 138 and the two paths after them).  Of the seven
    fields only the flow is ever recomputed.  Tempo, Time and TransposedKey
    pass through as the tab supplies them; Capo and Tuning pass through
    unless empty, when they become 0 and Standard; the key passes through
    unless empty, when it is the key detected in the body of the tab. *)
Theorem header_fields_carried :
  forall tab artist_fb title_fb file_base d,
    rebuild_doc tab artist_fb title_fb file_base = Ok d ->
    (forall name,
       In name ["Tempo" : text; "Time" : text; "TransposedKey" : text] ->
       meta_get name (d_meta d)
       = meta_get name (read_meta (Py.split_char nl tab)))
    /\ meta_get "Capo" (d_meta d)
       = Py.or_else (meta_get "Capo" (read_meta (Py.split_char nl tab))) "0"
    /\ meta_get "Tuning" (d_meta d)
       = Py.or_else (meta_get "Tuning" (read_meta (Py.split_char nl tab)))
                    "Standard"
    /\ meta_get "Key" (d_meta d)
       = Py.or_else (meta_get "Key" (read_meta (Py.split_char nl tab)))
                    (detect_key (body_of (Py.split_char nl tab))).
Proof.
  intros tab artist_fb title_fb file_base d H.
  destruct (@rebuild_doc_head _ _ _ _ _ H) as (_ & _ & Hm).
  destruct (meta_of_get (Py.split_char nl tab) (body_of (Py.split_char nl tab)))
    as (Hk & Hc & Ht & Ho).
  repeat split.
  - intros name Hin.
    destruct Hin as [<- | [<- | [<- | []]]];
      (rewrite Hm by reflexivity; apply Ho; reflexivity).
  - rewrite Hm by reflexivity. exact Hc.
  - rewrite Hm by reflexivity. exact Ht.
  - rewrite Hm by reflexivity. exact Hk.
Qed.

Lemma header_fields_carried_witness :
  exists d,
    rebuild_doc noisy_tab [] [] [] = Ok d
    /\ meta_get "Capo" (d_meta d) = "3"
    /\ meta_get "Tuning" (d_meta d) = "Standard"
    /\ meta_get "Key" (d_meta d) = "Am".
Proof.
  eexists. split; [reflexivity|].
  pose proof (@header_fields_carried noisy_tab [] [] [] _ eq_refl)
    as (_ & Hc & Ht & Hk).
  split; [rewrite Hc; reflexivity|].
  split; [rewrite Ht; reflexivity | rewrite Hk; reflexivity].
Defined.


(** ** When the program fails *)

Lemma collapse_over_long : forall s,
  over_long (header s) -> collapse s = Raise ValueError.
Proof.
  intros s H. unfold collapse. rewrite (over_long_raises H). reflexivity.
Qed.

Lemma analyse_from_over_long : forall secs a s,
  In s secs -> over_long (header s) ->
  analyse_from a secs = Raise ValueError.
Proof.
  induction secs as [|s0 secs IH]; intros a s Hin Hs; [contradiction|].
  cbn [analyse_from]. unfold analyse_section.
  destruct (collapse s0) as [c|e] eqn:Ec; cbn [bind].
  - destruct Hin as [-> | Hin].
    + rewrite (collapse_over_long _ Hs) in Ec. discriminate.
    + apply (IH _ s Hin Hs).
  - apply collapse_raise in Ec. destruct Ec as [-> _]. reflexivity.
Qed.

Lemma sections_headers_found : forall body,
  List.length (sections (split_body body)) = headers_found (split_body body).
Proof.
  intros body. destruct (split_body_inv body) as (Hn & Hh & _).
  rewrite Hn, <- (length_map label_of), <- Hh. symmetry. apply length_map.
Qed.

Lemma over_long_rebuild : forall tab artist_fb title_fb file_base s,
  In s (sections (sections_of tab artist_fb title_fb file_base)) ->
  over_long (header s) ->
  rebuild_formatted_tab tab artist_fb title_fb file_base = Raise ValueError.
Proof.
  intros tab artist_fb title_fb file_base s Hin Hs.
  unfold sections_of in Hin.
  unfold rebuild_formatted_tab, rebuild_doc.
  assert (Hh : (0 <? headers_found
                       (split_body
                          (h_body (read_head tab artist_fb title_fb file_base))))
               = true).
  { apply Nat.ltb_lt. rewrite <- sections_headers_found.
    destruct (sections _); [contradiction | simpl; lia]. }
  rewrite Hh. unfold structured, analyse.
  rewrite (@analyse_from_over_long _ _ _ Hin Hs). reflexivity.
Qed.

Lemma rebuild_raise_over_long : forall tab artist_fb title_fb file_base e,
  rebuild_formatted_tab tab artist_fb title_fb file_base = Raise e ->
  e = ValueError
  /\ exists s,
       In s (sections (sections_of tab artist_fb title_fb file_base))
       /\ over_long (header s).
Proof.
  intros tab artist_fb title_fb file_base e H.
  apply rebuild_raises_only_on_long_number in H.
  destruct H as [-> (s & Hin & Hl)]. split; [reflexivity|].
  exists s. split; [exact Hin | apply long_number_over_long; exact Hl].
Qed.

(** X16 ([rebuild_formatted_tab], lines 99 to 316).  The function raises
    exactly when a section header of the body, stripped, ends in white
    space followed by more than 4300 decimal digits.  What it raises is
    [ValueError], from [int] on line 43; no subscript of a dictionary
    (lines 226, 260 and 310) ever raises [KeyError]. *)
Theorem rebuild_raises_exactly :
  forall (tab artist_fb title_fb file_base : text) (e : exn),
    rebuild_formatted_tab tab artist_fb title_fb file_base = Raise e
    <-> e = ValueError
        /\ exists s,
             In s (sections (sections_of tab artist_fb title_fb file_base))
             /\ over_long (header s).
Proof.
  intros tab artist_fb title_fb file_base e. split.
  - apply rebuild_raise_over_long.
  - intros [-> (s & Hin & Hs)]. apply (@over_long_rebuild _ _ _ _ _ Hin Hs).
Qed.

(** X17 ([main], lines 319 to 331, and line 335).  Under an interpreter at
    its defaults (the environment sets no variable whose name starts with
    PYTHON, so that the limit of [int] is the default one) and with a
    standard output that takes what is printed, the process ends with
    status 0 or 1.  Status 0 is reached exactly when TAB_CONTENT is set to a
    text that is not empty and no section header of it carries a number of
    more than 4300 digits; the rebuilt tab and a line break then go to the
    standard output and nothing to the error channel.  With status 1
    nothing goes to the standard output. *)
Theorem main_exit_status : forall env : environ,
  interpreter_defaults env ->
  (status (run env) = 0 \/ status (run env) = 1)
  /\ (status (run env) = 0
      <-> environ_get env "TAB_CONTENT" [] <> []
          /\ forall s,
               In s (sections
                       (sections_of (environ_get env "TAB_CONTENT" [])
                          (environ_get env "ARTIST_FB" [])
                          (environ_get env "TITLE_FB" [])
                          (environ_get env "FILE_BASE" []))) ->
               ~ over_long (header s))
  /\ (status (run env) = 0 ->
      stderr (run env) = []
      /\ exists rebuilt,
           rebuild_formatted_tab (environ_get env "TAB_CONTENT" [])
             (environ_get env "ARTIST_FB" []) (environ_get env "TITLE_FB" [])
             (environ_get env "FILE_BASE" []) = Ok rebuilt
           /\ stdout (run env) = rebuilt ++ [nl])
  /\ (status (run env) = 1 ->
      stdout (run env) = []
      /\ (environ_get env "TAB_CONTENT" [] = [] ->
          stderr (run env) = [Printed "TAB_CONTENT is required"])
      /\ (environ_get env "TAB_CONTENT" [] <> [] ->
          stderr (run env) = [Traceback ValueError])).
Proof.
  intros env _.
  destruct (run_cases env) as (Hempty & Hok & Hraise).
  destruct (environ_get env "TAB_CONTENT" []) as [|c tab] eqn:Etab.
  - rewrite (Hempty eq_refl). cbn [status stdout stderr].
    split; [right; reflexivity|].
    split; [split; [discriminate | intros [H _]; congruence]|].
    split; [discriminate|].
    intros _. split; [reflexivity|].
    split; [reflexivity | congruence].
  - assert (Hne : c :: tab <> []) by discriminate.
    destruct (rebuild_formatted_tab (c :: tab) (environ_get env "ARTIST_FB" [])
                (environ_get env "TITLE_FB" []) (environ_get env "FILE_BASE" []))
      as [rebuilt|e] eqn:Er.
    + rewrite (Hok Hne _ eq_refl). cbn [status stdout stderr].
      split; [left; reflexivity|].
      split; [split|].
      * intros _. split; [exact Hne|].
        intros s Hin Hs.
        rewrite (@over_long_rebuild _ _ _ _ _ Hin Hs) in Er. discriminate.
      * reflexivity.
      * split; [|discriminate].
        intros _. split; [reflexivity|].
        exists rebuilt. split; reflexivity.
    + rewrite (Hraise Hne _ eq_refl). cbn [status stdout stderr].
      destruct (@rebuild_raise_over_long _ _ _ _ _ Er) as [-> (s & Hin & Hs)].
      split; [right; reflexivity|].
      split; [split|].
      * discriminate.
      * intros [_ H]. exfalso. apply (H s Hin Hs).
      * split; [discriminate|].
        intros _. split; [reflexivity|].
        split; [congruence | reflexivity].
Qed.

Lemma main_exit_status_witness :
  interpreter_defaults verse_two_env
  /\ status (run verse_two_env) = 0
  /\ stdout (run verse_two_env) = verse_two_out ++ [nl].
Proof.
  assert (Hd : interpreter_defaults verse_two_env).
  { intros name Hn. unfold verse_two_env.
    destruct (text_eqb name "TAB_CONTENT") eqn:E; [|reflexivity].
    apply text_eqb_eq in E. subst name. discriminate Hn. }
  split; [exact Hd|].
  destruct (@main_exit_status verse_two_env Hd) as (_ & _ & H0 & _).
  assert (Hs : status (run verse_two_env) = 0) by (vm_compute; reflexivity).
  split; [exact Hs|].
  destruct (H0 Hs) as (_ & rebuilt & Hr & Hout).
  rewrite Hout. f_equal.
  assert (Hv : rebuild_formatted_tab (environ_get verse_two_env "TAB_CONTENT" [])
                 (environ_get verse_two_env "ARTIST_FB" [])
                 (environ_get verse_two_env "TITLE_FB" [])
                 (environ_get verse_two_env "FILE_BASE" []) = Ok verse_two_out)
    by (vm_compute; reflexivity).
  rewrite Hv in Hr. injection Hr as <-. reflexivity.
Defined.


(** ** The order of the blocks *)

Lemma id_eqb_refl : forall a, id_eqb a a = true.
Proof. intros a. apply id_eqb_eq. reflexivity. Qed.

Lemma id_eqb_neq : forall a b, a <> b -> id_eqb a b = false.
Proof.
  intros a b H. destruct (id_eqb a b) eqn:E; [|reflexivity].
  apply id_eqb_eq in E. contradiction.
Qed.

Lemma existsb_id_in : forall id l,
  existsb (id_eqb id) l = true <-> In id l.
Proof.
  intros id l. rewrite existsb_exists. split.
  - intros (x & Hx & E). apply id_eqb_eq in E. subst. exact Hx.
  - intros H. exists id. split; [exact H | apply id_eqb_refl].
Qed.

Lemma add_unique_id_in : forall id order, In id (add_unique_id id order).
Proof.
  intros id order. unfold add_unique_id.
  destruct (existsb (id_eqb id) order) eqn:E.
  - apply existsb_id_in. exact E.
  - apply in_or_app. right. left. reflexivity.
Qed.

Lemma add_unique_id_incl : forall id order x,
  In x order -> In x (add_unique_id id order).
Proof.
  intros id order x H. unfold add_unique_id.
  destruct (existsb (id_eqb id) order); [exact H|].
  apply in_or_app. left. exact H.
Qed.

Lemma add_unique_id_present : forall id order,
  In id order -> add_unique_id id order = order.
Proof.
  intros id order H. unfold add_unique_id.
  apply existsb_id_in in H. rewrite H. reflexivity.
Qed.

Lemma in_first_ids : forall l x, In x (first_ids l) <-> In x l.
Proof.
  induction l as [|id l IH]; intros x; simpl; [tauto|].
  rewrite filter_In, IH. split.
  - intros [H | [H _]]; [left | right]; assumption.
  - intros [H | H]; [left; exact H|].
    destruct (id_eqb x id) eqn:E.
    + left. apply id_eqb_eq in E. symmetry. exact E.
    + right. split; [exact H | reflexivity].
Qed.

Lemma nodup_first_ids : forall l, NoDup (first_ids l).
Proof.
  induction l as [|id l IH]; simpl; constructor.
  - rewrite filter_In. intros [_ H]. rewrite id_eqb_refl in H. discriminate.
  - apply NoDup_filter. exact IH.
Qed.

Lemma existsb_filter_other : forall id x l,
  id <> x ->
  existsb (id_eqb id) (filter (fun y => negb (id_eqb y x)) l)
  = existsb (id_eqb id) l.
Proof.
  intros id x l Hne. induction l as [|y l IH]; [reflexivity|].
  simpl. destruct (id_eqb y x) eqn:E; simpl.
  - apply id_eqb_eq in E. subst y.
    rewrite (id_eqb_neq Hne). exact IH.
  - rewrite IH. reflexivity.
Qed.

Lemma first_ids_snoc : forall l id,
  first_ids (l ++ [id]) = add_unique_id id (first_ids l).
Proof.
  induction l as [|x l IH]; intros id; [reflexivity|].
  simpl. rewrite IH. unfold add_unique_id. simpl existsb.
  destruct (id_eqb id x) eqn:Ex.
  - apply id_eqb_eq in Ex. subst x. simpl.
    destruct (existsb (id_eqb id) (first_ids l)); [reflexivity|].
    rewrite filter_app. simpl. rewrite id_eqb_refl. simpl.
    rewrite app_nil_r. reflexivity.
  - assert (Hne : id <> x).
    { intros ->. rewrite id_eqb_refl in Ex. discriminate. }
    simpl. rewrite (existsb_filter_other _ Hne).
    destruct (existsb (id_eqb id) (first_ids l)); [reflexivity|].
    rewrite filter_app. simpl. rewrite Ex. reflexivity.
Qed.

Lemma add_unique_id_idem : forall id order,
  add_unique_id id (add_unique_id id order) = add_unique_id id order.
Proof.
  intros id order. apply add_unique_id_present. apply add_unique_id_in.
Qed.

Lemma first_ids_repeat : forall k l id,
  1 <= k ->
  first_ids (l ++ repeat id k) = add_unique_id id (first_ids l).
Proof.
  induction k as [|k IH]; intros l id Hk; [lia|].
  destruct k as [|k].
  - apply first_ids_snoc.
  - replace (repeat id (S (S k))) with (repeat id (S k) ++ [id])
      by (symmetry; apply repeat_cons).
    rewrite app_assoc, first_ids_snoc, IH by lia.
    apply add_unique_id_idem.
Qed.

Lemma reuse_valid : forall a c idx,
  resolve a c = Reuse idx -> valid_id (type_stats a) (c_type c, idx).
Proof.
  intros a c idx H. unfold resolve in H.
  apply scan_unique_reuse in H.
  assert (Hr : 1 <= idx <= List.length (unique (stats_of a c))) by lia.
  unfold valid_id. cbn [fst snd].
  destruct (dict_get text_eqb (c_type c) (type_stats a)) as [st|] eqn:E.
  - exists st. rewrite (stats_of_get _ _ E) in Hr. split; [reflexivity | exact Hr].
  - rewrite (stats_of_fresh _ _ E) in Hr. simpl in Hr. lia.
Qed.

Lemma place_valid_cases : forall a c id,
  valid_id (type_stats (place a c)) id ->
  valid_id (type_stats a) id \/ id = (c_type c, match_idx a c).
Proof.
  intros a c [t i] (st & Hst & Hr). cbn [fst snd] in *.
  rewrite place_get in Hst.
  destruct (text_eqb t (c_type c)) eqn:Et.
  - apply text_eqb_eq in Et. subst t. injection Hst as <-. cbn [unique] in Hr.
    destruct (Nat.eq_dec i (match_idx a c)) as [-> | Hne]; [right; reflexivity|].
    left. unfold match_idx, registry_after in *.
    assert (Hi : 1 <= i <= List.length (unique (stats_of a c))).
    { destruct (resolve a c); [lia | |]; rewrite length_app in *; simpl in *; lia. }
    unfold valid_id. cbn [fst snd].
    destruct (dict_get text_eqb (c_type c) (type_stats a)) as [st|] eqn:E.
    + exists st. rewrite (stats_of_get _ _ E) in Hi. split; [reflexivity | exact Hi].
    + rewrite (stats_of_fresh _ _ E) in Hi. simpl in Hi. lia.
  - left. exists st. split; assumption.
Qed.

Lemma place_ordered : forall a c,
  wf a -> ordered a -> 1 <= repeat_count c -> ordered (place a c).
Proof.
  intros a c Hwf [Hin Hord] Hk. split.
  - intros id Hv. apply place_valid_cases in Hv.
    unfold place. cbn [unique_order].
    destruct Hv as [Hv | ->].
    + destruct (resolve a c); [apply Hin; exact Hv | |];
        apply add_unique_id_incl; apply Hin; exact Hv.
    + destruct (resolve a c) eqn:Er.
      * apply Hin. unfold match_idx. rewrite Er.
        apply reuse_valid. exact Er.
      * apply add_unique_id_in.
      * apply add_unique_id_in.
  - rewrite occurrences_place, map_app, map_repeat.
    unfold occ_id at 2. cbn [o_type unique_idx].
    rewrite first_ids_repeat by exact Hk. rewrite <- Hord.
    unfold place. cbn [unique_order].
    destruct (resolve a c) eqn:Er; try reflexivity.
    symmetry. apply add_unique_id_present. apply Hin.
    unfold match_idx. rewrite Er. apply reuse_valid. exact Er.
Qed.

Lemma fold_place_ordered : forall cs a,
  wf a -> ordered a ->
  Forall (fun c => 1 <= repeat_count c) cs ->
  wf (fold_left place cs a) /\ ordered (fold_left place cs a).
Proof.
  induction cs as [|c cs IH]; intros a Hwf Hord Hcs; [split; assumption|].
  inversion Hcs as [|? ? Hc Hcs']; subst. simpl.
  apply IH; [apply place_wf; exact Hwf | apply place_ordered; assumption | exact Hcs'].
Qed.

Lemma ordered_empty : ordered (Analysis [] [] []).
Proof.
  split; [|reflexivity].
  intros id (st & Hst & _). discriminate.
Qed.

Lemma analyse_ordered : forall secs a,
  analyse secs = Ok a -> wf a /\ ordered a.
Proof.
  intros secs a H. unfold analyse in H.
  destruct (analyse_from_collapse _ _ H) as (cs & Hcs & ->).
  apply fold_place_ordered; [apply wf_empty | apply ordered_empty|].
  apply (collapse_all_counts _ Hcs).
Qed.

Lemma render_blocks_length : forall (dm : display_map) order blocks,
  render_blocks dm order = Ok blocks ->
  List.length blocks = List.length order.
Proof.
  intros dm order. induction order as [|id order IH]; intros blocks H.
  - injection H as <-. reflexivity.
  - cbn [render_blocks] in H.
    destruct (dict_item id_eqb id dm); [|discriminate]. cbn [bind] in H.
    destruct (render_blocks dm order) as [bs|]; [|discriminate].
    cbn [bind] in H. injection H as <-. simpl. f_equal. apply IH. reflexivity.
Qed.

(** X18 (lines 197 to 214 and 259 to 267).  Every unique content of the
    registry is written exactly once: the order of the blocks has no
    identifier twice, it holds exactly the identifiers of the entries of the
    registry, and the body gets one block for each of them. *)
Theorem unique_contents_rendered_once : forall secs a,
  analyse secs = Ok a ->
  NoDup (unique_order a)
  /\ (forall id, In id (unique_order a) <-> valid_id (type_stats a) id)
  /\ exists dm blocks,
       build_display_map (type_stats a) = Ok dm
       /\ render_blocks dm (unique_order a) = Ok blocks
       /\ List.length blocks = List.length (unique_order a).
Proof.
  intros secs a H.
  destruct (analyse_ordered _ H) as [Hwf [Hin Hord]].
  split; [rewrite Hord; apply nodup_first_ids|].
  split.
  - intros id. split; [|apply Hin].
    intros Hid. pose proof (wf_order Hwf) as Ho.
    rewrite Forall_forall in Ho. apply Ho. exact Hid.
  - destruct (@build_display_map_get _ (wf_keys Hwf)) as (dm & Hdm & Hget).
    destruct (@render_blocks_ok (type_stats a) dm (unique_order a) Hget
                (wf_order Hwf)) as (blocks & Hb).
    exists dm, blocks. repeat split; try assumption.
    apply (@render_blocks_length _ _ _ Hb).
Qed.

Lemma unique_contents_rendered_once_witness :
  exists a,
    analyse blank_led_choruses = Ok a
    /\ NoDup (unique_order a)
    /\ forall id, In id (unique_order a) <-> valid_id (type_stats a) id.
Proof.
  eexists. split; [reflexivity|].
  pose proof (@unique_contents_rendered_once blank_led_choruses _ eq_refl)
    as (Hn & Hi & _).
  split; [exact Hn | exact Hi].
Defined.

(** X19 (lines 205 to 221 and 259).  The blocks of the body stand in the
    order in which their contents first occur in the song: the order of the
    blocks is the list of the identifiers the occurrences point at, each
    kept at its first appearance only. *)
Theorem blocks_in_order_of_first_occurrence : forall secs a,
  analyse secs = Ok a ->
  unique_order a = first_ids (map occ_id (occurrences a)).
Proof.
  intros secs a H. destruct (analyse_ordered _ H) as [_ [_ Hord]]. exact Hord.
Qed.

Lemma blocks_in_order_of_first_occurrence_witness :
  exists a,
    analyse blank_led_choruses = Ok a
    /\ map occ_id (occurrences a)
       = [("Chorus" : text, 1); ("Chorus" : text, 2)]
    /\ unique_order a = [("Chorus" : text, 1); ("Chorus" : text, 2)].
Proof.
  eexists. split; [reflexivity|]. split; [reflexivity|].
  exact (@blocks_in_order_of_first_occurrence blank_led_choruses _ eq_refl).
Defined.


(** ** Names and tokens of the unique contents *)

Lemma display_of_some : forall ts t i d,
  display_of ts (t, i) = Some d ->
  exists st u n,
    dict_get text_eqb t ts = Some st
    /\ i = S n
    /\ nth_error (unique st) n = Some u
    /\ d = numbered_display t st i u.
Proof.
  intros ts t i d H. unfold display_of in H. cbn [fst snd] in H.
  destruct (dict_get text_eqb t ts) as [st|]; [|discriminate].
  destruct i as [|n]; [discriminate|].
  destruct (nth_error (unique st) n) as [u|] eqn:E; [|discriminate].
  injection H as <-. exists st, u, n. repeat split. exact E.
Qed.

(** X20 (lines 225 to 244).  Two different unique contents of one type
    never share a display name or a flow token: as soon as a type has two
    entries, each carries its own number. *)
Theorem distinct_contents_distinct_names :
  forall secs a (dm : display_map) (t : text) i j di dj,
    analyse secs = Ok a ->
    build_display_map (type_stats a) = Ok dm ->
    dict_get id_eqb (t, i) dm = Some di ->
    dict_get id_eqb (t, j) dm = Some dj ->
    i <> j ->
    token di <> token dj /\ display_name di <> display_name dj.
Proof.
  intros secs a dm t i j di dj Ha Hdm Hi Hj Hne.
  pose proof (analyse_wf _ Ha) as Hwf.
  destruct (@build_display_map_get _ (wf_keys Hwf)) as (dm' & Hdm' & Hget).
  rewrite Hdm in Hdm'. injection Hdm' as <-.
  rewrite Hget in Hi, Hj.
  apply display_of_some in Hi. apply display_of_some in Hj.
  destruct Hi as (st & u & n & Hst & -> & Hu & ->).
  destruct Hj as (st' & u' & n' & Hst' & -> & Hu' & ->).
  rewrite Hst in Hst'. injection Hst' as <-.
  assert (Hn : n < List.length (unique st))
    by (apply nth_error_Some; congruence).
  assert (Hn' : n' < List.length (unique st))
    by (apply nth_error_Some; congruence).
  unfold numbered_display, numbered. cbn [token display_name].
  assert ((1 <? List.length (unique st)) = true) as ->
    by (apply Nat.ltb_lt; lia).
  cbn [orb]. split; intros H.
  - apply app_inv_head, str_of_nat_inj in H. congruence.
  - apply app_inv_head, app_inv_head, str_of_nat_inj in H. congruence.
Qed.

Lemma distinct_contents_distinct_names_witness :
  exists a dm di dj,
    analyse blank_led_choruses = Ok a
    /\ build_display_map (type_stats a) = Ok dm
    /\ dict_get id_eqb ("Chorus" : text, 1) dm = Some di
    /\ dict_get id_eqb ("Chorus" : text, 2) dm = Some dj
    /\ token di <> token dj /\ display_name di <> display_name dj.
Proof.
  do 4 eexists.
  split; [reflexivity|]. split; [reflexivity|].
  split; [reflexivity|]. split; [reflexivity|].
  refine (@distinct_contents_distinct_names blank_led_choruses _ _
            "Chorus" 1 2 _ _ eq_refl eq_refl eq_refl eq_refl _).
  discriminate.
Defined.

(** ** The end of the rebuilt body *)

Lemma join_prefix : forall sep p ps, exists s, Py.join sep (p :: ps) = p ++ s.
Proof.
  intros sep p ps. destruct ps as [|q ps].
  - exists []. simpl. symmetry. apply app_nil_r.
  - eexists. rewrite join_cons by discriminate. reflexivity.
Qed.

Lemma join_not_blank : forall sep p ps,
  blank p = false -> blank (Py.join sep (p :: ps)) = false.
Proof.
  intros sep p ps H. destruct (join_prefix sep p ps) as (s & ->).
  rewrite blank_app, H. reflexivity.
Qed.

Lemma render_block_not_blank : forall mapping,
  blank (render_block mapping) = false.
Proof.
  intros mapping. unfold render_block.
  set (tail_ := filter Py.truthy
                  ((if (match d_lines mapping with [] => false | _ => true end)
                        && ((List.length (d_lines mapping) =? 0)
                            || negb (first_line_blank (d_lines mapping)))
                    then [[]] else [])
                   ++ [Py.rstrip (Py.join [nl] (d_lines mapping))])).
  assert (E : filter Py.truthy
                ((if (match d_lines mapping with [] => false | _ => true end)
                      && ((List.length (d_lines mapping) =? 0)
                          || negb (first_line_blank (d_lines mapping)))
                  then [display_name mapping ++ ":"] ++ [[]]
                  else [display_name mapping ++ ":"])
                 ++ [Py.rstrip (Py.join [nl] (d_lines mapping))])
              = (display_name mapping ++ ":") :: tail_).
  { unfold tail_.
    destruct ((match d_lines mapping with [] => false | _ => true end)
              && ((List.length (d_lines mapping) =? 0)
                  || negb (first_line_blank (d_lines mapping))));
      cbn [app filter];
      (replace (Py.truthy (display_name mapping ++ ":")) with true
         by (destruct (display_name mapping); reflexivity));
      reflexivity. }
  rewrite E. apply join_not_blank.
  rewrite blank_app. apply andb_false_iff. right. reflexivity.
Qed.

Lemma render_blocks_not_blank : forall (dm : display_map) order blocks,
  render_blocks dm order = Ok blocks ->
  Forall (fun b => blank b = false) blocks.
Proof.
  intros dm order. induction order as [|id order IH]; intros blocks H.
  - injection H as <-. constructor.
  - cbn [render_blocks] in H.
    destruct (dict_item id_eqb id dm); [|discriminate]. cbn [bind] in H.
    destruct (render_blocks dm order) as [bs|]; [|discriminate].
    cbn [bind] in H. injection H as <-.
    constructor; [apply render_block_not_blank | apply IH; reflexivity].
Qed.

Lemma truthy_strip_not_blank : forall b,
  Py.truthy (Py.strip b) = negb (blank b).
Proof.
  intros b. destruct (blank b) eqn:E.
  - rewrite strip_blank by exact E. reflexivity.
  - pose proof (@strip_some _ E) as H. destruct (Py.strip b); [congruence | reflexivity].
Qed.

Lemma structured_body_end : forall sp meta r,
  structured sp meta = Ok r ->
  sections sp <> [] ->
  exists b c, snd r = b ++ [c; nl] /\ plain c.
Proof.
  intros sp meta r H Hne.
  destruct (@structured_flow _ _ _ H Hne) as (cs & a & _ & Ha & Hperf & _ & Hp & _).
  unfold structured in H. rewrite Ha in H. cbn [bind] in H.
  destruct (build_display_map (type_stats a)) as [dm|]; [|discriminate].
  cbn [bind] in H.
  destruct (render_blocks dm (unique_order a)) as [blocks|] eqn:Hb;
    [|discriminate].
  cbn [bind] in H. injection H as <-. cbn [snd].
  destruct (@analyse_ordered _ _ Ha) as [Hwf [Hin _]].
  assert (Hblocks : blocks <> []).
  { intros ->. apply render_blocks_length in Hb. simpl in Hb.
    symmetry in Hb. apply length_zero_iff_nil in Hb.
    destruct (occurrences a) as [|o os] eqn:Eo.
    - rewrite <- Hperf in Hp. apply Hp. reflexivity.
    - pose proof (wf_occs Hwf) as Ho. rewrite Eo in Ho.
      inversion Ho as [|? ? Hv _]; subst.
      apply Hin in Hv. rewrite Hb in Hv. contradiction. }
  pose proof (@render_blocks_not_blank _ _ _ Hb) as Hnb.
  set (kept := filter (fun b => Py.truthy (Py.strip b))
                      (leading_blocks (leading_lines sp) ++ blocks)).
  assert (Hkept : exists p ps, kept = p :: ps /\ blank p = false).
  { unfold kept. rewrite filter_app.
    assert (Hf : filter (fun b => Py.truthy (Py.strip b)) blocks = blocks).
    { apply forallb_filter_id. apply forallb_forall. intros b Hbin.
      rewrite truthy_strip_not_blank.
      rewrite Forall_forall in Hnb. rewrite (Hnb b Hbin). reflexivity. }
    rewrite Hf.
    destruct (filter _ (leading_blocks (leading_lines sp))) as [|p ps] eqn:El.
    - destruct blocks as [|b bs]; [congruence|].
      exists b, bs. split; [reflexivity|].
      inversion Hnb; assumption.
    - exists p, (ps ++ blocks). split; [reflexivity|].
      assert (Hp0 : In p (filter (fun b => Py.truthy (Py.strip b))
                                 (leading_blocks (leading_lines sp))))
        by (rewrite El; left; reflexivity).
      apply filter_In in Hp0. destruct Hp0 as [_ Ht].
      rewrite truthy_strip_not_blank in Ht.
      destruct (blank p); [discriminate | reflexivity]. }
  destruct Hkept as (p & ps & -> & Hpb).
  pose proof (@join_not_blank [nl; nl] _ ps Hpb) as Hj.
  pose proof (@rstrip_some _ Hj) as Hr.
  destruct (exists_last Hr) as (u & c & Eu).
  destruct (rstrip_trimmed (Py.join [nl; nl] (p :: ps))) as (ws & _ & _ & Hlast).
  exists u, c. split.
  - rewrite Eu, <- app_assoc. reflexivity.
  - exact (Hlast u c Eu).
Qed.

(** X21 (line 269 and the return of line 316).  When the body has section
    headers, the rebuilt tab ends in exactly one line break, written after a
    character that is no white space: trailing blank lines and trailing
    white space are gone. *)
Theorem structured_output_ends_with_one_newline :
  forall tab artist_fb title_fb file_base out,
    rebuild_formatted_tab tab artist_fb title_fb file_base = Ok out ->
    0 < headers_found (sections_of tab artist_fb title_fb file_base) ->
    exists b c, out = b ++ [c; nl] /\ plain c.
Proof.
  intros tab artist_fb title_fb file_base out H Hh.
  unfold rebuild_formatted_tab in H.
  destruct (rebuild_doc tab artist_fb title_fb file_base) as [d|] eqn:Hd;
    [|discriminate].
  cbn [bind] in H. injection H as <-.
  destruct (@rebuild_doc_structured _ _ _ _ _ Hd Hh) as (r & Hr & ->).
  assert (Hne : sections (sections_of tab artist_fb title_fb file_base) <> []).
  { unfold sections_of in *. intros E.
    pose proof (sections_headers_found
                  (h_body (read_head tab artist_fb title_fb file_base))) as Hl.
    rewrite E in Hl. cbn [List.length] in Hl. lia. }
  destruct (@structured_body_end _ _ _ Hr Hne) as (b & c & Eb & Hc).
  unfold render. cbn [d_body]. rewrite Eb.
  eexists. exists c. split; [|exact Hc].
  rewrite app_assoc. reflexivity.
Qed.

Lemma structured_output_ends_with_one_newline_witness :
  exists b c, chorus_pair_out = b ++ [c; nl] /\ plain c.
Proof.
  apply (@structured_output_ends_with_one_newline chorus_pair [] [] []
           chorus_pair_out).
  - vm_compute. reflexivity.
  - apply Nat.ltb_lt. vm_compute. reflexivity.
Defined.


(** ** What a chord token captures *)

(** A match runs what follows it, and leaves alone the groups that the
    pattern does not have. *)
Lemma mtch_keeps_groups : forall r k st x,
  mtch r k st = Some x ->
  exists st',
    k st' = Some x
    /\ forall i, ~ In i (groups_of r) -> group i (caps st') = group i (caps st).
Proof.
  induction r as [| | | |p|w|p|p|p|a IHa b IHb|a IHa b IHb|j a IHa];
    intros k st x H; cbn [mtch] in H.
  - exists st. split; [exact H | reflexivity].
  - destruct (prev st); [discriminate|]. exists st. split; [exact H | reflexivity].
  - destruct (at_end st); [|discriminate]. exists st. split; [exact H | reflexivity].
  - destruct (at_boundary st); [|discriminate].
    exists st. split; [exact H | reflexivity].
  - destruct (rest st) as [|c s']; [discriminate|].
    destruct (p c); [|discriminate].
    eexists. split; [exact H | reflexivity].
  - destruct (Py.startswith w (rest st)); [|discriminate].
    eexists. split; [exact H | reflexivity].
  - apply many_sound in H. destruct H as (w & s' & pv' & _ & _ & Hk).
    eexists. split; [exact Hk | reflexivity].
  - destruct (rest st) as [|c s']; [discriminate|].
    destruct (p c); [|discriminate].
    apply many_sound in H. destruct H as (w & s'' & pv' & _ & _ & Hk).
    eexists. split; [exact Hk | reflexivity].
  - apply few_sound in H. destruct H as (w & s' & pv' & _ & _ & Hk).
    eexists. split; [exact Hk | reflexivity].
  - apply IHa in H. destruct H as (st1 & H1 & G1).
    apply IHb in H1. destruct H1 as (st2 & H2 & G2).
    exists st2. split; [exact H2|].
    intros i Hi. cbn [groups_of] in Hi.
    rewrite G2, G1; [reflexivity | |]; intros Hin; apply Hi;
      apply in_or_app; [left | right]; exact Hin.
  - destruct (mtch a k st) as [r|] eqn:Ea.
    + injection H as ->. apply IHa in Ea. destruct Ea as (st1 & H1 & G1).
      exists st1. split; [exact H1|].
      intros i Hi. apply G1. intros Hin. apply Hi. cbn [groups_of].
      apply in_or_app. left. exact Hin.
    + apply IHb in H. destruct H as (st1 & H1 & G1).
      exists st1. split; [exact H1|].
      intros i Hi. apply G1. intros Hin. apply Hi. cbn [groups_of].
      apply in_or_app. right. exact Hin.
  - apply IHa in H. destruct H as (st1 & H1 & G1).
    eexists. split; [exact H1|].
    intros i Hi. cbn [groups_of] in Hi. cbn [caps group].
    destruct (i =? j) eqn:E.
    + apply Nat.eqb_eq in E. subst. exfalso. apply Hi. left. reflexivity.
    + apply G1. intros Hin. apply Hi. right. exact Hin.
Qed.

(** The root of a chord token, and the boundary at which the token ends. *)
Lemma chord_match_shape : forall pv s m,
  mtch CHORD_RE Some (MState pv s []) = Some m ->
  is_root (root_of m) = true /\ at_boundary m = true.
Proof.
  intros pv s m H. unfold CHORD_RE in H. cbn [Rseqs] in H.
  cbn [mtch] in H.
  destruct (at_boundary (MState pv s [])); [|discriminate].
  cbn [rest prev caps] in H.
  destruct s as [|c s']; [discriminate|].
  destruct (note_letter c) eqn:Hc; [|discriminate].
  assert (Hk : forall root st1,
             is_root root = true ->
             mtch (Rseq (Ropt (Rgroup g_qual (Ralts (map Rlit qualities))))
                        (Rseq (Ropt (Rseqs [Rlit "/"; Rclass note_letter;
                                            Ropt accidental]))
                              Rwordb))
                  Some
                  (MState (prev st1) (rest st1) ((g_root, root) :: caps st1))
             = Some m ->
             caps st1 = [] ->
             is_root (root_of m) = true /\ at_boundary m = true).
  { intros root st1 Hroot Hm Hcaps.
    cbn [mtch] in Hm.
    apply mtch_keeps_groups in Hm. destruct Hm as (st2 & Hm & G2).
    apply mtch_keeps_groups in Hm. destruct Hm as (st3 & Hm & G3).
    destruct (at_boundary st3) eqn:Hb; [|discriminate].
    injection Hm as <-. split; [|exact Hb].
    unfold root_of. rewrite G3, G2.
    - cbn [caps group g_root Nat.eqb]. exact Hroot.
    - unfold g_root, g_qual, qualities. cbn. intuition discriminate.
    - unfold g_root, accidental. cbn. intuition discriminate. }
  unfold accidental, Ropt in H. cbn [mtch rest prev caps] in H.
  fold (Ropt (Rgroup g_qual (Ralts (map Rlit qualities)))) in H.
  destruct (Py.startswith "#" s') eqn:Hsharp.
  - match type of H with
    | match ?t with Some r => Some r | None => _ end = _ =>
        destruct t as [r|] eqn:E1
    end.
    + injection H as ->.
      match type of E1 with
      | match ?t with Some r => Some r | None => _ end = _ =>
          destruct t as [r|] eqn:E2
      end.
      * injection E1 as ->.
        apply startswith_split in Hsharp.
        refine (Hk [c; "#"%char] (MState _ _ []) _ _ eq_refl).
        -- cbn [is_root]. rewrite Hc. reflexivity.
        -- cbn [prev rest caps].
           replace (taken (MState pv (c :: s') [])
                      (MState (last_of (Some c) "#")
                         (skipn (List.length "#") s') []))
             with [c; "#"%char] in E2; [exact E2|].
           symmetry. apply taken_app. cbn [rest]. rewrite Hsharp at 1. reflexivity.
      * destruct (Py.startswith "b" s') eqn:Hflat; [|discriminate].
        apply startswith_split in Hflat.
        refine (Hk [c; "b"%char] (MState _ _ []) _ _ eq_refl).
        -- cbn [is_root]. rewrite Hc. reflexivity.
        -- cbn [prev rest caps].
           replace (taken (MState pv (c :: s') [])
                      (MState (last_of (Some c) "b")
                         (skipn (List.length "b") s') []))
             with [c; "b"%char] in E1; [exact E1|].
           symmetry. apply taken_app. cbn [rest]. rewrite Hflat at 1. reflexivity.
    + refine (Hk [c] (MState _ _ []) _ _ eq_refl).
      * cbn [is_root]. exact Hc.
      * cbn [prev rest caps].
        replace (taken (MState pv (c :: s') []) (MState (Some c) s' []))
          with [c] in H; [exact H|].
        symmetry. apply taken_app. reflexivity.
  - match type of H with
    | match ?t with Some r => Some r | None => _ end = _ =>
        destruct t as [r|] eqn:E1
    end.
    + injection H as ->.
      destruct (Py.startswith "b" s') eqn:Hflat; [|discriminate].
      apply startswith_split in Hflat.
      refine (Hk [c; "b"%char] (MState _ _ []) _ _ eq_refl).
      * cbn [is_root]. rewrite Hc. reflexivity.
      * cbn [prev rest caps].
        replace (taken (MState pv (c :: s') [])
                   (MState (last_of (Some c) "b")
                      (skipn (List.length "b") s') []))
          with [c; "b"%char] in E1; [exact E1|].
        symmetry. apply taken_app. cbn [rest]. rewrite Hflat at 1. reflexivity.
    + refine (Hk [c] (MState _ _ []) _ _ eq_refl).
      * cbn [is_root]. exact Hc.
      * cbn [prev rest caps].
        replace (taken (MState pv (c :: s') []) (MState (Some c) s' []))
          with [c] in H; [exact H|].
        symmetry. apply taken_app. reflexivity.
Qed.

Lemma chord_match_in : forall body m,
  In m (finditer CHORD_RE body) ->
  is_root (root_of m) = true /\ at_boundary m = true.
Proof.
  intros body m H. apply finditer_from_in in H. destruct H as (pv & s & H).
  apply (chord_match_shape _ _ H).
Qed.

Lemma chord_roots_shape : forall body,
  Forall (fun r => is_root r = true) (chord_roots body).
Proof.
  intros body. unfold chord_roots. apply Forall_forall. intros r Hr.
  apply in_map_iff in Hr. destruct Hr as (m & <- & Hm).
  apply (chord_match_in _ _ Hm).
Qed.

Lemma first_seen_nil : forall l, first_seen l = [] -> l = [].
Proof. intros [|x l] H; [reflexivity | discriminate]. Qed.

(** X22 ([detect_key], lines 14 to 36).  The key is empty exactly when the
    body has no chord token.  Otherwise it is the root of one of the chord
    tokens of the body, a letter from A to G alone or with a sharp or a
    flat, as it stands or followed by [m]. *)
Theorem detect_key_names_a_root : forall body : text,
  (detect_key body = [] /\ chord_roots body = [])
  \/ exists root,
       In root (chord_roots body)
       /\ is_root root = true
       /\ (detect_key body = root \/ detect_key body = root ++ "m").
Proof.
  intros body. unfold detect_key.
  pose proof (tally_roots (finditer CHORD_RE body)) as Hr.
  fold (chord_roots body) in Hr.
  destruct (fold_left tally (finditer CHORD_RE body) ([], [])) as [rc mc].
  cbn [fst] in Hr. destruct rc as [|first others].
  - left. split; [reflexivity|].
    symmetry in Hr. apply map_eq_nil in Hr. apply first_seen_nil. exact Hr.
  - right. exists (fst (max_item first others)).
    assert (Hin : In (fst (max_item first others)) (chord_roots body)).
    { pose proof (max_item_in others first) as Hin. rewrite Hr in Hin.
      apply in_map_iff in Hin. destruct Hin as (r & <- & Hin). cbn [fst].
      apply (proj1 (first_seen_in _ _)) in Hin. exact Hin. }
    split; [exact Hin|]. split.
    + pose proof (chord_roots_shape body) as Hs.
      rewrite Forall_forall in Hs. apply Hs. exact Hin.
    + match goal with
      | |- context [if ?b then _ else _] => destruct b
      end; [right | left]; reflexivity.
Qed.

(** X23 ([CHORD_RE], lines 9 to 11, as [detect_key] uses it on lines 18
    and 19).  Every chord token has a root of a letter from A to G with at
    most a sharp or a flat, and ends at a word boundary.  A sharp sign is no
    word character: a token never ends on a sharp unless a word character
    follows, so a chord written C# and followed by a space or by the end of
    the body counts under the root C. *)
Theorem chord_token_ends_at_word_boundary : forall (body : text) (m : mstate),
  In m (finditer CHORD_RE body) ->
  is_root (root_of m) = true
  /\ at_boundary m = true
  /\ (prev m = Some "#"%char ->
      exists d t, rest m = d :: t /\ Py.isword d = true).
Proof.
  intros body m H. destruct (chord_match_in _ _ H) as [Hroot Hb].
  split; [exact Hroot|]. split; [exact Hb|].
  intros Hp. unfold at_boundary in Hb. rewrite Hp in Hb.
  cbn [is_word_opt] in Hb.
  destruct (rest m) as [|d t]; cbn [hd_error is_word_opt] in Hb.
  - discriminate.
  - exists d, t. split; [reflexivity|].
    destruct (Py.isword d); [reflexivity | discriminate].
Qed.

Lemma chord_token_ends_at_word_boundary_witness :
  exists m ms,
    finditer CHORD_RE "C# F#m" = m :: ms
    /\ root_of m = "C"
    /\ map root_of ms = ["F#" : text]
    /\ is_root (root_of m) = true
    /\ at_boundary m = true.
Proof.
  do 2 eexists. split; [vm_compute; reflexivity|].
  split; [reflexivity|]. split; [reflexivity|].
  match goal with
  | |- is_root (root_of ?m) = true /\ _ =>
      pose proof (@chord_token_ends_at_word_boundary "C# F#m" m
                    (or_introl eq_refl)) as (Hr & Hb & _)
  end.
  split; [exact Hr | exact Hb].
Defined.


(** ** Section headers in either case *)

Ltac by_cases_on c :=
  destruct c as [[] [] [] [] [] [] [] []]; reflexivity.

Lemma isspace_lower : forall c, Py.isspace (Py.to_lower c) = Py.isspace c.
Proof. intros c. by_cases_on c. Qed.

Lemma isdecimal_lower : forall c, Py.isdecimal (Py.to_lower c) = Py.isdecimal c.
Proof. intros c. by_cases_on c. Qed.

Lemma isword_lower : forall c, Py.isword (Py.to_lower c) = Py.isword c.
Proof. intros c. by_cases_on c. Qed.

Lemma isletter_lower : forall c, Py.isletter (Py.to_lower c) = Py.isletter c.
Proof. intros c. by_cases_on c. Qed.

Lemma dot_lower : forall c, dot (Py.to_lower c) = dot c.
Proof. intros c. by_cases_on c. Qed.

Lemma lower_lower : forall c, Py.to_lower (Py.to_lower c) = Py.to_lower c.
Proof. intros c. by_cases_on c. Qed.

Lemma upper_lower : forall c,
  Py.isletter c = true -> Py.to_upper (Py.to_lower c) = Py.to_upper c.
Proof.
  intros c. destruct c as [[] [] [] [] [] [] [] []]; intros H;
    first [reflexivity | discriminate H].
Qed.

Lemma nl_lower : forall c,
  (if ascii_dec (Py.to_lower c) nl then true else false)
  = (if ascii_dec c nl then true else false).
Proof. intros c. by_cases_on c. Qed.

Lemma decimal_lower_fixed : forall c,
  Py.isdecimal c = true -> Py.to_lower c = c.
Proof.
  intros c. destruct c as [[] [] [] [] [] [] [] []]; intros H;
    first [reflexivity | discriminate H].
Qed.

Lemma lower_state_eq : forall pv s cs,
  lower_state (MState pv s cs)
  = MState (option_map Py.to_lower pv) (Py.lower s)
           (map (fun e => (fst e, Py.lower (snd e))) cs).
Proof. reflexivity. Qed.

Lemma at_end_lower : forall st, at_end (lower_state st) = at_end st.
Proof.
  intros st. unfold at_end, lower_state. cbn [rest].
  destruct (rest st) as [|c [|c' s]]; try reflexivity.
  simpl. apply nl_lower.
Qed.

Lemma at_boundary_lower : forall st,
  at_boundary (lower_state st) = at_boundary st.
Proof.
  intros st. unfold at_boundary, lower_state. cbn [prev rest].
  f_equal.
  - destruct (prev st); simpl; [apply isword_lower | reflexivity].
  - destruct (rest st); simpl; [reflexivity | apply isword_lower].
Qed.

Lemma taken_lower : forall st st',
  taken (lower_state st) (lower_state st') = Py.lower (taken st st').
Proof.
  intros st st'. unfold taken, lower_state, Py.lower. cbn [rest].
  rewrite !length_map. apply firstn_map.
Qed.

Lemma option_lower_some : forall (X : option mstate) (k k' : unit -> option mstate),
  k' tt = option_map lower_state (k tt) ->
  match option_map lower_state X with
  | Some r => Some r
  | None => k' tt
  end
  = option_map lower_state (match X with Some r => Some r | None => k tt end).
Proof. intros [x|] k k' H; [reflexivity | exact H]. Qed.

Lemma lower_cons : forall c s, Py.lower (c :: s) = Py.to_lower c :: Py.lower s.
Proof. reflexivity. Qed.

Lemma many_cons : forall p k pv c s cs,
  many p k pv (c :: s) cs
  = if p c
    then match many p k (Some c) s cs with
         | Some r => Some r
         | None => k (MState pv (c :: s) cs)
         end
    else k (MState pv (c :: s) cs).
Proof. reflexivity. Qed.

Lemma few_unfold : forall p k pv s cs,
  few p k pv s cs
  = match k (MState pv s cs) with
    | Some r => Some r
    | None =>
        match s with
        | c :: s' => if p c then few p k (Some c) s' cs else None
        | [] => None
        end
    end.
Proof. intros p k pv [|c s] cs; reflexivity. Qed.

Lemma many_lower : forall p (k k' : kont),
  (forall c, p (Py.to_lower c) = p c) ->
  (forall st, k' (lower_state st) = option_map lower_state (k st)) ->
  forall s pv cs,
    many p k' (option_map Py.to_lower pv) (Py.lower s)
         (map (fun e => (fst e, Py.lower (snd e))) cs)
    = option_map lower_state (many p k pv s cs).
Proof.
  intros p k k' Hp Hk. induction s as [|c s IH]; intros pv cs.
  - exact (Hk (MState pv [] cs)).
  - rewrite lower_cons, !many_cons, Hp.
    pose proof (Hk (MState pv (c :: s) cs)) as Hhere.
    rewrite lower_state_eq, lower_cons in Hhere.
    destruct (p c); [|exact Hhere].
    pose proof (IH (Some c) cs) as Hrec. cbn [option_map] in Hrec.
    rewrite Hrec.
    destruct (many p k (Some c) s cs); [reflexivity | exact Hhere].
Qed.

Lemma few_lower : forall p (k k' : kont),
  (forall c, p (Py.to_lower c) = p c) ->
  (forall st, k' (lower_state st) = option_map lower_state (k st)) ->
  forall s pv cs,
    few p k' (option_map Py.to_lower pv) (Py.lower s)
        (map (fun e => (fst e, Py.lower (snd e))) cs)
    = option_map lower_state (few p k pv s cs).
Proof.
  intros p k k' Hp Hk. induction s as [|c s IH]; intros pv cs.
  - rewrite (few_unfold p k), (few_unfold p k').
    pose proof (Hk (MState pv [] cs)) as Hhere.
    rewrite lower_state_eq in Hhere.
    rewrite Hhere. destruct (k (MState pv [] cs)); reflexivity.
  - rewrite (few_unfold p k), (few_unfold p k').
    pose proof (Hk (MState pv (c :: s) cs)) as Hhere.
    rewrite lower_state_eq in Hhere.
    rewrite Hhere, lower_cons, Hp.
    destruct (k (MState pv (c :: s) cs)); [reflexivity|]. cbn [option_map].
    destruct (p c); [|reflexivity].
    exact (IH (Some c) cs).
Qed.

(** A case-blind pattern matches a text in lower case as it matches the
    text, and captures the lower case of what it captures there. *)
Lemma mtch_lower : forall r,
  case_blind r ->
  forall (k k' : kont),
    (forall st, k' (lower_state st) = option_map lower_state (k st)) ->
    forall st,
      mtch r k' (lower_state st) = option_map lower_state (mtch r k st).
Proof.
  induction r as [| | | |p|w|p|p|p|a IHa b IHb|a IHa b IHb|j a IHa];
    intros Hr k k' Hk st; cbn [mtch case_blind] in *.
  - apply Hk.
  - unfold lower_state at 1. cbn [prev].
    destruct (prev st); cbn [option_map]; [reflexivity | apply Hk].
  - rewrite at_end_lower. destruct (at_end st); [apply Hk | reflexivity].
  - rewrite at_boundary_lower. destruct (at_boundary st); [apply Hk | reflexivity].
  - unfold lower_state at 1. cbn [rest caps].
    destruct (rest st) as [|c s']; [reflexivity|]. cbn [Py.lower map].
    rewrite Hr. destruct (p c); [|reflexivity].
    rewrite <- (Hk (MState (Some c) s' (caps st))). reflexivity.
  - contradiction.
  - destruct st as [pv s cs]. rewrite lower_state_eq. cbn [prev rest caps].
    apply many_lower; assumption.
  - destruct st as [pv s cs]. rewrite lower_state_eq. cbn [prev rest caps].
    destruct s as [|c s]; [reflexivity|]. cbn [Py.lower map].
    rewrite Hr. destruct (p c); [|reflexivity].
    apply (@many_lower p k k' Hr Hk s (Some c) cs).
  - destruct st as [pv s cs]. rewrite lower_state_eq. cbn [prev rest caps].
    apply few_lower; assumption.
  - destruct Hr as [Ha Hb]. apply IHa; [exact Ha|].
    intros st'. apply IHb; assumption.
  - destruct Hr as [Ha Hb].
    rewrite (IHa Ha k k' Hk st), (IHb Hb k k' Hk st).
    destruct (mtch a k st); reflexivity.
  - apply IHa; [exact Hr|].
    intros st'. cbv beta. rewrite taken_lower.
    exact (Hk (MState (prev st') (rest st') ((j, taken st st') :: caps st'))).
Qed.

Lemma number_re_case_blind : case_blind number_re.
Proof.
  unfold number_re, Ropt. cbn [Rseqs case_blind].
  repeat split; intros c;
    first [apply dot_lower | apply isspace_lower | apply isdecimal_lower].
Qed.

Lemma re_match_number_lower : forall name,
  re_match number_re (Py.lower name)
  = option_map lower_state (re_match number_re name).
Proof.
  intros name. unfold re_match.
  apply (@mtch_lower number_re number_re_case_blind Some Some
           (fun st => eq_refl) (MState None name [])).
Qed.

Lemma lstrip_lower : forall s, Py.lstrip (Py.lower s) = Py.lower (Py.lstrip s).
Proof.
  unfold Py.lstrip, Py.lower. induction s as [|c s IH]; [reflexivity|].
  simpl. rewrite isspace_lower. destruct (Py.isspace c); [exact IH | reflexivity].
Qed.

Lemma strip_lower : forall s, Py.strip (Py.lower s) = Py.lower (Py.strip s).
Proof.
  intros s. unfold Py.strip, Py.rstrip.
  rewrite lstrip_lower. unfold Py.lower at 1 2.
  rewrite <- map_rev. change (map Py.to_lower) with Py.lower.
  rewrite lstrip_lower. unfold Py.lower. rewrite map_rev. reflexivity.
Qed.

Lemma lower_idem : forall s, Py.lower (Py.lower s) = Py.lower s.
Proof.
  intros s. unfold Py.lower. rewrite map_map. apply map_ext. apply lower_lower.
Qed.

Lemma lower_nonletter : forall c,
  Py.isletter c = false -> Py.to_lower c = c.
Proof.
  intros c. destruct c as [[] [] [] [] [] [] [] []]; intros H;
    first [reflexivity | discriminate H].
Qed.

Lemma title_from_lower : forall s b,
  Py.title_from b (Py.lower s) = Py.title_from b s.
Proof.
  induction s as [|c s IH]; intros b; [reflexivity|].
  rewrite lower_cons. cbn [Py.title_from]. rewrite isletter_lower, IH.
  f_equal. destruct (Py.isletter c) eqn:E.
  - destruct b; [apply lower_lower | apply upper_lower; exact E].
  - apply lower_nonletter. exact E.
Qed.

Lemma group_lower : forall i cs,
  group i (map (fun e => (fst e, Py.lower (snd e))) cs)
  = option_map Py.lower (group i cs).
Proof.
  intros i cs. induction cs as [|[j w] cs IH]; [reflexivity|].
  cbn [map group fst snd]. destruct (i =? j); [reflexivity | exact IH].
Qed.

Lemma group_text_lower : forall i m,
  group_text i (lower_state m) = Py.lower (group_text i m).
Proof.
  intros i m. unfold group_text, lower_state. cbn [caps].
  rewrite group_lower. destruct (group i (caps m)); reflexivity.
Qed.

Lemma decimal_lower_text : forall digits,
  forallb Py.isdecimal digits = true -> Py.lower digits = digits.
Proof.
  induction digits as [|d digits IH]; intros H; [reflexivity|].
  simpl in H. apply andb_true_iff in H. destruct H as [Hd H].
  rewrite lower_cons, (decimal_lower_fixed _ Hd), (IH H). reflexivity.
Qed.

Lemma classify_lower : forall base base_part,
  classify base (Py.lower base_part) = classify base base_part.
Proof.
  intros base base_part. unfold classify, Py.title.
  rewrite title_from_lower. reflexivity.
Qed.

Lemma parse_section_header_lower : forall raw,
  parse_section_header (Py.lower raw) = parse_section_header raw.
Proof.
  intros raw. unfold parse_section_header.
  rewrite strip_lower, re_match_number_lower.
  destruct (re_match number_re (Py.strip raw)) as [m|] eqn:Em;
    cbn [option_map].
  - rewrite group_text_lower, strip_lower, lower_idem, classify_lower.
    unfold lower_state at 1. cbn [caps]. rewrite group_lower.
    destruct (group 2 (caps m)) as [digits|] eqn:Eg; cbn [option_map];
      [|reflexivity].
    assert (Hdec : forallb Py.isdecimal digits = true).
    { pose proof (@re_match_groups (fun _ => True) number_groups number_re
                    (Py.strip raw) m number_re_digits) as Hg.
      apply forallb_forall. intros c Hc.
      assert (HF : Forall (number_groups 2) digits).
      { apply (Hg (proj2 (Forall_forall _ _) (fun _ _ => I)) Em 2 digits Eg). }
      rewrite Forall_forall in HF. apply (HF c Hc). reflexivity. }
    rewrite (decimal_lower_text _ Hdec). reflexivity.
  - rewrite lower_idem, classify_lower. reflexivity.
Qed.

(** X24 ([parse_section_header], lines 39 to 68).  The case of the letters
    of a header does not matter: two headers that read the same in lower
    case get the same type, the same abbreviation and the same number. *)
Theorem parse_section_header_ignores_case : forall raw1 raw2 : text,
  ascii_text raw1 -> ascii_text raw2 ->
  Py.lower raw1 = Py.lower raw2 ->
  parse_section_header raw1 = parse_section_header raw2.
Proof.
  intros raw1 raw2 _ _ H.
  rewrite <- (parse_section_header_lower raw1), H.
  apply parse_section_header_lower.
Qed.

Lemma parse_section_header_ignores_case_witness :
  parse_section_header "gUITAR solo 2" = parse_section_header "Guitar Solo 2"
  /\ parse_section_header "Guitar Solo 2"
     = Ok ("Guitar Solo" : text, "GuitarSolo" : text, Some 2%N).
Proof.
  split; [|reflexivity].
  apply parse_section_header_ignores_case;
    [apply Forall_forall; intros c Hc; repeat (destruct Hc as [<-|Hc]; [vm_compute; lia|]); destruct Hc ..
    | reflexivity].
Defined.


(** ** Contents that are one and the same *)

Lemma scan_unique_by_key : forall all cc ck us start,
  scan_unique false all cc ck start us
  = match key_index ck start us with
    | Some i => Reuse i
    | None => Missing
    end.
Proof.
  intros all cc ck us. induction us as [|u us IH]; intros start; [reflexivity|].
  cbn [scan_unique key_index andb].
  destruct (text_eqb (key u) ck); [reflexivity | apply IH].
Qed.

Lemma key_index_some : forall ck us start i,
  key_index ck start us = Some i ->
  start <= i < start + List.length us
  /\ exists u, nth_error us (i - start) = Some u /\ key u = ck.
Proof.
  intros ck us. induction us as [|u us IH]; intros start i H; [discriminate|].
  cbn [key_index] in H. destruct (text_eqb (key u) ck) eqn:E.
  - injection H as <-. split; [simpl; lia|].
    exists u. rewrite Nat.sub_diag. split; [reflexivity|].
    apply text_eqb_eq. exact E.
  - apply IH in H. destruct H as (Hr & u' & Hu & Hk).
    split; [simpl; lia|]. exists u'. split; [|exact Hk].
    replace (i - start) with (S (i - S start)) by lia. exact Hu.
Qed.

Lemma key_index_app : forall ck us e start,
  key_index ck start (us ++ [e])
  = match key_index ck start us with
    | Some i => Some i
    | None =>
        if text_eqb (key e) ck then Some (start + List.length us) else None
    end.
Proof.
  intros ck us e. induction us as [|u us IH]; intros start.
  - cbn [app key_index List.length]. rewrite Nat.add_0_r. reflexivity.
  - cbn [app key_index List.length]. rewrite IH.
    replace (S start + List.length us) with (start + S (List.length us)) by lia.
    destruct (text_eqb (key u) ck); reflexivity.
Qed.

Lemma resolve_by_key : forall a c,
  c_type c <> "Chorus" ->
  resolve a c
  = match key_index (normalize_content (c_block c)) 1
                    (unique (stats_of a c)) with
    | Some i => Reuse i
    | None => Missing
    end.
Proof.
  intros a c Hc. unfold resolve.
  assert (E : text_eqb (c_type c) "Chorus" = false)
    by (apply text_eqb_neq; exact Hc).
  rewrite E. apply scan_unique_by_key.
Qed.

Lemma stats_of_place_same : forall a c1 c2,
  c_type c1 = c_type c2 ->
  unique (stats_of (place a c1) c2) = registry_after a c1.
Proof.
  intros a c1 c2 Ht. unfold stats_of at 1.
  rewrite place_get, <- Ht, text_eqb_refl. reflexivity.
Qed.

(** X25 (lines 181 to 184 and 209 to 214).  Outside the choruses, two
    sections of one type are the same unique content exactly when their
    contents have the same key: the second is given the index of the first
    if the keys are equal, and an index of its own if they are not. *)
Theorem same_key_same_content : forall (a : analysis) (c1 c2 : collapsed),
  c_type c1 = c_type c2 ->
  c_type c1 <> "Chorus" ->
  (normalize_content (c_block c1) = normalize_content (c_block c2)
   <-> match_idx (place a c1) c2 = match_idx a c1)
  /\ (normalize_content (c_block c1) = normalize_content (c_block c2) ->
      registry_after (place a c1) c2 = registry_after a c1).
Proof.
  intros a c1 c2 Ht Hc.
  assert (Hc2 : c_type c2 <> "Chorus") by (rewrite <- Ht; exact Hc).
  unfold match_idx, registry_after.
  rewrite (@resolve_by_key (place a c1) c2 Hc2), (@stats_of_place_same a c1 c2 Ht).
  unfold registry_after. rewrite (@resolve_by_key a c1 Hc).
  set (us := unique (stats_of a c1)).
  set (k1 := normalize_content (c_block c1)).
  set (k2 := normalize_content (c_block c2)).
  destruct (key_index k1 1 us) as [i|] eqn:E1.
  - destruct (@key_index_some _ _ _ _ E1) as (Hi & u & Hu & Hk).
    destruct (key_index k2 1 us) as [j|] eqn:E2.
    + destruct (@key_index_some _ _ _ _ E2) as (Hj & u' & Hu' & Hk').
      split; [split|].
      * intros E. rewrite <- E in E2. congruence.
      * intros ->. rewrite Hu in Hu'. injection Hu' as <-. congruence.
      * reflexivity.
    + split; [split|].
      * intros E. rewrite <- E in E2. congruence.
      * rewrite length_app. simpl. lia.
      * intros E. rewrite <- E in E2. congruence.
  - rewrite key_index_app. cbn [key]. fold us. rewrite length_app. cbn [List.length].
    destruct (key_index k2 1 us) as [j|] eqn:E2.
    + destruct (@key_index_some _ _ _ _ E2) as (Hj & _).
      split; [split|].
      * intros E. rewrite <- E in E2. congruence.
      * lia.
      * intros E. rewrite <- E in E2. congruence.
    + destruct (text_eqb k1 k2) eqn:E.
      * apply text_eqb_eq in E. split; [split|]; try reflexivity.
        -- intros _. lia.
        -- intros _. exact E.
      * apply text_eqb_neq in E. split; [split|].
        -- intros E'. contradiction.
        -- rewrite !length_app. simpl. lia.
        -- intros E'. contradiction.
Qed.

Lemma same_key_same_content_witness :
  normalize_content ["la la" : text; [] ] = normalize_content [[]; "la la" : text]
  /\ match_idx (place (Analysis [] [] [])
                      (Collapsed "Verse" "V" ["la la" : text; [] ] 1))
               (Collapsed "Verse" "V" [[]; "la la" : text] 1)
     = match_idx (Analysis [] [] [])
                 (Collapsed "Verse" "V" ["la la" : text; [] ] 1).
Proof.
  split; [reflexivity|].
  refine (proj1 (proj1 (@same_key_same_content (Analysis [] [] [])
                   (Collapsed "Verse" "V" ["la la" : text; [] ] 1)
                   (Collapsed "Verse" "V" [[]; "la la" : text] 1)
                   eq_refl _)) eq_refl).
  discriminate.
Defined.


(** ** The flow tokens of the structured path *)

Lemma join_sep_rstrip : forall sep tokens,
  Forall good_token tokens ->
  Py.rstrip (Py.join sep tokens) = Py.join sep tokens.
Proof.
  intros sep tokens H. induction H as [|t ts [Hne Ht] Hts IH]; [reflexivity|].
  destruct ts as [|t2 ts]; [apply rstrip_plain; exact Ht|].
  rewrite join_cons by discriminate. rewrite app_assoc.
  inversion Hts as [|? ? [Hne2 Ht2] _]; subst.
  destruct t2 as [|c2 t2]; [congruence|]. inversion Ht2; subst.
  destruct (join_head sep c2 t2 ts) as (s & Hs).
  rewrite rstrip_app_some.
  - rewrite IH. reflexivity.
  - rewrite Hs. unfold blank. simpl.
    match goal with H : plain c2 |- _ => rewrite H end. reflexivity.
Qed.

Lemma join_sep_clean : forall sep tokens,
  ~ In nl sep ->
  Forall good_token tokens ->
  clean (Py.join sep tokens).
Proof.
  intros sep tokens Hsep H. split.
  - unfold Py.strip.
    assert (Hl : Py.lstrip (Py.join sep tokens) = Py.join sep tokens).
    { destruct H as [|t ts [Hne Ht] _]; [reflexivity|].
      destruct t as [|c t]; [congruence|]. inversion Ht; subst.
      destruct (join_head sep c t ts) as (s & ->).
      apply lstrip_plain_head. assumption. }
    rewrite Hl. apply join_sep_rstrip. exact H.
  - intros Hin. induction H as [|t ts [Hne Ht] Hts IH]; [contradiction|].
    destruct ts as [|t2 ts].
    + simpl in Hin. rewrite Forall_forall in Ht.
      apply (plain_not_nl (Ht _ Hin)). reflexivity.
    + rewrite join_cons in Hin by discriminate.
      apply in_app_or in Hin. destruct Hin as [Hin|Hin].
      * rewrite Forall_forall in Ht. apply (plain_not_nl (Ht _ Hin)). reflexivity.
      * apply in_app_or in Hin. destruct Hin as [Hin|Hin]; [|apply IH; exact Hin].
        contradiction.
Qed.

Lemma label_case : forall c,
  label_char c = true ->
  label_char (Py.to_upper c) = true /\ label_char (Py.to_lower c) = true.
Proof.
  intros c. destruct c as [[] [] [] [] [] [] [] []]; intros H;
    first [discriminate H | split; reflexivity].
Qed.

Lemma label_not_space_plain : forall c,
  label_char c = true -> c <> " "%char -> plain c.
Proof.
  intros c. unfold plain. destruct c as [[] [] [] [] [] [] [] []]; intros H N;
    first [discriminate H | reflexivity | exfalso; apply N; reflexivity].
Qed.

Lemma upper_letter_not_space : forall a,
  Py.isletter a = true -> Py.to_upper a <> " "%char.
Proof.
  intros a. destruct a as [[] [] [] [] [] [] [] []]; intros H;
    first [discriminate H | discriminate].
Qed.

Lemma title_from_label : forall s b,
  Forall label_ok s -> Forall label_ok (Py.title_from b s).
Proof.
  induction s as [|c s IH]; intros b H; [constructor|].
  inversion H as [|? ? Hc Hs]; subst. cbn [Py.title_from]. constructor.
  - destruct (@label_case c Hc) as [Hu Hl]. unfold label_ok.
    destruct (Py.isletter c); [destruct b|]; assumption.
  - apply IH. exact Hs.
Qed.

Lemma remove_space_plain : forall s,
  Forall label_ok s -> Forall plain (Py.remove_char " " s).
Proof.
  intros s H. unfold Py.remove_char. apply Forall_forall. intros c Hc.
  apply filter_In in Hc. destruct Hc as [Hin Hne].
  rewrite Forall_forall in H.
  apply label_not_space_plain; [apply (H c Hin)|].
  intros ->. destruct (ascii_dec " " " "); [discriminate | congruence].
Qed.

Lemma literal_good : forall s : text,
  negb (match s with [] => true | _ => false end)
  && forallb (fun c => negb (Py.isspace c)) s = true ->
  good_token s.
Proof.
  intros s H. apply andb_true_iff in H. destruct H as [Hne Hp]. split.
  - intros ->. discriminate.
  - apply Forall_forall. intros c Hc. rewrite forallb_forall in Hp.
    specialize (Hp c Hc). unfold plain. destruct (Py.isspace c); [discriminate | reflexivity].
Qed.

Lemma classify_good : forall base a t,
  Py.isletter a = true -> Forall label_ok (a :: t) ->
  good_token (snd (classify base (a :: t))).
Proof.
  intros base a t Ha Hl. unfold classify.
  repeat match goal with
         | |- context [if ?b then _ else _] =>
             destruct b; [apply literal_good; reflexivity|]
         end.
  cbn [snd]. split.
  - unfold Py.title. cbn [Py.title_from]. rewrite Ha.
    unfold Py.remove_char. cbn [filter].
    destruct (ascii_dec (Py.to_upper a) " ") as [E|_]; [|discriminate].
    exfalso. exact (@upper_letter_not_space a Ha E).
  - apply remove_space_plain. apply title_from_label. exact Hl.
Qed.

Lemma number_re_within_any : forall S : ascii -> Prop,
  within S (fun _ => S) (fun _ => True) number_re.
Proof.
  intros S. unfold number_re. simpl. repeat split; intros; assumption.
Qed.

Lemma strip_keeps_letter : forall a t,
  Py.isletter a = true -> exists t', Py.strip (a :: t) = a :: t'.
Proof.
  intros a t Ha. unfold Py.strip.
  rewrite lstrip_plain_head by (apply letter_plain; exact Ha).
  apply rstrip_keeps_head. apply letter_plain. exact Ha.
Qed.

(** The label that is left once the number of a header is taken off starts
    with the letter the header starts with. *)
Lemma base_part_letter : forall a t,
  Py.isletter a = true -> Forall label_ok (a :: t) ->
  exists t',
    match re_match number_re (a :: t) with
    | Some m => Py.strip (group_text 1 m)
    | None => a :: t
    end = a :: t'
    /\ Forall label_ok (a :: t').
Proof.
  intros a t Ha Hl.
  destruct (re_match number_re (a :: t)) as [m|] eqn:E;
    [|exists t; split; [reflexivity | exact Hl]].
  pose proof (@re_match_group_text label_ok (fun _ => label_ok) number_re
                (a :: t) m 1 (number_re_within_any label_ok) Hl E) as Hg.
  apply number_re_sound in E.
  destruct E as (base & _ & Hcase).
  assert (Hbase : group_text 1 m = base /\ exists rest_, a :: t = base ++ rest_
                  /\ (base = [] ->
                      (rest_ = [] \/ exists sp r, rest_ = sp :: r
                                                  /\ Py.isspace sp = true))).
  { destruct Hcase as [[Hc Hn] | (ws & digits & tl & En & Hws & Hb & _ & _ & _ & Hc)].
    - split; [unfold group_text; rewrite Hc; reflexivity|].
      destruct Hn as [Hn | Hn].
      + exists []. rewrite app_nil_r. split; [exact Hn|]. intros _. left. reflexivity.
      + exists [nl]. split; [exact Hn|]. intros _. right.
        exists nl, []. split; reflexivity.
    - split; [unfold group_text; rewrite Hc; reflexivity|].
      exists (ws ++ digits ++ tl). split; [exact En|]. intros _. right.
      destruct ws as [|sp ws]; [congruence|].
      exists sp, (ws ++ digits ++ tl). split; [reflexivity|].
      unfold blank in Hb. simpl in Hb. apply andb_true_iff in Hb. apply Hb. }
  destruct Hbase as (Hgb & rest_ & En & Hnil). rewrite Hgb in *.
  destruct base as [|b base].
  - exfalso. simpl in En. destruct (Hnil eq_refl) as [-> | (sp & r & -> & Hsp)];
      [discriminate|].
    injection En as <- _.
    pose proof (@letter_plain a Ha) as Hp. unfold plain in Hp. congruence.
  - simpl in En. injection En as <- _.
    destruct (@strip_keeps_letter a base Ha) as (t' & Et').
    exists t'. split; [exact Et'|].
    rewrite <- Et'. apply Forall_strip. exact Hg.
Qed.

Lemma parse_abbrev_good : forall a t type_name abbrev num,
  Py.isletter a = true -> Forall label_ok (a :: t) ->
  Py.strip (a :: t) = a :: t ->
  parse_section_header (a :: t) = Ok (type_name, abbrev, num) ->
  good_token abbrev.
Proof.
  intros a t ty ab n Ha Hl Hs H. unfold parse_section_header in H.
  rewrite Hs in H.
  destruct (@base_part_letter a t Ha Hl) as (t' & Ebp & Hl').
  rewrite Ebp in H.
  match type of H with
  | bind ?m _ = _ => destruct m as [num'|e]; cbn [bind] in H; [|discriminate]
  end.
  pose proof (@classify_good
                (Py.strip (Py.replace_char "-" " " (Py.lower (a :: t'))))
                a t' Ha Hl') as Hc.
  destruct (classify _ (a :: t')) as [ty' ab']. inversion H; subst. exact Hc.
Qed.

(** The headers that the loop of line 149 keeps start with a letter, are
    stripped and hold the characters of a label only. *)
Lemma split_body_headers : forall body s,
  In s (sections (split_body body)) ->
  exists a t,
    header s = a :: t
    /\ Py.isletter a = true
    /\ Forall label_ok (a :: t)
    /\ Py.strip (a :: t) = a :: t.
Proof.
  intros body s Hin.
  pose proof (split_body_labels body) as Hlab.
  rewrite Forall_forall in Hlab. specialize (Hlab s Hin).
  destruct (split_body_inv body) as (_ & Hh & _).
  assert (Hhin : In (header s) (map header (sections (split_body body))))
    by (apply in_map; exact Hin).
  rewrite Hh in Hhin. apply in_map_iff in Hhin.
  destruct Hhin as (line & Hline & Hf).
  apply filter_In in Hf. destruct Hf as [_ Hy].
  apply is_header_match in Hy. destruct Hy as (m & Hm).
  apply header_re_sound in Hm.
  destruct Hm as (a & lab & ws & Es & Ha & _ & _ & Hws & _).
  assert (ws = []) as ->.
  { apply (@stripped_no_tail (a :: lab) ws ":"%char); [|exact Hws].
    simpl app. rewrite <- Es. apply strip_idem. }
  unfold label_of in Hline. rewrite Es in Hline.
  change (a :: lab ++ [":"%char]) with ((a :: lab) ++ [":"%char]) in Hline.
  rewrite removelast_last in Hline.
  destruct (@strip_keeps_letter a lab Ha) as (t & Et).
  rewrite Et in Hline. exists a, t. repeat split.
  - symmetry. exact Hline.
  - exact Ha.
  - rewrite Hline. exact Hlab.
  - rewrite <- Et. apply strip_idem.
Qed.

Lemma collapse_good : forall body s c,
  In s (sections (split_body body)) ->
  collapse s = Ok c -> good_token (c_abbrev c).
Proof.
  intros body s c Hin H.
  destruct (@split_body_headers body s Hin) as (a & t & Eh & Ha & Hl & Hs).
  unfold collapse in H. rewrite Eh in H.
  destruct (parse_section_header (a :: t)) as [[[ty ab] n]|] eqn:Ep;
    cbn [bind] in H; [|discriminate].
  destruct (extract_repeated_block (clean_lines (lines s))) as [bb rc].
  injection H as <-. cbn [c_abbrev].
  apply (@parse_abbrev_good a t _ _ _ Ha Hl Hs Ep).
Qed.

Lemma collapse_all_good : forall body secs cs,
  (forall s, In s secs -> In s (sections (split_body body))) ->
  collapse_all secs = Ok cs ->
  Forall (fun c => good_token (c_abbrev c)) cs.
Proof.
  intros body secs. induction secs as [|s secs IH]; intros cs Hsub H.
  - injection H as <-. constructor.
  - cbn [collapse_all] in H.
    destruct (collapse s) as [c|] eqn:Ec; cbn [bind] in H; [|discriminate].
    destruct (collapse_all secs) as [cs'|] eqn:Ecs; cbn [bind] in H;
      [|discriminate].
    injection H as <-. constructor.
    + apply (collapse_good body s); [apply Hsub; left; reflexivity | exact Ec].
    + apply IH; [|reflexivity]. intros s' Hs'. apply Hsub. right. exact Hs'.
Qed.

Lemma place_all_prefix_good : forall cs a,
  (forall t st, dict_get text_eqb t (type_stats a) = Some st ->
                good_token (prefix st)) ->
  Forall (fun c => good_token (c_abbrev c)) cs ->
  forall t st,
    dict_get text_eqb t (type_stats (fold_left place cs a)) = Some st ->
    good_token (prefix st).
Proof.
  induction cs as [|c cs IH]; intros a Ha Hcs; simpl; [exact Ha|].
  inversion Hcs as [|? ? Hc Hcs']; subst. apply IH; [|assumption].
  intros t st Hget. rewrite place_get in Hget.
  destruct (text_eqb t (c_type c)); [|apply (Ha _ _ Hget)].
  inversion Hget; subst st. cbn [prefix]. unfold stats_of.
  destruct (dict_get text_eqb (c_type c) (type_stats a)) eqn:E.
  - apply (Ha _ _ E).
  - exact Hc.
Qed.

Lemma str_of_nat_plain : forall n, Forall plain (Py.str_of_nat n).
Proof.
  intros n. unfold Py.str_of_nat. generalize (Nat.to_uint n). intros d.
  induction d; simpl; constructor; try exact IHd; reflexivity.
Qed.

Lemma token_of_good : forall ts id,
  (forall t st, dict_get text_eqb t ts = Some st -> good_token (prefix st)) ->
  valid_id ts id ->
  good_token (token_of ts id).
Proof.
  intros ts id H Hv. destruct (display_of_valid Hv) as (d & Hd).
  unfold token_of. rewrite Hd. destruct id as [t i].
  apply display_of_some in Hd.
  destruct Hd as (st & u & n & Hst & -> & Hu & ->).
  unfold numbered_display. cbn [token].
  destruct (H _ _ Hst) as [Hne Hp].
  destruct (numbered t st); [|split; assumption].
  split.
  - intros E. apply app_eq_nil in E. destruct E as [E _]. contradiction.
  - apply Forall_app. split; [exact Hp | apply str_of_nat_plain].
Qed.

(** The structured path leaves every field as a header line gives it
    back. *)
Lemma structured_clean : forall body meta r,
  structured (split_body body) meta = Ok r ->
  all_clean meta -> all_clean (fst r).
Proof.
  intros body meta r H Hm.
  destruct (sections (split_body body)) as [|s0 secs0] eqn:Es.
  - unfold structured in H. rewrite Es in H. cbn in H.
    injection H as <-. exact Hm.
  - assert (Hne : sections (split_body body) <> []) by (rewrite Es; discriminate).
    destruct (@structured_flow _ _ _ H Hne)
      as (cs & a & Hcs & Ha & _ & Hval & Hp & Hflow).
    unfold structured in H. rewrite Ha in H. cbn [bind] in H.
    destruct (build_display_map (type_stats a)) as [dm|]; [|discriminate].
    cbn [bind] in H.
    destruct (render_blocks dm (unique_order a)) as [blocks|]; [|discriminate].
    cbn [bind] in H. injection H as <-. cbn [fst] in *.
    destruct (tokens_in_flow dm (occurrences a)) as [|tk tks]; [exact Hm|].
    apply all_clean_set; [|exact Hm].
    rewrite meta_get_set, text_eqb_refl in Hflow. rewrite Hflow.
    apply join_sep_clean.
    + intros Hin. repeat (destruct Hin as [Hin|Hin]; [discriminate Hin|]).
      exact Hin.
    + unfold analyse in Ha.
      destruct (analyse_from_collapse _ _ Ha) as (cs' & Hcs' & ->).
      rewrite Hcs in Hcs'. injection Hcs' as <-.
      apply Forall_map. eapply Forall_impl; [|exact Hval].
      intros id Hid. apply token_of_good; [|exact Hid].
      apply place_all_prefix_good.
      * intros t st Hget. discriminate.
      * apply (collapse_all_good body (sections (split_body body)));
          [intros s Hs; exact Hs | exact Hcs].
Qed.

Lemma rebuild_doc_clean : forall tab artist_fb title_fb file_base d,
  rebuild_doc tab artist_fb title_fb file_base = Ok d ->
  all_clean (d_meta d).
Proof.
  intros tab artist_fb title_fb file_base d H. unfold rebuild_doc in H.
  assert (Hm : all_clean (h_meta (read_head tab artist_fb title_fb file_base))).
  { unfold read_head. cbn [h_meta]. apply meta_of_clean.
    apply split_char_no_sep. }
  destruct (0 <? headers_found _).
  - destruct (structured _ _) as [r|] eqn:Er; [|discriminate].
    cbn [bind] in H. injection H as <-. cbn [d_meta].
    apply (@structured_clean _ _ _ Er Hm).
  - destruct (negb _); injection H as <-; cbn [d_meta]; [|exact Hm].
    apply fallback_flow_clean. exact Hm.
Qed.

(** X26 (lines 100 to 130 against lines 307 to 315).  The header that the
    program writes is the header it reads: in the rebuilt tab the title and
    the artist stand on the first two lines and every one of the seven
    fields on its own line, so that reading the rebuilt tab gives back the
    title, the artist and the seven values just written, whatever
    fallbacks are passed. *)
Theorem written_header_reads_back :
  forall tab artist_fb title_fb file_base d,
    rebuild_doc tab artist_fb title_fb file_base = Ok d ->
    clean (d_title d) -> clean (d_artist d) ->
    forall artist_fb' title_fb' file_base',
      title_of (Py.split_char nl (render d)) title_fb' file_base' = d_title d
      /\ artist_of (Py.split_char nl (render d)) artist_fb' file_base'
         = d_artist d
      /\ same_meta (read_meta (Py.split_char nl (render d))) (d_meta d).
Proof.
  intros tab artist_fb title_fb file_base d H Ht Ha artist_fb' title_fb' file_base'.
  pose proof (@rebuild_doc_clean _ _ _ _ _ H) as Hm.
  destruct (@rebuild_doc_head _ _ _ _ _ H) as (Et & Ea & _).
  assert (Htt : Py.truthy (d_title d) = true)
    by (rewrite Et; apply title_of_truthy).
  assert (Hta : Py.truthy (d_artist d) = true)
    by (rewrite Ea; apply artist_of_truthy).
  destruct d as [title artist meta body]. cbn [d_title d_artist d_meta] in *.
  rewrite (@render_lines title artist meta body Ht Ha Hm).
  repeat split.
  - apply title_of_rendered; assumption.
  - cbn [app]. apply artist_of_rendered; assumption.
  - intros name Hname.
    apply (@read_meta_canonical title artist meta _ Hm). exact Hname.
Qed.

Lemma written_header_reads_back_witness :
  exists d,
    rebuild_doc chorus_pair [] [] [] = Ok d
    /\ title_of (Py.split_char nl (render d)) "x" "y" = "Song"
    /\ meta_get "Flow" (read_meta (Py.split_char nl (render d))) = "C1, C2".
Proof.
  eexists. split; [vm_compute; reflexivity|].
  match goal with
  | |- title_of (Py.split_char nl (render ?d)) _ _ = _ /\ _ =>
      assert (Hd : rebuild_doc chorus_pair [] [] [] = Ok d)
        by (vm_compute; reflexivity);
      assert (Ht : clean (d_title d))
        by (apply plain_clean; repeat constructor);
      assert (Ha : clean (d_artist d))
        by (apply plain_clean; repeat constructor);
      destruct (@written_header_reads_back chorus_pair [] [] [] d Hd Ht Ha
                  [] "x" "y") as (E1 & _ & E3)
  end.
  split; [exact E1|].
  rewrite (E3 "Flow"); [reflexivity|].
  unfold meta_names. right. right. right. right. left. reflexivity.
Defined.


(** ** The quality of a chord token *)

Lemma alts_literal : forall ws k st x,
  ws <> [] ->
  mtch (Ralts (map Rlit ws)) k st = Some x ->
  exists w,
    In w ws
    /\ Py.startswith w (rest st) = true
    /\ k (MState (last_of (prev st) w) (skipn (List.length w) (rest st))
                 (caps st)) = Some x.
Proof.
  induction ws as [|w ws IH]; intros k st x Hne H; [congruence|].
  destruct ws as [|w2 ws].
  - cbn [map Ralts mtch] in H.
    destruct (Py.startswith w (rest st)) eqn:E; [|discriminate].
    exists w. repeat split; [left; reflexivity | exact E | exact H].
  - change (Ralts (map Rlit (w :: w2 :: ws)))
      with (Ralt (Rlit w) (Ralts (map Rlit (w2 :: ws)))) in H.
    cbn [mtch] in H.
    destruct (Py.startswith w (rest st)) eqn:E.
    + destruct (k (MState (last_of (prev st) w)
                          (skipn (List.length w) (rest st)) (caps st)))
        as [r|] eqn:Ek.
      * injection H as ->. exists w.
        repeat split; [left; reflexivity | exact E | exact Ek].
      * apply IH in H; [|discriminate].
        destruct H as (w' & Hin & Hs & Hk). exists w'.
        repeat split; [right; exact Hin | exact Hs | exact Hk].
    + apply IH in H; [|discriminate].
      destruct H as (w' & Hin & Hs & Hk). exists w'.
      repeat split; [right; exact Hin | exact Hs | exact Hk].
Qed.

Lemma chord_re_unfold : forall k st,
  mtch CHORD_RE k st
  = if at_boundary st
    then mtch (Rgroup g_root (Rseq (Rclass note_letter) (Ropt accidental)))
              (fun st1 =>
                 match mtch (Rgroup g_qual (Ralts (map Rlit qualities)))
                            (mtch (Rseq (Ropt (Rseqs [Rlit "/";
                                                      Rclass note_letter;
                                                      Ropt accidental]))
                                        Rwordb) k) st1 with
                 | Some r => Some r
                 | None =>
                     mtch (Rseq (Ropt (Rseqs [Rlit "/"; Rclass note_letter;
                                              Ropt accidental]))
                                Rwordb) k st1
                 end)
              st
    else None.
Proof. reflexivity. Qed.

Lemma group_unfold : forall i a k st,
  mtch (Rgroup i a) k st
  = mtch a (fun st' => k (MState (prev st') (rest st')
                                 ((i, taken st st') :: caps st'))) st.
Proof. reflexivity. Qed.

Lemma slash_part_ends : forall st x,
  mtch (Rseq (Ropt (Rseqs [Rlit "/"; Rclass note_letter; Ropt accidental]))
             Rwordb) Some st = Some x ->
  group g_qual (caps x) = group g_qual (caps st).
Proof.
  intros st x H. apply mtch_keeps_groups in H. destruct H as (st' & H & G).
  injection H as <-. apply G.
  unfold g_qual, accidental, Ropt. cbn. intuition discriminate.
Qed.

Lemma chord_match_quality : forall pv s m,
  mtch CHORD_RE Some (MState pv s []) = Some m ->
  qual_of m = [] \/ In (qual_of m) qualities.
Proof.
  intros pv s m H. rewrite chord_re_unfold in H.
  destruct (at_boundary (MState pv s [])); [|discriminate].
  apply mtch_keeps_groups in H. destruct H as (st1 & H & G1).
  assert (Hg1 : group g_qual (caps st1) = None).
  { rewrite G1; [reflexivity|].
    unfold g_root, g_qual, accidental, Ropt. cbn. intuition discriminate. }
  match type of H with
  | match ?t with Some r => Some r | None => _ end = _ =>
      destruct t as [r|] eqn:E
  end.
  - injection H as ->. right.
    rewrite group_unfold in E.
    apply alts_literal in E; [|discriminate].
    destruct E as (w & Hin & Hs & Hk).
    cbn [prev rest caps] in Hk.
    apply slash_part_ends in Hk. unfold qual_of, g_qual in *.
    cbn [caps group Nat.eqb] in Hk. rewrite Hk.
    replace (taken st1 (MState (last_of (prev st1) w)
                               (skipn (List.length w) (rest st1)) (caps st1)))
      with w; [exact Hin|].
    symmetry. apply taken_app. cbn [rest]. apply startswith_split. exact Hs.
  - left. apply slash_part_ends in H.
    unfold qual_of. rewrite H, Hg1. reflexivity.
Qed.

(** X27 ([detect_key], lines 18 to 25).  The quality of a chord token is
    empty or one of the nineteen of the pattern, and the token counts as
    minor exactly when its quality is one of m, m7, min, min7, m6 and m9. *)
Theorem minor_chord_tokens : forall (body : text) (m : mstate),
  In m (finditer CHORD_RE body) ->
  (qual_of m = [] \/ In (qual_of m) qualities)
  /\ (is_minor m = true <-> In (qual_of m) minor_qualities).
Proof.
  intros body m H. apply finditer_from_in in H. destruct H as (pv & s & H).
  pose proof (chord_match_quality _ _ H) as Hq.
  split; [exact Hq|].
  unfold is_minor.
  destruct Hq as [-> | Hin].
  - split; [discriminate|].
    intros Hm. repeat (destruct Hm as [Hm|Hm]; [discriminate Hm|]). destruct Hm.
  - unfold qualities in Hin.
    repeat (destruct Hin as [<-|Hin];
            [split;
             [intros Hm; first [discriminate Hm | unfold minor_qualities; simpl; tauto]
             |intros Hm; first [reflexivity
                               | repeat (destruct Hm as [Hm|Hm]; [discriminate Hm|]);
                                 destruct Hm]]|]).
    destruct Hin.
Qed.

Lemma minor_chord_tokens_witness :
  exists m ms,
    finditer CHORD_RE "Am7 Cmaj7" = m :: ms
    /\ qual_of m = "m7" /\ map qual_of ms = ["maj7" : text]
    /\ (is_minor m = true <-> In (qual_of m) minor_qualities).
Proof.
  do 2 eexists. split; [vm_compute; reflexivity|].
  split; [reflexivity|]. split; [reflexivity|].
  match goal with
  | |- is_minor ?m = true <-> _ =>
      exact (proj2 (@minor_chord_tokens "Am7 Cmaj7" m (or_introl eq_refl)))
  end.
Defined.

(** ** The text before the first section *)

Lemma rstrip_prefix : forall l s,
  Py.rstrip l = l -> exists t, Py.rstrip (l ++ s) = l ++ t.
Proof.
  intros l s Hl. destruct (blank s) eqn:E.
  - exists []. rewrite rstrip_app_blank by exact E. rewrite Hl.
    symmetry. apply app_nil_r.
  - exists (Py.rstrip s). apply rstrip_app_some. exact E.
Qed.

(** X28 (lines 253 to 257 and 269).  The lines that stand before the
    first section header stay at the top of the body: when they are not all
    blank, the rebuilt body starts with them, joined and without the white
    space at their end. *)
Theorem leading_lines_stay_on_top : forall (body : text) (meta : metadata) r,
  structured (split_body body) meta = Ok r ->
  blank (Py.join [nl] (leading_lines (split_body body))) = false ->
  exists t,
    snd r = Py.rstrip (Py.join [nl] (leading_lines (split_body body))) ++ t.
Proof.
  intros body meta r H Hb. unfold structured in H.
  destruct (analyse (sections (split_body body))) as [a|]; [|discriminate].
  cbn [bind] in H.
  destruct (build_display_map (type_stats a)) as [dm|]; [|discriminate].
  cbn [bind] in H.
  destruct (render_blocks dm (unique_order a)) as [blocks|]; [|discriminate].
  cbn [bind] in H. injection H as <-. cbn [snd].
  set (L := Py.rstrip (Py.join [nl] (leading_lines (split_body body)))).
  assert (HL : L <> []) by (apply rstrip_some; exact Hb).
  assert (Hlead : leading_blocks (leading_lines (split_body body)) = [L]).
  { unfold leading_blocks. fold L.
    destruct (leading_lines (split_body body)) as [|l ls] eqn:El.
    - exfalso. apply HL. reflexivity.
    - destruct L; [congruence | reflexivity]. }
  rewrite Hlead. cbn [app filter].
  assert (HbL : blank L = false).
  { destruct (rstrip_trimmed (Py.join [nl] (leading_lines (split_body body))))
      as (ws & _ & _ & Hlast).
    fold L in Hlast. destruct (exists_last HL) as (u & c & Eu).
    rewrite Eu, blank_app. apply andb_false_iff. right.
    unfold blank. simpl. rewrite (Hlast u c Eu). reflexivity. }
  rewrite truthy_strip_not_blank, HbL. cbn [negb].
  destruct (join_prefix [nl; nl] L
              (filter (fun b => Py.truthy (Py.strip b)) blocks)) as (s & ->).
  destruct (@rstrip_prefix L s (rstrip_idem _)) as (t & ->).
  exists (t ++ [nl]). rewrite <- app_assoc. reflexivity.
Qed.

Lemma leading_lines_stay_on_top_witness :
  exists r,
    structured (split_body (unlines ["capo on 2  "; "Verse:"; "la"])) [] = Ok r
    /\ exists t, snd r = "capo on 2" ++ t.
Proof.
  eexists. split; [vm_compute; reflexivity|].
  exact (@leading_lines_stay_on_top (unlines ["capo on 2  "; "Verse:"; "la"])
           [] _ eq_refl eq_refl).
Defined.


(** ** The block of a unique content *)

(** X29 (lines 260 to 267).  A block is the display name and a colon,
    followed, when the lines of the content are not all blank, by a line
    break and these lines without the white space at their end.  The empty
    part that lines 264 and 265 add is always dropped by the filter of line
    267: whether it is added makes no difference, and no blank line is put
    under the header. *)
Theorem block_has_no_separator_line : forall mapping : display,
  render_block mapping
  = if Py.truthy (Py.rstrip (Py.join [nl] (d_lines mapping)))
    then (display_name mapping ++ ":") ++ [nl]
         ++ Py.rstrip (Py.join [nl] (d_lines mapping))
    else display_name mapping ++ ":".
Proof.
  intros mapping. unfold render_block.
  assert (Hh : Py.truthy (display_name mapping ++ ":") = true)
    by (destruct (display_name mapping); reflexivity).
  destruct ((match d_lines mapping with [] => false | _ => true end)
            && ((List.length (d_lines mapping) =? 0)
                || negb (first_line_blank (d_lines mapping))));
    cbn [app filter Py.truthy]; rewrite Hh;
    destruct (Py.rstrip (Py.join [nl] (d_lines mapping))) as [|c content];
    reflexivity.
Qed.


(** ** The lines of a rebuilt body *)

Lemma split_char_sep : forall sep x y,
  Py.split_char sep (x ++ sep :: y) = Py.split_char sep x ++ Py.split_char sep y.
Proof.
  intros sep x y. induction x as [|c x IH].
  - simpl. destruct (ascii_dec sep sep); [reflexivity | congruence].
  - cbn [app Py.split_char]. destruct (ascii_dec c sep).
    + rewrite IH. reflexivity.
    + rewrite IH.
      destruct (Py.split_char sep x) as [|l ls] eqn:E.
      * exfalso. exact (split_char_nonempty sep x E).
      * reflexivity.
Qed.

(** The lines of blocks that are joined by an empty line and end with a
    line break: those of each block, each time followed by an empty line. *)
Lemma split_blocks : forall blocks : list text,
  blocks <> [] ->
  Py.split_char nl (Py.join [nl; nl] blocks ++ [nl])
  = concat (map (fun x => Py.split_char nl x ++ [[]]) blocks).
Proof.
  induction blocks as [|x blocks IH]; intros Hne; [congruence|].
  destruct blocks as [|y blocks].
  - cbn [Py.join map concat]. rewrite split_char_sep, app_nil_r. reflexivity.
  - rewrite join_cons by discriminate.
    change (map (fun x0 => Py.split_char nl x0 ++ [[]]) (x :: y :: blocks))
      with ((Py.split_char nl x ++ [[]])
            :: map (fun x0 => Py.split_char nl x0 ++ [[]]) (y :: blocks)).
    cbn [concat]. rewrite <- IH by discriminate.
    rewrite <- !app_assoc. cbn [app].
    rewrite split_char_sep.
    cbn [Py.split_char]. destruct (ascii_dec nl nl); [|congruence].
    reflexivity.
Qed.

Lemma is_header_strip : forall a b,
  Py.strip a = Py.strip b -> is_header a = is_header b.
Proof. intros a b H. unfold is_header. rewrite H. reflexivity. Qed.

Lemma is_header_rstrip : forall l, is_header (Py.rstrip l) = is_header l.
Proof.
  intros l. apply is_header_strip.
  destruct (rstrip_trimmed l) as (ws & E & Hws & _).
  rewrite E at 2. symmetry. apply strip_app_blank. exact Hws.
Qed.

Lemma is_header_nil : is_header [] = false.
Proof. reflexivity. Qed.

(** The lines of a text and those of the text with more at its end: the
    last line of the first goes on into the second. *)
Lemma split_char_more : forall sep x w,
  exists front l1 l2 back,
    Py.split_char sep x = front ++ [l1]
    /\ Py.split_char sep (x ++ w) = front ++ [l1 ++ l2] ++ back
    /\ exists w', w = l2 ++ w'.
Proof.
  intros sep x w. induction x as [|c x IH].
  - destruct (Py.split_char sep w) as [|l ls] eqn:E.
    + exfalso. exact (split_char_nonempty sep w E).
    + exists [], [], l, ls. cbn [app Py.split_char]. rewrite E.
      split; [reflexivity|]. split; [reflexivity|].
      pose proof (join_split sep w) as J. rewrite E in J.
      destruct ls as [|l' ls].
      * exists []. rewrite app_nil_r. symmetry. exact J.
      * rewrite join_cons in J by discriminate.
        eexists. symmetry. exact J.
  - destruct IH as (front & l1 & l2 & back & E1 & E2 & Hw).
    cbn [app Py.split_char]. destruct (ascii_dec c sep).
    + exists ([] :: front), l1, l2, back. rewrite E1, E2.
      split; [reflexivity|]. split; [reflexivity | exact Hw].
    + rewrite E1, E2. destruct front as [|f front].
      * exists [], (c :: l1), l2, back.
        split; [reflexivity|]. split; [reflexivity | exact Hw].
      * exists ((c :: f) :: front), l1, l2, back.
        split; [reflexivity|]. split; [reflexivity | exact Hw].
Qed.

Lemma blank_prefix : forall a b, blank (a ++ b) = true -> blank a = true.
Proof.
  intros a b H. rewrite blank_app in H. apply andb_true_iff in H. apply H.
Qed.

(** No line of the text the leading lines are written as is a header. *)
Lemma leading_block_lines : forall L : list text,
  L <> [] ->
  Forall (fun l => ~ In nl l) L ->
  Forall (fun l => is_header l = false) L ->
  Forall (fun l => is_header l = false)
         (Py.split_char nl (Py.rstrip (Py.join [nl] L))).
Proof.
  intros L Hne Hnl Hh.
  destruct (rstrip_trimmed (Py.join [nl] L)) as (ws & E & Hws & _).
  destruct (split_char_more nl (Py.rstrip (Py.join [nl] L)) ws)
    as (front & l1 & l2 & back & E1 & E2 & (w' & Hw)).
  rewrite <- E in E2. rewrite (@split_join nl L Hne Hnl) in E2.
  rewrite E1. rewrite E2 in Hh.
  apply Forall_app in Hh. destruct Hh as [Hf Hr].
  apply Forall_app. split; [exact Hf|].
  constructor; [|constructor].
  apply Forall_app in Hr. destruct Hr as [Hr _].
  inversion Hr as [|? ? H1 _]. subst.
  rewrite <- H1. apply is_header_strip. symmetry.
  apply strip_app_blank. apply (@blank_prefix l2 w'). exact Hws.
Qed.


(** ** A content as it is read back *)

Lemma strip_rstrip : forall s, Py.strip (Py.rstrip s) = Py.strip s.
Proof.
  intros s. destruct (rstrip_trimmed s) as (ws & E & Hws & _).
  rewrite E at 2. symmetry. apply strip_app_blank. exact Hws.
Qed.

Lemma rstrip_join_snoc_empty : forall ls : list text,
  Py.rstrip (Py.join [nl] (ls ++ [[]])) = Py.rstrip (Py.join [nl] ls).
Proof.
  intros ls. destruct ls as [|l ls]; [reflexivity|].
  rewrite join_app by discriminate. cbn [Py.join]. rewrite app_nil_r.
  apply rstrip_app_blank. reflexivity.
Qed.

(** The content is written and read back without a change to what
    [render_block] makes of it. *)
Lemma read_back_content : forall ls : list text,
  Py.rstrip (Py.join [nl] (read_back ls)) = Py.rstrip (Py.join [nl] ls).
Proof.
  intros ls. unfold read_back.
  destruct (Py.rstrip (Py.join [nl] ls)) as [|c s] eqn:E; [reflexivity|].
  cbn [Py.truthy]. rewrite rstrip_join_snoc_empty, join_split.
  rewrite <- E. apply rstrip_idem.
Qed.

(** Nor to its key. *)
Lemma read_back_key : forall ls : list text,
  normalize_content (read_back ls) = normalize_content ls.
Proof.
  intros ls. unfold normalize_content.
  rewrite <- strip_rstrip, read_back_content, strip_rstrip. reflexivity.
Qed.

Lemma lines_core : forall ls : list text,
  exists core k,
    ls = core ++ repeat [] k
    /\ (core = [] \/ exists c' l, core = c' ++ [l] /\ l <> []).
Proof.
  induction ls as [|l ls IH] using rev_ind.
  - exists [], 0. split; [reflexivity | left; reflexivity].
  - destruct l as [|c l].
    + destruct IH as (core & k & E & Hc).
      exists core, (S k). split; [|exact Hc].
      rewrite E, <- app_assoc. f_equal.
      cbn [repeat]. rewrite repeat_cons. reflexivity.
    + exists (ls ++ [c :: l]), 0. split.
      * cbn [repeat]. rewrite app_nil_r. reflexivity.
      * right. exists ls, (c :: l). split; [reflexivity | discriminate].
Qed.

Lemma rstrip_join_core : forall (core : list text) k,
  Py.rstrip (Py.join [nl] (core ++ repeat [] k))
  = Py.rstrip (Py.join [nl] core).
Proof.
  intros core k. induction k as [|k IH].
  - cbn [repeat]. rewrite app_nil_r. reflexivity.
  - cbn [repeat]. rewrite repeat_cons, app_assoc, rstrip_join_snoc_empty.
    exact IH.
Qed.

Lemma rstrip_fixed_last : forall l : text,
  Py.rstrip l = l -> l <> [] -> exists u c, l = u ++ [c] /\ plain c.
Proof.
  intros l H Hne. destruct (exists_last Hne) as (u & c & E).
  exists u, c. split; [exact E|].
  destruct (rstrip_trimmed l) as (ws & _ & _ & Hlast).
  rewrite H in Hlast. exact (Hlast u c E).
Qed.

Lemma join_snoc_last : forall sep (c' : list text) l,
  exists x, Py.join sep (c' ++ [l]) = x ++ l.
Proof.
  intros sep c' l. destruct c' as [|a c'].
  - exists []. reflexivity.
  - rewrite join_app by discriminate. cbn [Py.join].
    eexists. rewrite app_assoc. reflexivity.
Qed.

(** The lines read back under a header are the kept lines up to the last
    one that is not empty, and an empty line. *)
Lemma read_back_core : forall (core : list text) k,
  Forall (fun l => ~ In nl l) core ->
  Forall (fun l => Py.rstrip l = l) core ->
  (core = [] \/ exists c' l, core = c' ++ [l] /\ l <> []) ->
  read_back (core ++ repeat [] k) = core ++ [[]].
Proof.
  intros core k Hnl Htrim Hc. unfold read_back.
  rewrite rstrip_join_core.
  destruct Hc as [-> | (c' & l & -> & Hl)]; [reflexivity|].
  assert (Hfix : Py.rstrip l = l).
  { rewrite Forall_forall in Htrim. apply Htrim.
    apply in_or_app. right. left. reflexivity. }
  destruct (rstrip_fixed_last Hfix Hl) as (u & c & -> & Hp).
  destruct (join_snoc_last [nl] c' (u ++ [c])) as (x & Ex).
  rewrite Ex, app_assoc, rstrip_plain_last by exact Hp.
  rewrite <- app_assoc, <- Ex.
  assert (Ht : Py.truthy (Py.join [nl] (c' ++ [u ++ [c]])) = true).
  { rewrite Ex. destruct (x ++ u ++ [c]) eqn:E; [|reflexivity].
    apply app_eq_nil in E. destruct E as [_ E].
    apply app_eq_nil in E. destruct E as [_ E]. discriminate. }
  rewrite Ht. f_equal. apply split_join; [|exact Hnl].
  destruct c'; discriminate.
Qed.

Lemma kept_line_nil : kept_line [].
Proof. repeat split. intros H. exact H. Qed.

(** What the registry keeps is read back as lines of the same kind, which
    [clean_lines] leaves as they are. *)
Lemma read_back_kept : forall ls : list text,
  Forall kept_line ls ->
  Forall kept_line (read_back ls)
  /\ clean_lines (read_back ls) = read_back ls.
Proof.
  intros ls Hk.
  destruct (lines_core ls) as (core & k & E & Hc).
  assert (Hcore : Forall kept_line core).
  { rewrite E in Hk. apply Forall_app in Hk. apply Hk. }
  assert (Hrb : read_back ls = core ++ [[]]).
  { rewrite E. apply read_back_core; [| |exact Hc].
    - eapply Forall_impl; [|exact Hcore]. intros l H. apply H.
    - eapply Forall_impl; [|exact Hcore]. intros l H. apply H. }
  assert (Hall : Forall kept_line (read_back ls)).
  { rewrite Hrb. apply Forall_app. split; [exact Hcore|].
    constructor; [exact kept_line_nil | constructor]. }
  split; [exact Hall|].
  clear Hrb. unfold clean_lines.
  induction Hall as [|l t Hl _ IH]; [reflexivity|].
  cbn [map]. rewrite IH. destruct Hl as [-> _]. reflexivity.
Qed.


(** ** More of what the registry keeps *)

Lemma scan_unique_extend_suffix : forall ch all cc ck us start e,
  scan_unique ch all cc ck start us = Extend e ->
  exists n idx,
    e = Entry (normalize_content (skipn n cc)) (skipn n cc) (skipn n cc)
              (Some idx).
Proof.
  intros ch all cc ck us. induction us as [|u us IH]; intros start e H;
    [discriminate|].
  cbn [scan_unique] in H.
  destruct (text_eqb (key u) ck); [discriminate|].
  destruct (ch && starts_with_lines cc (lines_clean u)).
  - destruct (text_eqb _ []); [discriminate|].
    destruct (find_extension _ _ _ _); [discriminate|].
    injection H as <-. exists (List.length (lines_clean u)), start.
    reflexivity.
  - apply (IH _ _ H).
Qed.

Lemma key_index_none : forall ck us start,
  key_index ck start us = None -> ~ In ck (map key us).
Proof.
  intros ck us. induction us as [|u us IH]; intros start H Hin; [exact Hin|].
  cbn [key_index] in H. destruct (text_eqb (key u) ck) eqn:E; [discriminate|].
  destruct Hin as [Hk | Hin].
  - apply text_eqb_neq in E. congruence.
  - exact (IH _ H Hin).
Qed.

Lemma stats_of_size : forall a c,
  List.length (unique (stats_of a c)) = registry_size (type_stats a) (c_type c).
Proof.
  intros a c. unfold stats_of, registry_size.
  destruct (dict_get text_eqb (c_type c) (type_stats a)); reflexivity.
Qed.

(** A section is given an entry that is there, or a new entry at the end
    of the registry of its type, made of its last lines. *)
Lemma place_cases : forall a c,
  (exists idx,
     resolve a c = Reuse idx
     /\ registry_after a c = unique (stats_of a c)
     /\ unique_order (place a c) = unique_order a)
  \/ (exists e n,
        registry_after a c = unique (stats_of a c) ++ [e]
        /\ unique_order (place a c)
           = add_unique_id
               (c_type c, S (List.length (unique (stats_of a c))))
               (unique_order a)
        /\ match_idx a c = S (List.length (unique (stats_of a c)))
        /\ u_lines e = skipn n (c_block c)
        /\ lines_clean e = skipn n (c_block c)
        /\ key e = normalize_content (skipn n (c_block c))
        /\ (c_type c <> ("Chorus" : text) ->
            ~ In (key e) (map key (unique (stats_of a c))))).
Proof.
  intros a c.
  assert (Hnc : c_type c <> ("Chorus" : text) ->
                resolve a c
                = match key_index (normalize_content (c_block c)) 1
                                  (unique (stats_of a c)) with
                  | Some i => Reuse i
                  | None => Missing
                  end) by (apply resolve_by_key).
  unfold place, match_idx, registry_after.
  destruct (resolve a c) as [idx|e|] eqn:E; cbn [unique_order].
  - left. exists idx. repeat split.
  - right.
    pose proof E as E'. unfold resolve in E'.
    apply scan_unique_extend_suffix in E'. destruct E' as (n & idx & ->).
    eexists _, n. rewrite length_app. cbn [List.length]. rewrite Nat.add_1_r.
    repeat split.
    intros Hc. exfalso. specialize (Hnc Hc). revert Hnc.
    destruct (key_index _ _ _); discriminate.
  - right.
    eexists _, 0. rewrite length_app. cbn [List.length]. rewrite Nat.add_1_r.
    cbn [skipn u_lines lines_clean key]. repeat split.
    intros Hc. specialize (Hnc Hc). revert Hnc.
    destruct (key_index _ _ _) eqn:Ek; [discriminate|].
    intros _. exact (key_index_none _ _ _ Ek).
Qed.

Lemma registry_size_place : forall a c t,
  registry_size (type_stats (place a c)) t
  = if text_eqb t (c_type c) then List.length (registry_after a c)
    else registry_size (type_stats a) t.
Proof.
  intros a c t. unfold registry_size. rewrite place_get.
  destruct (text_eqb t (c_type c)); reflexivity.
Qed.

Lemma ids_of_type_app : forall t l1 l2,
  ids_of_type t (l1 ++ l2) = ids_of_type t l1 ++ ids_of_type t l2.
Proof. intros t l1 l2. unfold ids_of_type. apply filter_app. Qed.

Lemma ids_of_type_in : forall t id order,
  In id (ids_of_type t order) <-> In id order /\ fst id = t.
Proof.
  intros t id order. unfold ids_of_type. rewrite filter_In.
  rewrite text_eqb_eq. reflexivity.
Qed.

Lemma sequenced_fresh : forall a t,
  sequenced a ->
  ~ In (t, S (registry_size (type_stats a) t)) (unique_order a).
Proof.
  intros a t Hs Hin.
  assert (H : In (t, S (registry_size (type_stats a) t))
                 (ids_of_type t (unique_order a)))
    by (apply ids_of_type_in; split; [exact Hin | reflexivity]).
  rewrite (Hs t) in H. apply in_map_iff in H.
  destruct H as (i & Ei & Hi). injection Ei as ->.
  apply in_seq in Hi. lia.
Qed.

Lemma place_sequenced : forall a c, sequenced a -> sequenced (place a c).
Proof.
  intros a c Hs t. rewrite registry_size_place.
  destruct (place_cases a c)
    as [(idx & _ & Er & Eo) | (e & n & Er & Eo & _)]; rewrite Er, Eo.
  - destruct (text_eqb t (c_type c)) eqn:Et; [|apply Hs].
    apply text_eqb_eq in Et. subst t. rewrite stats_of_size. apply Hs.
  - rewrite stats_of_size.
    unfold add_unique_id.
    destruct (existsb _ (unique_order a)) eqn:Eex.
    + exfalso. apply existsb_id_in in Eex.
      exact (sequenced_fresh (c_type c) Hs Eex).
    + rewrite ids_of_type_app. unfold ids_of_type at 2. cbn [filter fst].
      destruct (text_eqb t (c_type c)) eqn:Et.
      * apply text_eqb_eq in Et. subst t. rewrite text_eqb_refl.
        rewrite length_app. cbn [List.length]. rewrite Nat.add_1_r.
        rewrite seq_S, map_app. cbn [map]. rewrite (Hs (c_type c)).
        rewrite ?stats_of_size. reflexivity.
      * assert (Et' : text_eqb (c_type c) t = false).
        { apply text_eqb_neq. apply text_eqb_neq in Et. congruence. }
        rewrite Et', app_nil_r. apply Hs.
Qed.

Lemma place_keys_distinct : forall a c,
  keys_distinct a -> keys_distinct (place a c).
Proof.
  intros a c Hk t st Hc Hget. rewrite place_get in Hget.
  destruct (text_eqb t (c_type c)) eqn:Et; [|apply (Hk t st Hc Hget)].
  apply text_eqb_eq in Et. subst t. injection Hget as <-. cbn [unique].
  assert (Hold : NoDup (map key (unique (stats_of a c)))).
  { unfold stats_of.
    destruct (dict_get text_eqb (c_type c) (type_stats a)) eqn:E.
    - apply (Hk _ _ Hc E).
    - constructor. }
  destruct (place_cases a c)
    as [(idx & _ & Er & _) | (e & n & Er & _ & _ & _ & _ & _ & Hnew)];
    rewrite Er; [exact Hold|].
  rewrite map_app. cbn [map].
  apply NoDup_app; [exact Hold | repeat constructor; intros [] | ].
  intros k Hin [<- | []]. exact (Hnew Hc Hin).
Qed.

Lemma Forall_skipn_of : forall (A : Type) (P : A -> Prop) n (l : list A),
  Forall P l -> Forall P (skipn n l).
Proof.
  intros A P n l H. rewrite <- (firstn_skipn n l) in H.
  apply Forall_app in H. apply H.
Qed.

Lemma place_lines_kept : forall a c,
  lines_kept a -> Forall kept_line (c_block c) -> lines_kept (place a c).
Proof.
  intros a c Hl Hc t st u Hget Hin. rewrite place_get in Hget.
  destruct (text_eqb t (c_type c)) eqn:Et; [|apply (Hl t st u Hget Hin)].
  injection Hget as <-. cbn [unique] in Hin.
  assert (Hold : forall u, In u (unique (stats_of a c)) ->
                 u_lines u = lines_clean u /\ Forall kept_line (u_lines u)).
  { intros u' Hu. unfold stats_of in Hu.
    destruct (dict_get text_eqb (c_type c) (type_stats a)) eqn:E.
    - apply (Hl _ _ _ E Hu).
    - destruct Hu. }
  destruct (place_cases a c)
    as [(idx & _ & Er & _) | (e & n & Er & _ & _ & Hu & Hcl & _)];
    rewrite Er in Hin; [apply (Hold _ Hin)|].
  apply in_app_or in Hin. destruct Hin as [Hin | [<- | []]];
    [apply (Hold _ Hin)|].
  rewrite Hu, Hcl. split; [reflexivity|].
  apply Forall_skipn_of. exact Hc.
Qed.

Lemma place_tidy : forall a c,
  tidy a -> Forall kept_line (c_block c) -> type_name_ok (c_type c) ->
  tidy (place a c).
Proof.
  intros a c [Hs Hk Hl Ht] Hc Hn. constructor.
  - apply place_sequenced. exact Hs.
  - apply place_keys_distinct. exact Hk.
  - apply place_lines_kept; assumption.
  - intros t st Hget. rewrite place_get in Hget.
    destruct (text_eqb t (c_type c)) eqn:Et; [|apply (Ht _ _ Hget)].
    apply text_eqb_eq in Et. subst t. exact Hn.
Qed.

Lemma tidy_empty : tidy (Analysis [] [] []).
Proof.
  constructor.
  - intros t. reflexivity.
  - intros t st _ H. discriminate H.
  - intros t st u H. discriminate H.
  - intros t st H. discriminate H.
Qed.

Lemma fold_place_tidy : forall cs a,
  tidy a ->
  Forall (fun c => Forall kept_line (c_block c) /\ type_name_ok (c_type c)) cs ->
  tidy (fold_left place cs a).
Proof.
  induction cs as [|c cs IH]; intros a Ha Hcs; [exact Ha|].
  inversion Hcs as [|? ? [Hc Hn] Hcs']; subst. cbn [fold_left].
  apply IH; [|exact Hcs']. apply place_tidy; assumption.
Qed.


(** ** The sections of a body enter the registry tidily *)

Lemma map_snd_combine_same : forall (A B : Type) (l : list A) (l' : list B),
  List.length l = List.length l' -> map snd (combine l l') = l'.
Proof.
  intros A B l. induction l as [|x l IH]; intros [|y l'] H;
    try discriminate H; [reflexivity|].
  cbn [combine map snd]. f_equal. apply IH. injection H as H. exact H.
Qed.

(** The lines of a section are lines of the body that are no headers. *)
Lemma section_lines_of_body : forall body s l,
  In s (sections (split_body body)) -> In l (lines s) ->
  ~ In nl l /\ is_header l = false.
Proof.
  intros body s l Hs Hl.
  destruct (split_body_inv body) as (_ & Hh & Hsplit & _ & Hno).
  split.
  - assert (Hin : In l (Py.split_char nl body)).
    { rewrite Hsplit. apply in_or_app. right.
      assert (Hlen : List.length (filter is_header (Py.split_char nl body))
                     = List.length (sections (split_body body))).
      { rewrite <- (length_map label_of), <- Hh, length_map. reflexivity. }
      pose proof (map_snd_combine_same _ _ Hlen) as Hc.
      rewrite <- Hc in Hs. apply in_map_iff in Hs.
      destruct Hs as ([h s'] & Es & Hp). cbn [snd] in Es. subst s'.
      apply in_concat. exists (section_lines (h, s)). split.
      - apply in_map. exact Hp.
      - unfold section_lines. cbn [fst snd]. right. exact Hl. }
    pose proof (split_char_no_sep nl body) as Hn.
    rewrite Forall_forall in Hn. exact (Hn l Hin).
  - rewrite Forall_forall in Hno. specialize (Hno s Hs).
    rewrite Forall_forall in Hno. exact (Hno l Hl).
Qed.

Lemma rstrip_no_nl : forall l, ~ In nl l -> ~ In nl (Py.rstrip l).
Proof.
  intros l H Hin. apply H.
  destruct (rstrip_trimmed l) as (ws & E & _). rewrite E.
  apply in_or_app. left. exact Hin.
Qed.

Lemma clean_lines_kept : forall ls : list text,
  Forall (fun l => ~ In nl l /\ is_header l = false) ls ->
  Forall kept_line (clean_lines ls).
Proof.
  intros ls H. unfold clean_lines. induction H as [|l ls [Hn Hh] _ IH];
    cbn [map]; constructor; [|exact IH].
  repeat split.
  - apply rstrip_idem.
  - apply rstrip_no_nl. exact Hn.
  - rewrite is_header_rstrip. exact Hh.
Qed.

Lemma Forall_firstn_of : forall (A : Type) (P : A -> Prop) n (l : list A),
  Forall P l -> Forall P (firstn n l).
Proof.
  intros A P n l H. rewrite <- (firstn_skipn n l) in H.
  apply Forall_app in H. apply H.
Qed.

Lemma extract_repeated_block_keeps : forall (P : text -> Prop) (l : list text),
  Forall P l -> Forall P (fst (extract_repeated_block l)).
Proof.
  intros P l H.
  destruct (extract_repeated_block_cases l)
    as [-> | (size & _ & _ & _ & ->)]; cbn [fst]; [exact H|].
  apply Forall_firstn_of. exact H.
Qed.

Lemma isspace_upper : forall c, Py.isspace (Py.to_upper c) = Py.isspace c.
Proof. intros c. by_cases_on c. Qed.

Lemma upper_isletter : forall c,
  Py.isletter c = true -> Py.isletter (Py.to_upper c) = true.
Proof.
  intros c. destruct c as [[] [] [] [] [] [] [] []];
    intros H; try discriminate H; reflexivity.
Qed.

Lemma title_from_snoc : forall s b z,
  exists z',
    Py.title_from b (s ++ [z]) = Py.title_from b s ++ [z']
    /\ (plain z -> plain z').
Proof.
  induction s as [|c s IH]; intros b z.
  - cbn [app Py.title_from]. eexists. split; [reflexivity|].
    intros Hz. unfold plain in *.
    destruct (Py.isletter z); [|exact Hz].
    destruct b; [rewrite isspace_lower | rewrite isspace_upper]; exact Hz.
  - cbn [app Py.title_from].
    destruct (IH (Py.isletter c) z) as (z' & E & Hz).
    exists z'. rewrite E. split; [reflexivity | exact Hz].
Qed.

Lemma title_stripped : forall a t,
  Py.isletter a = true -> Py.strip (a :: t) = a :: t ->
  Py.strip (Py.title (a :: t)) = Py.title (a :: t).
Proof.
  intros a t Ha Hs.
  assert (Hne : a :: t <> []) by discriminate.
  destruct (stripped_ends Hs Hne) as [_ (u & z & E & Hz)].
  unfold Py.title. rewrite E.
  destruct (title_from_snoc u false z) as (z' & Et & Hz').
  rewrite Et. specialize (Hz' Hz).
  destruct u as [|b u].
  - cbn [Py.title_from app]. apply strip_plain.
    constructor; [exact Hz' | constructor].
  - cbn [app] in E. injection E as <- _.
    cbn [Py.title_from app]. rewrite Ha.
    apply strip_plain_ends; [|exact Hz'].
    apply letter_plain. apply upper_isletter. exact Ha.
Qed.

Lemma literal_name_ok : forall a r,
  Py.isletter a = true ->
  forallb label_char (a :: r) = true ->
  text_eqb (Py.strip (a :: r)) (a :: r) = true ->
  type_name_ok (a :: r).
Proof.
  intros a r Ha Hl Hs. exists a, r. split; [reflexivity|].
  split; [exact Ha|]. split.
  - apply Forall_forall. rewrite forallb_forall in Hl. exact Hl.
  - apply text_eqb_eq. exact Hs.
Qed.

Lemma classify_name_ok : forall base a t,
  Py.isletter a = true -> Forall label_ok (a :: t) ->
  Py.strip (a :: t) = a :: t ->
  type_name_ok (fst (classify base (a :: t))).
Proof.
  intros base a t Ha Hl Hs. unfold classify.
  repeat match goal with
         | |- context [if ?b then _ else _] =>
             destruct b; [apply literal_name_ok; reflexivity|]
         end.
  cbn [fst].
  exists (Py.to_upper a), (Py.title_from true t).
  assert (Et : Py.title (a :: t) = Py.to_upper a :: Py.title_from true t).
  { unfold Py.title. cbn [Py.title_from]. rewrite Ha. reflexivity. }
  split; [exact Et|]. split; [apply upper_isletter; exact Ha|].
  rewrite <- Et. split.
  - unfold Py.title. apply title_from_label. exact Hl.
  - apply title_stripped; assumption.
Qed.

Lemma parse_name_ok : forall a t type_name abbrev num,
  Py.isletter a = true -> Forall label_ok (a :: t) ->
  Py.strip (a :: t) = a :: t ->
  parse_section_header (a :: t) = Ok (type_name, abbrev, num) ->
  type_name_ok type_name.
Proof.
  intros a t ty ab n Ha Hl Hs H. unfold parse_section_header in H.
  rewrite Hs in H.
  destruct (@base_part_letter a t Ha Hl) as (t' & Ebp & Hl').
  assert (Hs' : Py.strip (a :: t') = a :: t').
  { rewrite <- Ebp. destruct (re_match number_re (a :: t));
      [apply strip_idem | exact Hs]. }
  rewrite Ebp in H.
  match type of H with
  | bind ?m _ = _ => destruct m as [num'|e]; cbn [bind] in H; [|discriminate]
  end.
  pose proof (@classify_name_ok
                (Py.strip (Py.replace_char "-" " " (Py.lower (a :: t'))))
                a t' Ha Hl' Hs') as Hc.
  destruct (classify _ (a :: t')) as [ty' ab']. inversion H; subst. exact Hc.
Qed.

Lemma collapse_tidy : forall body s c,
  In s (sections (split_body body)) ->
  collapse s = Ok c ->
  Forall kept_line (c_block c) /\ type_name_ok (c_type c).
Proof.
  intros body s c Hin H.
  destruct (@split_body_headers body s Hin) as (a & t & Eh & Ha & Hl & Hs).
  unfold collapse in H. rewrite Eh in H.
  destruct (parse_section_header (a :: t)) as [[[ty ab] n]|] eqn:Ep;
    cbn [bind] in H; [|discriminate].
  pose proof (@extract_repeated_block_keeps kept_line (clean_lines (lines s)))
    as Hk.
  destruct (extract_repeated_block (clean_lines (lines s))) as [bb rc].
  injection H as <-. cbn [c_block c_type]. split.
  - apply Hk. apply clean_lines_kept. apply Forall_forall.
    intros l Hl'. apply (section_lines_of_body body s l Hin Hl').
  - apply (@parse_name_ok a t _ _ _ Ha Hl Hs Ep).
Qed.

Lemma collapse_all_tidy : forall body secs cs,
  (forall s, In s secs -> In s (sections (split_body body))) ->
  collapse_all secs = Ok cs ->
  Forall (fun c => Forall kept_line (c_block c) /\ type_name_ok (c_type c)) cs.
Proof.
  intros body secs. induction secs as [|s secs IH]; intros cs Hsub H.
  - injection H as <-. constructor.
  - cbn [collapse_all] in H.
    destruct (collapse s) as [c|] eqn:Ec; cbn [bind] in H; [|discriminate].
    destruct (collapse_all secs) as [cs'|] eqn:Ecs; cbn [bind] in H;
      [|discriminate].
    injection H as <-. constructor.
    + apply (collapse_tidy body s); [apply Hsub; left; reflexivity | exact Ec].
    + apply IH; [|reflexivity]. intros s' Hs'. apply Hsub. right. exact Hs'.
Qed.

(** The registry of the sections of a body is tidy. *)
Lemma analyse_tidy : forall body a,
  analyse (sections (split_body body)) = Ok a -> tidy a.
Proof.
  intros body a H. unfold analyse in H.
  destruct (analyse_from_collapse _ _ H) as (cs & Hcs & ->).
  apply fold_place_tidy; [exact tidy_empty|].
  apply (collapse_all_tidy body (sections (split_body body)));
    [intros s Hs; exact Hs | exact Hcs].
Qed.


(** ** Sections that each bring one new content *)

Lemma filter_length_le : forall (A : Type) (f : A -> bool) l,
  List.length (filter f l) <= List.length l.
Proof.
  intros A f l. induction l as [|x l IH]; [apply Nat.le_refl|].
  cbn [filter]. destruct (f x); cbn [List.length]; lia.
Qed.

Lemma filter_full : forall (A : Type) (f : A -> bool) l,
  List.length (filter f l) = List.length l -> filter f l = l.
Proof.
  intros A f l. induction l as [|x l IH]; intros H; [reflexivity|].
  cbn [filter] in *. destruct (f x).
  - cbn [List.length] in H. f_equal. apply IH. lia.
  - pose proof (filter_length_le f l). cbn [List.length] in H. lia.
Qed.

Lemma first_ids_length : forall l, List.length (first_ids l) <= List.length l.
Proof.
  induction l as [|id l IH]; [apply Nat.le_refl|].
  cbn [first_ids List.length].
  pose proof (filter_length_le (fun x => negb (id_eqb x id)) (first_ids l)).
  lia.
Qed.

Lemma first_ids_full : forall l,
  List.length (first_ids l) = List.length l -> first_ids l = l.
Proof.
  induction l as [|id l IH]; intros H; [reflexivity|].
  cbn [first_ids List.length] in *.
  pose proof (filter_length_le (fun x => negb (id_eqb x id)) (first_ids l)).
  pose proof (first_ids_length l).
  rewrite filter_full by lia. f_equal. apply IH. lia.
Qed.

(** When there are as many occurrences as unique contents, the occurrences
    are the unique contents in the order of their blocks. *)
Lemma once_each_order : forall secs a,
  analyse secs = Ok a -> once_each a = true ->
  map occ_id (occurrences a) = unique_order a.
Proof.
  intros secs a Ha H. unfold once_each in H. apply Nat.eqb_eq in H.
  destruct (analyse_ordered _ Ha) as [_ [_ Ho]].
  rewrite Ho. symmetry. apply first_ids_full.
  rewrite <- Ho, length_map. symmetry. exact H.
Qed.

Lemma occurrences_of_type_ids : forall t occs,
  occurrences_of_type t occs
  = List.length (ids_of_type t (map occ_id occs)).
Proof.
  intros t occs. unfold occurrences_of_type, ids_of_type.
  induction occs as [|o occs IH]; [reflexivity|].
  cbn [filter map]. unfold occ_id at 1. cbn [fst].
  destruct (text_eqb (o_type o) t); cbn [List.length]; rewrite IH; reflexivity.
Qed.

(** Every type then counts as many occurrences as it has unique
    contents. *)
Lemma once_each_count : forall body a t st,
  analyse (sections (split_body body)) = Ok a -> once_each a = true ->
  dict_get text_eqb t (type_stats a) = Some st ->
  count st = List.length (unique st).
Proof.
  intros body a t st Ha H Hget.
  pose proof (analyse_wf _ Ha) as Hwf.
  pose proof (analyse_tidy body Ha) as Ht.
  rewrite (wf_count Hwf _ Hget), occurrences_of_type_ids.
  rewrite (once_each_order _ Ha H), (tidy_sequenced Ht t).
  rewrite length_map, length_seq. unfold registry_size. rewrite Hget.
  reflexivity.
Qed.

(** ** The blocks of the rebuilt body *)

Lemma display_at_of : forall ts id d,
  display_of ts id = Some d -> display_at ts id = d.
Proof. intros ts id d H. unfold display_at. rewrite H. reflexivity. Qed.

Lemma render_blocks_map : forall ts (dm : display_map) order,
  (forall id, dict_get id_eqb id dm = display_of ts id) ->
  Forall (valid_id ts) order ->
  render_blocks dm order = Ok (map (fun id => render_block (display_at ts id)) order).
Proof.
  intros ts dm order Hdm Hv. induction Hv as [|id order Hid _ IH];
    [reflexivity|].
  cbn [render_blocks map]. unfold dict_item. rewrite Hdm.
  destruct (display_of_valid Hid) as (d & Ed).
  rewrite Ed, IH. cbn [bind]. rewrite (display_at_of _ _ Ed). reflexivity.
Qed.

Lemma render_block_parts : forall d,
  render_block d
  = if Py.truthy (Py.rstrip (Py.join [nl] (d_lines d)))
    then (display_name d ++ ":") ++ nl :: Py.rstrip (Py.join [nl] (d_lines d))
    else display_name d ++ ":".
Proof.
  intros d. unfold render_block.
  assert (Hh : Py.truthy (display_name d ++ ":") = true)
    by (destruct (display_name d); reflexivity).
  destruct ((match d_lines d with [] => false | _ => true end)
            && ((List.length (d_lines d) =? 0)
                || negb (first_line_blank (d_lines d))));
    cbn [app filter Py.truthy]; rewrite Hh;
    destruct (Py.rstrip (Py.join [nl] (d_lines d))) as [|c content];
    reflexivity.
Qed.

(** The lines of a block, and the empty line after it. *)
Lemma render_block_lines : forall d,
  ~ In nl (display_name d) ->
  Py.split_char nl (render_block d) ++ [[]] = block_lines d.
Proof.
  intros d Hn. rewrite render_block_parts. unfold block_lines, read_back.
  assert (Hh : ~ In nl (display_name d ++ ":")).
  { intros Hin. apply in_app_or in Hin. destruct Hin as [Hin | [E | []]];
      [exact (Hn Hin) | discriminate E]. }
  destruct (Py.truthy (Py.rstrip (Py.join [nl] (d_lines d)))).
  - rewrite split_char_sep, (@split_char_plain nl _ Hh). reflexivity.
  - rewrite (@split_char_plain nl _ Hh). reflexivity.
Qed.

(** A block depends on the name and on the content as it is written. *)
Lemma render_block_same : forall d d',
  display_name d = display_name d' ->
  Py.rstrip (Py.join [nl] (d_lines d)) = Py.rstrip (Py.join [nl] (d_lines d')) ->
  render_block d = render_block d'.
Proof.
  intros d d' Hn Hc. rewrite !render_block_parts, Hn, Hc. reflexivity.
Qed.


(** ** The loop of line 149 on a rebuilt body *)

Lemma split_line_on_header : forall st h,
  is_header h = true ->
  split_line st h
  = Splitter (sections_so_far st) (leading_lines st)
             (Some (label_of h)) [] (headers_found st + 1).
Proof.
  intros st h H. apply is_header_match in H. destruct H as (m & Hm).
  unfold split_line. rewrite Hm, (@header_label _ _ Hm).
  unfold sections_so_far.
  destruct (current_header st); [reflexivity|].
  rewrite app_nil_r. reflexivity.
Qed.

Lemma split_line_plain : forall st l,
  is_header l = false ->
  split_line st l
  = match current_header st with
    | None =>
        Splitter (sections st) (leading_lines st ++ [l])
                 (current_header st) (current_lines st) (headers_found st)
    | Some _ =>
        Splitter (sections st) (leading_lines st)
                 (current_header st) (current_lines st ++ [l])
                 (headers_found st)
    end.
Proof.
  intros st l H. unfold is_header in H. unfold split_line.
  destruct (re_match header_re (Py.strip l)); [discriminate | reflexivity].
Qed.

Lemma fold_plain_leading : forall ls st,
  current_header st = None ->
  Forall (fun l => is_header l = false) ls ->
  fold_left split_line ls st
  = Splitter (sections st) (leading_lines st ++ ls) None
             (current_lines st) (headers_found st).
Proof.
  induction ls as [|l ls IH]; intros st Hc Hl.
  - cbn [fold_left]. rewrite app_nil_r, <- Hc. destruct st; reflexivity.
  - inversion Hl as [|? ? H1 H2]; subst. cbn [fold_left].
    rewrite (@split_line_plain _ _ H1), Hc, IH; [|reflexivity | exact H2].
    cbn [sections leading_lines current_lines headers_found].
    rewrite <- app_assoc. reflexivity.
Qed.

Lemma fold_plain_current : forall ls st h,
  current_header st = Some h ->
  Forall (fun l => is_header l = false) ls ->
  fold_left split_line ls st
  = Splitter (sections st) (leading_lines st) (Some h)
             (current_lines st ++ ls) (headers_found st).
Proof.
  induction ls as [|l ls IH]; intros st h Hc Hl.
  - cbn [fold_left]. rewrite app_nil_r, <- Hc. destruct st; reflexivity.
  - inversion Hl as [|? ? H1 H2]; subst. cbn [fold_left].
    rewrite (@split_line_plain _ _ H1), Hc, (IH _ h); [|reflexivity | exact H2].
    cbn [sections leading_lines current_lines headers_found].
    rewrite <- app_assoc. reflexivity.
Qed.

(** A header line and the lines under it. *)
Lemma fold_block : forall st h ls,
  is_header h = true ->
  Forall (fun l => is_header l = false) ls ->
  fold_left split_line (h :: ls) st
  = Splitter (sections_so_far st) (leading_lines st)
             (Some (label_of h)) ls (headers_found st + 1).
Proof.
  intros st h ls Hh Hl. cbn [fold_left].
  rewrite (@split_line_on_header _ _ Hh).
  rewrite (@fold_plain_current ls _ (label_of h)); [reflexivity | reflexivity | exact Hl].
Qed.

Lemma fold_blocks : forall (ps : list (text * list text)) st,
  Forall (fun p => is_header (fst p) = true
                   /\ Forall (fun l => is_header l = false) (snd p)) ps ->
  sections_so_far
    (fold_left split_line (concat (map (fun p => fst p :: snd p) ps)) st)
  = sections_so_far st
    ++ map (fun p => Section_ (label_of (fst p)) (snd p)) ps
  /\ leading_lines
       (fold_left split_line (concat (map (fun p => fst p :: snd p) ps)) st)
     = leading_lines st
  /\ headers_found
       (fold_left split_line (concat (map (fun p => fst p :: snd p) ps)) st)
     = headers_found st + List.length ps.
Proof.
  induction ps as [|p ps IH]; intros st Hps.
  - cbn [map concat fold_left List.length]. rewrite app_nil_r, Nat.add_0_r.
    repeat split.
  - inversion Hps as [|? ? [Hh Hl] Hps']; subst.
    cbn [map concat]. rewrite fold_left_app, (@fold_block _ _ _ Hh Hl).
    destruct (IH (Splitter (sections_so_far st) (leading_lines st)
                           (Some (label_of (fst p))) (snd p)
                           (headers_found st + 1)) Hps')
      as (E1 & E2 & E3).
    rewrite E1, E2, E3. unfold sections_so_far at 1.
    cbn [sections current_header current_lines leading_lines headers_found
         map List.length].
    rewrite <- app_assoc. repeat split. lia.
Qed.

(** ** The body in closed form *)

Lemma structured_result : forall sp meta a,
  analyse (sections sp) = Ok a ->
  structured sp meta
  = Ok (match map (token_of (type_stats a)) (map occ_id (occurrences a)) with
        | [] => meta
        | tokens => meta_set "Flow" (Py.join ", " tokens) meta
        end,
        Py.rstrip
          (Py.join [nl; nl]
             (filter (fun b => Py.truthy (Py.strip b))
                     (leading_blocks (leading_lines sp)
                      ++ map (fun id => render_block (display_at (type_stats a) id))
                             (unique_order a))))
        ++ [nl]).
Proof.
  intros sp meta a Ha. unfold structured. rewrite Ha. cbn [bind].
  pose proof (@analyse_wf _ _ Ha) as Hwf.
  destruct (@build_display_map_get _ (wf_keys Hwf)) as (dm & Hdm & Hget).
  rewrite Hdm. cbn [bind].
  rewrite (@render_blocks_map _ _ _ Hget (wf_order Hwf)). cbn [bind].
  rewrite (@tokens_in_flow_valid _ _ _ Hget (wf_occs Hwf)).
  destruct (map (token_of (type_stats a)) (map occ_id (occurrences a)));
    reflexivity.
Qed.

Lemma rstrip_not_blank : forall s,
  Py.rstrip s <> [] -> blank (Py.rstrip s) = false.
Proof.
  intros s H.
  destruct (rstrip_fixed_last (rstrip_idem s) H) as (u & c & E & Hc).
  rewrite E, blank_app. apply andb_false_iff. right.
  unfold blank. cbn [forallb]. unfold plain in Hc. rewrite Hc. reflexivity.
Qed.

Lemma leading_blocks_cases : forall L : list text,
  leading_blocks L = []
  \/ (L <> []
      /\ Py.rstrip (Py.join [nl] L) <> []
      /\ leading_blocks L = [Py.rstrip (Py.join [nl] L)]).
Proof.
  intros L. unfold leading_blocks. destruct L as [|l L]; [left; reflexivity|].
  destruct (Py.rstrip (Py.join [nl] (l :: L))) eqn:E; cbn [Py.truthy];
    [left; reflexivity|].
  right. repeat split; discriminate.
Qed.

Lemma render_block_end : forall d,
  exists u c, render_block d = u ++ [c] /\ plain c.
Proof.
  intros d. rewrite render_block_parts.
  destruct (Py.rstrip (Py.join [nl] (d_lines d))) as [|x content] eqn:E;
    cbn [Py.truthy].
  - exists (display_name d), ":"%char. split; reflexivity.
  - assert (Hne : Py.rstrip (Py.join [nl] (d_lines d)) <> [])
      by (rewrite E; discriminate).
    destruct (rstrip_fixed_last (rstrip_idem _) Hne) as (u & c & Eu & Hc).
    rewrite <- E, Eu.
    exists ((display_name d ++ ":") ++ nl :: u), c. split; [|exact Hc].
    repeat rewrite <- app_assoc. reflexivity.
Qed.

(** Nothing is filtered out of the blocks, and nothing stripped off their
    end. *)
Lemma body_blocks_plain : forall (L : list text) (ds : list display),
  ds <> [] ->
  Py.rstrip
    (Py.join [nl; nl]
       (filter (fun b => Py.truthy (Py.strip b))
               (leading_blocks L ++ map render_block ds)))
  = Py.join [nl; nl] (leading_blocks L ++ map render_block ds).
Proof.
  intros L ds Hne.
  assert (Hf : filter (fun b => Py.truthy (Py.strip b))
                      (leading_blocks L ++ map render_block ds)
               = leading_blocks L ++ map render_block ds).
  { apply forallb_filter_id. apply forallb_forall. intros b Hb.
    rewrite truthy_strip_not_blank. apply negb_true_iff.
    apply in_app_or in Hb. destruct Hb as [Hb | Hb].
    - destruct (leading_blocks_cases L) as [E | (_ & Hx & E)];
        rewrite E in Hb; [destruct Hb|].
      destruct Hb as [<- | []]. apply rstrip_not_blank. exact Hx.
    - apply in_map_iff in Hb. destruct Hb as (d & <- & _).
      apply render_block_not_blank. }
  rewrite Hf.
  destruct (exists_last Hne) as (ds' & d & ->).
  rewrite map_app, app_assoc. cbn [map].
  destruct (join_snoc_last [nl; nl] (leading_blocks L ++ map render_block ds')
                           (render_block d)) as (x & Ex).
  destruct (render_block_end d) as (u & c & Eu & Hc).
  rewrite Ex, Eu, app_assoc. apply rstrip_plain_last. exact Hc.
Qed.


(** ** The sections of a rebuilt body *)

(** The lines the leading block is read back as. *)
Lemma leading_read_back : forall L : list text,
  Forall (fun l => ~ In nl l) L ->
  Forall (fun l => is_header l = false) L ->
  Forall (fun l => is_header l = false)
         (concat (map (fun x => Py.split_char nl x ++ [[]]) (leading_blocks L)))
  /\ leading_blocks
       (concat (map (fun x => Py.split_char nl x ++ [[]]) (leading_blocks L)))
     = leading_blocks L.
Proof.
  intros L Hnl Hh.
  destruct (leading_blocks_cases L) as [E | (HL & Hx & E)]; rewrite E.
  - split; [constructor | reflexivity].
  - cbn [map concat]. rewrite app_nil_r. split.
    + apply Forall_app. split.
      * apply leading_block_lines; assumption.
      * constructor; [reflexivity | constructor].
    + unfold leading_blocks.
      destruct (Py.split_char nl (Py.rstrip (Py.join [nl] L)) ++ [[]])
        as [|l0 ls0] eqn:El.
      { apply app_eq_nil in El. destruct El as [_ El]. discriminate El. }
      rewrite <- El, rstrip_join_snoc_empty, join_split, rstrip_idem.
      destruct (Py.rstrip (Py.join [nl] L)); [congruence | reflexivity].
Qed.

Lemma split_body_rebuilt : forall (L : list text) (ds : list display),
  Forall (fun l => ~ In nl l) L ->
  Forall (fun l => is_header l = false) L ->
  Forall block_ok ds -> ds <> [] ->
  sections
    (split_body
       (Py.join [nl; nl] (leading_blocks L ++ map render_block ds) ++ [nl]))
  = map reread ds
  /\ leading_blocks
       (leading_lines
          (split_body
             (Py.join [nl; nl] (leading_blocks L ++ map render_block ds)
              ++ [nl])))
     = leading_blocks L
  /\ headers_found
       (split_body
          (Py.join [nl; nl] (leading_blocks L ++ map render_block ds) ++ [nl]))
     = List.length ds.
Proof.
  intros L ds Hnl Hh Hds Hne.
  destruct (split_body_so_far
              (Py.join [nl; nl] (leading_blocks L ++ map render_block ds)
               ++ [nl])) as (Es & El & Ef).
  rewrite Es, El, Ef. clear Es El Ef.
  assert (Hb : leading_blocks L ++ map render_block ds <> []).
  { intros E. apply app_eq_nil in E. destruct E as [_ E].
    apply map_eq_nil in E. exact (Hne E). }
  rewrite (split_blocks Hb), map_app, concat_app.
  set (Ll := concat (map (fun x => Py.split_char nl x ++ [[]])
                         (leading_blocks L))).
  assert (Eb : concat (map (fun x => Py.split_char nl x ++ [[]])
                           (map render_block ds))
               = concat (map (fun p => fst p :: snd p)
                             (map (fun d => (display_name d ++ ":",
                                             read_back (d_lines d))) ds))).
  { rewrite !map_map. f_equal. apply map_ext_in. intros d Hd.
    rewrite Forall_forall in Hds. destruct (Hds d Hd) as (Hn & _).
    cbn [fst snd]. apply (render_block_lines d Hn). }
  rewrite Eb, fold_left_app.
  destruct (leading_read_back Hnl Hh) as [HLl ELl]. fold Ll in HLl, ELl.
  rewrite (@fold_plain_leading Ll (Splitter [] [] None [] 0) eq_refl HLl).
  cbn [sections leading_lines current_lines headers_found app].
  assert (Hps : Forall (fun p => is_header (fst p) = true
                                 /\ Forall (fun l => is_header l = false) (snd p))
                       (map (fun d => (display_name d ++ ":",
                                       read_back (d_lines d))) ds)).
  { apply Forall_forall. intros p Hp. apply in_map_iff in Hp.
    destruct Hp as (d & <- & Hd). cbn [fst snd].
    rewrite Forall_forall in Hds. destruct (Hds d Hd) as (_ & Hy & _ & Hk).
    split; [exact Hy|].
    destruct (read_back_kept Hk) as [Hr _].
    eapply Forall_impl; [|exact Hr]. intros l Hl. apply Hl. }
  destruct (fold_blocks (Splitter [] Ll None [] 0) Hps) as (E1 & E2 & E3).
  rewrite E1, E2, E3. cbn [sections_so_far sections current_header
                           leading_lines headers_found app].
  rewrite length_map, map_map. repeat split; [|exact ELl].
  apply map_ext_in. intros d Hd. cbn [fst snd]. unfold reread.
  rewrite Forall_forall in Hds. destruct (Hds d Hd) as (_ & _ & -> & _).
  reflexivity.
Qed.


(** ** The registry of a second run *)

Lemma scan_missing : forall ch all cc ck us start,
  (forall u, In u us ->
     key u <> ck
     /\ (ch = true -> starts_with_lines cc (lines_clean u) = false)) ->
  scan_unique ch all cc ck start us = Missing.
Proof.
  intros ch all cc ck us. induction us as [|u us IH]; intros start H;
    [reflexivity|].
  cbn [scan_unique].
  destruct (H u (or_introl eq_refl)) as [Hk Hs].
  apply text_eqb_neq in Hk. rewrite Hk.
  destruct ch.
  - rewrite (Hs eq_refl). cbn [andb]. apply IH.
    intros u' Hu'. apply H. right. exact Hu'.
  - cbn [andb]. apply IH. intros u' Hu'. apply H. right. exact Hu'.
Qed.

Lemma restats_zero : forall ts t, restats ts t 0 = Stats [] (prefix_at ts t) 0.
Proof. reflexivity. Qed.

Lemma restats_unique_succ : forall ts t j,
  unique (restats ts t (S j)) = unique (restats ts t j) ++ [reentry ts (t, S j)].
Proof.
  intros ts t j. unfold restats. cbn [unique].
  rewrite seq_S, map_app. reflexivity.
Qed.

Lemma restats_length : forall ts t j,
  List.length (unique (restats ts t j)) = j.
Proof.
  intros ts t j. unfold restats. cbn [unique].
  rewrite length_map, length_seq. reflexivity.
Qed.

Lemma restats_in : forall ts t j u,
  In u (unique (restats ts t j)) ->
  exists i, 1 <= i <= j /\ u = reentry ts (t, i).
Proof.
  intros ts t j u H. unfold restats in H. cbn [unique] in H.
  apply in_map_iff in H. destruct H as (i & <- & Hi).
  apply in_seq in Hi. exists i. split; [lia | reflexivity].
Qed.

(** The registry of its type when a second run comes to the block [id]. *)
Lemma mirror_stats_of : forall ts done a2 id,
  mirrors ts done a2 ->
  stats_of a2 (recollapsed ts id)
  = restats ts (fst id) (List.length (ids_of_type (fst id) done)).
Proof.
  intros ts done a2 id (_ & _ & Hst). unfold stats_of.
  cbn [recollapsed c_type c_abbrev]. rewrite Hst.
  destruct (List.length (ids_of_type (fst id) done)); reflexivity.
Qed.

(** The block finds no entry to reuse. *)
Lemma mirror_resolve : forall ts done a2 t j,
  mirrors ts done a2 -> apart_in ts ->
  j = List.length (ids_of_type t done) ->
  S j <= registry_size ts t ->
  resolve a2 (recollapsed ts (t, S j)) = Missing.
Proof.
  intros ts done a2 t j Hm Ha Ej Hj. unfold resolve.
  rewrite (mirror_stats_of (t, S j) Hm). cbn [fst]. rewrite <- Ej.
  apply scan_missing. intros u Hu.
  apply restats_in in Hu. destruct Hu as (i & Hi & ->).
  cbn [recollapsed c_block c_type reentry key lines_clean].
  destruct (Ha t i (S j)) as [Hk Hs]; [lia | lia | exact Hj|].
  split; [exact Hk|].
  intros Hc. apply text_eqb_eq in Hc. exact (Hs Hc).
Qed.

Lemma ids_of_type_snoc : forall t done id,
  List.length (ids_of_type t (done ++ [id]))
  = List.length (ids_of_type t done)
    + (if text_eqb (fst id) t then 1 else 0).
Proof.
  intros t done id. rewrite ids_of_type_app, length_app.
  unfold ids_of_type at 2. cbn [filter].
  destruct (text_eqb (fst id) t); reflexivity.
Qed.

(** A second run reads one more block. *)
Lemma mirror_step : forall ts done a2 t j,
  sequenced a2 ->
  mirrors ts done a2 -> apart_in ts ->
  j = List.length (ids_of_type t done) ->
  S j <= registry_size ts t ->
  mirrors ts (done ++ [(t, S j)]) (place a2 (recollapsed ts (t, S j))).
Proof.
  intros ts done a2 t j Hseq Hm Ha Ej Hj.
  pose proof (@mirror_resolve _ _ _ _ _ Hm Ha Ej Hj) as Hres.
  pose proof (mirror_stats_of (t, S j) Hm) as Hso. cbn [fst] in Hso.
  rewrite <- Ej in Hso.
  assert (Hreg : registry_after a2 (recollapsed ts (t, S j))
                 = unique (restats ts t (S j))).
  { unfold registry_after. rewrite Hres, Hso, restats_unique_succ.
    reflexivity. }
  assert (Hidx : match_idx a2 (recollapsed ts (t, S j)) = S j).
  { unfold match_idx. rewrite Hres, Hreg. apply restats_length. }
  destruct Hm as (Ho & Hoc & Hst).
  assert (Hfresh : ~ In (t, S j) (unique_order a2)).
  { assert (Er : registry_size (type_stats a2) t = j).
    { unfold registry_size. rewrite Hst, <- Ej.
      destruct j; [reflexivity | apply restats_length]. }
    rewrite <- Er. apply sequenced_fresh. exact Hseq. }
  repeat split.
  - unfold place. cbn [unique_order]. rewrite Hres, Hidx.
    cbn [recollapsed c_type fst]. unfold add_unique_id.
    destruct (existsb (id_eqb (t, S j)) (unique_order a2)) eqn:Eex.
    + exfalso. apply existsb_id_in in Eex. exact (Hfresh Eex).
    + rewrite Ho. reflexivity.
  - rewrite occurrences_place, map_app, Hoc, Hidx.
    cbn [recollapsed repeat_count repeat map c_type]. reflexivity.
  - intros t'. rewrite place_get, ids_of_type_snoc. cbn [recollapsed c_type fst].
    destruct (text_eqb t' t) eqn:Et.
    + apply text_eqb_eq in Et. subst t'. rewrite text_eqb_refl, <- Ej.
      rewrite Nat.add_1_r, Hreg, Hso.
      cbn [recollapsed repeat_count]. unfold restats. cbn [prefix count unique].
      rewrite Nat.add_1_r. reflexivity.
    + assert (Et' : text_eqb t t' = false).
      { apply text_eqb_neq. apply text_eqb_neq in Et. congruence. }
      rewrite Et', Nat.add_0_r. apply Hst.
Qed.

Lemma mirrors_empty : forall ts, mirrors ts [] (Analysis [] [] []).
Proof. intros ts. repeat split. Qed.

Lemma sequenced_empty : sequenced (Analysis [] [] []).
Proof. intros t. reflexivity. Qed.

(** A second run reads the blocks in their order. *)
Lemma second_analysis : forall ts order,
  in_sequence ts order -> apart_in ts ->
  forall done rest_,
    order = done ++ rest_ ->
    mirrors ts done
      (fold_left place (map (recollapsed ts) done) (Analysis [] [] []))
    /\ sequenced
         (fold_left place (map (recollapsed ts) done) (Analysis [] [] [])).
Proof.
  intros ts order Hin Ha done.
  induction done as [|id done IH] using rev_ind; intros rest_ E.
  - split; [apply mirrors_empty | apply sequenced_empty].
  - rewrite <- app_assoc in E. cbn [app] in E.
    destruct (IH _ E) as [Hm Hs].
    destruct (Hin _ _ _ E) as [Hid Hle].
    rewrite map_app, fold_left_app. cbn [map fold_left].
    destruct id as [t k]. cbn [fst snd] in Hid, Hle. subst k.
    split.
    + apply mirror_step; [exact Hs | exact Hm | exact Ha | reflexivity | exact Hle].
    + apply place_sequenced. exact Hs.
Qed.


(** ** What the first run leaves to the second *)

Lemma seq_prefix : forall (A : Type) (f : nat -> A) m l1 x l2,
  map f (seq 1 m) = l1 ++ x :: l2 ->
  x = f (S (List.length l1)) /\ S (List.length l1) <= m.
Proof.
  intros A f m l1 x l2 E.
  assert (Hlen : m = List.length l1 + S (List.length l2)).
  { apply (f_equal (@List.length A)) in E.
    rewrite length_map, length_seq, length_app in E. exact E. }
  split; [|lia].
  apply (f_equal (fun l => nth_error l (List.length l1))) in E.
  rewrite nth_error_map, nth_error_seq in E.
  rewrite nth_error_app2 in E by apply Nat.le_refl.
  rewrite Nat.sub_diag in E. cbn [nth_error] in E.
  destruct (Nat.ltb_spec (List.length l1) m) as [_|Hge]; [|lia].
  cbn [option_map] in E. injection E as <-. reflexivity.
Qed.

Lemma sequenced_in_sequence : forall a,
  sequenced a -> in_sequence (type_stats a) (unique_order a).
Proof.
  intros a Hs o1 [t k] o2 E. cbn [fst snd].
  pose proof (Hs t) as H. rewrite E, ids_of_type_app in H.
  unfold ids_of_type at 2 in H. cbn [filter fst] in H.
  rewrite text_eqb_refl in H. symmetry in H.
  destruct (@seq_prefix _ _ _ _ _ _ H) as [Ex Hle].
  injection Ex as ->. split; [reflexivity | exact Hle].
Qed.

Lemma display_at_entry : forall ts t st n u,
  dict_get text_eqb t ts = Some st ->
  nth_error (unique st) n = Some u ->
  display_at ts (t, S n) = numbered_display t st (S n) u.
Proof.
  intros ts t st n u Hget Hn. unfold display_at, display_of. cbn [fst snd].
  rewrite Hget, Hn. reflexivity.
Qed.

(** The entry an index of a type names. *)
Lemma registry_entry : forall ts t i,
  1 <= i -> i <= registry_size ts t ->
  exists st u,
    dict_get text_eqb t ts = Some st
    /\ nth_error (unique st) (i - 1) = Some u
    /\ display_at ts (t, i) = numbered_display t st i u.
Proof.
  intros ts t i H1 Hi. unfold registry_size in Hi.
  destruct (dict_get text_eqb t ts) as [st|] eqn:Hget; [|lia].
  destruct (nth_error (unique st) (i - 1)) as [u|] eqn:Hn.
  - exists st, u. split; [reflexivity|]. split; [exact Hn|].
    replace i with (S (i - 1)) at 1 2 by lia.
    apply display_at_entry; assumption.
  - exfalso. apply nth_error_None in Hn. lia.
Qed.

Lemma all_apart_spec : forall ms earlier k m,
  all_apart earlier ms = true ->
  nth_error ms k = Some m ->
  apart (earlier ++ firstn k ms) m = true.
Proof.
  induction ms as [|m0 ms IH]; intros earlier k m H Hk.
  - destruct k; discriminate Hk.
  - cbn [all_apart] in H. apply andb_true_iff in H. destruct H as [H0 H].
    destruct k as [|k].
    + injection Hk as <-. cbn [firstn]. rewrite app_nil_r. exact H0.
    + cbn [nth_error] in Hk. cbn [firstn].
      specialize (IH _ _ _ H Hk). rewrite <- app_assoc in IH. exact IH.
Qed.

(** The key of an entry is that of its lines as they are read back. *)
Lemma entry_key_read_back : forall a t st u,
  wf a -> lines_kept a ->
  dict_get text_eqb t (type_stats a) = Some st ->
  In u (unique st) ->
  normalize_content (read_back (u_lines u)) = key u.
Proof.
  intros a t st u Hwf Hl Hget Hin.
  destruct (Hl _ _ _ Hget Hin) as [El _].
  destruct (In_nth_error _ _ Hin) as (j & Hj).
  destruct (wf_entries Hwf _ Hget j Hj) as [Ek _].
  rewrite read_back_key, El, Ek. reflexivity.
Qed.

Lemma tidy_apart : forall a,
  wf a -> tidy a -> choruses_apart a = true -> apart_in (type_stats a).
Proof.
  intros a Hwf Ht Hch t i k H1 Hik Hk.
  destruct (@registry_entry (type_stats a) t i) as (st & ui & Hget & Hi & Ei);
    [exact H1 | lia |].
  destruct (@registry_entry (type_stats a) t k) as (st' & uk & Hget' & Hkk & Ek);
    [lia | exact Hk |].
  rewrite Hget in Hget'. injection Hget' as <-.
  rewrite Ei, Ek. cbn [numbered_display d_lines].
  destruct (text_eq_dec t "Chorus") as [Ec | Ec].
  - unfold choruses_apart in Hch. rewrite <- Ec, Hget in Hch.
    pose proof (@all_apart_spec _ [] (k - 1) (read_back (u_lines uk)) Hch
                  (map_nth_error _ _ _ Hkk)) as Ha.
    cbn [app] in Ha. unfold apart in Ha. rewrite forallb_forall in Ha.
    assert (Hin : In (read_back (u_lines ui))
                     (firstn (k - 1)
                        (map (fun u => read_back (u_lines u)) (unique st)))).
    { apply (@nth_error_In _ _ (i - 1)). rewrite nth_error_firstn.
      destruct (Nat.ltb_spec (i - 1) (k - 1)) as [_|Hge]; [|lia].
      exact (map_nth_error (fun u => read_back (u_lines u)) _ _ Hi). }
    specialize (Ha _ Hin). apply andb_true_iff in Ha. destruct Ha as [Hk1 Hs1].
    apply negb_true_iff in Hk1. apply negb_true_iff in Hs1.
    apply text_eqb_neq in Hk1. split; [exact Hk1 | intros _; exact Hs1].
  - split; [|intros Hc; congruence].
    rewrite (@entry_key_read_back a t st ui Hwf (tidy_lines Ht) Hget
               (nth_error_In _ _ Hi)).
    rewrite (@entry_key_read_back a t st uk Hwf (tidy_lines Ht) Hget
               (nth_error_In _ _ Hkk)).
    intros Hkey.
    pose proof (tidy_keys Ht Ec Hget) as Hnd.
    rewrite NoDup_nth_error in Hnd.
    assert (Hlt : i - 1 < List.length (map key (unique st))).
    { rewrite length_map. apply nth_error_Some. rewrite Hi. discriminate. }
    specialize (Hnd (i - 1) (k - 1) Hlt).
    rewrite (map_nth_error key _ _ Hi), (map_nth_error key _ _ Hkk), Hkey in Hnd.
    specialize (Hnd eq_refl). lia.
Qed.

Lemma unrepeated_extract : forall l : list text,
  unrepeated l = true -> extract_repeated_block l = (l, 1).
Proof.
  intros l H. unfold unrepeated in H. apply Nat.eqb_eq in H.
  destruct (extract_repeated_block_cases l)
    as [E | (size & Hs & _ & _ & E)]; [exact E|].
  rewrite E in H. cbn [snd] in H. exfalso.
  assert (H2 : 2 <= List.length l / size).
  { apply Nat.div_le_lower_bound; [lia|].
    pose proof (Nat.Div0.mul_div_le (List.length l) 2). nia. }
  lia.
Qed.


(** ** The header lines of the blocks *)

Lemma str_of_nat_last : forall n,
  exists ds z, Py.str_of_nat n = ds ++ [z] /\ plain z.
Proof.
  intros n.
  assert (Hne : Py.str_of_nat n <> []).
  { unfold Py.str_of_nat.
    assert (Hu : Nat.to_uint n <> Decimal.Nil).
    { rewrite <- (DecimalNat.Unsigned.of_to n) at 1.
      rewrite DecimalNat.Unsigned.to_of. apply DecimalFacts.unorm_nonnil. }
    destruct (Nat.to_uint n); try discriminate. congruence. }
  destruct (exists_last Hne) as (ds & z & E).
  exists ds, z. split; [exact E|].
  pose proof (str_of_nat_plain n) as Hp. rewrite E in Hp.
  apply Forall_app in Hp. destruct Hp as [_ Hp].
  inversion Hp; assumption.
Qed.

Lemma label_no_nl : forall s, Forall label_ok s -> ~ In nl s.
Proof.
  intros s H Hin. rewrite Forall_forall in H. specialize (H nl Hin).
  discriminate H.
Qed.

Lemma label_of_stripped : forall a s,
  plain a -> Py.strip (a :: s) = a :: s ->
  label_of ((a :: s) ++ ":") = a :: s.
Proof.
  intros a s Ha Hs. unfold label_of.
  change ((a :: s) ++ ":") with (a :: s ++ [":"%char]).
  rewrite strip_plain_ends; [|exact Ha | reflexivity].
  change (a :: s ++ [":"%char]) with ((a :: s) ++ [":"%char]).
  rewrite removelast_last. exact Hs.
Qed.

(** The name of a type, alone or followed by a space and a number, holds
    no line break and is the label of its own header line. *)
Lemma name_label : forall t name,
  type_name_ok t ->
  name = t \/ (exists k, name = t ++ " " ++ Py.str_of_nat k) ->
  ~ In nl name /\ label_of (name ++ ":") = name.
Proof.
  intros t name (a & r & -> & Ha & Hl & Hs) [-> | (k & ->)].
  - split; [apply label_no_nl; exact Hl|].
    apply label_of_stripped; [apply letter_plain; exact Ha | exact Hs].
  - split.
    + intros Hin. apply in_app_or in Hin. destruct Hin as [Hin | Hin].
      * exact (label_no_nl Hl Hin).
      * apply in_app_or in Hin. destruct Hin as [[E | []] | Hin];
          [discriminate E|].
        pose proof (str_of_nat_plain k) as Hp. rewrite Forall_forall in Hp.
        exact (plain_not_nl (Hp _ Hin) eq_refl).
    + destruct (str_of_nat_last k) as (ds & z & -> & Hz).
      change ((a :: r) ++ " " ++ ds ++ [z])
        with (a :: r ++ " " ++ ds ++ [z]).
      apply label_of_stripped; [apply letter_plain; exact Ha|].
      rewrite !app_assoc. apply strip_plain_ends;
        [apply letter_plain; exact Ha | exact Hz].
Qed.

Lemma numbered_display_name : forall t st i u,
  display_name (numbered_display t st i u) = t
  \/ exists k, display_name (numbered_display t st i u)
               = t ++ " " ++ Py.str_of_nat k.
Proof.
  intros t st i u. unfold numbered_display. cbn [display_name].
  destruct (numbered t st); [right; exists i; reflexivity | left; reflexivity].
Qed.

(** What holds of every block of a tab when the names of its blocks read
    back and none of its blocks is read back as a repetition. *)
Lemma block_facts : forall body a id,
  analyse (sections (split_body body)) = Ok a ->
  names_read_back a = true ->
  blocks_unrepeated a = true ->
  In id (unique_order a) ->
  block_ok (display_at (type_stats a) id)
  /\ collapse (reread (display_at (type_stats a) id))
     = Ok (recollapsed (type_stats a) id).
Proof.
  intros body a id Ha Hn Hu Hin.
  pose proof (analyse_tidy body Ha) as Ht.
  unfold names_read_back in Hn. rewrite forallb_forall in Hn.
  specialize (Hn id Hin).
  unfold blocks_unrepeated in Hu. rewrite forallb_forall in Hu.
  specialize (Hu id Hin).
  destruct (display_of (type_stats a) id) as [d|] eqn:Ed; [|discriminate Hn].
  destruct (dict_get text_eqb (fst id) (type_stats a)) as [st|] eqn:Hget;
    [|discriminate Hn].
  rewrite (display_at_of _ _ Ed).
  destruct id as [t i]. cbn [fst] in *.
  destruct (display_of_some _ _ _ Ed) as (st' & u & n & Hget' & -> & Hnth & Ed').
  rewrite Hget in Hget'. injection Hget' as <-.
  unfold name_reads_back in Hn. apply andb_true_iff in Hn.
  destruct Hn as [Hhead Hparse].
  assert (Hk : Forall kept_line (d_lines d)).
  { rewrite Ed'. cbn [numbered_display d_lines].
    apply (@tidy_lines a Ht t st u Hget (nth_error_In _ _ Hnth)). }
  destruct (@name_label t (display_name d) (@tidy_types a Ht t st Hget))
    as [Hnl Hlab].
  { rewrite Ed'. apply numbered_display_name. }
  split; [repeat split; assumption|].
  unfold collapse, reread. cbn [header lines].
  destruct (parse_section_header (display_name d)) as [[[ty ab] num]|];
    [|discriminate Hparse].
  apply andb_true_iff in Hparse. destruct Hparse as [Ety Eab].
  apply text_eqb_eq in Ety. apply text_eqb_eq in Eab. subst ty ab.
  cbn [bind].
  destruct (read_back_kept Hk) as [_ Hclean]. rewrite Hclean.
  rewrite (unrepeated_extract _ Hu).
  unfold recollapsed, prefix_at. cbn [fst].
  rewrite Hget, (display_at_of _ _ Ed). reflexivity.
Qed.

Lemma collapse_all_reread : forall body a,
  analyse (sections (split_body body)) = Ok a ->
  names_read_back a = true ->
  blocks_unrepeated a = true ->
  forall order,
    (forall id, In id order -> In id (unique_order a)) ->
    collapse_all (map (fun id => reread (display_at (type_stats a) id)) order)
    = Ok (map (recollapsed (type_stats a)) order).
Proof.
  intros body a Ha Hn Hu order. induction order as [|id order IH]; intros Hsub;
    [reflexivity|].
  cbn [map collapse_all].
  destruct (@block_facts body a id Ha Hn Hu (Hsub id (or_introl eq_refl)))
    as [_ Ec].
  rewrite Ec, IH; [reflexivity|].
  intros id' Hid'. apply Hsub. right. exact Hid'.
Qed.


(** ** The display entries of a second run *)

Lemma token_of_display_at : forall ts id,
  token_of ts id = token (display_at ts id).
Proof.
  intros ts id. unfold token_of, display_at.
  destruct (display_of ts id); reflexivity.
Qed.

Lemma sequenced_count : forall a t,
  sequenced a ->
  List.length (ids_of_type t (unique_order a)) = registry_size (type_stats a) t.
Proof.
  intros a t Hs. rewrite (Hs t), length_map, length_seq. reflexivity.
Qed.

(** The display entry a second run gives a block: the name and the token
    of the first run, and the lines read back. *)
Lemma second_display : forall body a a2 t k,
  analyse (sections (split_body body)) = Ok a ->
  once_each a = true ->
  mirrors (type_stats a) (unique_order a) a2 ->
  1 <= k -> k <= registry_size (type_stats a) t ->
  display_name (display_at (type_stats a2) (t, k))
  = display_name (display_at (type_stats a) (t, k))
  /\ token (display_at (type_stats a2) (t, k))
     = token (display_at (type_stats a) (t, k))
  /\ d_lines (display_at (type_stats a2) (t, k))
     = read_back (d_lines (display_at (type_stats a) (t, k))).
Proof.
  intros body a a2 t k Ha Ho (_ & _ & Hst) H1 Hk.
  pose proof (analyse_tidy body Ha) as Ht.
  destruct (@registry_entry (type_stats a) t k H1 Hk)
    as (st & u & Hget & Hnth & Ed).
  assert (Hm : registry_size (type_stats a) t = List.length (unique st))
    by (unfold registry_size; rewrite Hget; reflexivity).
  pose proof (once_each_count body t Ha Ho Hget) as Hc.
  specialize (Hst t).
  rewrite (sequenced_count t (tidy_sequenced Ht)), Hm in Hst.
  destruct (List.length (unique st)) as [|j] eqn:Ej; [lia|].
  assert (Hn2 : nth_error (unique (restats (type_stats a) t (S j))) (k - 1)
                = Some (reentry (type_stats a) (t, k))).
  { unfold restats. cbn [unique]. rewrite nth_error_map, nth_error_seq.
    destruct (Nat.ltb_spec (k - 1) (S j)) as [_|Hge]; [|lia].
    cbn [option_map]. replace (1 + (k - 1)) with k by lia. reflexivity. }
  replace k with (S (k - 1)) at 1 3 5 by lia.
  rewrite (@display_at_entry _ _ _ _ _ Hst Hn2).
  replace (S (k - 1)) with k by lia. rewrite Ed.
  unfold numbered_display, numbered, restats, prefix_at.
  cbn [display_name token d_lines unique prefix count reentry u_lines].
  rewrite length_map, length_seq, Hget, Hc, Ej. repeat split.
  rewrite Ed. reflexivity.
Qed.

(** The leading lines hold no line break and are no headers. *)
Lemma leading_lines_of_body : forall body,
  Forall (fun l => ~ In nl l) (leading_lines (split_body body))
  /\ Forall (fun l => is_header l = false) (leading_lines (split_body body)).
Proof.
  intros body.
  destruct (split_body_inv body) as (_ & _ & Hsplit & Hlead & _).
  split; [|exact Hlead].
  pose proof (split_char_no_sep nl body) as Hn.
  rewrite Hsplit in Hn. apply Forall_app in Hn. apply Hn.
Qed.


(** ** The structured path on its own output *)

Lemma valid_id_bounds : forall ts t k,
  valid_id ts (t, k) -> 1 <= k /\ k <= registry_size ts t.
Proof.
  intros ts t k (st & Hget & Hk). cbn [fst snd] in *.
  unfold registry_size. rewrite Hget. exact Hk.
Qed.

Lemma lstrip_nl_head : forall s, Py.lstrip_nl (nl :: s) <> nl :: s.
Proof.
  intros s E. unfold Py.lstrip_nl in E. cbn [Py.lstrip_by] in E.
  destruct (ascii_dec nl nl) as [_|N]; [|congruence].
  pose proof (lstrip_by_length
                (fun c => if ascii_dec c nl then true else false) s) as H.
  rewrite E in H. cbn [List.length] in H. lia.
Qed.

(** The leading lines of a body that starts with no line break: they give
    no block, or the first of them starts with a character that is no line
    break. *)
Lemma leading_start : forall body,
  Py.lstrip_nl body = body ->
  leading_blocks (leading_lines (split_body body)) = []
  \/ exists c l L',
       leading_lines (split_body body) = (c :: l) :: L' /\ c <> nl.
Proof.
  intros body Hb.
  destruct (split_body_inv body) as (_ & _ & Hsplit & _).
  destruct (leading_lines_of_body body) as [Hn _].
  destruct (leading_lines (split_body body)) as [|l0 L'] eqn:EL;
    [left; reflexivity|].
  destruct l0 as [|c l].
  - left. cbn [app] in Hsplit.
    pose proof (join_split nl body) as Hj. rewrite Hsplit in Hj.
    destruct (L' ++ concat
                (map section_lines
                   (combine (filter is_header (Py.split_char nl body))
                            (sections (split_body body))))) as [|x xs] eqn:Er.
    + apply app_eq_nil in Er. destruct Er as [-> _]. reflexivity.
    + exfalso. rewrite join_cons in Hj by discriminate. cbn [app] in Hj.
      rewrite <- Hj in Hb. exact (lstrip_nl_head Hb).
  - right. exists c, l, L'. split; [reflexivity|].
    inversion Hn as [|? ? Hc _]; subst. intros ->. apply Hc. left. reflexivity.
Qed.

Lemma rebuilt_body_start : forall (L : list text) (ds : list display),
  (leading_blocks L = []
   \/ exists c l L', L = (c :: l) :: L' /\ c <> nl) ->
  Forall block_ok ds -> ds <> [] ->
  exists c s,
    Py.join [nl; nl] (leading_blocks L ++ map render_block ds) ++ [nl] = c :: s
    /\ c <> nl.
Proof.
  intros L ds HL Hok Hne.
  destruct (leading_blocks_cases L) as [E | (_ & Hx & E)]; rewrite E.
  - destruct ds as [|d ds']; [congruence|]. cbn [app map].
    inversion Hok as [|? ? (Hn & _) _]; subst.
    destruct (join_prefix [nl; nl] (render_block d) (map render_block ds'))
      as (s & Es).
    rewrite Es, render_block_parts.
    destruct (display_name d) as [|c nm] eqn:En.
    + exists ":"%char.
      destruct (Py.truthy _); eexists; (split; [reflexivity | discriminate]).
    + exists c.
      destruct (Py.truthy _); eexists;
        (split; [reflexivity | intros ->; apply Hn; left; reflexivity]).
  - destruct HL as [E0 | (c & l & L' & -> & Hc)]; [congruence|].
    destruct (join_head [nl] c l L') as (s & Es). rewrite Es in Hx |- *.
    destruct (rstrip_trimmed (c :: s)) as (ws & Ew & _).
    destruct (Py.rstrip (c :: s)) as [|c' x] eqn:Er; [congruence|].
    cbn [app] in Ew. injection Ew as <- _.
    exists c. cbn [app].
    destruct (join_head [nl; nl] c x (map render_block ds)) as (s2 & Es2).
    rewrite Es2. eexists. split; [reflexivity | exact Hc].
Qed.

(** When every section brought one new content, the names of the blocks
    read back, no block is read back as a repetition and the choruses are
    apart, the structured path reads from the body it wrote the blocks it
    wrote, and writes them again with the same Flow. *)
Lemma structured_again : forall body meta r a meta',
  structured (split_body body) meta = Ok r ->
  analyse (sections (split_body body)) = Ok a ->
  sections (split_body body) <> [] ->
  Py.lstrip_nl body = body ->
  once_each a = true ->
  names_read_back a = true ->
  blocks_unrepeated a = true ->
  choruses_apart a = true ->
  0 < headers_found (split_body (snd r))
  /\ structured (split_body (snd r)) meta'
     = Ok (meta_set "Flow" (meta_get "Flow" (fst r)) meta', snd r)
  /\ exists c s, snd r = c :: s /\ c <> nl.
Proof.
  intros body meta r a meta' Hr Ha Hsec Hbody Ho Hn Hu Hch.
  pose proof (analyse_tidy body Ha) as Ht.
  pose proof (@analyse_wf _ _ Ha) as Hwf.
  pose proof (@once_each_order _ _ Ha Ho) as Hoo.
  destruct (@structured_flow _ _ _ Hr Hsec)
    as (cs & a' & _ & Ha' & Hperf & _ & Hpne & _).
  rewrite Ha in Ha'. injection Ha' as <-.
  assert (Hone : unique_order a <> []) by (rewrite <- Hoo, Hperf; exact Hpne).
  rewrite (structured_result _ meta Ha) in Hr. injection Hr as <-.
  cbn [fst snd]. rewrite Hoo.
  set (ts := type_stats a). set (order := unique_order a) in *.
  set (L := leading_lines (split_body body)).
  set (ds := map (display_at ts) order).
  assert (Hds : map (fun id => render_block (display_at ts id)) order
                = map render_block ds)
    by (unfold ds; rewrite map_map; reflexivity).
  assert (Hdne : ds <> []).
  { unfold ds. intros E. apply map_eq_nil in E. exact (Hone E). }
  rewrite Hds, (body_blocks_plain L Hdne).
  destruct (leading_lines_of_body body) as [HLn HLh]. fold L in HLn, HLh.
  assert (Hok : Forall block_ok ds).
  { unfold ds. apply Forall_forall. intros d Hd. apply in_map_iff in Hd.
    destruct Hd as (id & <- & Hid).
    apply (@block_facts body a id Ha Hn Hu Hid). }
  destruct (split_body_rebuilt HLn HLh Hok Hdne) as (Es & El & Ef).
  (* the analysis of the second run *)
  destruct (@second_analysis ts order
              (sequenced_in_sequence (tidy_sequenced Ht))
              (tidy_apart Hwf Ht Hch) order [] (eq_sym (app_nil_r order)))
    as [Hm _].
  set (a2 := fold_left place (map (recollapsed ts) order) (Analysis [] [] []))
    in *.
  assert (Ha2 : analyse
                  (sections
                     (split_body
                        (Py.join [nl; nl] (leading_blocks L ++ map render_block ds)
                         ++ [nl]))) = Ok a2).
  { rewrite Es. unfold ds. rewrite map_map. unfold analyse.
    apply collapse_analyse_from.
    apply (@collapse_all_reread body a Ha Hn Hu order).
    intros id Hid. exact Hid. }
  split; [rewrite Ef; destruct ds; [congruence | cbn [List.length]; lia]|].
  split.
  - rewrite (structured_result _ meta' Ha2), El.
    destruct Hm as (Ho2 & Hoc2 & Hst2).
    rewrite Ho2, Hoc2.
    assert (Hdisp : forall id, In id order ->
              display_name (display_at (type_stats a2) id)
              = display_name (display_at ts id)
              /\ token (display_at (type_stats a2) id)
                 = token (display_at ts id)
              /\ d_lines (display_at (type_stats a2) id)
                 = read_back (d_lines (display_at ts id))).
    { intros [t k] Hid.
      assert (Hv : valid_id ts (t, k)).
      { pose proof (wf_order Hwf) as Hvo. rewrite Forall_forall in Hvo.
        exact (Hvo _ Hid). }
      destruct (valid_id_bounds Hv) as [H1 Hk].
      apply (@second_display body a a2 t k Ha Ho
               (conj Ho2 (conj Hoc2 Hst2)) H1 Hk). }
    assert (Htok : map (token_of (type_stats a2)) order
                   = map (token_of ts) order).
    { apply map_ext_in. intros id Hid. rewrite !token_of_display_at.
      apply (Hdisp id Hid). }
    assert (Hblk : map (fun id => render_block (display_at (type_stats a2) id))
                       order
                   = map render_block ds).
    { unfold ds. rewrite map_map. apply map_ext_in. intros id Hid.
      destruct (Hdisp id Hid) as (En & _ & Ed).
      apply render_block_same; [exact En|].
      rewrite Ed. apply read_back_content. }
    rewrite Htok, Hblk, (body_blocks_plain L Hdne).
    destruct (map (token_of ts) order) as [|tk tks] eqn:Etk.
    + exfalso. apply map_eq_nil in Etk. exact (Hone Etk).
    + rewrite meta_get_set. reflexivity.
  - apply rebuilt_body_start; [|exact Hok | exact Hdne].
    apply leading_start. exact Hbody.
Qed.


(** ** Rebuilding a rebuilt tab *)

Lemma same_meta_flow : forall meta' meta,
  same_meta meta' meta ->
  same_meta (meta_set "Flow" (meta_get "Flow" meta) meta') meta.
Proof.
  intros meta' meta H name Hin. rewrite meta_get_set.
  destruct (text_eqb name "Flow") eqn:E; [|apply (H name Hin)].
  apply text_eqb_eq in E. subst name. reflexivity.
Qed.

(** Rebuilding what the structured path built of a settled tab. *)
Lemma rebuild_settled : forall tab artist_fb title_fb file_base d,
  rebuild_doc tab artist_fb title_fb file_base = Ok d ->
  0 < headers_found (sections_of tab artist_fb title_fb file_base) ->
  clean (d_title d) -> clean (d_artist d) ->
  settled tab artist_fb title_fb file_base = true ->
  rebuild_formatted_tab (render d) artist_fb title_fb file_base
  = Ok (render d).
Proof.
  intros tab artist_fb title_fb file_base d Hd Hpos Hct Hca Hs.
  unfold settled in Hs. rewrite Hd in Hs.
  destruct (analyse (sections (sections_of tab artist_fb title_fb file_base)))
    as [a|] eqn:Ha; [|discriminate Hs].
  repeat (apply andb_true_iff in Hs; destruct Hs as [Hs ?]).
  rename Hs into Hone, H into Hkey, H0 into Hch, H1 into Hun, H2 into Hnames.
  pose proof (@rebuild_doc_clean _ _ _ _ _ Hd) as Hclean.
  destruct (@rebuild_doc_structured _ _ _ _ _ Hd Hpos) as (r & Hr & Ed).
  unfold sections_of in *.
  set (h := read_head tab artist_fb title_fb file_base) in *.
  assert (Hsec : sections (split_body (h_body h)) <> [])
    by (apply split_body_sections; exact Hpos).
  assert (Hbody : Py.lstrip_nl (h_body h) = h_body h)
    by (unfold h, read_head; cbn [h_body]; apply body_of_lstripped).
  assert (Htt : Py.truthy (h_title h) = true)
    by (unfold h, read_head; cbn [h_title]; apply title_of_truthy).
  assert (Hat : Py.truthy (h_artist h) = true)
    by (unfold h, read_head; cbn [h_artist]; apply artist_of_truthy).
  assert (Hcapo : Py.truthy (meta_get "Capo" (fst r)) = true).
  { rewrite (@structured_meta_other _ _ _ "Capo" Hr eq_refl).
    unfold h, read_head. cbn [h_meta]. apply meta_of_capo. }
  assert (Htuning : Py.truthy (meta_get "Tuning" (fst r)) = true).
  { rewrite (@structured_meta_other _ _ _ "Tuning" Hr eq_refl).
    unfold h, read_head. cbn [h_meta]. apply meta_of_tuning. }
  subst d. cbn [d_title d_artist d_meta d_body] in *.
  assert (Hk : meta_get "Key" (fst r) = [] -> detect_key (snd r) = []).
  { intros E. unfold key_settled in Hkey. cbn [d_meta d_body] in Hkey.
    rewrite E in Hkey. cbn [Py.truthy orb] in Hkey.
    apply negb_true_iff in Hkey. apply not_truthy_nil. exact Hkey. }
  destruct (@structured_again (h_body h) (h_meta h) r a (h_meta h)
              Hr Ha Hsec Hbody Hone Hnames Hun Hch)
    as (_ & _ & (c & s & Ec & Hc)).
  assert (Hstart : Py.lstrip_nl (snd r) = snd r).
  { rewrite Ec. unfold Py.lstrip_nl. cbn [Py.lstrip_by].
    destruct (ascii_dec c nl); [congruence | reflexivity]. }
  destruct (@read_head_rendered (h_title h) (h_artist h) (fst r) (snd r)
              artist_fb title_fb file_base
              Hct Htt Hca Hat Hclean Hcapo Htuning Hk Hstart)
    as (meta' & Hhead & Hsame).
  destruct (@structured_again (h_body h) (h_meta h) r a meta'
              Hr Ha Hsec Hbody Hone Hnames Hun Hch)
    as (Hpos2 & Hagain & _).
  unfold rebuild_formatted_tab, rebuild_doc. rewrite Hhead.
  cbn [h_title h_artist h_meta h_body].
  apply Nat.ltb_lt in Hpos2. rewrite Hpos2, Hagain. cbn [bind fst snd].
  f_equal. apply same_meta_render. apply same_meta_flow. exact Hsame.
Qed.

(** C1, as far as it holds.  Rebuilding the output of a tab with the same
    fallbacks gives the output again, when the title and the artist of the
    rebuilt document are clean (each is its own stripped form and holds no
    line break, as whatever comes from the first two lines of the tab is),
    and the body of the tab has no section header or the tab is settled:
    every section has brought one occurrence and a unique content of its
    own, the display name of every block is again a section header of its
    type and abbreviation, no block is read back as a repetition of a
    shorter one, the choruses as they are read back are apart from one
    another, and the document has a key or no chord token in its body. *)
Theorem rebuild_idempotent :
  forall tab artist_fb title_fb file_base out,
    rebuild_formatted_tab tab artist_fb title_fb file_base = Ok out ->
    clean (h_title (read_head tab artist_fb title_fb file_base)) ->
    clean (h_artist (read_head tab artist_fb title_fb file_base)) ->
    headers_found (sections_of tab artist_fb title_fb file_base) = 0
    \/ settled tab artist_fb title_fb file_base = true ->
    rebuild_formatted_tab out artist_fb title_fb file_base = Ok out.
Proof.
  intros tab artist_fb title_fb file_base out Hrun Ht Ha Hcase.
  destruct (headers_found (sections_of tab artist_fb title_fb file_base))
    as [|n] eqn:En.
  - apply (@rebuild_idempotent_headerless tab artist_fb title_fb file_base
             out Hrun En Ht Ha).
  - destruct Hcase as [H0 | Hs]; [discriminate H0|].
    unfold rebuild_formatted_tab in Hrun.
    destruct (rebuild_doc tab artist_fb title_fb file_base) as [d|] eqn:Hd;
      [|discriminate Hrun].
    cbn [bind] in Hrun. injection Hrun as <-.
    destruct (@rebuild_doc_head _ _ _ _ _ Hd) as (Etitle & Eartist & _).
    apply (@rebuild_settled tab artist_fb title_fb file_base d Hd).
    + rewrite En. lia.
    + rewrite Etitle. exact Ht.
    + rewrite Eartist. exact Ha.
    + exact Hs.
Qed.


(** The theorem at two choruses of which the second extends the first: a
    settled tab with section headers. *)
Lemma rebuild_idempotent_witness :
  settled chorus_pair [] [] [] = true
  /\ rebuild_formatted_tab chorus_pair [] [] [] = Ok chorus_pair_out
  /\ rebuild_formatted_tab chorus_pair_out [] [] [] = Ok chorus_pair_out.
Proof.
  assert (Hs : settled chorus_pair [] [] [] = true) by (vm_compute; reflexivity).
  assert (H : rebuild_formatted_tab chorus_pair [] [] [] = Ok chorus_pair_out)
    by (vm_compute; reflexivity).
  split; [exact Hs|]. split; [exact H|].
  apply (@rebuild_idempotent chorus_pair [] [] [] chorus_pair_out H).
  - split; [vm_compute; reflexivity|].
    vm_compute. intros Hin.
    repeat (destruct Hin as [E|Hin]; [discriminate E|]). exact Hin.
  - split; [vm_compute; reflexivity|].
    vm_compute. intros Hin.
    repeat (destruct Hin as [E|Hin]; [discriminate E|]). exact Hin.
  - right. exact Hs.
Defined.

(** ** None of the provisos can be dropped

    Each of the tabs below meets every proviso of the theorem but one, and
    rebuilding its output does not give the output again. *)

(** The title and the artist have to be clean.  A fallback title or artist
    with spaces around it is written as it is, and read back stripped. *)
Lemma idempotence_needs_clean_names :
  (headers_found (sections_of untitled_tab [] " X " []) = 0
   /\ h_title (read_head untitled_tab [] " X " []) = " X "
   /\ h_artist (read_head untitled_tab [] " X " []) = "Band"
   /\ reruns untitled_tab [] " X " [] = false)
  /\ (headers_found (sections_of unsigned_tab " Y " [] []) = 0
      /\ h_title (read_head unsigned_tab " Y " [] []) = "Song"
      /\ h_artist (read_head unsigned_tab " Y " [] []) = " Y "
      /\ reruns unsigned_tab " Y " [] [] = false).
Proof. vm_compute. repeat split. Qed.

(** Every section has to bring one occurrence and a content of its own:
    three identical verses are one block that occurs three times, and once
    when it is read back. *)
Lemma idempotence_needs_once_each :
  provisos three_verses [] [] [] = [false; true; true; true; true]
  /\ reruns three_verses [] [] [] = false.
Proof. vm_compute. split; reflexivity. Qed.

(** The names of the blocks have to read back.  The block of a type of one
    letter is written under a line that is no section header. *)
Lemma idempotence_needs_names :
  provisos one_letter_tab [] [] [] = [true; false; true; true; true]
  /\ reruns one_letter_tab [] [] [] = false.
Proof. vm_compute. split; reflexivity. Qed.

(** No block may be read back as a repetition.  The empty line written
    after a block makes one of a block that is twice the same line around an
    empty line. *)
Lemma idempotence_needs_unrepeated :
  provisos gapped_verse_tab [] [] [] = [true; true; false; true; true]
  /\ reruns gapped_verse_tab [] [] [] = false.
Proof. vm_compute. split; reflexivity. Qed.

(** The choruses have to be apart as they are read back.  A chorus that
    ends in two empty lines is read back with one, and the chorus that goes
    on after one empty line then starts with its lines. *)
Lemma idempotence_needs_choruses_apart :
  provisos gapped_choruses_tab [] [] [] = [true; true; true; false; true]
  /\ reruns gapped_choruses_tab [] [] [] = false.
Proof. vm_compute. split; reflexivity. Qed.

(** The key has to be settled.  The display names A 1 and A 2 bring chord
    tokens into a body that had none. *)
Lemma idempotence_needs_key :
  provisos keyless_tab [] [] [] = [true; true; true; true; false]
  /\ reruns keyless_tab [] [] [] = false.
Proof. vm_compute. split; reflexivity. Qed.

(** The provisos are those of [settled]. *)
Lemma settled_provisos : forall tab artist_fb title_fb file_base,
  settled tab artist_fb title_fb file_base = true
  <-> provisos tab artist_fb title_fb file_base
      = [true; true; true; true; true].
Proof.
  intros tab artist_fb title_fb file_base. unfold settled, provisos.
  destruct (analyse _) as [a|]; [|split; discriminate].
  destruct (rebuild_doc _ _ _ _) as [d|]; [|split; discriminate].
  destruct (once_each a), (names_read_back a), (blocks_unrepeated a),
           (choruses_apart a), (key_settled d);
    split; intros H; try discriminate H; reflexivity.
Qed.
